(* ===== verification/_CoqProject ===== *)
-Q . S2P
Prelude.v
Hardware.v
Timer.v
Kbc.v
Rtc.v
Queue.v
Uart.v
Doubles.v
MapFile.v
Utils.v
Sprites.v
Guns.v
Controls.v
Players.v
Pickups.v
Battle.v
Network.v
Handshake.v
Video.v
Enemies.v
Render.v
Game.v
Level.v
Menu.v
Main.v
Lifecycle.v
Tick.v
Frame.v
Setup.v
Labs.v
Lab2.v
Lab3.v
Gesture.v
Lab4.v
LabUart.v
LabRtc.v
