(* ===== verification/Prelude.v ===== *)
(** * A verified model of MINIX Operative (FEUP LCOM project, [src/proj])

    The program is a first-person shooter for MINIX 3, written in C: device
    drivers in user space, a ray-casting renderer, bots, pickups, two levels
    for one player and an arena for two machines joined by a serial cable.
    This library translates the C sources under [src/proj/system] into
    executable Rocq definitions and proves what makes each part correct, up to
    the main loop over the interrupts; and so with the lab exercises the
    project grew out of: the programs for the timer ([src/lab2]), the keyboard
    ([lab3]), the mouse ([lab4]), the serial port ([labuart]) and the clock
    ([labrtc]).

    ** How C is read

    A piece of C is a program [prog S A := S -> outcome (A * S)] on a state
    [S]; an [outcome] is [Done], [Undef] (undefined behaviour: a read or write
    out of bounds, a use of a freed block or of an unassigned variable, a
    conversion out of range, a division by zero) or [OutOfFuel] (a loop that
    waits for the machine was cut).  [wp m Q s] says that [m] terminates
    without undefined behaviour and establishes [Q]; [wlp] is its partial
    version, used where a run may wait forever; [respects R m] says that every
    run of [m] relates its states by [R], and frames what a component leaves
    alone.  An integer is a [Z], wrapped at its width ([u8], [i32], ...) where C
    wraps it and [Undef] where a signed overflow would be an index or leave an
    [int] that only counts.  The target is i386: [size_t] and [long] have 32
    bits, [time_t] and the game's [tick_t] 64.  A [double]
    is a value of [SpecFloat], binary64, with its rounding: [Doubles] has the
    operations, the conversions, and [Libm] for the functions of [math.h].
    A block of memory is a [ptr]: [Null], [Live] with its contents, or [Freed].
    A variable read before it is assigned holds an arbitrary value that is a
    parameter; what a theorem assumes of it, its statement says.

    ** Files, from the machine to the main loop

    - [Prelude]: records, machine integers, the program monad and its rules,
      arrays with bounds, loops ([for_each], [iterate], [retry]), tactics and
      hint databases.
    - [Hardware]: ports, interrupt lines and delays as a trace of events; the
      class [Device] is whatever sits behind the ports ([utils.c]
      [util_sys_inb], the MINIX calls).
    - [Timer] ([lib/timer.c]), [Kbc] ([lib/kbc.c]), [Rtc]
      ([lib/rtc_controller.c]): the drivers, each a record of the file's
      statics over the shared machine.
    - [Queue] ([lib/queue.c]) on a heap of linked blocks, with the class
      [QueueStore] of its operations and [QueueLaws] of its promises; [Uart]
      ([lib/uart.c]) is proved against the laws only.
    - [Doubles], [Utils] ([utils/utils.c], with the ray walk), [MapFile]
      ([file/map.c]).
    - [Sprites] ([lib/sprites.c]), [Guns] ([guns/gun.c]), [Controls]
      ([controls/controls.c]), [Players] and [Battle] ([player/player.c]:
      the data and movement of one player; shots and ticks in the shared
      world of all players, map, pickups and animations), [Pickups]
      ([pickups/pickups.c]).
    - [Network] ([networking/networking.c]): packets and the handshake's
      code; [Handshake]: two machines running that code over a cable.
    - [Enemies] ([ai/enemy_controller.c]): the bots; [rand] is the class
      [Rand].
    - [Video] ([lib/video_graphics.c]): mode, pages, drawing; [Render]
      ([graphics/render.c], [graphics/hud.c]): the scene.
    - [Game]: all statics in one record [game], a lens for every component
      ([on_timer], [on_world], [on_net], ...: the drivers share the machine,
      the controls belong to the player, the clock to the world), and
      [set_state]; [Level] ([game/level_manager.c]): loading and freeing a
      level; [Menu] ([game/main_menu.c], [inventory/menu.c], the rest of
      [render.c]): every screen with its buttons; [Main]
      ([game/game_manager.c], [init_game] and [free_game], [main.c]): the end
      of a round, the tick, the interrupt loop, start and end.
    - [Lifecycle]: which blocks are allocated in which state of the game;
      [Tick]: a tick of a level for one player, all components together;
      [Frame]: a notification of the hardware, from the devices' handlers
      through the tick and the screen to the end of the round; [Setup]: a
      level that is loaded can be played and freed.
    - [Labs]: the loop over the messages that arrive, as all the exercises
      have it; [Lab2] ([src/lab2/timer.c], [lab2.c]), [Lab3]
      ([src/lab3/keyboard.c], [lab3.c], [utils.c]), [LabUart]
      ([src/labuart/uart.c], [networking.c], [lab5.c]), [LabRtc]
      ([src/labrtc/rtc_controller.c], [test6.c]): drivers and tests, with what
      they share with the project's drivers taken from those.
    - [Gesture] ([src/lab4/mouse_state.c]): the recogniser of the drawn
      gesture; [Lab4] ([src/lab4/kbc.c], [lab4.c], [timer.c]): the driver and
      the four test loops around it.

    A function keeps its name; a loop or a branch that needed a name of its
    own is called after its function ([draw_walls] has [wall_rows],
    [wall_row], [wall_pixel]).  Statics of a C file are the fields of the
    record of its component, under their names.

    ** What is proved

    - Queue and serial port: the linked queue refines a list until an
      allocation fails, which the code does not survive; on a port with
      finite traffic ([port16550] is one) every byte
      queued leaves the port once and in order, the interrupt handler
      moves bytes between the FIFOs and the wire and acknowledges errors.
    - Drivers: the mouse commands stop at the first byte that is not
      acknowledged; the round timer loses one second in two half-second
      interrupts; the frames of the mouse are found again after garbage;
      a key is held exactly if its last event was a make code.
    - World: the map is read as the file has it, a ray stops at the first
      wall within its range and terminates, the wall collision moves a player
      only out of a wall it overlaps,
      animations cycle, a gun never fires faster than its cooldown allows,
      damage is exact and saturates, a shot hits the nearest target in front of the
      wall, pickups are in the table exactly once and taken once.
    - Network: what a machine sends about its player is what the other applies to
      its replica, packets are found in a stream with garbage between them,
      the handshake connects two machines under a fair schedule (liveness),
      and does not when both ask at once; the last acknowledgement is lost
      when its sender's transmitter is busy.
    - Bots: the decision of a bot in every case, and the life of the table of
      controllers with the blocks of their positions.
    - Video: the three pages rotate and what is drawn is never what is
      displayed, sprites are clipped, no drawing leaves its page, the outcome
      of [vg_init] for every failure; the objects of a scene are drawn from
      far to near, numbers have their significant digits.
    - A level: when no allocation fails and the block of row pointers has
      room for one more, [load_level] succeeds for every level with a complete
      map file
      and establishes the invariants of all components together
      ([Tick.running]); a tick of the game keeps them and meets no undefined
      behaviour as long as all moves end at a position and the uninitialised
      [hit] of [fire] is false; any notification of
      the hardware either keeps the level in order or, on the timer, ends it
      in one of four ways ([Frame]); [free_level], if the freed guns it reads
      still hold what they held, leads back to a program that can load the next
      level.
    - The whole program: from the start through any interrupts, a level's
      blocks are allocated exactly in a level's states
      ([Lifecycle.levels_are_owned]), with the one exception of a lost
      connection.
    - Lab 4: the gesture recogniser refines a grammar of strokes and vertices,
      accepts all of its words and nothing else; the program stops exactly
      when it has been drawn, through the driver and the interrupt loop, if
      the uninitialised [checkOutBuff] reads as true, and never otherwise; a
      command that is never answered is reported as success.
    - The other labs: the interrupt test of the timer counts its interrupts
      and shows every second; the scan of the keyboard prints every code once
      up to the escape key, under the same condition; the clock's test waits for an alarm and restores
      the registers it saved; an interrupt of the serial port empties the
      receiver, and is then judged by the last byte received.
    - Where the code is wrong the theorem says what it does: the row pointer
      behind the map, the uninitialised [hit] of [fire], the dropped last
      acknowledgement, two simultaneous join requests, texture row 80, the
      double free at the end of a multiplayer game.  The lemmas kept beside the
      theorems show more of it, as the bot that rises from the dead on a
      medkit ([Tick.dead_bot_revives]).

    A theorem with hypotheses has a witness, a concrete run to which it is
    applied: scripted devices, a corridor with a bot, a small screen, and for
    the whole program a machine on which a click loads the first level.

    ** Bounds and fuel

    Loops with a bound in the code ([KBC_MAX_TRIES], [UART_MAX_TRIES], counted
    loops) run on that bound and never run out.  [shoot_ray] gets a measure,
    the cells left before its range, and its termination is a theorem;
    [load_map] gets one round per number.  The loops without a bound ([uart_ih], the drain of
    [uart_sync], [while(init_rtc_vars() != OK)]) take a fuel from their
    caller: [FiniteTraffic] and the cable's [wire] say how much is enough, and
    the theorems on them prove that the loop ends with it.  The gesture adds up
    displacements of at most 255 in an [int]: 256 times the number of packets
    stays below [INT_MAX].  The loops of the labs run over the messages that
    arrive.

    ** Parameters

    The devices ([Device]; [FiniteTraffic] is what the serial driver needs of
    them to return), [malloc] ([Malloc] for the queue, with [Plenty] where it
    does not fail; lists of outcomes elsewhere, the map's rows included), [rand] ([Rand]), the functions of [math.h]
    ([Libm], with the sign of [pow] and the range of its functions as
    named hypotheses where used), and in the class [Outside] the map files, the
    loaded sprites, the screen modes, what uninitialised memory holds, and
    whether a freed block can still be read.

    ** Not modelled

    - [src/lab5], whose functions only print that they are under
      construction, and the [main] of every lab, which hands control to the
      course's library; of [src/lab3/timer.c] and [src/labuart/timer.c] what
      no test calls.
    - The pixel data under [src/proj/data] and the headers of MINIX and of the
      course library under [src/.minix-src]: data and third-party code.
    - Functions nothing calls or that do nothing: [load_xpm_file],
      [free_player_anims], [render_health_bar], [render_loading_screen], the
      accessors of statics, debug printing.
    - Time inside a handler: an interrupt handler runs to its end before the
      next message, as in the program, where all run in one loop.
    - That [Frame]'s notification returns: the handlers and the screen read what
      a device sends and draw at positions that need not be defined, so its
      theorem is about the notifications that do; the tick inside it returns
      ([Tick]).  What the opponent of a lost connection leaves in the next
      level is not followed either. *)

From Stdlib Require Export ZArith Lia.
From stdpp Require Export base list option gmap.

#[global] Open Scope Z_scope.

(** ** Functional record update

    [r <| f := v |>] replaces field [f] of the record [r]; a record type opts
    in with one [Eta] instance, its constructor applied to its projections. *)
Class Eta (R : Type) := eta : R -> R.
Class Setter {R T : Type} (getter : R -> T) := set_with : (T -> T) -> R -> R.
#[global] Hint Mode Setter - - ! : typeclass_instances.

Ltac derive_setter getter :=
  match type of getter with
  | ?R -> _ =>
      let e := constr:(_ : Eta R) in
      let body := eval hnf in e in
      let abs := eval pattern getter in body in
      lazymatch abs with
      | ?F _ => exact (fun f r => F (fun r' => f (getter r')) r)
      end
  end.

#[global] Hint Extern 1 (Setter ?g) => derive_setter g : typeclass_instances.

Definition set {R T} (getter : R -> T) {st : Setter getter} : (T -> T) -> R -> R :=
  st.

Declare Scope rec_scope.
#[global] Open Scope rec_scope.
Notation "r <| f := v |>" := (set f (fun _ => v) r)
  (at level 1, left associativity, f at next level, v at level 99) : rec_scope.
Notation "r <| f ::= g |>" := (set f g r)
  (at level 1, left associativity, f at next level, g at level 99) : rec_scope.

(** ** Machine integers

    A C integer is a [Z]; a store into a [w]-bit object wraps. *)
Definition wrap (w z : Z) : Z := z mod 2 ^ w.
Definition swrap (w z : Z) : Z := (z + 2 ^ (w - 1)) mod 2 ^ w - 2 ^ (w - 1).

Abbreviation u8 := (wrap 8).
Abbreviation u16 := (wrap 16).
Abbreviation u32 := (wrap 32).
Abbreviation u64 := (wrap 64).
Abbreviation i8 := (swrap 8).
Abbreviation i16 := (swrap 16).
Abbreviation i32 := (swrap 32).
Abbreviation i64 := (swrap 64).

Definition INT_MAX : Z := 2147483647.
Definition INT_MIN : Z := -2147483648.

(** The macro [BIT] of [utils.h]. *)
Definition BIT (n : Z) : Z := Z.shiftl 1 n.
(** [x & m] used as a condition. *)
Definition has_bits (x m : Z) : bool := negb (Z.land x m =? 0).
Definition b2z (b : bool) : Z := if b then 1 else 0.

Definition OK : Z := 0.

Lemma wrap_range w z : 0 <= w -> 0 <= wrap w z < 2 ^ w.
Proof. intros. apply Z.mod_pos_bound. lia. Qed.

Lemma wrap_small w z : 0 <= z < 2 ^ w -> wrap w z = z.
Proof. apply Z.mod_small. Qed.

Lemma wrap_wrap w z : 0 <= w -> wrap w (wrap w z) = wrap w z.
Proof. intros. apply wrap_small, wrap_range. done. Qed.

Lemma swrap_range w z : 1 <= w -> - 2 ^ (w - 1) <= swrap w z < 2 ^ (w - 1).
Proof.
  intros Hw. unfold swrap.
  assert (2 ^ w = 2 * 2 ^ (w - 1)) as E.
  { rewrite <- Z.pow_succ_r by lia. f_equal. lia. }
  pose proof (Z.mod_pos_bound (z + 2 ^ (w - 1)) (2 ^ w)). lia.
Qed.

Lemma swrap_small w z : 1 <= w -> - 2 ^ (w - 1) <= z < 2 ^ (w - 1) -> swrap w z = z.
Proof.
  intros Hw Hz. unfold swrap.
  assert (2 ^ w = 2 * 2 ^ (w - 1)) as E.
  { rewrite <- Z.pow_succ_r by lia. f_equal. lia. }
  rewrite Z.mod_small; lia.
Qed.

(** A property of every small natural number, decided by evaluation. *)
Lemma forall_below (n : nat) (P : Z -> bool) :
  forallb P (seqZ 0 (Z.of_nat n)) = true -> forall z, 0 <= z < Z.of_nat n -> P z = true.
Proof.
  rewrite forallb_forall. intros H z Hz. apply H.
  apply list_elem_of_In, elem_of_seqZ. lia.
Qed.

(** A property of every byte, decided by evaluation. *)
Lemma forall_byte (P : Z -> bool) :
  forallb P (seqZ 0 256) = true -> forall z, 0 <= z < 256 -> P z = true.
Proof. apply (forall_below 256). Qed.
(** A property of two bytes and of a function of each, decided by evaluation;
    each function is evaluated once at every byte. *)
Lemma forall_bytes {A B} (p : Z -> A) (q : Z -> B) (ok : Z -> Z -> A -> B -> bool) :
  (let ys := map (fun y => (y, q y)) (seqZ 0 256) in
   forallb (fun x => let px := p x in forallb (fun '(y, qy) => ok x y px qy) ys) (seqZ 0 256)) = true ->
  forall x y, 0 <= x < 256 -> 0 <= y < 256 -> ok x y (p x) (q y) = true.
Proof.
  cbv zeta. intros Hall x y Hx Hy.
  pose proof (forall_byte (fun x => forallb (fun '(y, qy) => ok x y (p x) qy) _) Hall x Hx) as Hrow.
  apply (proj1 (forallb_forall _ _) Hrow (y, q y)). apply (in_map (fun y => (y, q y))).
  apply list_elem_of_In, elem_of_seqZ. lia.
Qed.

(** ** C arrays

    Indexing outside the bounds is undefined behaviour, [None] here. *)
Section Arrays.
Context {A : Type}.

Definition aget (l : list A) (i : Z) : option A :=
  if i <? 0 then None else l !! Z.to_nat i.
Definition aset (l : list A) (i : Z) (x : A) : option (list A) :=
  match aget l i with
  | Some _ => Some (<[Z.to_nat i := x]> l)
  | None => None
  end.
Definition alen (l : list A) : Z := Z.of_nat (length l).

Lemma alen_cons (x : A) l : alen (x :: l) = alen l + 1.
Proof. unfold alen. cbn [length]. lia. Qed.
Lemma alen_nonneg (l : list A) : 0 <= alen l.
Proof. unfold alen. lia. Qed.

Lemma aget_Some_range (l : list A) i x : aget l i = Some x -> 0 <= i < alen l.
Proof.
  unfold aget, alen. destruct (Z.ltb_spec i 0); [done|].
  intros ?%lookup_lt_Some. lia.
Qed.

Lemma aget_is_Some (l : list A) i : is_Some (aget l i) <-> 0 <= i < alen l.
Proof.
  split; [intros [x H]; eauto using aget_Some_range|].
  unfold aget, alen. intros H. destruct (Z.ltb_spec i 0); [lia|].
  apply lookup_lt_is_Some. lia.
Qed.

Lemma aget_lookup (l : list A) (i : nat) : aget l (Z.of_nat i) = l !! i.
Proof. unfold aget. destruct (Z.ltb_spec (Z.of_nat i) 0); [lia|]. by rewrite Nat2Z.id. Qed.

Lemma aset_Some (l : list A) i x :
  0 <= i < alen l -> aset l i x = Some (<[Z.to_nat i := x]> l).
Proof. intros [y Hy]%aget_is_Some. unfold aset. by rewrite Hy. Qed.

Lemma aset_nil i (x : A) : aset [] i x = None.
Proof. unfold aset, aget. by destruct (i <? 0). Qed.
Lemma aset_len (l l' : list A) i x : aset l i x = Some l' -> alen l' = alen l.
Proof.
  unfold aset. destruct (aget l i); [|done]. intros [= <-].
  unfold alen. by rewrite length_insert.
Qed.

Lemma aget_aset_eq (l l' : list A) i x : aset l i x = Some l' -> aget l' i = Some x.
Proof.
  unfold aset. destruct (aget l i) eqn:E; [|done]. intros [= <-].
  apply aget_Some_range in E. unfold aget, alen in *.
  destruct (Z.ltb_spec i 0); [lia|].
  apply list_lookup_insert_eq. lia.
Qed.

Lemma aget_aset_ne (l l' : list A) i j x :
  aset l i x = Some l' -> i <> j -> aget l' j = aget l j.
Proof.
  unfold aset. destruct (aget l i) eqn:E; [|done]. intros [= <-] Hne.
  apply aget_Some_range in E. unfold aget, alen in *.
  destruct (Z.ltb_spec j 0); [done|].
  apply list_lookup_insert_ne. lia.
Qed.
End Arrays.

(** ** Pointers

    A global pointer that owns a block: null, live with the block's content,
    or dangling after [free]. *)
Inductive ptr (A : Type) : Type :=
| Null
| Live (a : A)
| Freed.
Arguments Null {A}.
Arguments Live {A} a.
Arguments Freed {A}.

Definition deref {A} (p : ptr A) : option A := match p with Live a => Some a | _ => None end.
(** [free(p)], which does not change [p]. *)
Definition free_ptr {A} (p : ptr A) : option (ptr A) :=
  match p with Null => Some Null | Live _ => Some Freed | Freed => None end.

(** ** Programs

    A function that works on a state [S] either returns, runs into undefined
    behaviour of C, or exhausts the fuel of a loop. *)
Inductive outcome (A : Type) : Type :=
| Done (a : A)
| Undef
| OutOfFuel.
Arguments Done {A} a.
Arguments Undef {A}.
Arguments OutOfFuel {A}.

Definition prog (S A : Type) : Type := S -> outcome (A * S).

Section Programs.
Context {S : Type}.

Definition ret {A} (a : A) : prog S A := fun s => Done (a, s).
Definition bind {A B} (m : prog S A) (k : A -> prog S B) : prog S B := fun s =>
  match m s with
  | Done (a, s') => k a s'
  | Undef => Undef
  | OutOfFuel => OutOfFuel
  end.
Definition undef {A} : prog S A := fun _ => Undef.
Definition gets {A} (f : S -> A) : prog S A := fun s => Done (f s, s).
Definition modify (f : S -> S) : prog S unit := fun s => Done (tt, f s).
(** Reading through a possibly invalid access. *)
Definition defined {A} (o : option A) : prog S A :=
  match o with Some a => ret a | None => undef end.

(** [while(tries < n) { tries++; body }] where [body] returns from the
    function with [Some], and goes round again with [None]. *)
Fixpoint retry {A} (n : nat) (body : prog S (option A)) (otherwise : A) : prog S A :=
  match n with
  | O => ret otherwise
  | Datatypes.S n => bind body (fun r =>
      match r with
      | Some a => ret a
      | None => retry n body otherwise
      end)
  end.

(** A loop whose number of rounds the code does not bound: [inl] goes
    round again, [inr] leaves. *)
Fixpoint iterate {A B} (fuel : nat) (body : A -> prog S (A + B)) (a : A) : prog S B :=
  match fuel with
  | O => fun _ => OutOfFuel
  | Datatypes.S fuel => bind (body a) (fun r =>
      match r with
      | inl a' => iterate fuel body a'
      | inr b => ret b
      end)
  end.

(** [for(x in l) body]. *)
Fixpoint for_each {X} (l : list X) (body : X -> prog S unit) : prog S unit :=
  match l with
  | [] => ret tt
  | x :: l => bind (body x) (fun _ => for_each l body)
  end.
End Programs.

Declare Scope prog_scope.
#[global] Open Scope prog_scope.
Notation "x <- m ;; k" := (bind m (fun x => k))
  (at level 20, m at level 99, k at level 200) : prog_scope.
Notation "' p <- m ;; k" := (bind m (fun x => let p := x in k))
  (at level 20, p pattern, m at level 99, k at level 200) : prog_scope.
Notation "m ;;; k" := (bind m (fun _ => k))
  (at level 100, right associativity) : prog_scope.

(** A component's program run on its part of a larger state. *)
Definition zoom {W S A} (get : W -> S) (put : S -> W -> W) (m : prog S A) : prog W A :=
  fun w =>
    match m (get w) with
    | Done (a, s) => Done (a, put s w)
    | Undef => Undef
    | OutOfFuel => OutOfFuel
    end.

(** *** Weakest preconditions

    [wp m Q s]: run from [s], [m] returns (no undefined behaviour, no fuel
    exhausted) and the result and final state satisfy [Q]. *)
Definition wp {S A} (m : prog S A) (Q : A -> S -> Prop) (s : S) : Prop :=
  match m s with
  | Done (a, s') => Q a s'
  | _ => False
  end.

#[global] Arguments wp : simpl never.
#[global] Arguments ret : simpl never.
#[global] Arguments bind : simpl never.
#[global] Arguments wrap : simpl never.
#[global] Arguments swrap : simpl never.

Section WpRules.
Context {S : Type}.
Implicit Types s : S.

Lemma wp_ret {A} (a : A) (Q : A -> S -> Prop) s : wp (ret a) Q s <-> Q a s.
Proof. done. Qed.
Lemma wp_bind {A B} (m : prog S A) (k : A -> prog S B) Q s :
  wp (bind m k) Q s <-> wp m (fun a => wp (k a) Q) s.
Proof. unfold wp, bind. by destruct (m s) as [[a s']| |]. Qed.
Lemma wp_gets {A} (f : S -> A) (Q : A -> S -> Prop) s : wp (gets f) Q s <-> Q (f s) s.
Proof. done. Qed.
Lemma wp_modify (f : S -> S) (Q : unit -> S -> Prop) s : wp (modify f) Q s <-> Q tt (f s).
Proof. done. Qed.

Lemma wp_mono {A} (m : prog S A) (Q Q' : A -> S -> Prop) s :
  wp m Q s -> (forall a s', Q a s' -> Q' a s') -> wp m Q' s.
Proof. unfold wp. destruct (m s) as [[a s']| |]; eauto. Qed.

Lemma wp_Done {A} (m : prog S A) Q s :
  wp m Q s <-> exists a s', m s = Done (a, s') /\ Q a s'.
Proof.
  unfold wp. destruct (m s) as [[a s']| |]; split; intros H.
  - eauto.
  - by destruct H as (? & ? & [= <- <-] & ?).
  - done.
  - by destruct H as (? & ? & ? & ?).
  - done.
  - by destruct H as (? & ? & ? & ?).
Qed.

Lemma wp_Done_eq {A} (m : prog S A) (Q : A -> S -> Prop) s a s' :
  m s = Done (a, s') -> Q a s' -> wp m Q s.
Proof. intros E H. unfold wp. by rewrite E. Qed.

Lemma wp_and {A} (m : prog S A) (Q R : A -> S -> Prop) s :
  wp m Q s -> wp m R s -> wp m (fun a s' => Q a s' /\ R a s') s.
Proof. unfold wp. by destruct (m s) as [[a s']| |]. Qed.

(** The loop rule for [retry]: [I k] holds when [k] rounds are left. *)
Lemma wp_retry {A} (n : nat) (body : prog S (option A)) (otherwise : A)
    (I : nat -> S -> Prop) (Q : A -> S -> Prop) s :
  (forall k s, I (Datatypes.S k) s ->
     wp body (fun r s' => match r with Some a => Q a s' | None => I k s' end) s) ->
  (forall s, I O s -> Q otherwise s) ->
  I n s -> wp (retry n body otherwise) Q s.
Proof.
  intros Hbody Hend. revert s. induction n as [|n IH]; intros s HI; simpl.
  - by apply Hend.
  - apply wp_bind. eapply wp_mono; [by apply Hbody|].
    intros [a|] s' H; [done | by apply IH].
Qed.

(** The loop rule for [iterate], with a measure that bounds the rounds. *)
Lemma wp_iterate {A B} (body : A -> prog S (A + B)) (I : A -> S -> Prop)
    (m : A -> S -> nat) (Q : B -> S -> Prop) (fuel : nat) a s :
  (forall a s, I a s ->
     wp (body a) (fun r s' =>
       match r with
       | inl a' => I a' s' /\ (m a' s' < m a s)%nat
       | inr b => Q b s'
       end) s) ->
  I a s -> (m a s < fuel)%nat -> wp (iterate fuel body a) Q s.
Proof.
  intros Hbody. revert a s. induction fuel as [|fuel IH]; intros a s HI Hm; [lia|].
  simpl. apply wp_bind. eapply wp_mono; [by apply Hbody|].
  intros [a'|b] s' H; [|done]. destruct H. apply IH; [done|lia].
Qed.

(** One round. *)
Lemma wp_iterate_S {A B} (body : A -> prog S (A + B)) (Q : B -> S -> Prop) fuel a s :
  wp (body a) (fun r s' => match r with
    | inl a' => wp (iterate fuel body a') Q s' | inr b => Q b s' end) s ->
  wp (iterate (Datatypes.S fuel) body a) Q s.
Proof.
  intros H. simpl. apply wp_bind. eapply wp_mono; [exact H|]. intros [a'|b] s' Hr; [done|].
  by apply wp_ret.
Qed.

(** The same with the measure as an index of the invariant. *)
Lemma wp_iterate_rel {A B} (body : A -> prog S (A + B)) (I : A -> nat -> S -> Prop)
    (Q : B -> S -> Prop) (fuel : nat) a s n :
  (forall a n s, I a n s ->
     wp (body a) (fun r s' =>
       match r with
       | inl a' => exists n', (n' < n)%nat /\ I a' n' s'
       | inr b => Q b s'
       end) s) ->
  I a n s -> (n < fuel)%nat -> wp (iterate fuel body a) Q s.
Proof.
  intros Hbody. revert a s n. induction fuel as [|fuel IH]; intros a s n HI Hn; [lia|].
  simpl. apply wp_bind. eapply wp_mono; [by eapply Hbody|].
  intros [a'|b] s' H; [|done]. destruct H as (n' & Hn' & H). eapply IH; [done|lia].
Qed.

Lemma wp_for_each {X} (l : list X) (body : X -> prog S unit)
    (I : list X -> S -> Prop) (Q : unit -> S -> Prop) s :
  (forall x l s, I (x :: l) s -> wp (body x) (fun _ => I l) s) ->
  (forall s, I [] s -> Q tt s) ->
  I l s -> wp (for_each l body) Q s.
Proof.
  intros Hbody Hend. revert s. induction l as [|x l IH]; intros s HI; simpl.
  - by apply Hend.
  - apply wp_bind. eapply wp_mono; [by apply Hbody|]. intros [] s'. apply IH.
Qed.
End WpRules.

Lemma bind_Done {S A B} (a : A) (s' : S) (m : prog S A) (k : A -> prog S B) s :
  m s = Done (a, s') -> bind m k s = k a s'.
Proof. intros E. unfold bind. by rewrite E. Qed.
Lemma wp_zoom {W S A} (get : W -> S) (put : S -> W -> W) (m : prog S A) Q w :
  wp (zoom get put m) Q w <-> wp m (fun a s => Q a (put s w)) (get w).
Proof. unfold wp, zoom. by destruct (m (get w)) as [[a s]| |]. Qed.

(** *** Frames

    [respects Q m]: when [m] returns, the state before and the state after are
    related by the preorder [Q]; [keeps f m]: the observation [f] of the state
    is what it was. *)
Definition respects {S A} (Q : relation S) (m : prog S A) : Prop :=
  forall s a s', m s = Done (a, s') -> Q s s'.
Definition same {S B} (f : S -> B) (s s' : S) : Prop := f s' = f s.
#[global] Instance same_preorder {S B} (f : S -> B) : PreOrder (same f).
Proof. split; [by intros s|]. intros s1 s2 s3 H1 H2. unfold same in *. congruence. Qed.
Abbreviation keeps f := (respects (same f)).
Definition stays {S} (P : S -> Prop) (s s' : S) : Prop := P s -> P s'.
#[global] Instance stays_preorder {S} (P : S -> Prop) : PreOrder (stays P).
Proof. split; [by intros s H|]. intros s1 s2 s3 H1 H2 H. by apply H2, H1. Qed.

Section Frames.
Context {S : Type} (Q : relation S) `{!PreOrder Q}.

Lemma keeps_ret {A} (a : A) : respects Q (ret a).
Proof. by intros s a' s' [= _ <-]. Qed.
Lemma keeps_gets {A} (g : S -> A) : respects Q (gets g).
Proof. by intros s a' s' [= _ <-]. Qed.
Lemma keeps_undef {A} : respects Q (undef (A := A)).
Proof. done. Qed.
Lemma keeps_defined {A} (o : option A) : respects Q (defined o).
Proof. destruct o; [apply keeps_ret|done]. Qed.
Lemma keeps_fuel {A} : respects Q (fun _ => OutOfFuel : outcome (A * S)).
Proof. done. Qed.
Lemma keeps_modify (g : S -> S) : (forall s, Q s (g s)) -> respects Q (modify g).
Proof. by intros H s a s' [= _ <-]. Qed.
Lemma keeps_bind {A C} (m : prog S A) (k : A -> prog S C) :
  respects Q m -> (forall a, respects Q (k a)) -> respects Q (bind m k).
Proof.
  intros Hm Hk s b s' H. unfold bind in H. destruct (m s) as [[a s1]| |] eqn:E; [|done..].
  transitivity s1; [by apply (Hm _ _ _ E)|by apply (Hk a _ _ _ H)].
Qed.
Lemma keeps_for_each {X} (l : list X) (body : X -> prog S unit) :
  (forall x, respects Q (body x)) -> respects Q (for_each l body).
Proof. intros H. induction l as [|x l IH]; cbn; [apply keeps_ret|by apply keeps_bind]. Qed.
Lemma keeps_iterate {A C} fuel (body : A -> prog S (A + C)) a :
  (forall a, respects Q (body a)) -> respects Q (iterate fuel body a).
Proof.
  intros H. revert a. induction fuel as [|fuel IH]; intros a; [done|]. cbn.
  apply keeps_bind; [done|]. intros [|]; [done|apply keeps_ret].
Qed.
Lemma keeps_retry {A} n (body : prog S (option A)) otherwise :
  respects Q body -> respects Q (retry n body otherwise).
Proof.
  intros H. induction n as [|n IH]; cbn; [apply keeps_ret|].
  apply keeps_bind; [done|]. intros [|]; [apply keeps_ret|done].
Qed.
(** A part of the state on which [Q] does not depend, *)
Lemma keeps_zoom {T A} (get : S -> T) (put : T -> S -> S) (m : prog T A) :
  (forall t s, Q s (put t s)) -> respects Q (zoom get put m).
Proof. intros H s a s' Hm. unfold zoom in Hm. destruct (m (get s)) as [[b t]| |]; [|done..]. by injection Hm as _ <-. Qed.
(** and one of which [Q] needs what the part's program respects. *)
Lemma keeps_zoom_part {T A} (P : relation T) (get : S -> T) (put : T -> S -> S) (m : prog T A) :
  (forall t s, P (get s) t -> Q s (put t s)) -> respects P m -> respects Q (zoom get put m).
Proof.
  intros H Hm s a s' E. unfold zoom in E. destruct (m (get s)) as [[b t]| |] eqn:E2; [|done..].
  injection E as _ <-. apply H. by apply (Hm _ _ _ E2).
Qed.
End Frames.

Create HintDb framing.
#[export] Hint Resolve keeps_undef keeps_fuel : framing.
(** Walks through a program down to the calls the database knows. *)
Ltac keeps_step :=
  match goal with
  | |- respects _ (ret _) => apply keeps_ret; apply _
  | |- respects _ (gets _) => apply keeps_gets; apply _
  | |- respects _ (defined _) => apply keeps_defined; apply _
  | |- respects _ (bind _ _) => apply keeps_bind; [apply _| |intros ?]
  | |- respects _ (modify _) => apply keeps_modify; intros ?; solve [reflexivity | let H := fresh in intros H; exact H]
  | |- respects _ (for_each _ _) => apply keeps_for_each; [apply _|intros ?]
  | |- respects _ (iterate _ _ _) => apply keeps_iterate; [apply _|intros ?]
  | |- respects _ (retry _ _ _) => apply keeps_retry; [apply _|]
  | |- respects _ (let _ := _ in _) => cbv zeta
  | |- respects _ (if ?b then _ else _) => destruct b
  | |- respects _ (match ?x with _ => _ end) => destruct x
  end.
Ltac keeps_tac := repeat first [solve [auto with framing nocore] | keeps_step].

(** *** Weakest liberal preconditions

    [wlp m Q s]: if [m] returns from [s], the result and final state satisfy
    [Q]. *)
Definition wlp {S A} (m : prog S A) (Q : A -> S -> Prop) (s : S) : Prop :=
  match m s with Done (a, s') => Q a s' | _ => True end.
#[global] Arguments wlp : simpl never.

Section WlpRules.
Context {S : Type}.
Implicit Types s : S.

Lemma wlp_ret {A} (a : A) (Q : A -> S -> Prop) s : wlp (ret a) Q s <-> Q a s.
Proof. done. Qed.
Lemma wlp_bind {A B} (m : prog S A) (k : A -> prog S B) Q s :
  wlp (bind m k) Q s <-> wlp m (fun a => wlp (k a) Q) s.
Proof. unfold wlp, bind. by destruct (m s) as [[a s']| |]. Qed.
Lemma wlp_gets {A} (f : S -> A) (Q : A -> S -> Prop) s : wlp (gets f) Q s <-> Q (f s) s.
Proof. done. Qed.
Lemma wlp_modify (f : S -> S) (Q : unit -> S -> Prop) s : wlp (modify f) Q s <-> Q tt (f s).
Proof. done. Qed.
Lemma wlp_defined {A} (o : option A) (Q : A -> S -> Prop) s :
  wlp (defined o) Q s <-> forall a, o = Some a -> Q a s.
Proof.
  destruct o as [x|]; [|by split].
  change (Q x s <-> forall a, Some x = Some a -> Q a s). split; [by intros H a [= <-]|by auto].
Qed.
Lemma wlp_undef {A} (Q : A -> S -> Prop) s : wlp undef Q s <-> True.
Proof. done. Qed.
Lemma wlp_mono {A} (m : prog S A) (Q Q' : A -> S -> Prop) s :
  wlp m Q s -> (forall a s', Q a s' -> Q' a s') -> wlp m Q' s.
Proof. unfold wlp. destruct (m s) as [[a s']| |]; eauto. Qed.
Lemma wlp_and {A} (m : prog S A) (Q Q' : A -> S -> Prop) s :
  wlp m Q s -> wlp m Q' s -> wlp m (fun a s' => Q a s' /\ Q' a s') s.
Proof. unfold wlp. by destruct (m s) as [[a s']| |]. Qed.
Lemma wlp_respects {A} (P : relation S) (m : prog S A) (Q : A -> S -> Prop) s :
  respects P m -> (forall a s', P s s' -> Q a s') -> wlp m Q s.
Proof. intros Hm H. unfold wlp. destruct (m s) as [[a s']| |] eqn:E; [|done..]. apply H. by eapply Hm. Qed.
Lemma wlp_Done {A} (m : prog S A) (Q : A -> S -> Prop) s a s' : wlp m Q s -> m s = Done (a, s') -> Q a s'.
Proof. unfold wlp. intros H E. by rewrite E in H. Qed.
(** What [see] shows of the state a run ends in. *)
Definition seen {A C} (m : prog S A) s (see : S -> C) : option C :=
  match m s with Done (_, s') => Some (see s') | _ => None end.
Lemma wlp_seen {A C} (m : prog S A) (Q : A -> S -> Prop) s (see : S -> C) c : seen m s see = Some c -> wlp m Q s ->
  exists a s', m s = Done (a, s') /\ see s' = c /\ Q a s'.
Proof. unfold seen, wlp. destruct (m s) as [[a s']| |]; [|done..]. intros [= <-] H. by exists a, s'. Qed.
Lemma wp_wlp {A} (m : prog S A) (Q : A -> S -> Prop) s : wp m Q s -> wlp m Q s.
Proof. unfold wp, wlp. by destruct (m s) as [[a s']| |]. Qed.
Lemma wp_and_wlp {A} (m : prog S A) (Q R : A -> S -> Prop) s :
  wp m Q s -> wlp m R s -> wp m (fun a s' => Q a s' /\ R a s') s.
Proof. unfold wp, wlp. by destruct (m s) as [[a s']| |]. Qed.
Lemma wp_respects {A} (P : relation S) (m : prog S A) (Q : A -> S -> Prop) s :
  wp m Q s -> respects P m -> wp m (fun a s' => Q a s' /\ P s s') s.
Proof. intros H Hk. unfold wp in *. destruct (m s) as [[a s']| |] eqn:E; [|done..]. split; [done|]. by eapply Hk. Qed.
End WlpRules.
Lemma wlp_zoom {W S A} (get : W -> S) (put : S -> W -> W) (m : prog S A) Q w :
  wlp (zoom get put m) Q w <-> wlp m (fun a s => Q a (put s w)) (get w).
Proof. unfold wlp, zoom. by destruct (m (get w)) as [[a s]| |]. Qed.
Ltac wlp_step :=
  lazymatch goal with
  | |- wlp (bind _ _) _ _ => apply wlp_bind
  | |- wlp (ret _) _ _ => apply wlp_ret
  | |- wlp (gets _) _ _ => apply wlp_gets
  | |- wlp (modify _) _ _ => apply wlp_modify
  | |- wlp undef _ _ => exact I
  | |- wlp (defined _) _ _ => apply wlp_defined; intros ? ?
  end; cbn beta iota.
Ltac wlp_steps := repeat wlp_step.

(** Steps through the primitive programs at the head of a goal. *)
Ltac wp_step :=
  lazymatch goal with
  | |- wp (bind _ _) _ _ => apply wp_bind
  | |- wp (ret _) _ _ => apply wp_ret
  | |- wp (gets _) _ _ => apply wp_gets
  | |- wp (modify _) _ _ => apply wp_modify
  | |- wp (zoom _ _ _) _ _ => apply wp_zoom
  end; cbn beta iota.
Ltac wp_steps := repeat wp_step.

(** Case analysis on the boolean tests of a translated guard. *)
Ltac break_if :=
  match goal with
  | |- context [if ?b then _ else _] => destruct b eqn:?
  end.
Ltac break_match :=
  match goal with
  | |- context [match ?x with _ => _ end] => destruct x eqn:?
  end.
Ltac bool_lia :=
  repeat match goal with
  | H : (_ && _)%bool = true |- _ => apply andb_true_iff in H; destruct H
  | H : (_ || _)%bool = false |- _ => apply orb_false_iff in H; destruct H
  | H : negb _ = true |- _ => apply negb_true_iff in H
  | H : negb _ = false |- _ => apply negb_false_iff in H
  | H : (_ <? _) = true |- _ => apply Z.ltb_lt in H
  | H : (_ <? _) = false |- _ => apply Z.ltb_ge in H
  | H : (_ <=? _) = true |- _ => apply Z.leb_le in H
  | H : (_ <=? _) = false |- _ => apply Z.leb_gt in H
  | H : (_ =? _) = true |- _ => apply Z.eqb_eq in H
  | H : (_ =? _) = false |- _ => apply Z.eqb_neq in H
  end; try lia.

Create HintDb minixop.
#[export] Hint Resolve wrap_range swrap_range : minixop.
