(* ===== verification/Hardware.v ===== *)
(** * Hardware

    The machine under the drivers.  MINIX gives a driver the system calls
    [sys_inb], [sys_outb], [tickdelay]/[micro_delay] and the [sys_irq*]
    family; what the device answers is a parameter ([Device]), and every call
    is recorded in a trace, so that a driver's protocol is a predicate on the
    events it adds. *)

From S2P Require Import Prelude.

(** ** System calls, as events *)
Inductive io : Type :=
| In (port err val : Z)
| Out (port val err : Z)
| Wait (micros : Z)
| IrqSetPolicy (line policy hook err : Z)
| IrqRmPolicy (hook err : Z)
| IrqEnable (hook err : Z)
| IrqDisable (hook err : Z).

#[global] Instance io_eq_dec : EqDecision io.
Proof. solve_decision. Defined.

(** What the devices answer: [dev_inb] gives the error code and the 32-bit
    value of a port read, [dev_irqsetpolicy] the error code and the hook the
    kernel stores.  [dev_garbage] is what an uninitialised byte on the stack
    happens to hold. *)
Class Device (D : Type) : Type := {
  dev_inb : Z -> D -> (Z * Z) * D;
  dev_outb : Z -> Z -> D -> Z * D;
  dev_wait : Z -> D -> D;
  dev_irqsetpolicy : Z -> Z -> Z -> D -> (Z * Z) * D;
  dev_irqrmpolicy : Z -> D -> Z * D;
  dev_irqenable : Z -> D -> Z * D;
  dev_irqdisable : Z -> D -> Z * D;
  dev_dflt_kbc_cmd_byte : D -> Z;
  dev_garbage : D -> Z;
}.

Record hw (D : Type) : Type := mk_hw { dev : D; trace : list io }.
Arguments mk_hw {D} _ _.
Arguments dev {D} _.
Arguments trace {D} _.

(** Policies of [sys_irqsetpolicy]. *)
Definition IRQ_REENABLE : Z := 1.
Definition IRQ_EXCLUSIVE : Z := 2.

Section SystemCalls.
Context {D : Type} `{!Device D}.

Definition sys_inb (port : Z) : prog (hw D) (Z * Z) := fun h =>
  let '((err, v), d) := dev_inb port (dev h) in
  Done ((err, v), mk_hw d (trace h ++ [In port err v])).
Definition sys_outb (port val : Z) : prog (hw D) Z := fun h =>
  let '(err, d) := dev_outb port val (dev h) in
  Done (err, mk_hw d (trace h ++ [Out port val err])).
(** [tickdelay(micros_to_ticks(us))] and [micro_delay(us)]. *)
Definition delay (us : Z) : prog (hw D) unit := fun h =>
  Done (tt, mk_hw (dev_wait us (dev h)) (trace h ++ [Wait us])).
Definition sys_irqsetpolicy (line policy hook : Z) : prog (hw D) (Z * Z) := fun h =>
  let '((err, hook'), d) := dev_irqsetpolicy line policy hook (dev h) in
  Done ((err, hook'), mk_hw d (trace h ++ [IrqSetPolicy line policy hook err])).
Definition sys_irqrmpolicy (hook : Z) : prog (hw D) Z := fun h =>
  let '(err, d) := dev_irqrmpolicy hook (dev h) in
  Done (err, mk_hw d (trace h ++ [IrqRmPolicy hook err])).
Definition sys_irqenable (hook : Z) : prog (hw D) Z := fun h =>
  let '(err, d) := dev_irqenable hook (dev h) in
  Done (err, mk_hw d (trace h ++ [IrqEnable hook err])).
Definition sys_irqdisable (hook : Z) : prog (hw D) Z := fun h =>
  let '(err, d) := dev_irqdisable hook (dev h) in
  Done (err, mk_hw d (trace h ++ [IrqDisable hook err])).
Definition minix_get_dflt_kbc_cmd_byte : prog (hw D) Z :=
  gets (fun h => u8 (dev_dflt_kbc_cmd_byte (dev h))).
(** An automatic [uint8_t] before its first assignment. *)
Definition uninit_byte : prog (hw D) Z := gets (fun h => u8 (dev_garbage (dev h))).

(** [util_sys_inb(port, &value)]: the error code and what [*value] holds
    afterwards, untouched when the call fails. *)
Definition util_sys_inb (port value : Z) : prog (hw D) (Z * Z) :=
  '(err, tempAddress) <- sys_inb port ;;
  if negb (err =? 0) then ret (1, value) else ret (0, u8 tempAddress).
End SystemCalls.

(** ** Rules: the device may answer anything *)
Section SystemCallRules.
Context {D : Type} `{!Device D}.
Implicit Types h : hw D.

Lemma wp_sys_inb port (Q : Z * Z -> hw D -> Prop) h :
  (forall err v d, Q (err, v) (mk_hw d (trace h ++ [In port err v]))) ->
  wp (sys_inb port) Q h.
Proof. intros H. unfold wp, sys_inb. destruct (dev_inb _ _) as [[err v] d]. apply H. Qed.

Lemma wp_sys_outb port val (Q : Z -> hw D -> Prop) h :
  (forall err d, Q err (mk_hw d (trace h ++ [Out port val err]))) ->
  wp (sys_outb port val) Q h.
Proof. intros H. unfold wp, sys_outb. destruct (dev_outb _ _ _) as [err d]. apply H. Qed.

Lemma wp_delay us (Q : unit -> hw D -> Prop) h :
  (forall d, Q tt (mk_hw d (trace h ++ [Wait us]))) -> wp (delay us) Q h.
Proof. intros H. apply H. Qed.

Lemma wp_sys_irqsetpolicy line policy hook (Q : Z * Z -> hw D -> Prop) h :
  (forall err hook' d,
     Q (err, hook') (mk_hw d (trace h ++ [IrqSetPolicy line policy hook err]))) ->
  wp (sys_irqsetpolicy line policy hook) Q h.
Proof.
  intros H. unfold wp, sys_irqsetpolicy.
  destruct (dev_irqsetpolicy _ _ _ _) as [[err v] d]. apply H.
Qed.

Lemma wp_sys_irqrmpolicy hook (Q : Z -> hw D -> Prop) h :
  (forall err d, Q err (mk_hw d (trace h ++ [IrqRmPolicy hook err]))) ->
  wp (sys_irqrmpolicy hook) Q h.
Proof. intros H. unfold wp, sys_irqrmpolicy. destruct (dev_irqrmpolicy _ _). apply H. Qed.

Lemma wp_sys_irqenable hook (Q : Z -> hw D -> Prop) h :
  (forall err d, Q err (mk_hw d (trace h ++ [IrqEnable hook err]))) ->
  wp (sys_irqenable hook) Q h.
Proof. intros H. unfold wp, sys_irqenable. destruct (dev_irqenable _ _). apply H. Qed.

Lemma wp_sys_irqdisable hook (Q : Z -> hw D -> Prop) h :
  (forall err d, Q err (mk_hw d (trace h ++ [IrqDisable hook err]))) ->
  wp (sys_irqdisable hook) Q h.
Proof. intros H. unfold wp, sys_irqdisable. destruct (dev_irqdisable _ _). apply H. Qed.

Lemma wp_uninit_byte (Q : Z -> hw D -> Prop) h :
  (forall v, 0 <= v < 256 -> Q v h) -> wp uninit_byte Q h.
Proof. intros H. apply wp_gets, H, (wrap_range 8). lia. Qed.

(** A read through [util_sys_inb] fails and leaves the variable alone, or
    stores a byte. *)
Lemma wp_util_sys_inb port value (Q : Z * Z -> hw D -> Prop) h :
  (forall err v d, err <> 0 -> Q (1, value) (mk_hw d (trace h ++ [In port err v]))) ->
  (forall v d, 0 <= u8 v < 256 -> Q (0, u8 v) (mk_hw d (trace h ++ [In port 0 v]))) ->
  wp (util_sys_inb port value) Q h.
Proof.
  intros Hfail Hok. unfold util_sys_inb. wp_step. apply wp_sys_inb. intros err v d.
  destruct (Z.eqb_spec err 0) as [->|Hne]; cbn; apply wp_ret.
  - apply Hok. apply (wrap_range 8). lia.
  - by apply Hfail.
Qed.
End SystemCallRules.

(** Decides an error test: on a known code by evaluation, else by cases. *)
Ltac err_step :=
  match goal with
  | |- wp (if negb (?c =? OK) then _ else _) _ _ =>
      let b := eval vm_compute in (negb (c =? OK)) in
      lazymatch b with
      | true => change (negb (c =? OK)) with true
      | false => change (negb (c =? OK)) with false
      | _ => destruct (Z.eqb_spec c OK) as [->|]
      end; cbn beta iota delta [negb]
  end.

(** Steps through a driver up to a system call, then lets the device answer. *)
Ltac hw_step :=
  first
  [ wp_step
  | err_step
  | lazymatch goal with
    | |- wp (sys_inb _) _ _ => apply wp_sys_inb; intros ?err ?v ?d
    | |- wp (sys_outb _ _) _ _ => apply wp_sys_outb; intros ?err ?d
    | |- wp (delay _) _ _ => apply wp_delay; intros ?d
    | |- wp (sys_irqsetpolicy _ _ _) _ _ =>
        apply wp_sys_irqsetpolicy; intros ?err ?hook ?d
    | |- wp (sys_irqrmpolicy _) _ _ => apply wp_sys_irqrmpolicy; intros ?err ?d
    | |- wp (sys_irqenable _) _ _ => apply wp_sys_irqenable; intros ?err ?d
    | |- wp (sys_irqdisable _) _ _ => apply wp_sys_irqdisable; intros ?err ?d
    | |- wp uninit_byte _ _ => apply wp_uninit_byte; intros ?g ?Hg
    | |- wp (util_sys_inb _ _) _ _ =>
        apply wp_util_sys_inb; [intros ?err ?v ?d ?Herr | intros ?v ?d ?Hv]
    end; cbn [trace dev] ].

(** ** A scripted device

    Ports answer from a list of readings, each with its error code; writes,
    interrupt calls and delays succeed.  The concrete device of the
    witnesses. *)
Record script : Type := mk_script { readings : list (Z * Z); writes : list Z }.

#[global] Instance script_device : Device script := {|
  dev_inb _ d :=
    match readings d with
    | [] => ((1, 0), d)
    | r :: rs => (r, mk_script rs (writes d))
    end;
  dev_outb _ _ d :=
    match writes d with
    | [] => (0, d)
    | e :: es => (e, mk_script (readings d) es)
    end;
  dev_wait _ d := d;
  dev_irqsetpolicy _ _ hook d := ((0, hook), d);
  dev_irqrmpolicy _ d := (0, d);
  dev_irqenable _ d := (0, d);
  dev_irqdisable _ d := (0, d);
  dev_dflt_kbc_cmd_byte _ := 71;
  dev_garbage _ := 165;
|}.

(** The machine that will answer [rs] to the next port reads. *)
Definition scripted (rs : list (Z * Z)) : hw script := mk_hw (mk_script rs []) [].
