(* ===== verification/Timer.v ===== *)
(** * Timer

    The i8254 driver, [src/proj/system/lib/timer.c], with the byte helpers
    [util_get_LSB]/[util_get_MSB] it uses (LCF's; the repository's own copy is
    [src/lab2/utils.c]). *)

From S2P Require Import Prelude Hardware.

(** ** Constants of [i8254.h] *)
Definition TIMER_FREQ : Z := 1193182.
Definition TIMER0_IRQ : Z := 0.
Definition TIMER_SUBSCRIPTION_BITNO : Z := 0.
Definition TIMER_0 : Z := 0x40.
Definition TIMER_CTRL : Z := 0x43.
Definition TIMER_ADDR_SEL (n : Z) : Z := TIMER_0 + n.
Definition TIMER_CMD_SEL (n : Z) : Z := Z.shiftl n 6.
Definition TIMER_INIT_BIT : Z := 4.
Definition TIMER_MODE_BIT : Z := 1.
Definition TIMER_RB_CMD : Z := Z.lor (BIT 7) (BIT 6).
Definition TIMER_LSB : Z := BIT 4.
Definition TIMER_MSB : Z := BIT 5.
Definition TIMER_LSB_MSB : Z := Z.lor TIMER_LSB TIMER_MSB.
Definition TIMER_RB_COUNT_ : Z := BIT 5.
Definition TIMER_RB_SEL (n : Z) : Z := BIT (n + 1).
Definition MODE_BITS : Z := Z.lor (Z.lor (BIT 1) (BIT 2)) (BIT 3).
Definition BCD_BIT : Z := BIT 0.
Definition INIT_LSB : Z := 0xff.
Definition INIT_MSB : Z := 0xff00.
Definition STATUS_CONFIG : Z := 0xf.
Definition EINVAL : Z := -22.

Definition util_get_LSB (val : Z) : Z := u8 (Z.land INIT_LSB val).
Definition util_get_MSB (val : Z) : Z := u8 (Z.shiftr (Z.land INIT_MSB val) 8).

(** [enum timer_status_field] and the union [timer_status_field_val]. *)
Inductive timer_status_field : Type := tsf_all | tsf_initial | tsf_mode | tsf_base.
Inductive timer_status_field_val : Type :=
| val_byte (b : Z)
| val_in_mode (m : Z)
| val_count_mode (m : Z)
| val_bcd (b : bool).

(** The value [timer_display_conf] hands to [timer_print_config]. *)
Definition timer_display_conf (st : Z) (field : timer_status_field) : timer_status_field_val :=
  match field with
  | tsf_initial => val_in_mode (Z.shiftr (Z.land st TIMER_LSB_MSB) TIMER_INIT_BIT)
  | tsf_mode => val_count_mode (Z.shiftr (Z.land st MODE_BITS) TIMER_MODE_BIT)
  | tsf_base => val_bcd (has_bits st BCD_BIT)
  | tsf_all => val_byte st
  end.

(** ** State: [subscribe_result] is a malloc'd hook, [time_counter] a
    [uint64_t]. *)
Record timer (D : Type) : Type := mk_timer {
  tm_hw : hw D;
  subscribe_result : option Z;
  time_counter : Z;
}.
Arguments mk_timer {D}.
Arguments tm_hw {D}.
Arguments subscribe_result {D}.
Arguments time_counter {D}.
#[global] Instance eta_timer {D} : Eta (timer D) := fun r =>
  mk_timer (tm_hw r) (subscribe_result r) (time_counter r).

Section Timer.
Context {D : Type} `{!Device D}.

Definition timer_on_hw {A} (m : prog (hw D) A) : prog (timer D) A :=
  zoom tm_hw (fun h t => t <| tm_hw := h |>) m.

(** [timer_get_conf(timer, &st)]: the error code and what [*st] holds. *)
Definition timer_get_conf (timer st : Z) : prog (hw D) (Z * Z) :=
  if (timer <? 0) || (2 <? timer) then ret (1, st) else
  let timer_port := TIMER_ADDR_SEL timer in
  let read_back_command :=
    u8 (Z.lor TIMER_RB_CMD (Z.lor (TIMER_RB_SEL timer) TIMER_RB_COUNT_)) in
  err <- sys_outb TIMER_CTRL read_back_command ;;
  if negb (err =? OK) then ret (err, st) else
  ('(_, st) <- util_sys_inb timer_port st ;;
   ret (OK, st)).

Definition timer_set_frequency (timer freq : Z) : prog (hw D) Z :=
  if (timer <? 0) || (2 <? timer) then ret 1 else
  status_byte <- uninit_byte ;;
  let port := TIMER_ADDR_SEL timer in
  if freq =? 0 then undef else
  let init_value := u16 (TIMER_FREQ / freq) in
  let lsb_init_value := util_get_LSB init_value in
  let msb_init_value := util_get_MSB init_value in
  '(_, status_byte) <- timer_get_conf timer status_byte ;;
  let status_byte := Z.land status_byte STATUS_CONFIG in
  let control_word := u8 (Z.lor (Z.lor status_byte TIMER_LSB_MSB) (TIMER_CMD_SEL timer)) in
  err <- sys_outb TIMER_CTRL control_word ;;
  if negb (err =? OK) then ret EINVAL else
  (err <- sys_outb port lsb_init_value ;;
   if negb (err =? OK) then ret EINVAL else
   (err <- sys_outb port msb_init_value ;;
    if negb (err =? OK) then ret EINVAL else ret OK)).

Definition timer_subscribe_int : prog (timer D) (Z * Z) :=
  let bit_no := TIMER_SUBSCRIPTION_BITNO in
  '(err, hook) <- timer_on_hw (sys_irqsetpolicy TIMER0_IRQ IRQ_REENABLE bit_no) ;;
  modify (fun t => t <| subscribe_result := Some hook |>) ;;;
  ret (err, bit_no).

(** The kernel dereferences the hook pointer, so a second call, or one
    before [timer_subscribe_int], is undefined. *)
Definition timer_unsubscribe_int : prog (timer D) Z :=
  p <- gets subscribe_result ;;
  hook <- defined p ;;
  err <- timer_on_hw (sys_irqrmpolicy hook) ;;
  modify (fun t => t <| subscribe_result := None |>) ;;;
  ret err.

Definition timer_int_handler : prog (timer D) unit :=
  modify (fun t => t <| time_counter ::= (fun n => u64 (n + 1)) |>).
End Timer.

(** ** Facts on bytes *)
Lemma land_low_byte v : Z.land INIT_LSB v = v mod 256.
Proof. rewrite Z.land_comm. apply (Z.land_ones v 8). lia. Qed.

Lemma util_get_LSB_spec v : util_get_LSB v = v mod 256.
Proof.
  unfold util_get_LSB. rewrite land_low_byte. apply wrap_small.
  apply Z.mod_pos_bound. lia.
Qed.

Lemma util_get_MSB_spec v : util_get_MSB v = (v / 256) mod 256.
Proof.
  unfold util_get_MSB. rewrite Z.shiftr_land. change (Z.shiftr INIT_MSB 8) with INIT_LSB.
  rewrite land_low_byte, Z.shiftr_div_pow2 by lia. change (2 ^ 8) with 256.
  apply wrap_small, Z.mod_pos_bound. lia.
Qed.

Lemma split_word v : 0 <= v < 65536 -> util_get_LSB v + 256 * util_get_MSB v = v.
Proof.
  intros Hv. rewrite util_get_LSB_spec, util_get_MSB_spec.
  rewrite (Z.mod_small (v / 256)).
  - pose proof (Z.div_mod v 256). lia.
  - split; [apply Z.div_pos; lia|]. apply Z.div_lt_upper_bound; lia.
Qed.

(** The control word keeps the low nibble of the status and selects the
    counter, low byte first. *)
Lemma control_word_fields st n :
  0 <= st < 256 -> 0 <= n <= 2 ->
  let cw := u8 (Z.lor (Z.lor (Z.land st STATUS_CONFIG) TIMER_LSB_MSB) (TIMER_CMD_SEL n)) in
  Z.land cw STATUS_CONFIG = Z.land st STATUS_CONFIG /\
  Z.land cw TIMER_LSB_MSB = TIMER_LSB_MSB /\ Z.shiftr cw 6 = n.
Proof.
  intros Hst Hn cw.
  assert ((Z.land cw STATUS_CONFIG =? Z.land st STATUS_CONFIG) = true /\
          (Z.land cw TIMER_LSB_MSB =? TIMER_LSB_MSB) = true /\ (Z.shiftr cw 6 =? n) = true) as H.
  { assert (n = 0 \/ n = 1 \/ n = 2) as [-> | [-> | ->]] by lia; subst cw;
      (split_and!; revert st Hst; apply forall_byte; by vm_compute). }
  destruct H as (H1 & H2 & H3). split_and!; by apply Z.eqb_eq.
Qed.

Section TimerProofs.
Context {D : Type} `{!Device D}.
Implicit Types h : hw D.

Lemma timer_get_conf_trace n st h :
  0 <= n <= 2 -> 0 <= st < 256 ->
  wp (timer_get_conf n st) (fun r h' => 0 <= snd r < 256 /\ exists t,
    trace h' = trace h ++ t /\
    ((exists e, e <> OK /\ t = [Out TIMER_CTRL (224 + 2 ^ (n + 1)) e] /\ r = (e, st)) \/
     (exists e v, t = [Out TIMER_CTRL (224 + 2 ^ (n + 1)) 0; In (TIMER_0 + n) e v] /\
        r = (OK, if e =? 0 then u8 v else st)))) h.
Proof.
  intros Hn Hst. unfold timer_get_conf.
  destruct (Z.ltb_spec n 0), (Z.ltb_spec 2 n); try lia; cbn [orb].
  replace (u8 _) with (224 + 2 ^ (n + 1))
    by (assert (n = 0 \/ n = 1 \/ n = 2) as [-> | [-> | ->]] by lia; done).
  repeat hw_step; cbn [snd]; (split; [done|]); eexists; rewrite <- ?app_assoc;
    (split; [reflexivity|]).
  - right. eexists _, _. split; [done|]. f_equal.
    destruct (Z.eqb_spec err 0); done.
  - right. by eexists _, _.
  - left. by eexists.
Qed.

(** [timer_set_frequency] on a valid counter that reports success has
    read back the counter's status, then written a control word that keeps
    the status's low nibble (mode and BCD), asks for low byte then high
    byte and selects that counter, then the two bytes of the divisor
    TIMER_FREQ / freq, low byte first; for freq at least 19 the divisor
    fits and is the one loaded. *)
Lemma timer_set_frequency_protocol n freq h :
  0 <= n <= 2 -> 1 <= freq ->
  wp (timer_set_frequency n freq) (fun r h' => r = OK -> exists t st cw lsb msb,
    trace h' = trace h ++ t ++
      [Out TIMER_CTRL cw OK; Out (TIMER_0 + n) lsb OK; Out (TIMER_0 + n) msb OK] /\
    (forall e v, t = [Out TIMER_CTRL (224 + 2 ^ (n + 1)) 0; In (TIMER_0 + n) e v] ->
       e = 0 -> st = u8 v) /\
    Z.land cw STATUS_CONFIG = Z.land st STATUS_CONFIG /\
    Z.land cw TIMER_LSB_MSB = TIMER_LSB_MSB /\ Z.shiftr cw 6 = n /\
    lsb + 256 * msb = u16 (TIMER_FREQ / freq) /\
    (19 <= freq -> lsb + 256 * msb = TIMER_FREQ / freq)) h.
Proof.
  intros Hn Hf. unfold timer_set_frequency.
  destruct (Z.ltb_spec n 0), (Z.ltb_spec 2 n); try lia; cbn [orb].
  wp_step. apply wp_uninit_byte. intros g Hg. cbn zeta.
  destruct (Z.eqb_spec freq 0); [lia|].
  wp_step. eapply wp_mono; [apply timer_get_conf_trace; lia|].
  intros [e st] h1 (Hst & t & Ht & Hr). cbn [fst snd] in *.
  pose proof (control_word_fields st n Hst Hn) as (Hc1 & Hc2 & Hc3).
  repeat hw_step; try discriminate. intros _.
  eexists t, st, _, _, _. split; [rewrite Ht, <- !app_assoc; reflexivity|].
  split; [|split_and!; [exact Hc1|exact Hc2|exact Hc3|..]].
  - intros e' v -> ->. destruct Hr as [(? & _ & [=] & _)|(? & ? & [= <- <-] & [= _ ->])]. done.
  - apply split_word, (wrap_range 16). lia.
  - intros Hf'. rewrite split_word by (apply (wrap_range 16); lia).
    apply wrap_small. split; [apply Z.div_pos; unfold TIMER_FREQ; lia|].
    apply Z.div_lt_upper_bound; unfold TIMER_FREQ; lia.
Qed.
End TimerProofs.

Lemma timer_set_frequency_protocol_at :
  wp (timer_set_frequency 0 60) (fun r h' => r = OK /\
    trace h' = [Out 0x43 226 0; In 0x40 0 0x34; Out 0x43 0x34 0;
                Out 0x40 174 0; Out 0x40 77 0]) (scripted [(0, 0x34)]) /\
  (exists lsb msb, lsb + 256 * msb = u16 (TIMER_FREQ / 60)).
Proof.
  split; [vm_compute; done|].
  pose proof (timer_set_frequency_protocol 0 60 (scripted [(0, 0x34)])
    ltac:(lia) ltac:(lia)) as H.
  apply wp_Done in H. destruct H as (r & h' & E & H).
  assert (r = OK) as Hr by (vm_compute in E; by injection E as <- _).
  destruct (H Hr) as (_ & _ & _ & lsb & msb & _ & _ & _ & _ & _ & Hv & _).
  exists lsb, msb. exact Hv.
Defined.

(** A frequency below 19 Hz does not fit the 16-bit divisor: 18 Hz loads
    751 instead of 66287, so the counter runs at about 1589 Hz; frequency 0
    divides by zero. *)
Lemma timer_set_frequency_low_freq :
  wp (timer_set_frequency 0 18) (fun r h' => r = OK /\
    exists t, trace h' = t ++ [Out 0x40 (751 mod 256) 0; Out 0x40 (751 / 256) 0])
    (scripted [(0, 0x34)]) /\
  TIMER_FREQ / 18 <> 751 /\
  forall (D : Type) (dev : Device D) (h : hw D), timer_set_frequency 0 0 h = Undef.
Proof.
  split_and!; [|done|done].
  vm_compute. split; [done|].
  eexists [_; _; _]. done.
Qed.
