(* ===== verification/Kbc.v ===== *)
(** * Kbc

    The keyboard controller driver, [src/proj/system/lib/kbc.c]: byte-level
    reads and writes with bounded retries, mouse commands with
    acknowledgement, the two interrupt handlers, and the mouse packet
    parser. *)

From S2P Require Import Prelude Hardware.

(** ** Constants of [i8042.h] *)
Definition KB_IRQ : Z := 1.
Definition KB_HOOK_ID : Z := 1.
Definition MOUSE_IRQ : Z := 12.
Definition MOUSE_HOOK_ID : Z := 12.
Definition KBC_IN_BUF : Z := 0x64.
Definition KBC_OUT_BUF : Z := 0x60.
Definition KBC_MAX_TRIES : nat := 5.
Definition KBC_WRITE_CMD : Z := 0x60.
Definition KBC_OUT_BUFFER_FULL : Z := BIT 0.
Definition KBC_IN_BUFFER_FULL : Z := BIT 1.
Definition KBC_AUX : Z := BIT 5.
Definition KBC_TIMEOUT_ERR : Z := BIT 6.
Definition KBC_PARITY_ERR : Z := BIT 7.
Definition MOUSE_LB : Z := BIT 0.
Definition MOUSE_RB : Z := BIT 1.
Definition MOUSE_MB : Z := BIT 2.
Definition MOUSE_FIRST_BIT : Z := BIT 3.
Definition MOUSE_MSB_X_DELTA : Z := BIT 4.
Definition MOUSE_MSB_Y_DELTA : Z := BIT 5.
Definition MOUSE_X_OVFL : Z := BIT 6.
Definition MOUSE_Y_OVFL : Z := BIT 7.
Definition MOUSE_WRITE_CMD : Z := 0xD4.
Definition ENABLE_DATA_REPORT : Z := 0xF4.
Definition DISABLE_DATA_REPORT : Z := 0xF5.
Definition SET_STREAM_MODE : Z := 0xEA.
Definition SET_REMOTE_MODE : Z := 0xF0.
Definition SET_DEFAULTS : Z := 0xF6.
Definition MOUSE_ENABLE : Z := 0xA8.
Definition MOUSE_DISABLE : Z := 0xA7.
Definition ACK : Z := 0xFA.

(** ** The mouse packet of the LCF headers *)
Record packet : Type := mk_packet {
  pkt_bytes : list Z;
  pkt_lb : bool;
  pkt_mb : bool;
  pkt_rb : bool;
  pkt_delta_x : Z;
  pkt_delta_y : Z;
  pkt_x_ov : bool;
  pkt_y_ov : bool;
}.
#[global] Instance eta_packet : Eta packet := fun r =>
  mk_packet (pkt_bytes r) (pkt_lb r) (pkt_mb r) (pkt_rb r)
    (pkt_delta_x r) (pkt_delta_y r) (pkt_x_ov r) (pkt_y_ov r).

(** [int9_to_int16(lsb, negative, &result)]: the value stored. *)
Definition int9_to_int16 (lsb : Z) (negative : bool) : Z :=
  let result := i16 lsb in
  if negative then
    let mask := i16 0xff00 in
    i16 (Z.lor result mask)
  else result.

Definition parse_packet (b0 b1 b2 : Z) : packet :=
  let first_byte := b0 in
  let x_delta := int9_to_int16 b1 (has_bits first_byte MOUSE_MSB_X_DELTA) in
  let y_delta := int9_to_int16 b2 (has_bits first_byte MOUSE_MSB_Y_DELTA) in
  {| pkt_bytes := [first_byte; b1; b2];
     pkt_lb := has_bits first_byte MOUSE_LB;
     pkt_rb := has_bits first_byte MOUSE_RB;
     pkt_mb := has_bits first_byte MOUSE_MB;
     pkt_x_ov := has_bits first_byte MOUSE_X_OVFL;
     pkt_y_ov := has_bits first_byte MOUSE_Y_OVFL;
     pkt_delta_x := x_delta;
     pkt_delta_y := y_delta |}.

(** ** The driver's state: the file's static and global variables *)
Record kbc (D : Type) : Type := mk_kbc {
  kbc_hw : hw D;
  kb_subscribe_result : Z;
  mouse_subscribe_result : Z;
  valid_kb_byte : bool;
  valid_mouse_byte : bool;
  last_kb_byte : Z;
  last_mouse_byte : Z;
}.
Arguments mk_kbc {D}.
Arguments kbc_hw {D}.
Arguments kb_subscribe_result {D}.
Arguments mouse_subscribe_result {D}.
Arguments valid_kb_byte {D}.
Arguments valid_mouse_byte {D}.
Arguments last_kb_byte {D}.
Arguments last_mouse_byte {D}.
#[global] Instance eta_kbc {D} : Eta (kbc D) := fun r =>
  mk_kbc (kbc_hw r) (kb_subscribe_result r) (mouse_subscribe_result r)
    (valid_kb_byte r) (valid_mouse_byte r) (last_kb_byte r) (last_mouse_byte r).

Section Kbc.
Context {D : Type} `{!Device D}.

Definition on_hw {A} (m : prog (hw D) A) : prog (kbc D) A :=
  zoom kbc_hw (fun h k => k <| kbc_hw := h |>) m.

(** *** Subscriptions *)
Definition kb_subscribe_int : prog (kbc D) (Z * Z) :=
  let hook_id := KB_HOOK_ID in
  modify (fun k => k <| kb_subscribe_result := hook_id |>) ;;;
  '(err, hook) <- on_hw (sys_irqsetpolicy KB_IRQ (Z.lor IRQ_REENABLE IRQ_EXCLUSIVE) hook_id) ;;
  modify (fun k => k <| kb_subscribe_result := hook |>) ;;;
  ret (err, hook_id).

Definition mouse_subscribe_int : prog (kbc D) (Z * Z) :=
  let hook_id := MOUSE_HOOK_ID in
  modify (fun k => k <| mouse_subscribe_result := hook_id |>) ;;;
  '(err, hook) <- on_hw (sys_irqsetpolicy MOUSE_IRQ (Z.lor IRQ_REENABLE IRQ_EXCLUSIVE) hook_id) ;;
  modify (fun k => k <| mouse_subscribe_result := hook |>) ;;;
  ret (err, hook_id).

Definition kb_unsubscribe_int : prog (kbc D) Z :=
  hook <- gets kb_subscribe_result ;; on_hw (sys_irqrmpolicy hook).
Definition mouse_unsubscribe_int : prog (kbc D) Z :=
  hook <- gets mouse_subscribe_result ;; on_hw (sys_irqrmpolicy hook).

Definition kbc_disable_int : prog (kbc D) Z :=
  mouse_hook <- gets mouse_subscribe_result ;;
  _ <- on_hw (sys_irqdisable mouse_hook) ;;
  kb_hook <- gets kb_subscribe_result ;;
  err <- on_hw (sys_irqdisable kb_hook) ;;
  ret err.
Definition kbc_enable_int : prog (kbc D) Z :=
  mouse_hook <- gets mouse_subscribe_result ;;
  _ <- on_hw (sys_irqenable mouse_hook) ;;
  kb_hook <- gets kb_subscribe_result ;;
  err <- on_hw (sys_irqenable kb_hook) ;;
  ret err.

(** *** Reading and writing one byte *)
Definition get_status_kbc (st : Z) : prog (hw D) (Z * Z) :=
  util_sys_inb KBC_IN_BUF st.

(** One round of the loop of [write_byte_kbc]. *)
Definition write_byte_try (byte : Z) : prog (hw D) (option Z) :=
  delay 20 ;;;
  st <- uninit_byte ;;
  '(err, status) <- get_status_kbc st ;;
  if negb (err =? OK) then ret None else
  if Z.land status (Z.lor (Z.lor KBC_PARITY_ERR KBC_TIMEOUT_ERR) KBC_IN_BUFFER_FULL) =? OK
  then (err <- sys_outb KBC_IN_BUF byte ;;
        if negb (err =? OK) then ret None else ret (Some OK))
  else ret None.
Definition write_byte_kbc (byte : Z) : prog (hw D) Z :=
  retry KBC_MAX_TRIES (write_byte_try byte) 1.

Definition write_arg_try (byte : Z) : prog (hw D) (option Z) :=
  delay 20 ;;;
  st <- uninit_byte ;;
  '(err, status) <- get_status_kbc st ;;
  if negb (err =? OK) then ret None else
  if Z.land status (Z.lor (Z.lor KBC_PARITY_ERR KBC_TIMEOUT_ERR) KBC_OUT_BUFFER_FULL) =? OK
  then (err <- sys_outb KBC_OUT_BUF byte ;;
        if negb (err =? OK) then ret None else ret (Some OK))
  else ret None.
Definition write_arg_kbc (byte : Z) : prog (hw D) Z :=
  retry KBC_MAX_TRIES (write_arg_try byte) 1.

(** [read_byte_kbc(&byte)]: the error code and what [*byte] holds. *)
Definition read_byte_try (byte : Z) : prog (hw D) (option (Z * Z)) :=
  delay 20 ;;;
  st <- uninit_byte ;;
  '(err, status) <- get_status_kbc st ;;
  if negb (err =? OK) then ret None else
  if Z.land status (Z.lor (Z.lor KBC_PARITY_ERR KBC_TIMEOUT_ERR) KBC_OUT_BUFFER_FULL)
     =? KBC_OUT_BUFFER_FULL
  then ('(err, byte') <- util_sys_inb KBC_OUT_BUF byte ;;
        if negb (err =? OK) then ret None else ret (Some (OK, byte')))
  else ret None.
Definition read_byte_kbc (byte : Z) : prog (hw D) (Z * Z) :=
  retry KBC_MAX_TRIES (read_byte_try byte) (1, byte).

(** *** Mouse commands *)

(** The inner [for] of [write_ms_cmd]: true when it reached [arg_size],
    false on a [break]. *)
Fixpoint write_ms_args (args : list Z) : prog (hw D) bool :=
  match args with
  | [] => ret true
  | a :: args =>
      err <- write_byte_kbc MOUSE_WRITE_CMD ;;
      if negb (err =? OK) then ret false else
      (err <- write_arg_kbc a ;;
       if negb (err =? OK) then ret false else
       (ack <- uninit_byte ;;
        '(err, ack) <- read_byte_kbc ack ;;
        if negb (err =? OK) then ret false else
        if negb (ack =? ACK) then ret false else
        write_ms_args args))
  end.
Definition write_ms_cmd (args : list Z) : prog (hw D) Z :=
  retry KBC_MAX_TRIES
    (all <- write_ms_args args ;; if (all : bool) then ret (Some OK) else ret None) 1.

(** [read_ms_cmd(arg_size, args)]: the error code and the bytes read into
    [args[0], args[1], ...]; [acc] holds them in reverse, so [i] is its
    length.  Failed reads are counted by [tries]. *)
Definition read_ms_step (arg_size : Z) (s : Z * list Z) :
    prog (hw D) ((Z * list Z) + (Z * list Z)) :=
  let '(tries, acc) := s in
  if tries <? Z.of_nat KBC_MAX_TRIES then
    byte <- uninit_byte ;;
    '(err, byte) <- read_byte_kbc byte ;;
    if negb (err =? OK) then ret (inl (tries + 1, acc)) else
    let acc := byte :: acc in
    if arg_size <=? alen acc then ret (inr (OK, rev acc)) else ret (inl (tries, acc))
  else ret (inr (1, rev acc)).
Definition read_ms_cmd (arg_size : Z) : prog (hw D) (Z * list Z) :=
  iterate (KBC_MAX_TRIES + S (Z.to_nat arg_size) + 1) (read_ms_step arg_size) (0, []).

Definition write_kbc_cmd_byte (byte : Z) : prog (hw D) Z :=
  err <- write_byte_kbc KBC_WRITE_CMD ;;
  if negb (err =? OK) then ret err else write_arg_kbc byte.

Definition enable_ms : prog (hw D) Z := write_byte_kbc MOUSE_ENABLE.
Definition disable_ms : prog (hw D) Z := write_byte_kbc MOUSE_DISABLE.
Definition enable_data_reporting : prog (hw D) Z := write_ms_cmd [ENABLE_DATA_REPORT].
Definition disable_data_reporting : prog (hw D) Z := write_ms_cmd [DISABLE_DATA_REPORT].

Definition enable_stream : prog (hw D) Z :=
  err <- disable_data_reporting ;;
  if negb (err =? OK) then ret err else
  (err <- write_ms_cmd [SET_STREAM_MODE] ;;
   if negb (err =? OK) then ret err else
   enable_data_reporting).

Definition enable_remote : prog (hw D) Z :=
  err <- disable_data_reporting ;;
  if negb (err =? OK) then ret err else write_ms_cmd [SET_REMOTE_MODE].

Definition ms_set_default : prog (hw D) Z :=
  err <- disable_data_reporting ;;
  if negb (err =? OK) then ret err else write_ms_cmd [SET_DEFAULTS].

Definition reset_cmd_byte : prog (hw D) Z :=
  normal_status <- minix_get_dflt_kbc_cmd_byte ;; write_kbc_cmd_byte normal_status.

(** *** Interrupt handlers *)
Definition ih_mask : Z := Z.lor (Z.lor KBC_PARITY_ERR KBC_TIMEOUT_ERR) KBC_AUX.

Definition kbc_ih : prog (kbc D) unit :=
  modify (fun k => k <| last_kb_byte := 0 |> <| valid_kb_byte := false |>) ;;;
  sb <- on_hw uninit_byte ;;
  '(_, sb) <- on_hw (get_status_kbc sb) ;;
  if has_bits sb KBC_OUT_BUFFER_FULL then
    byte <- on_hw uninit_byte ;;
    '(err, byte) <- on_hw (util_sys_inb KBC_OUT_BUF byte) ;;
    if (err =? OK) && (Z.land sb ih_mask =? OK)
    then modify (fun k => k <| last_kb_byte := byte |> <| valid_kb_byte := true |>)
    else ret tt
  else ret tt.

Definition mouse_ih : prog (kbc D) unit :=
  modify (fun k => k <| valid_mouse_byte := false |>) ;;;
  sb <- on_hw uninit_byte ;;
  '(_, sb) <- on_hw (get_status_kbc sb) ;;
  if has_bits sb KBC_OUT_BUFFER_FULL then
    byte <- gets last_mouse_byte ;;
    '(err, byte) <- on_hw (util_sys_inb KBC_OUT_BUF byte) ;;
    modify (fun k => k <| last_mouse_byte := byte |>) ;;;
    if (err =? OK) && (Z.land sb ih_mask =? KBC_AUX)
    then modify (fun k => k <| valid_mouse_byte := true |>)
    else ret tt
  else ret tt.
End Kbc.

(** ** The byte protocol, as trace grammars

    A write round polls the status port after a delay; it fails when the poll
    fails, when a bit of [mask] is set, or when the write itself is refused. *)
Section Protocol.
Variables (port mask byte : Z).

Inductive failed_write : list io -> Prop :=
| fw_poll err v : err <> 0 -> failed_write [Wait 20; In KBC_IN_BUF err v]
| fw_busy v : Z.land (u8 v) mask <> 0 -> failed_write [Wait 20; In KBC_IN_BUF 0 v]
| fw_refused v err : Z.land (u8 v) mask = 0 -> err <> 0 ->
    failed_write [Wait 20; In KBC_IN_BUF 0 v; Out port byte err].

Inductive good_write : list io -> Prop :=
| gw_intro v : Z.land (u8 v) mask = 0 ->
    good_write [Wait 20; In KBC_IN_BUF 0 v; Out port byte 0].
End Protocol.

Section ReadProtocol.
Definition read_mask : Z := Z.lor (Z.lor KBC_PARITY_ERR KBC_TIMEOUT_ERR) KBC_OUT_BUFFER_FULL.

Inductive failed_read : list io -> Prop :=
| fr_poll err v : err <> 0 -> failed_read [Wait 20; In KBC_IN_BUF err v]
| fr_empty v : Z.land (u8 v) read_mask <> KBC_OUT_BUFFER_FULL ->
    failed_read [Wait 20; In KBC_IN_BUF 0 v]
| fr_refused v err w : Z.land (u8 v) read_mask = KBC_OUT_BUFFER_FULL -> err <> 0 ->
    failed_read [Wait 20; In KBC_IN_BUF 0 v; In KBC_OUT_BUF err w].

Inductive good_read (byte : Z) : list io -> Prop :=
| gr_intro v w : Z.land (u8 v) read_mask = KBC_OUT_BUFFER_FULL -> byte = u8 w ->
    good_read byte [Wait 20; In KBC_IN_BUF 0 v; In KBC_OUT_BUF 0 w].
End ReadProtocol.

(** [rounds P n t]: [t] is [n] consecutive rounds, each satisfying [P]. *)
Inductive rounds (P : list io -> Prop) : nat -> list io -> Prop :=
| rounds_O : rounds P 0 []
| rounds_S n t u : rounds P n t -> P u -> rounds P (S n) (t ++ u).

(** At most [KBC_MAX_TRIES] rounds, the last one good exactly on success. *)
Definition tried (bad good : list io -> Prop) (success : Prop) (t : list io) : Prop :=
  exists n t1 t2, t = t1 ++ t2 /\ rounds bad n t1 /\
    ((success /\ (n < KBC_MAX_TRIES)%nat /\ good t2) \/
     (~ success /\ n = KBC_MAX_TRIES /\ t2 = [])).

Definition in_full_mask : Z := Z.lor (Z.lor KBC_PARITY_ERR KBC_TIMEOUT_ERR) KBC_IN_BUFFER_FULL.

(** The writes a trace got through, in order. *)
Definition accepted (t : list io) : list (Z * Z) :=
  omap (fun e => match e with Out p v 0 => Some (p, v) | _ => None end) t.

Lemma accepted_app t u : accepted (t ++ u) = accepted t ++ accepted u.
Proof. apply omap_app. Qed.

Lemma rounds_accepted P n t :
  (forall u, P u -> accepted u = []) -> rounds P n t -> accepted t = [].
Proof.
  intros HP. induction 1 as [|n t u _ IH Hu]; [done|].
  by rewrite accepted_app, IH, HP.
Qed.

Lemma failed_write_accepted port mask byte t :
  failed_write port mask byte t -> accepted t = [].
Proof.
  intros [err v H|v H|v err H H']; try done.
  unfold accepted; cbn. by destruct err.
Qed.

Lemma failed_read_accepted t : failed_read t -> accepted t = [].
Proof. by intros []. Qed.

Section KbcProofs.
Context {D : Type} `{!Device D}.
Implicit Types h : hw D.

(** A retry loop whose body adds one round to the trace. *)
Lemma wp_retry_rounds {A} (body : prog (hw D) (option A)) (otherwise : A)
    (bad : list io -> Prop) (good : A -> list io -> Prop) n h :
  (forall h, wp body (fun r h' => exists u, trace h' = trace h ++ u /\
     match r with Some a => good a u | None => bad u end) h) ->
  wp (retry n body otherwise) (fun r h' => exists k t1 t2,
     trace h' = trace h ++ t1 ++ t2 /\ rounds bad k t1 /\
     (((k < n)%nat /\ good r t2) \/ (k = n /\ r = otherwise /\ t2 = []))) h.
Proof.
  intros Hbody.
  apply (wp_retry _ _ _ (fun left h' => (left <= n)%nat /\ exists t,
    trace h' = trace h ++ t /\ rounds bad (n - left) t)).
  - intros k h1 (Hk & t & Ht & Hr). eapply wp_mono; [apply Hbody|].
    intros [a|] h2 (u & Hu & Hg); rewrite Hu, Ht.
    + exists (n - S k)%nat, t, u. rewrite app_assoc. split_and!; [done|done|].
      left. split; [lia|done].
    + split; [lia|]. exists (t ++ u). rewrite app_assoc. split; [done|].
      replace (n - k)%nat with (S (n - S k)) by lia. by constructor.
  - intros h1 (_ & t & Ht & Hr). exists n, t, []. rewrite app_nil_r.
    replace (n - 0)%nat with n in Hr by lia. by split_and!; [| |right].
  - split; [lia|]. exists []. rewrite app_nil_r. split; [done|].
    replace (n - n)%nat with 0%nat by lia. constructor.
Qed.

(** Closes a round: its events are the next ones of the trace. *)
Ltac close_round :=
  repeat match goal with
  | |- exists u, ?t ++ _ = _ /\ _ => rewrite <- ?app_assoc
  end;
  eexists; (split; [rewrite <- ?app_assoc; reflexivity|]);
  repeat (split; [done|]); econstructor; done.

Lemma write_byte_try_round byte h :
  wp (write_byte_try byte) (fun r h' => exists u, trace h' = trace h ++ u /\
    match r with
    | Some a => a = OK /\ good_write KBC_IN_BUF in_full_mask byte u
    | None => failed_write KBC_IN_BUF in_full_mask byte u
    end) h.
Proof.
  unfold write_byte_try, get_status_kbc. repeat hw_step; [close_round|].
  fold in_full_mask. destruct (Z.eqb_spec (Z.land (u8 v) in_full_mask) OK);
    repeat hw_step; close_round.
Qed.

Lemma write_arg_try_round byte h :
  wp (write_arg_try byte) (fun r h' => exists u, trace h' = trace h ++ u /\
    match r with
    | Some a => a = OK /\ good_write KBC_OUT_BUF read_mask byte u
    | None => failed_write KBC_OUT_BUF read_mask byte u
    end) h.
Proof.
  unfold write_arg_try, get_status_kbc. repeat hw_step; [close_round|].
  fold read_mask. destruct (Z.eqb_spec (Z.land (u8 v) read_mask) OK);
    repeat hw_step; close_round.
Qed.

Lemma read_byte_try_round byte h :
  wp (read_byte_try byte) (fun r h' => exists u, trace h' = trace h ++ u /\
    match r with
    | Some a => fst a = OK /\ good_read (snd a) u
    | None => failed_read u
    end) h.
Proof.
  unfold read_byte_try, get_status_kbc. repeat hw_step; [close_round|].
  fold read_mask. destruct (Z.eqb_spec (Z.land (u8 v) read_mask) KBC_OUT_BUFFER_FULL);
    repeat hw_step; close_round.
Qed.

(** A write command is at most five rounds, each polling the controller
    before it touches the port; it reports success exactly when the last
    round got the byte accepted. *)
Lemma write_kbc_tried port mask byte (body : prog (hw D) (option Z)) h :
  (forall h, wp body (fun r h' => exists u, trace h' = trace h ++ u /\
    match r with
    | Some a => a = OK /\ good_write port mask byte u
    | None => failed_write port mask byte u
    end) h) ->
  wp (retry KBC_MAX_TRIES body 1) (fun r h' => (r = OK \/ r = 1) /\ exists t,
    trace h' = trace h ++ t /\
    tried (failed_write port mask byte) (good_write port mask byte) (r = OK) t) h.
Proof.
  intros Hbody. eapply wp_mono.
  { apply (wp_retry_rounds _ _ (failed_write port mask byte)
      (fun a u => a = OK /\ good_write port mask byte u)). apply Hbody. }
  intros r h' (k & t1 & t2 & Ht & Hr & Hend); cbn in Hend.
  destruct Hend as [(? & -> & ?)|(-> & -> & ->)].
  - split; [by left|]. exists (t1 ++ t2). split; [done|]. exists k, t1, t2.
    split_and!; [done|done|left; by split_and!].
  - split; [by right|]. exists (t1 ++ []). split; [done|].
    exists KBC_MAX_TRIES, t1, [].
    split_and!; [done|done|right; by split_and!].
Qed.

Lemma write_byte_tried byte h :
  wp (write_byte_kbc byte) (fun r h' => (r = OK \/ r = 1) /\ exists t,
    trace h' = trace h ++ t /\
    tried (failed_write KBC_IN_BUF in_full_mask byte)
          (good_write KBC_IN_BUF in_full_mask byte) (r = OK) t) h.
Proof. apply write_kbc_tried. intros. apply write_byte_try_round. Qed.

Lemma write_arg_tried byte h :
  wp (write_arg_kbc byte) (fun r h' => (r = OK \/ r = 1) /\ exists t,
    trace h' = trace h ++ t /\
    tried (failed_write KBC_OUT_BUF read_mask byte)
          (good_write KBC_OUT_BUF read_mask byte) (r = OK) t) h.
Proof. apply write_kbc_tried. intros. apply write_arg_try_round. Qed.

Lemma read_byte_tried byte h :
  wp (read_byte_kbc byte) (fun r h' => (fst r = OK \/ r = (1, byte)) /\ exists t,
    trace h' = trace h ++ t /\
    tried failed_read (good_read (snd r)) (fst r = OK) t) h.
Proof.
  eapply wp_mono.
  { apply (wp_retry_rounds _ _ failed_read
      (fun a u => fst a = OK /\ good_read (snd a) u)).
    intros. eapply wp_mono; [apply read_byte_try_round|]. by intros [a|] h'. }
  intros r h' (k & t1 & t2 & Ht & Hr & Hend); cbn in Hend.
  destruct Hend as [(? & ? & ?)|(-> & -> & ->)].
  - split; [by left|]. exists (t1 ++ t2). split; [done|]. exists k, t1, t2.
    split_and!; [done|done|left; by split_and!].
  - split; [by right|]. exists (t1 ++ []). split; [done|].
    exists KBC_MAX_TRIES, t1, [].
    split_and!; [done|done|right; by split_and!].
Qed.

(** What the controller accepted during a successful exchange. *)
Lemma tried_write_accepted port mask byte t :
  tried (failed_write port mask byte) (good_write port mask byte) True t ->
  accepted t = [(port, byte)].
Proof.
  intros (n & t1 & t2 & -> & Hr & [(_ & _ & [v _])|(? & _)]); [|done].
  rewrite accepted_app, (rounds_accepted _ _ _ (failed_write_accepted _ _ _) Hr). done.
Qed.

Lemma tried_read_accepted byte t :
  tried failed_read (good_read byte) True t -> accepted t = [].
Proof.
  intros (n & t1 & t2 & -> & Hr & [(_ & _ & [v w _ _])|(? & _)]); [|done].
  by rewrite accepted_app, (rounds_accepted _ _ _ failed_read_accepted Hr).
Qed.

Lemma tried_ok bad good (P : Prop) t : P -> tried bad good P t -> tried bad good True t.
Proof. intros HP (n & t1 & t2 & -> & Hr & [(_ & ? & ?)|(? & _)]); [|done].
  exists n, t1, t2. split_and!; [done|done|left; by split_and!].
Qed.
End KbcProofs.

(** A trace in which every byte of a mouse command went through the
    controller and came back acknowledged, in order. *)
Inductive acked : list Z -> list io -> Prop :=
| acked_nil : acked [] []
| acked_cons a args t1 t2 t3 t :
    tried (failed_write KBC_IN_BUF in_full_mask MOUSE_WRITE_CMD)
          (good_write KBC_IN_BUF in_full_mask MOUSE_WRITE_CMD) True t1 ->
    tried (failed_write KBC_OUT_BUF read_mask a) (good_write KBC_OUT_BUF read_mask a) True t2 ->
    tried failed_read (good_read ACK) True t3 ->
    acked args t -> acked (a :: args) (t1 ++ t2 ++ t3 ++ t).

Lemma acked_accepted args t :
  acked args t ->
  accepted t = flat_map (fun a => [(KBC_IN_BUF, MOUSE_WRITE_CMD); (KBC_OUT_BUF, a)]) args.
Proof.
  induction 1 as [|a args t1 t2 t3 t H1 H2 H3 _ IH]; [done|].
  rewrite !accepted_app, (tried_write_accepted _ _ _ _ H1), (tried_write_accepted _ _ _ _ H2),
    (tried_read_accepted _ _ H3), IH. done.
Qed.

Section MouseCommands.
Context {D : Type} `{!Device D}.
Implicit Types h : hw D.

Lemma write_ms_args_acked args h :
  wp (write_ms_args args) (fun all h' => exists t, trace h' = trace h ++ t /\
    ((all : bool) = true -> acked args t)) h.
Proof.
  revert h. induction args as [|a args IH]; intros h; cbn [write_ms_args].
  { apply wp_ret. exists []. rewrite app_nil_r. split; [done|constructor]. }
  wp_step. eapply wp_mono; [apply write_byte_tried|]. intros e1 h1 (_ & t1 & Ht1 & H1).
  destruct (Z.eqb_spec e1 OK) as [He1|]; cbn; [|apply wp_ret; by exists t1].
  wp_step. eapply wp_mono; [apply write_arg_tried|]. intros e2 h2 (_ & t2 & Ht2 & H2).
  rewrite Ht1, <- app_assoc in Ht2.
  destruct (Z.eqb_spec e2 OK) as [He2|]; cbn; [|apply wp_ret; by eexists].
  wp_step. apply wp_uninit_byte. intros g _.
  wp_step. eapply wp_mono; [apply read_byte_tried|]. intros [e3 ack] h3 (_ & t3 & Ht3 & H3).
  rewrite Ht2, <- !app_assoc in Ht3. cbn in H3.
  destruct (Z.eqb_spec e3 OK) as [He3|]; cbn; [|apply wp_ret; by eexists].
  destruct (Z.eqb_spec ack ACK) as [->|]; cbn; [|apply wp_ret; by eexists].
  eapply wp_mono; [apply IH|]. intros all h4 (t & Ht & Hall).
  rewrite Ht3, <- !app_assoc in Ht. eexists. split; [exact Ht|]. intros E.
  constructor; eauto using tried_ok.
Qed.

Lemma write_ms_cmd_tried args h :
  wp (write_ms_cmd args) (fun r h' => (r = OK \/ r = 1) /\
    exists t1 t2, trace h' = trace h ++ t1 ++ t2 /\ (r = OK -> acked args t2)) h.
Proof.
  unfold write_ms_cmd.
  apply (wp_retry _ _ _ (fun _ h' => exists t, trace h' = trace h ++ t)).
  - intros k h1 (t & Ht). wp_step. eapply wp_mono; [apply write_ms_args_acked|].
    intros all h2 (u & Hu & Hack). rewrite Ht, <- app_assoc in Hu.
    destruct all; apply wp_ret; [|by eexists].
    split; [by left|]. exists t, u. by split; [|intros; apply Hack].
  - intros h1 (t & Ht). split; [by right|]. exists t, []. by rewrite app_nil_r.
  - exists []. by rewrite app_nil_r.
Qed.
End MouseCommands.

(** ** Properties *)
Section Properties.
Context {D : Type} `{!Device D}.
Implicit Types h : hw D.

(** A byte command goes to port 0x64 only in a round that polled the
    status register right before and found parity, timeout and input-full
    clear; there are at most five rounds; the function returns OK exactly
    when the last round's write was accepted, and 1 after five failures.
    This holds whatever the controller answers. *)
Lemma write_byte_kbc_protocol byte h :
  wp (write_byte_kbc byte) (fun r h' => (r = OK \/ r = 1) /\ exists t,
    trace h' = trace h ++ t /\
    tried (failed_write KBC_IN_BUF in_full_mask byte)
          (good_write KBC_IN_BUF in_full_mask byte) (r = OK) t) h.
Proof. apply write_byte_tried. Qed.

(** C13: a mouse command that reports success was carried out: the trace
    ends with a run in which each argument byte was announced with 0xD4 on
    port 0x64, accepted on port 0x60 and answered with ACK, in order, so
    that the accepted writes of that run are exactly those; the command
    always returns, with OK or 1. *)
Theorem write_ms_cmd_acknowledged args h :
  wp (write_ms_cmd args) (fun r h' => (r = OK \/ r = 1) /\
    (r = OK -> exists t1 t2, trace h' = trace h ++ t1 ++ t2 /\ acked args t2 /\
      accepted t2 =
        flat_map (fun a => [(KBC_IN_BUF, MOUSE_WRITE_CMD); (KBC_OUT_BUF, a)]) args)) h.
Proof.
  eapply wp_mono; [apply write_ms_cmd_tried|].
  intros r h' (Hr & t1 & t2 & Ht & Ha). split; [done|]. intros HOK.
  exists t1, t2. split_and!; [done|by apply Ha|by apply acked_accepted, Ha].
Qed.

(** When [enable_stream] reports success the mouse has acknowledged, in
    this order, "disable reporting", "stream mode" and "enable
    reporting". *)
Lemma enable_stream_sequence h :
  wp enable_stream (fun r h' => r = OK -> exists a1 t1 a2 t2 a3 t3,
    trace h' = trace h ++ a1 ++ t1 ++ a2 ++ t2 ++ a3 ++ t3 /\
    acked [DISABLE_DATA_REPORT] t1 /\ acked [SET_STREAM_MODE] t2 /\
    acked [ENABLE_DATA_REPORT] t3) h.
Proof.
  unfold enable_stream, disable_data_reporting, enable_data_reporting.
  wp_step. eapply wp_mono; [apply write_ms_cmd_tried|].
  intros e1 h1 (_ & a1 & t1 & Ht1 & H1). err_step; [|apply wp_ret; done].
  wp_step. eapply wp_mono; [apply write_ms_cmd_tried|].
  intros e2 h2 (_ & a2 & t2 & Ht2 & H2). err_step; [|apply wp_ret; done].
  eapply wp_mono; [apply write_ms_cmd_tried|].
  intros e3 h3 (_ & a3 & t3 & Ht3 & H3) HOK.
  exists a1, t1, a2, t2, a3, t3. split_and!; [|by apply H1|by apply H2|by apply H3].
  by rewrite Ht3, Ht2, Ht1, <- !app_assoc.
Qed.

(** [read_ms_cmd] always returns: after five failed reads with an
    error and fewer bytes than asked, or with OK and exactly the number of
    bytes asked for (one when none was asked). *)
Lemma read_ms_cmd_returns n h :
  wp (read_ms_cmd n) (fun r _ =>
    (fst r = OK /\ alen (snd r) = Z.max 1 n) \/
    (fst r = 1 /\ alen (snd r) < Z.max 1 n)) h.
Proof.
  unfold read_ms_cmd, alen.
  apply (wp_iterate _ (fun '(tries, acc) _ => 0 <= tries <= 5 /\ alen acc < Z.max 1 n)
    (fun '(tries, acc) _ => (Z.to_nat (5 - tries) + (S (Z.to_nat n) - length acc))%nat)).
  - clear h. intros [tries acc] h (Htr & Hacc). unfold read_ms_step.
    destruct (Z.ltb_spec tries (Z.of_nat KBC_MAX_TRIES)) as [Hlt|Hge]; unfold KBC_MAX_TRIES in *.
    2:{ apply wp_ret. right. cbn. rewrite length_rev. unfold alen in Hacc. lia. }
    wp_step. apply wp_uninit_byte. intros g _.
    wp_step. eapply wp_mono; [apply read_byte_tried|]. intros [e b] h' _.
    cbn beta iota zeta. destruct (Z.eqb_spec e OK); cbn [negb].
    + destruct (Z.leb_spec n (alen (b :: acc))) as [Hle|Hgt]; apply wp_ret; unfold alen in *.
      * left. cbn [fst snd]. rewrite length_rev. cbn [length] in *. lia.
      * cbn [length] in *. lia.
    + apply wp_ret. unfold alen in *. lia.
  - unfold alen. cbn. lia.
  - unfold KBC_MAX_TRIES. cbn. lia.
Qed.

(** The keyboard handler accepts a byte only from a data-port read it
    has just made, stores that byte, and (when the status poll succeeded)
    only if the status showed output-full with parity, timeout and AUX all
    clear; conversely such a byte is accepted. *)
Lemma kbc_ih_accepts (k : kbc D) :
  wp kbc_ih (fun _ k' =>
    (valid_kb_byte k' = true -> exists err st v,
       trace (kbc_hw k') = trace (kbc_hw k) ++ [In KBC_IN_BUF err st; In KBC_OUT_BUF 0 v] /\
       last_kb_byte k' = u8 v /\
       (err = 0 -> has_bits (u8 st) KBC_OUT_BUFFER_FULL = true /\ Z.land (u8 st) ih_mask = 0)) /\
    (valid_kb_byte k' = false -> last_kb_byte k' = 0 /\ forall st v,
       trace (kbc_hw k') = trace (kbc_hw k) ++ [In KBC_IN_BUF 0 st; In KBC_OUT_BUF 0 v] ->
       Z.land (u8 st) ih_mask <> 0)) k.
Proof.
  unfold kbc_ih, on_hw, get_status_kbc. repeat hw_step.
  - destruct (has_bits g KBC_OUT_BUFFER_FULL); repeat hw_step.
    + cbn. split; [done|]. intros _. split; [done|]. intros st w. rewrite <- app_assoc.
      intros [= -> _]%app_inv_head. done.
    + cbn. destruct (Z.land g ih_mask =? OK); apply wp_modify || apply wp_ret; cbn.
      * split; [|done]. intros _. eexists _, _, _. rewrite <- app_assoc. split_and!; done.
      * split; [done|]. intros _. split; [done|]. intros st w. rewrite <- app_assoc.
        intros [= -> _]%app_inv_head. done.
    + cbn. split; [done|]. intros _. split; [done|]. intros st w H.
      apply app_inv_head in H. done.
  - destruct (has_bits (u8 v) KBC_OUT_BUFFER_FULL) eqn:Hfull; repeat hw_step.
    + cbn. split; [done|]. intros _. split; [done|]. intros st w. rewrite <- app_assoc.
      intros [= _ -> _]%app_inv_head. done.
    + cbn. destruct (Z.eqb_spec (Z.land (u8 v) ih_mask) OK); apply wp_modify || apply wp_ret; cbn.
      * split; [|done]. intros _. eexists _, _, _. rewrite <- app_assoc. split_and!; done.
      * split; [done|]. intros _. split; [done|]. intros st w. rewrite <- app_assoc.
        intros [= <- _]%app_inv_head. done.
    + cbn. split; [done|]. intros _. split; [done|]. intros st w H.
      apply app_inv_head in H. done.
Qed.
End Properties.

(** The mouse movement fields are the 9-bit two's complement numbers the
    device sent: the low byte, minus 256 when the sign bit of the first byte
    is set, so between -256 and 255. *)
Lemma parse_packet_delta b0 b1 b2 :
  0 <= b0 < 256 -> 0 <= b1 < 256 -> 0 <= b2 < 256 ->
  pkt_delta_x (parse_packet b0 b1 b2) = b1 - 256 * b2z (Z.testbit b0 4) /\
  pkt_delta_y (parse_packet b0 b1 b2) = b2 - 256 * b2z (Z.testbit b0 5) /\
  -256 <= pkt_delta_x (parse_packet b0 b1 b2) < 256 /\
  -256 <= pkt_delta_y (parse_packet b0 b1 b2) < 256.
Proof.
  intros H0 H1 H2.
  assert (forall b s, 0 <= b < 256 ->
    int9_to_int16 b s = b - 256 * b2z s) as Hint.
  { intros b s Hb. apply Z.eqb_eq. revert b Hb. apply forall_byte. by destruct s; vm_compute. }
  assert (has_bits b0 MOUSE_MSB_X_DELTA = Z.testbit b0 4 /\
          has_bits b0 MOUSE_MSB_Y_DELTA = Z.testbit b0 5) as [Hx Hy].
  { clear - H0. split; apply eqb_prop; revert b0 H0; apply forall_byte; by vm_compute. }
  cbn [parse_packet pkt_delta_x pkt_delta_y]. rewrite Hx, Hy, !Hint by done.
  destruct (Z.testbit b0 4), (Z.testbit b0 5); cbn; lia.
Qed.

Lemma parse_packet_delta_at :
  pkt_delta_x (parse_packet 0x18 0xFF 3) = -1 /\ pkt_delta_y (parse_packet 0x18 0xFF 3) = 3.
Proof.
  destruct (parse_packet_delta 0x18 0xFF 3) as (Hx & Hy & _); [lia..|].
  split; [exact Hx|exact Hy].
Defined.
