(* ===== verification/Rtc.v ===== *)
(** * Rtc

    The real-time clock driver, [src/proj/system/lib/rtc_controller.c]:
    register access through the address/data port pair, interrupt enabling,
    the date, and the interrupt handler that also drives the round timer of
    the game. *)

From S2P Require Import Prelude Hardware.

(** ** Constants of [rtc.h] *)
Definition RTC_ADDR_REG : Z := 0x70.
Definition RTC_DATA_REG : Z := 0x71.
Definition RTC_SECONDS : Z := 0.
Definition RTC_ALARM_SECONDS : Z := 1.
Definition RTC_MINUTES : Z := 2.
Definition RTC_ALARM_MINUTES : Z := 3.
Definition RTC_HOURS : Z := 4.
Definition RTC_ALARM_HOURS : Z := 5.
Definition RTC_MONTH_DAY : Z := 7.
Definition RTC_MONTH : Z := 8.
Definition RTC_YEAR : Z := 9.
Definition RTC_REGISTER_A : Z := 10.
Definition RTC_REGISTER_B : Z := 11.
Definition RTC_REGISTER_C : Z := 12.
Definition RTC_DONT_CARE : Z := 0xC0.
Definition RTC_UIP : Z := BIT 7.
Definition RTC_RS : Z := Z.lor (Z.lor (Z.lor (BIT 0) (BIT 1)) (BIT 2)) (BIT 3).
Definition RTC_RS_CLEAR : Z := 0xf0.
Definition RTC_PIE : Z := BIT 6.
Definition RTC_AIE : Z := BIT 5.
Definition RTC_UIE : Z := BIT 4.
Definition RTC_PF : Z := BIT 6.
Definition RTC_AF : Z := BIT 5.
Definition RTC_UF : Z := BIT 4.
Definition RTC_IRQ : Z := 8.

(** [date_t] of [data_types.h]. *)
Record date : Type := mk_date {
  dt_year : Z; dt_month : Z; dt_day : Z; dt_hour : Z; dt_min : Z; dt_sec : Z;
}.
Definition zero_date : date := mk_date 0 0 0 0 0 0.

Definition bcd_to_decimal (val : Z) : Z :=
  let temp := Z.land val 0xf in
  u8 (temp + 10 * Z.land (Z.shiftr val 4) 0xf).

Definition binary_to_bcd (val : Z) : Z :=
  u8 (Z.lor (val mod 10) (Z.shiftl (val / 10) 4)).

(** ** State.  [game_timer] is the static of [game_manager.c] that
    [get_round_timer] gives the handler a pointer to. *)
Record rtc (D : Type) : Type := mk_rtc {
  rtc_hw : hw D;
  curr_date : date;
  config_a : Z;
  config_b : Z;
  pie_state : Z;
  rtc_subscribe : Z;
  game_timer : Z;
}.
Arguments mk_rtc {D}.
Arguments rtc_hw {D}.
Arguments curr_date {D}.
Arguments config_a {D}.
Arguments config_b {D}.
Arguments pie_state {D}.
Arguments rtc_subscribe {D}.
Arguments game_timer {D}.
#[global] Instance eta_rtc {D} : Eta (rtc D) := fun r =>
  mk_rtc (rtc_hw r) (curr_date r) (config_a r) (config_b r) (pie_state r)
    (rtc_subscribe r) (game_timer r).

Section Rtc.
Context {D : Type} `{!Device D}.

Definition rtc_on_hw {A} (m : prog (hw D) A) : prog (rtc D) A :=
  zoom rtc_hw (fun h r => r <| rtc_hw := h |>) m.

Definition reset_pie_state : prog (rtc D) unit :=
  modify (fun r => r <| pie_state := 0 |>).

Definition rtc_set_reg (reg : Z) : prog (hw D) Z := sys_outb RTC_ADDR_REG reg.
Definition rtc_read_reg (reg byte : Z) : prog (hw D) (Z * Z) :=
  _ <- rtc_set_reg reg ;; util_sys_inb RTC_DATA_REG byte.
Definition rtc_write_reg (reg byte : Z) : prog (hw D) Z :=
  _ <- rtc_set_reg reg ;; sys_outb RTC_DATA_REG byte.

Definition init_rtc_vars : prog (rtc D) Z :=
  a <- gets config_a ;;
  '(_, a) <- rtc_on_hw (rtc_read_reg RTC_REGISTER_A a) ;;
  modify (fun r => r <| config_a := a |>) ;;;
  b <- gets config_b ;;
  '(err, b) <- rtc_on_hw (rtc_read_reg RTC_REGISTER_B b) ;;
  modify (fun r => r <| config_b := b |>) ;;;
  ret err.

Definition reset_rtc : prog (rtc D) Z :=
  a <- gets config_a ;; rtc_on_hw (rtc_write_reg RTC_REGISTER_A a).

(** [rtc_set_date(date)]: the error code and what [*date] holds. *)
Definition rtc_set_date : prog (rtc D) (Z * date) :=
  '(_, config) <- rtc_on_hw (rtc_read_reg RTC_REGISTER_A 0) ;;
  if has_bits config RTC_UIP then ret (1, zero_date) else
  (_ <- reset_rtc ;;
   '(_, sec) <- rtc_on_hw (rtc_read_reg RTC_SECONDS 0) ;;
   '(_, min) <- rtc_on_hw (rtc_read_reg RTC_MINUTES 0) ;;
   '(_, hour) <- rtc_on_hw (rtc_read_reg RTC_HOURS 0) ;;
   '(_, day) <- rtc_on_hw (rtc_read_reg RTC_MONTH_DAY 0) ;;
   '(_, month) <- rtc_on_hw (rtc_read_reg RTC_MONTH 0) ;;
   '(_, year) <- rtc_on_hw (rtc_read_reg RTC_YEAR 0) ;;
   _ <- rtc_on_hw (rtc_write_reg RTC_REGISTER_A config) ;;
   ret (OK, mk_date (bcd_to_decimal year) (bcd_to_decimal month) (bcd_to_decimal day)
              (bcd_to_decimal hour) (bcd_to_decimal min) (bcd_to_decimal sec))).

Definition rtc_subscribe_int : prog (rtc D) (Z * Z) :=
  let bit_no := RTC_IRQ in
  modify (fun r => r <| rtc_subscribe := bit_no |>) ;;;
  '(err, hook) <- rtc_on_hw (sys_irqsetpolicy RTC_IRQ (Z.lor IRQ_REENABLE IRQ_EXCLUSIVE) bit_no) ;;
  modify (fun r => r <| rtc_subscribe := hook |>) ;;;
  ret (err, bit_no).
Definition rtc_unsubscribe_int : prog (rtc D) Z :=
  hook <- gets rtc_subscribe ;; rtc_on_hw (sys_irqrmpolicy hook).

Definition rtc_int_cause (cause : Z) : prog (hw D) (Z * Z) :=
  err <- sys_outb RTC_ADDR_REG RTC_REGISTER_C ;;
  if negb (err =? OK) then ret (err, cause) else util_sys_inb RTC_DATA_REG cause.

(** The interrupt switches: read register B, set or clear one bit, write it
    back. *)
Definition rtc_b_update (f : Z -> Z) : prog (hw D) Z :=
  b_config <- uninit_byte ;;
  '(_, b_config) <- rtc_read_reg RTC_REGISTER_B b_config ;;
  rtc_write_reg RTC_REGISTER_B (u8 (f b_config)).
Definition enable_pie_int : prog (hw D) Z := rtc_b_update (fun b => Z.lor b RTC_PIE).
Definition enable_aie_int : prog (hw D) Z := rtc_b_update (fun b => Z.lor b RTC_AIE).
Definition enable_uie_int : prog (hw D) Z := rtc_b_update (fun b => Z.lor b RTC_UIE).
Definition disable_pie_int : prog (hw D) Z := rtc_b_update (fun b => Z.land b (Z.lnot RTC_PIE)).
Definition disable_aie_int : prog (hw D) Z := rtc_b_update (fun b => Z.land b (Z.lnot RTC_AIE)).
Definition disable_uie_int : prog (hw D) Z := rtc_b_update (fun b => Z.land b (Z.lnot RTC_UIE)).

Definition rtc_set_periodic_500ms : prog (hw D) Z :=
  config <- uninit_byte ;;
  '(_, config) <- rtc_read_reg RTC_REGISTER_A config ;;
  rtc_write_reg RTC_REGISTER_A (u8 (Z.lor config RTC_RS)).
Definition rtc_reset_pie : prog (hw D) Z :=
  config <- uninit_byte ;;
  '(_, config) <- rtc_read_reg RTC_REGISTER_A config ;;
  rtc_write_reg RTC_REGISTER_A (u8 (Z.land config RTC_RS_CLEAR)).

Definition rtc_set_alarm (sec min hour : Z) : prog (hw D) Z :=
  let sec := if negb (sec =? RTC_DONT_CARE) then binary_to_bcd sec else sec in
  let min := if negb (min =? RTC_DONT_CARE) then binary_to_bcd min else min in
  let hour := if negb (hour =? RTC_DONT_CARE) then binary_to_bcd hour else hour in
  _ <- rtc_write_reg RTC_ALARM_SECONDS sec ;;
  _ <- rtc_write_reg RTC_ALARM_MINUTES min ;;
  rtc_write_reg RTC_ALARM_HOURS hour.

(** The decrement of the [int] behind [ptr]. *)
Definition int_pred (t : Z) : option Z := if INT_MIN <? t then Some (t - 1) else None.
Definition rtc_ih : prog (rtc D) unit :=
  cause <- rtc_on_hw uninit_byte ;;
  '(err, cause) <- rtc_on_hw (rtc_int_cause cause) ;;
  if negb (err =? OK) then ret tt else
  ((if has_bits cause RTC_PF then
      st <- gets pie_state ;;
      if st =? 1
      then (t <- gets game_timer ;;
            t <- defined (int_pred t) ;;
            modify (fun r => r <| game_timer := t |> <| pie_state := 0 |>))
      else modify (fun r => r <| pie_state ::= (fun p => u8 (p + 1)) |>)
    else ret tt) ;;;
   if has_bits cause RTC_UF then
     '(_, d) <- rtc_set_date ;;
     modify (fun r => r <| curr_date := d |>)
   else ret tt).
End Rtc.

(** ** Proofs *)
Section RtcRules.
Context {D : Type} `{!Device D}.

Lemma wp_rtc_read_reg reg byte (Q : Z * Z -> hw D -> Prop) h :
  (forall e0 err v d, Q (if err =? 0 then (0, u8 v) else (1, byte))
     (mk_hw d (trace h ++ [Out RTC_ADDR_REG reg e0; In RTC_DATA_REG err v]))) ->
  wp (rtc_read_reg reg byte) Q h.
Proof.
  intros H. unfold rtc_read_reg, rtc_set_reg. repeat hw_step; rewrite <- app_assoc.
  - specialize (H err err0 v d0). destruct (Z.eqb_spec err0 0); [done|]. apply H.
  - apply (H err 0 v d0).
Qed.

Lemma wp_rtc_write_reg reg byte (Q : Z -> hw D -> Prop) h :
  (forall e0 err d, Q err
     (mk_hw d (trace h ++ [Out RTC_ADDR_REG reg e0; Out RTC_DATA_REG byte err]))) ->
  wp (rtc_write_reg reg byte) Q h.
Proof.
  intros H. unfold rtc_write_reg, rtc_set_reg. repeat hw_step. rewrite <- app_assoc. apply H.
Qed.

(** Switching an interrupt always returns. *)
Lemma wp_rtc_b_update f (Q : Z -> hw D -> Prop) h : (forall err h', Q err h') -> wp (rtc_b_update f) Q h.
Proof.
  intros H. unfold rtc_b_update. wp_step. apply wp_uninit_byte. intros ? _.
  wp_step. apply wp_rtc_read_reg. intros ? err ? ?. destruct (err =? 0); apply wp_rtc_write_reg; intros; apply H.
Qed.

(** Reading the date works on the device and on nothing else of the
    driver. *)
Lemma rtc_set_date_frame (r : rtc D) :
  wp rtc_set_date (fun res r' => (exists t, trace (rtc_hw r') = trace (rtc_hw r) ++ t) /\
    r' = r <| rtc_hw := rtc_hw r' |> /\ (fst res = OK \/ res = (1, zero_date))) r.
Proof.
  unfold rtc_set_date, rtc_on_hw.
  wp_steps. apply wp_rtc_read_reg. intros e0 err v d.
  destruct (if err =? 0 then _ else _) as [e config]. wp_steps.
  destruct (has_bits config RTC_UIP).
  { wp_steps. cbn. split; [by eexists|]. split; [done|by right]. }
  unfold reset_rtc, rtc_on_hw. wp_steps. apply wp_rtc_write_reg. intros e1 err1 d1. cbn.
  do 6 (wp_steps; apply wp_rtc_read_reg; intros ? ? ? ?;
    match goal with |- context [if ?b then (0, _) else _] =>
      destruct (if b then _ else _) end; wp_steps).
  apply wp_rtc_write_reg. intros ? ? ?. wp_steps. cbn.
  split; [|split; [done|by left]]. rewrite <- !app_assoc. by eexists.
Qed.
End RtcRules.

(** 1 when a call's trace shows that register C announced a periodic
    interrupt, 0 otherwise. *)
Definition periodic_seen (t : list io) : Z :=
  match t with
  | Out p c e :: In q err v :: _ =>
      b2z ((p =? RTC_ADDR_REG) && (c =? RTC_REGISTER_C) && (e =? 0) &&
           (q =? RTC_DATA_REG) && (err =? 0) && has_bits (u8 v) RTC_PF)
  | _ => 0
  end.

Lemma periodic_seen_le t : periodic_seen t <= 1.
Proof. destruct t as [|[] [|[] t]]; cbn; try done. by destruct (_ && _). Qed.

Section RtcProofs.
Context {D : Type} `{!Device D}.

(** Half-seconds left on the round clock. *)
Definition half_seconds (r : rtc D) : Z := 2 * game_timer r - pie_state r.

Lemma rtc_ih_half_seconds (r : rtc D) :
  0 <= pie_state r <= 1 -> 2 * INT_MIN < half_seconds r ->
  wp rtc_ih (fun _ r' => 0 <= pie_state r' <= 1 /\ exists t,
    trace (rtc_hw r') = trace (rtc_hw r) ++ t /\
    half_seconds r' = half_seconds r - periodic_seen t) r.
Proof.
  intros Hp Hr. unfold rtc_ih, rtc_on_hw, rtc_int_cause, half_seconds in *.
  repeat hw_step; cbn.
  - split; [done|]. eexists. rewrite <- app_assoc. split; [reflexivity|].
    cbn. destruct (Z.eqb_spec err 0); [done|]. cbn. lia.
  - assert (forall rest, periodic_seen
      ([Out RTC_ADDR_REG RTC_REGISTER_C 0; In RTC_DATA_REG 0 v] ++ rest)
      = b2z (has_bits (u8 v) RTC_PF)) as Hseen by done.
    set (m := if has_bits (u8 v) RTC_PF then _ else _).
    eapply (wp_mono m (fun _ r' => 0 <= pie_state r' <= 1 /\
      trace (rtc_hw r') = trace (rtc_hw r) ++
        [Out RTC_ADDR_REG RTC_REGISTER_C 0; In RTC_DATA_REG 0 v] /\
      half_seconds r' = half_seconds r - b2z (has_bits (u8 v) RTC_PF))).
    { unfold m, half_seconds. destruct (has_bits (u8 v) RTC_PF); wp_steps.
      - cbn. destruct (Z.eqb_spec (pie_state r) 1) as [E|E].
        + wp_steps. unfold int_pred. cbn. destruct (Z.ltb_spec INT_MIN (game_timer r)); [|lia].
          wp_steps. cbn. rewrite <- app_assoc. split; [done|]. split; [done|]. cbn; lia.
        + wp_steps. cbn. rewrite <- app_assoc, (wrap_small 8) by lia. split; [lia|]. split; [done|]. cbn; lia.
      - cbn. rewrite <- app_assoc. split_and!; [lia|lia|done|lia]. }
    intros _ r1 (Hp1 & Ht1 & Hh1). unfold half_seconds in Hh1.
    destruct (has_bits (u8 v) RTC_UF).
    + wp_step. eapply wp_mono; [apply rtc_set_date_frame|].
      intros [e dt] r2 ([t Ht2] & Hr2 & _). wp_steps. cbn.
      rewrite Hr2. cbn. split; [done|].
      eexists. rewrite Ht2, Ht1, <- app_assoc. split; [reflexivity|]. rewrite Hseen. lia.
    + wp_steps. split; [done|]. exists ([Out RTC_ADDR_REG RTC_REGISTER_C 0; In RTC_DATA_REG 0 v] ++ []).
      rewrite app_nil_r at 1. split; [done|]. rewrite Hseen. lia.
  - done.
  - split; [done|]. eexists. split; [reflexivity|]. cbn.
    destruct (Z.eqb_spec err 0); [done|]. cbn. lia.
Qed.

(** The handler run on [n] successive interrupts. *)
Fixpoint rtc_run (n : nat) : prog (rtc D) unit :=
  match n with
  | O => ret tt
  | S n => rtc_ih ;;; rtc_run n
  end.

(** C14: the round timer counts seconds of 500 ms periodic interrupts: over
    any sequence of RTC interrupts that does not take the [int] below its
    least value (68 years of them), whatever else they announce, twice the
    timer minus the half-second flag drops by exactly the number of
    periodic interrupts that register C reported. *)
Theorem rtc_round_timer n (r : rtc D) :
  0 <= pie_state r <= 1 -> 2 * INT_MIN + Z.of_nat n <= half_seconds r ->
  wp (rtc_run n) (fun _ r' => 0 <= pie_state r' <= 1 /\ exists ts,
    length ts = n /\ trace (rtc_hw r') = trace (rtc_hw r) ++ concat ts /\
    half_seconds r' = half_seconds r - foldr Z.add 0 (periodic_seen <$> ts)) r.
Proof.
  revert r. induction n as [|n IH]; intros r Hp Hr; cbn [rtc_run].
  - wp_steps. split; [done|]. exists []. cbn. rewrite app_nil_r. split_and!; [done..|lia].
  - wp_step. eapply wp_mono; [apply rtc_ih_half_seconds; [done|lia]|].
    intros [] r1 (Hp1 & t & Ht & Hh). pose proof (periodic_seen_le t).
    eapply wp_mono; [apply IH; [done|lia]|].
    intros [] r2 (Hp2 & ts & Hl & Hts & Hhs). split; [done|].
    exists (t :: ts). cbn. split_and!; [lia| |lia].
    by rewrite Hts, Ht, <- app_assoc.
Qed.
End RtcProofs.

Lemma rtc_round_timer_witness :
  wp (rtc_run 4) (fun _ r' => game_timer r' = 158 /\ pie_state r' = 0)
    (mk_rtc (scripted [(0, 0x40); (0, 0x60); (0, 0x40); (0, 0x40)])
       zero_date 0x26 0x02 0 8 160) /\
  0 <= 0 <= 1.
Proof.
  pose proof (rtc_round_timer 4 (mk_rtc (scripted [(0, 0x40); (0, 0x60); (0, 0x40); (0, 0x40)])
       zero_date 0x26 0x02 0 8 160) ltac:(cbn; lia) ltac:(vm_compute; discriminate)) as H.
  split; [|lia].
  apply wp_Done in H. destruct H as ([] & r' & E & _).
  apply wp_Done. exists tt, r'. split; [exact E|].
  vm_compute in E. injection E as <-. vm_compute. split; reflexivity.
Defined.

(** The clock's BCD conversions are inverse to each other on 0..99 and on
    well-formed BCD bytes. *)
Lemma bcd_roundtrip v :
  (0 <= v < 100 -> bcd_to_decimal (binary_to_bcd v) = v) /\
  (0 <= v < 256 -> Z.land v 0xf < 10 -> Z.shiftr v 4 < 10 ->
     0 <= bcd_to_decimal v < 100 /\ binary_to_bcd (bcd_to_decimal v) = v).
Proof.
  split.
  - intros Hv. apply Z.eqb_eq. revert v Hv. apply (forall_below 100). by vm_compute.
  - intros Hv Hl Hh.
    pose proof (forall_byte (fun v => negb (Z.land v 0xf <? 10) || negb (Z.shiftr v 4 <? 10) ||
      ((0 <=? bcd_to_decimal v) && (bcd_to_decimal v <? 100) &&
       (binary_to_bcd (bcd_to_decimal v) =? v))) ltac:(by vm_compute) v Hv) as H.
    cbn beta in H. destruct (Z.ltb_spec (Z.land v 0xf) 10), (Z.ltb_spec (Z.shiftr v 4) 10);
      [|lia..]. cbn [negb orb] in H. bool_lia.
Qed.

Lemma bcd_roundtrip_at :
  bcd_to_decimal (binary_to_bcd 59) = 59 /\ binary_to_bcd (bcd_to_decimal 0x59) = 0x59.
Proof.
  split; [apply (bcd_roundtrip 59); lia|].
  apply (bcd_roundtrip 0x59); [lia|reflexivity|reflexivity].
Defined.

(** Each interrupt switch reads register B and writes back the same byte
    with exactly its bit set or cleared (bit 6 periodic, 5 alarm, 4 update),
    provided the read succeeded. *)
Lemma rtc_switches {D : Type} (dv : Device D) (h : hw D) :
  Forall (fun '(switch, bit, on) =>
    wp switch (fun _ h' => exists e0 err v e1 w e2,
      trace h' = trace h ++ [Out RTC_ADDR_REG RTC_REGISTER_B e0; In RTC_DATA_REG err v;
                             Out RTC_ADDR_REG RTC_REGISTER_B e1; Out RTC_DATA_REG w e2] /\
      (err = 0 -> forall i, 0 <= i < 8 ->
         Z.testbit w i = if i =? bit then on else Z.testbit v i)) h)
    [(enable_pie_int, 6, true); (enable_aie_int, 5, true); (enable_uie_int, 4, true);
     (disable_pie_int, 6, false); (disable_aie_int, 5, false); (disable_uie_int, 4, false)].
Proof.
  assert (forall f bit on, (forall b i, 0 <= i < 8 ->
      Z.testbit (f b) i = if i =? bit then on else Z.testbit b i) ->
    wp (rtc_b_update f) (fun _ h' => exists e0 err v e1 w e2,
      trace h' = trace h ++ [Out RTC_ADDR_REG RTC_REGISTER_B e0; In RTC_DATA_REG err v;
                             Out RTC_ADDR_REG RTC_REGISTER_B e1; Out RTC_DATA_REG w e2] /\
      (err = 0 -> forall i, 0 <= i < 8 ->
         Z.testbit w i = if i =? bit then on else Z.testbit v i)) h) as Hgen.
  { intros f bit on Hf. unfold rtc_b_update. wp_step. apply wp_uninit_byte. intros g _.
    wp_step. apply wp_rtc_read_reg. intros e0 err v d.
    destruct (Z.eqb_spec err 0) as [->|Herr]; apply wp_rtc_write_reg; intros e1 e2 d';
      eexists e0, _, v, e1, _, e2; cbn [trace]; rewrite <- app_assoc; (split; [reflexivity|]).
    - intros _ i Hi. unfold wrap. rewrite Z.mod_pow2_bits_low, Hf by lia.
      destruct (i =? bit); [done|]. by rewrite Z.mod_pow2_bits_low by lia.
    - done. }
  assert (forall i, 0 <= i < 8 ->
    i = 0 \/ i = 1 \/ i = 2 \/ i = 3 \/ i = 4 \/ i = 5 \/ i = 6 \/ i = 7) as Hcases by lia.
  repeat constructor; apply Hgen; intros b i Hi; rewrite ?Z.lor_spec, ?Z.land_spec;
    destruct (Hcases i Hi) as [->|[->|[->|[->|[->|[->|[->| ->]]]]]]]; cbn;
    rewrite ?orb_true_r, ?orb_false_r, ?andb_true_r, ?andb_false_r; done.
Qed.
