(* ===== verification/Queue.v ===== *)
(** * Queue

    The byte queues of [src/proj/system/lib/queue.c]: singly linked items
    malloc'd one by one behind a malloc'd pair of pointers, with the store of
    cells made explicit.  The file ends with the interface ([QueueStore])
    under which the serial port uses them: pointers to queues whose contents
    are first-in first-out lists, and which do not interfere.  The lists keep
    it as long as memory lasts: a failed [malloc] is used as it is. *)

From S2P Require Import Prelude.

(** ** The store

    A cell is one [malloc]'d block: an item of a queue or a queue itself;
    [None] is the null pointer. *)
Abbreviation loc := positive.

Inductive cell : Type :=
| QItem (byte : Z) (next : option loc)
| QHead (front back : option loc).

Abbreviation heap := (gmap loc cell).

(** [malloc]: whether it finds a free block, and which, is not known (it may
    be one that was freed, and that a dangling [back] still points to). *)
Class Malloc : Type := {
  malloc_loc : heap -> option loc;
  malloc_fresh h l : malloc_loc h = Some l -> h !! l = None;
}.
(** Memory that does not run out. *)
Class Plenty {MA : Malloc} : Prop := malloc_succeeds h : is_Some (malloc_loc h).

Section QueueOps.
Context {MA : Malloc}.

(** [None] is the null pointer; neither [queue_init] nor [queue_push] looks
    at it before it is used. *)
Definition malloc (c : cell) : prog heap (option loc) := fun h =>
  Done (malloc_loc h, match malloc_loc h with Some l => <[l := c]> h | None => h end).
(** Freeing a block that is not allocated is undefined. *)
Definition free (l : loc) : prog heap unit := fun h =>
  match h !! l with Some _ => Done (tt, delete l h) | None => Undef end.

Definition load_head (q : loc) : prog heap (option loc * option loc) :=
  c <- gets (fun h => h !! q) ;;
  match c with Some (QHead f b) => ret (f, b) | _ => undef end.
Definition load_item (a : loc) : prog heap (Z * option loc) :=
  c <- gets (fun h => h !! a) ;;
  match c with Some (QItem x n) => ret (x, n) | _ => undef end.
Definition store (l : loc) (c : cell) : prog heap unit :=
  modify (fun h => <[l := c]> h).

Definition queue_init : prog heap loc :=
  new_queue <- malloc (QHead None None) ;;
  new_queue <- defined new_queue ;;
  store new_queue (QHead None None) ;;;
  ret new_queue.

Definition queue_push (queue : loc) (byte : Z) : prog heap unit :=
  queue_item <- malloc (QItem (i16 byte) None) ;;
  queue_item <- defined queue_item ;;
  '(front, back) <- load_head queue ;;
  match front with
  | None => store queue (QHead (Some queue_item) (Some queue_item))
  | Some _ =>
      last <- defined back ;;
      '(x, _) <- load_item last ;;
      store last (QItem x (Some queue_item)) ;;;
      store queue (QHead front (Some queue_item))
  end.

Definition queue_front (queue : loc) : prog heap Z :=
  '(front, _) <- load_head queue ;;
  match front with
  | None => ret 0
  | Some a => '(byte, _) <- load_item a ;; ret byte
  end.

Definition queue_pop (queue : loc) : prog heap unit :=
  '(front, back) <- load_head queue ;;
  match front with
  | None => ret tt
  | Some item =>
      '(_, next) <- load_item item ;;
      store queue (QHead next back) ;;;
      free item
  end.

Definition queue_empty (queue : loc) : prog heap bool :=
  '(front, _) <- load_head queue ;;
  ret (bool_decide (front = None)).

(** The loop [while(!queue_empty(queue)) queue_pop(queue)]; there are no more
    rounds than cells. *)
Definition queue_clean (queue : loc) : prog heap unit :=
  cells <- gets size ;;
  iterate (S cells)
    (fun _ => empty <- queue_empty queue ;;
      if (empty : bool) then ret (inr tt) else (queue_pop queue ;;; ret (inl tt))) tt.

Definition queue_delete (queue : loc) : prog heap unit :=
  queue_clean queue ;;; free queue.
End QueueOps.

(** ** Representation

    [chain h locs l tail]: the cells at [locs] hold [l], each pointing to the
    next and the last one to [tail]. *)
Fixpoint chain (h : heap) (locs : list loc) (l : list Z) (tail : option loc) : Prop :=
  match locs, l with
  | [], [] => True
  | a :: locs, x :: l =>
      h !! a = Some (QItem x (match locs with [] => tail | b :: _ => Some b end)) /\
      chain h locs l tail
  | _, _ => False
  end.

(** The queue at [q] has its items at [locs]; when it is empty its [back] may
    be anything. *)
Definition queue_at (h : heap) (q : loc) (locs : list loc) (l : list Z) : Prop :=
  chain h locs l None /\ NoDup locs /\
  exists b, h !! q = Some (QHead (head locs) b) /\ (locs <> [] -> b = last locs).

(** The store consists of exactly the queues [m], no two of them sharing an
    item: every cell is a queue or an item of one ([items]). *)
Record queues_with (items : loc -> list loc) (h : heap) (m : gmap loc (list Z)) : Prop :=
  mk_queues {
    qw_at q l : m !! q = Some l -> queue_at h q (items q) l;
    qw_apart q q' a : is_Some (m !! q) -> is_Some (m !! q') ->
      a ∈ items q -> a ∈ items q' -> q = q';
    qw_exact a : is_Some (h !! a) ->
      is_Some (m !! a) \/ exists q, is_Some (m !! q) /\ a ∈ items q;
  }.
Definition queues (h : heap) (m : gmap loc (list Z)) : Prop :=
  exists items, queues_with items h m.

Lemma chain_length h locs l t : chain h locs l t -> length locs = length l.
Proof.
  revert l. induction locs as [|a locs IH]; intros [|x l] H; try done.
  cbn. f_equal. apply IH, H.
Qed.

Lemma chain_item h locs l t a : chain h locs l t -> a ∈ locs ->
  exists x n, h !! a = Some (QItem x n).
Proof.
  revert l. induction locs as [|b locs IH]; intros [|x l] H Ha; try done.
  { by apply not_elem_of_nil in Ha. }
  destruct H as [Hb H]. apply elem_of_cons in Ha as [-> | Ha]; eauto.
Qed.

(** A chain only depends on its own cells. *)
Lemma chain_frame h h' locs l t :
  (forall a, a ∈ locs -> h' !! a = h !! a) -> chain h locs l t -> chain h' locs l t.
Proof.
  revert l. induction locs as [|a locs IH]; intros [|x l] Heq H; try done.
  destruct H as [Ha H]. split.
  - rewrite Heq by apply list_elem_of_here. done.
  - apply IH; [|done]. intros b Hb. apply Heq. by apply list_elem_of_further.
Qed.

Lemma chain_snoc h locs l t a x :
  chain h locs l (Some a) -> h !! a = Some (QItem x t) -> chain h (locs ++ [a]) (l ++ [x]) t.
Proof.
  revert l. induction locs as [|b locs IH]; intros [|y l] H Ha; try done.
  destruct H as [Hb H]. cbn. split; [|by apply IH].
  rewrite Hb. by destruct locs.
Qed.

Lemma chain_last h locs l a x t :
  chain h (locs ++ [a]) (l ++ [x]) t -> h !! a = Some (QItem x t).
Proof.
  revert l. induction locs as [|b locs IH]; intros [|y l] H; cbn in H.
  - apply H.
  - destruct H as [_ H]. by destruct l.
  - destruct H as [_ H]. by destruct locs.
  - destruct H as [_ H]. by apply (IH l).
Qed.

(** Redirecting the last item. *)
Lemma chain_redirect h locs l z x t t' :
  chain h (locs ++ [z]) (l ++ [x]) t -> NoDup (locs ++ [z]) ->
  chain (<[z := QItem x t']> h) (locs ++ [z]) (l ++ [x]) t'.
Proof.
  revert l. induction locs as [|b locs IH]; intros l H Hnd.
  - destruct l as [|y l]; cbn in *.
    + by rewrite lookup_insert_eq.
    + destruct H as [_ H]. by destruct l.
  - destruct l as [|y l]; cbn in *.
    { destruct H as [_ H]. by destruct locs. }
    destruct H as [Hb H]. apply NoDup_cons in Hnd as [Hnin Hnd]. split; [|by apply IH].
    rewrite lookup_insert_ne.
    + rewrite Hb. by destruct locs.
    + intros ->. apply Hnin, elem_of_app. right. by apply list_elem_of_singleton.
Qed.

Lemma queue_at_frame h h' q locs l :
  h' !! q = h !! q -> (forall a, a ∈ locs -> h' !! a = h !! a) ->
  queue_at h q locs l -> queue_at h' q locs l.
Proof.
  intros Hq Hl (Hc & Hnd & Hh). split_and!; [by eapply chain_frame|done|by rewrite Hq].
Qed.

Section Rules.
Context {MA : Malloc}.
Implicit Types (h : heap) (m : gmap loc (list Z)).

Lemma wp_malloc c (Q : option loc -> heap -> Prop) h : is_Some (malloc_loc h) ->
  (forall l, h !! l = None -> Q (Some l) (<[l := c]> h)) -> wp (malloc c) Q h.
Proof. intros [l E] H. unfold wp, malloc. rewrite E. by apply H, malloc_fresh. Qed.
Lemma wp_free l (Q : unit -> heap -> Prop) h :
  is_Some (h !! l) -> Q tt (delete l h) -> wp (free l) Q h.
Proof. intros [c Hc] H. unfold wp, free. by rewrite Hc. Qed.
Lemma wp_load_head q f b (Q : _ -> heap -> Prop) h :
  h !! q = Some (QHead f b) -> Q (f, b) h -> wp (load_head q) Q h.
Proof. intros Hq H. unfold load_head. wp_steps. by rewrite Hq. Qed.
Lemma wp_load_item a x n (Q : _ -> heap -> Prop) h :
  h !! a = Some (QItem x n) -> Q (x, n) h -> wp (load_item a) Q h.
Proof. intros Ha H. unfold load_item. wp_steps. by rewrite Ha. Qed.
Lemma wp_store l c (Q : unit -> heap -> Prop) h : Q tt (<[l := c]> h) -> wp (store l c) Q h.
Proof. done. Qed.

(** A queue is no item of any queue. *)
Lemma head_not_item items h m q q' :
  queues_with items h m -> is_Some (m !! q) -> is_Some (m !! q') -> q ∉ items q'.
Proof.
  intros Hw [l Hl] [l' Hl'] Hin.
  destruct (qw_at _ _ _ Hw _ _ Hl) as (_ & _ & b & Hh & _).
  destruct (qw_at _ _ _ Hw _ _ Hl') as (Hc & _).
  destruct (chain_item _ _ _ _ _ Hc Hin) as (x & n & Hx). congruence.
Qed.

(** Replacing the contents of one queue: its cells may change, cells may be
    taken from the free ones, everything else must stay. *)
Lemma queues_update items h h' m q l l' ls' :
  queues_with items h m -> m !! q = Some l ->
  queue_at h' q ls' l' ->
  (forall a, a <> q -> a ∉ items q -> a ∉ ls' -> h' !! a = h !! a) ->
  (forall a, a ∈ ls' -> a ∈ items q \/ h !! a = None) ->
  (forall a, a ∈ items q -> a ∉ ls' -> h' !! a = None) ->
  queues h' (<[q := l']> m).
Proof.
  intros Hw Hq Hat Hsame Hnew Hgone.
  assert (forall q', q' <> q -> is_Some (m !! q') ->
    h' !! q' = h !! q' /\ forall a, a ∈ items q' -> h' !! a = h !! a) as Hother.
  { intros q' Hne Hq'. pose proof Hq' as [l2 Hl2].
    destruct (qw_at _ _ _ Hw _ _ Hl2) as (Hc & _ & b & Hh & _).
    assert (forall a, is_Some (h !! a) -> a ∉ items q -> a ∉ ls') as Hn.
    { intros a [c Ha] Hi Hin. destruct (Hnew a Hin); [done|congruence]. }
    split.
    - assert (q' ∉ items q) by (eapply head_not_item; eauto).
      apply Hsame; [done|done|]. apply Hn; [by eexists|done].
    - intros a Ha. assert (a ∉ items q) as Hni.
      { intros Ha'. apply Hne. eapply (qw_apart _ _ _ Hw); eauto. }
      destruct (chain_item _ _ _ _ _ Hc Ha) as (x & n & Hx).
      apply Hsame; [|done|apply Hn; [by eexists|done]].
      intros ->. eapply (head_not_item _ _ _ q q'); eauto. }
  exists (fun p => if decide (p = q) then ls' else items p). split.
  - intros p lp Hp. destruct (decide (p = q)) as [->|Hne].
    + rewrite lookup_insert_eq in Hp. by injection Hp as <-.
    + rewrite lookup_insert_ne in Hp by done.
      destruct (Hother p Hne ltac:(by eexists)). eapply queue_at_frame; [done..|].
      by apply (qw_at _ _ _ Hw).
  - assert (forall p, is_Some (<[q:=l']> m !! p) -> is_Some (m !! p)) as Hdom.
    { intros p. rewrite lookup_insert_is_Some. intros [<- | [_ ?]]; [by eexists|done]. }
    assert (forall p a, p <> q -> is_Some (m !! p) -> a ∈ items p -> a ∈ ls' -> False) as Hap.
    { intros p a Hne Hp Ha Ha'. destruct (Hnew a Ha') as [Hi|Hi].
      - apply Hne. eapply (qw_apart _ _ _ Hw); eauto.
      - destruct Hp as [lp Hp]. destruct (qw_at _ _ _ Hw _ _ Hp) as (Hc & _).
        destruct (chain_item _ _ _ _ _ Hc Ha) as (x & n & Hx). congruence. }
    intros p p' a Hp%Hdom Hp'%Hdom.
    destruct (decide (p = q)) as [->|], (decide (p' = q)) as [->|]; intros Ha Ha'; try done.
    + by destruct (Hap p' a).
    + by destruct (Hap p a).
    + eapply (qw_apart _ _ _ Hw); eauto.
  - intros a Ha. destruct (decide (a = q)) as [->|Hne].
    { left. rewrite lookup_insert_eq. by eexists. }
    destruct (decide (a ∈ ls')) as [Hin|Hin].
    { right. exists q. rewrite lookup_insert_eq. rewrite decide_True by done. by split; [eexists|]. }
    destruct (decide (a ∈ items q)) as [Hi|Hi].
    { rewrite Hgone in Ha by done. by destruct Ha. }
    rewrite Hsame in Ha by done. destruct (qw_exact _ _ _ Hw _ Ha) as [Hm|(p & Hp & Hap)].
    + left. rewrite lookup_insert_ne by done. done.
    + right. exists p. assert (p <> q) by (intros ->; done).
      rewrite decide_False, lookup_insert_ne by done. done.
Qed.
End Rules.

(** ** What the queues promise

    The interface of [queue.h]: a store of named first-in first-out lists,
    whose operations act on the queue they are given and on no other.  An
    implementation that allocates keeps these promises only while memory lasts
    ([linked_queue_laws] has the hypothesis [Plenty]). *)
Class QueueStore (S : Type) : Type := {
  q_init : prog S loc;
  q_push : loc -> Z -> prog S unit;
  q_front : loc -> prog S Z;
  q_pop : loc -> prog S unit;
  q_empty : loc -> prog S bool;
  q_clean : loc -> prog S unit;
  q_delete : loc -> prog S unit;
}.

Class QueueLaws (S : Type) {QS : QueueStore S} : Type := {
  q_rep : S -> gmap loc (list Z) -> Prop;
  q_init_law m s : q_rep s m ->
    wp q_init (fun q s' => m !! q = None /\ q_rep s' (<[q := []]> m)) s;
  q_push_law m s q l x : q_rep s m -> m !! q = Some l ->
    wp (q_push q x) (fun _ s' => q_rep s' (<[q := l ++ [i16 x]]> m)) s;
  q_front_law m s q l : q_rep s m -> m !! q = Some l ->
    wp (q_front q) (fun r s' => r = default 0 (head l) /\ s' = s) s;
  q_pop_law m s q l : q_rep s m -> m !! q = Some l ->
    wp (q_pop q) (fun _ s' => q_rep s' (<[q := tail l]> m)) s;
  q_empty_law m s q l : q_rep s m -> m !! q = Some l ->
    wp (q_empty q) (fun r s' => r = bool_decide (l = []) /\ s' = s) s;
  q_clean_law m s q l : q_rep s m -> m !! q = Some l ->
    wp (q_clean q) (fun _ s' => q_rep s' (<[q := []]> m)) s;
  q_delete_law m s q l : q_rep s m -> m !! q = Some l ->
    wp (q_delete q) (fun _ s' => q_rep s' (delete q m)) s;
}.

(** ** The linked lists implement the interface *)
#[export] Instance linked_queues {MA : Malloc} : QueueStore heap := {|
  q_init := queue_init;
  q_push := queue_push;
  q_front := queue_front;
  q_pop := queue_pop;
  q_empty := queue_empty;
  q_clean := queue_clean;
  q_delete := queue_delete;
|}.

Section Laws.
Context {MA : Malloc}.
Implicit Types (h : heap) (m : gmap loc (list Z)).

Lemma queue_init_law m h : is_Some (malloc_loc h) -> queues h m ->
  wp queue_init (fun q h' => m !! q = None /\ queues h' (<[q := []]> m)) h.
Proof.
  intros Hmem [items Hw]. unfold queue_init. wp_step. apply wp_malloc; [done|]. intros q Hq. cbn [defined].
  do 3 wp_step. apply wp_store. apply wp_ret. rewrite insert_insert_eq.
  assert (m !! q = None) as Hm.
  { destruct (m !! q) as [l|] eqn:E; [|done].
    destruct (qw_at _ _ _ Hw _ _ E) as (_ & _ & b & Hh & _). congruence. }
  split; [done|].
  exists (fun p => if decide (p = q) then [] else items p). split.
  - intros p l. destruct (decide (p = q)) as [->|Hne].
    + rewrite lookup_insert_eq. intros [= <-]. split_and!; [done|constructor|].
      exists None. by rewrite lookup_insert_eq.
    + rewrite lookup_insert_ne by done. intros Hp.
      pose proof (qw_at _ _ _ Hw _ _ Hp) as Hat.
      eapply queue_at_frame; [by rewrite lookup_insert_ne| |done].
      intros a Ha. apply lookup_insert_ne. intros <-. destruct Hat as [Hc _].
      destruct (chain_item _ _ _ _ _ Hc Ha) as (x & n & Hx). congruence.
  - intros p p' a. rewrite !lookup_insert_is_Some.
    destruct (decide (p = q)), (decide (p' = q)); subst;
      try (intros _ _ []%not_elem_of_nil); try (intros _ _ _ []%not_elem_of_nil).
    intros [->|[_ Hp]] [->|[_ Hp']]; try done. intros. eapply (qw_apart _ _ _ Hw); eauto.
  - intros a. rewrite !lookup_insert_is_Some. intros [<-|[Hne Ha]]; [by left; left|].
    destruct (qw_exact _ _ _ Hw _ Ha) as [?|(p & Hp & Hin)]; [left; by right|].
    right. exists p. assert (p <> q) by (intros ->; by destruct Hp; congruence).
    rewrite decide_False by done. by rewrite lookup_insert_ne.
Qed.

Lemma queue_empty_law m h q l : queues h m -> m !! q = Some l ->
  wp (queue_empty q) (fun r h' => r = bool_decide (l = []) /\ h' = h) h.
Proof.
  intros [items Hw] Hq. destruct (qw_at _ _ _ Hw _ _ Hq) as (Hc & _ & b & Hh & _).
  unfold queue_empty. wp_step. eapply wp_load_head; [done|]. cbn. wp_steps. split; [|done].
  apply chain_length in Hc. apply bool_decide_ext. by destruct (items q), l.
Qed.

Lemma queue_front_law m h q l : queues h m -> m !! q = Some l ->
  wp (queue_front q) (fun r h' => r = default 0 (head l) /\ h' = h) h.
Proof.
  intros [items Hw] Hq. destruct (qw_at _ _ _ Hw _ _ Hq) as (Hc & _ & b & Hh & _).
  unfold queue_front. wp_step. eapply wp_load_head; [done|]. cbn.
  destruct (items q) as [|a ls], l as [|x l]; try done; cbn. wp_step.
  destruct Hc as [Ha _]. by eapply wp_load_item.
Qed.

Lemma queue_pop_law m h q l : queues h m -> m !! q = Some l ->
  wp (queue_pop q) (fun _ h' => queues h' (<[q := tail l]> m)) h.
Proof.
  intros [items Hw] Hq. pose proof (qw_at _ _ _ Hw _ _ Hq) as (Hc & Hnd & b & Hh & Hb).
  unfold queue_pop. wp_step. eapply wp_load_head; [done|]. cbn.
  destruct (items q) as [|a ls] eqn:Ei, l as [|x l]; try done; cbn.
  { wp_steps. exists items. by rewrite insert_id. }
  destruct Hc as [Ha Hc]. apply NoDup_cons in Hnd as [Hni Hnd].
  assert (a <> q) as Haq.
  { intros ->. apply (head_not_item items h m q q); [done|by eexists..|].
    rewrite Ei. apply list_elem_of_here. }
  wp_step. eapply wp_load_item; [done|]. cbn. wp_step. apply wp_store. apply wp_free.
  { rewrite lookup_insert_ne by done. by eexists. }
  eapply (queues_update items h _ m q (x :: l) l ls); [done|done|..].
  - split_and!.
    + eapply chain_frame; [|done]. intros c Hin.
      assert (c <> a) by (intros ->; done).
      assert (c <> q).
      { intros ->. apply (head_not_item items h m q q); [done|by eexists..|].
        rewrite Ei. by apply list_elem_of_further. }
      by rewrite lookup_delete_ne, lookup_insert_ne.
    + done.
    + exists b. rewrite lookup_delete_ne, lookup_insert_eq by done.
      split; [by destruct ls|]. intros Hne. rewrite Hb by done. by destruct ls.
  - intros c Hcq Hci _. rewrite Ei in Hci. apply not_elem_of_cons in Hci as [Hca _].
    by rewrite lookup_delete_ne, lookup_insert_ne.
  - intros c Hin. left. rewrite Ei. by apply list_elem_of_further.
  - intros c Hin Hnin. rewrite Ei in Hin. apply elem_of_cons in Hin as [->|Hin]; [|done].
    apply lookup_delete_eq.
Qed.

Lemma queue_push_law m h q l x : is_Some (malloc_loc h) -> queues h m -> m !! q = Some l ->
  wp (queue_push q x) (fun _ h' => queues h' (<[q := l ++ [i16 x]]> m)) h.
Proof.
  intros Hmem [items Hw] Hq. pose proof (qw_at _ _ _ Hw _ _ Hq) as (Hc & Hnd & b & Hh & Hb).
  unfold queue_push. wp_step. apply wp_malloc; [done|]. intros n Hn. cbn [defined]. wp_step.
  assert (n <> q) as Hnq by congruence.
  assert (n ∉ items q) as Hni.
  { intros Hin. destruct (chain_item _ _ _ _ _ Hc Hin) as (y & k & Hy). congruence. }
  do 2 wp_step. eapply wp_load_head; [by rewrite lookup_insert_ne|]. cbn.
  destruct (items q) as [|a ls _] eqn:Ei using rev_ind.
  { destruct l as [|y l]; [|done]. cbn. apply wp_store.
    eapply (queues_update items h _ m q [] [i16 x] [n]); [done|done|..].
    - split_and!; [|apply NoDup_singleton|].
      + cbn. by rewrite lookup_insert_ne, lookup_insert_eq.
      + eexists. rewrite lookup_insert_eq. done.
    - intros c Hcq _ Hcn. apply not_elem_of_cons in Hcn as [Hcn _].
      by rewrite !lookup_insert_ne.
    - intros c Hin. apply list_elem_of_singleton in Hin as ->. by right.
    - intros c Hin. rewrite Ei in Hin. by apply not_elem_of_nil in Hin. }
  assert (exists f, head (ls ++ [a]) = Some f) as [f Hf] by (destruct ls; by eexists).
  destruct l as [|y l _] using rev_ind.
  { apply chain_length in Hc. rewrite length_app in Hc. cbn in Hc. lia. }
  rewrite Hf in Hh |- *. rewrite Hb by (by destruct ls). rewrite last_snoc.
  assert (h !! a = Some (QItem y None)) as Ha by (by eapply chain_last).
  assert (a <> q) as Haq by congruence. assert (a <> n) as Han by congruence.
  cbn. wp_steps. eapply wp_load_item; [by rewrite lookup_insert_ne|]. cbn.
  wp_step. apply wp_store. apply wp_store.
  apply NoDup_app in Hnd as (Hnd & Hdisj & _).
  assert (forall c, c ∈ ls -> h !! c <> None /\ c <> q /\ c <> n /\ c <> a) as Hls.
  { intros c Hin. destruct (chain_item _ _ _ _ c Hc) as (k & nx & Hk).
    { apply elem_of_app. by left. }
    split_and!; [congruence..|]. intros ->. apply (Hdisj a); [done|].
    apply list_elem_of_here. }
  eapply (queues_update items h _ m q _ _ (ls ++ [a; n])); [done|done|..].
  - split_and!.
    + change [a; n] with ([a] ++ [n]). rewrite app_assoc. apply chain_snoc.
      * eapply (chain_frame (<[a:=QItem y (Some n)]> h)).
        -- intros c [Hin|Hin]%elem_of_app.
           ++ destruct (Hls c Hin) as (_ & ? & ? & ?). by rewrite !lookup_insert_ne.
           ++ apply list_elem_of_singleton in Hin as ->.
              by rewrite lookup_insert_ne, !lookup_insert_eq by done.
        -- eapply chain_redirect; [done|]. apply NoDup_app. split_and!; [done|done|].
           apply NoDup_singleton.
      * by rewrite lookup_insert_ne, lookup_insert_ne, lookup_insert_eq by done.
    + apply NoDup_app. split_and!; [done| |].
      * intros c Hin. destruct (Hls c Hin) as (_ & _ & ? & ?).
        rewrite !not_elem_of_cons. split_and!; [done|done|]. apply not_elem_of_nil.
      * apply NoDup_cons. split; [|apply NoDup_singleton]. by intros ->%list_elem_of_singleton.
    + exists (Some n). rewrite lookup_insert_eq. split; [|by rewrite last_app].
      rewrite <- Hf. by destruct ls.
  - intros c Hcq Hci Hcn. rewrite Ei in Hci.
    rewrite not_elem_of_app in Hci. destruct Hci as [Hc1 Hc2].
    apply not_elem_of_app in Hcn as [_ [Hca [Hcn _]%not_elem_of_cons]%not_elem_of_cons].
    by rewrite !lookup_insert_ne by done.
  - intros c [Hin|Hin]%elem_of_app.
    + left. rewrite Ei. apply elem_of_app. by left.
    + apply elem_of_cons in Hin as [->|Hin].
      * left. rewrite Ei. apply elem_of_app. right. apply list_elem_of_here.
      * apply list_elem_of_singleton in Hin as ->. by right.
  - intros c Hin Hnin. rewrite Ei in Hin. destruct Hnin.
    apply elem_of_app in Hin as [Hin|Hin]; apply elem_of_app; [by left|].
    apply list_elem_of_singleton in Hin as ->. right. apply list_elem_of_here.
Qed.

(** A queue has no more items than the store has cells. *)
Lemma queue_at_size h q locs l : queue_at h q locs l -> (length l <= size h)%nat.
Proof.
  intros (Hc & Hnd & _). rewrite <- (chain_length _ _ _ _ Hc).
  rewrite <- size_dom, <- (size_list_to_set (C := gset loc)) by done.
  apply subseteq_size. intros a Ha%elem_of_list_to_set.
  destruct (chain_item _ _ _ _ _ Hc Ha) as (x & n & Hx). by apply elem_of_dom_2 in Hx.
Qed.

Lemma queue_clean_law m h q l : queues h m -> m !! q = Some l ->
  wp (queue_clean q) (fun _ h' => queues h' (<[q := []]> m)) h.
Proof.
  intros Hw Hq. unfold queue_clean. wp_steps.
  assert (length l < S (size h))%nat as Hlen.
  { destruct Hw as [items Hw]. pose proof (queue_at_size _ _ _ _ (qw_at _ _ _ Hw _ _ Hq)). lia. }
  apply (wp_iterate_rel _ (fun _ n h' => exists l', length l' = n /\ queues h' (<[q := l']> m))
    _ _ _ _ (length l)).
  - intros _ n h1 (l1 & Hn & Hw1). wp_step.
    eapply wp_mono; [eapply queue_empty_law; [done|apply lookup_insert_eq]|].
    intros r h2 [-> ->]. case_bool_decide as E.
    + subst l1. apply wp_ret. done.
    + wp_step. eapply wp_mono; [eapply queue_pop_law; [done|apply lookup_insert_eq]|].
      intros [] h2 Hw2. apply wp_ret. rewrite insert_insert_eq in Hw2.
      exists (length (tail l1)). split; [|by exists (tail l1)].
      destruct l1; [done|]. cbn in *. lia.
  - exists l. by rewrite insert_id.
  - done.
Qed.

Lemma queue_delete_law m h q l : queues h m -> m !! q = Some l ->
  wp (queue_delete q) (fun _ h' => queues h' (delete q m)) h.
Proof.
  intros Hw Hq. unfold queue_delete. wp_step.
  eapply wp_mono; [by eapply queue_clean_law|]. intros _ h1 [items Hw1].
  pose proof (qw_at _ _ _ Hw1 q [] (lookup_insert_eq _ _ _)) as (Hc & Hnd & b & Hh & Hb).
  apply wp_free; [by eexists|].
  assert (items q = []) as Hi by (by destruct (items q)).
  assert (forall p, is_Some (delete q m !! p) -> p <> q /\ is_Some (<[q:=[]]> m !! p)) as Hdel.
  { intros p [lp Hp]. apply lookup_delete_Some in Hp as [Hne Hp].
    split; [done|]. rewrite lookup_insert_ne by done. by eexists. }
  exists items. split.
  - intros p lp Hp. apply lookup_delete_Some in Hp as [Hne Hp].
    rewrite <- (lookup_insert_ne m q p []) in Hp by done.
    eapply queue_at_frame; [by rewrite lookup_delete_ne| |by apply (qw_at _ _ _ Hw1)].
    intros a Ha. apply lookup_delete_ne. intros <-.
    eapply (head_not_item _ _ _ q p); [done| |by eexists|done].
    rewrite lookup_insert_eq. by eexists.
  - intros p p' a [_ Hp]%Hdel [_ Hp']%Hdel. by apply (qw_apart _ _ _ Hw1).
  - intros a [c Hc']. apply lookup_delete_Some in Hc' as [Hne Hc'].
    destruct (qw_exact _ _ _ Hw1 a ltac:(by eexists)) as [Hm|(p & Hp & Hin)].
    + left. rewrite lookup_insert_ne in Hm by done. by rewrite lookup_delete_ne.
    + right. exists p. assert (p <> q) by (intros ->; rewrite Hi in Hin; by apply not_elem_of_nil in Hin).
      rewrite lookup_insert_ne in Hp by done. by rewrite lookup_delete_ne.
Qed.

#[export] Instance linked_queue_laws {PL : Plenty} : QueueLaws heap := {|
  q_rep := queues;
  q_init_law m h := queue_init_law m h (malloc_succeeds h);
  q_push_law m h q l x := queue_push_law m h q l x (malloc_succeeds h);
  q_front_law := queue_front_law;
  q_pop_law := queue_pop_law;
  q_empty_law := queue_empty_law;
  q_clean_law := queue_clean_law;
  q_delete_law := queue_delete_law;
|}.
End Laws.

(** ** Runs of a client

    A client's calls with the results it saw; [fifo_step] is what a
    first-in first-out queue may answer. *)
Inductive queue_call : Type :=
| Init | Push (q : loc) (x : Z) | Front (q : loc) | Pop (q : loc)
| Empty (q : loc) | Clean (q : loc) | Delete (q : loc).
Inductive queue_answer : Type :=
| Nothing | Pointer (q : loc) | Byte (x : Z) | Flag (b : bool).

Inductive fifo_step (m : gmap loc (list Z)) :
    queue_call -> queue_answer -> gmap loc (list Z) -> Prop :=
| fifo_init q : m !! q = None -> fifo_step m Init (Pointer q) (<[q := []]> m)
| fifo_push q l x : m !! q = Some l -> fifo_step m (Push q x) Nothing (<[q := l ++ [i16 x]]> m)
| fifo_front_empty q : m !! q = Some [] -> fifo_step m (Front q) (Byte 0) m
| fifo_front q x l : m !! q = Some (x :: l) -> fifo_step m (Front q) (Byte x) m
| fifo_pop_empty q : m !! q = Some [] -> fifo_step m (Pop q) Nothing m
| fifo_pop q x l : m !! q = Some (x :: l) -> fifo_step m (Pop q) Nothing (<[q := l]> m)
| fifo_empty q l : m !! q = Some l -> fifo_step m (Empty q) (Flag (bool_decide (l = []))) m
| fifo_clean q l : m !! q = Some l -> fifo_step m (Clean q) Nothing (<[q := []]> m)
| fifo_delete q l : m !! q = Some l -> fifo_step m (Delete q) Nothing (delete q m).

Inductive fifo_run (m : gmap loc (list Z)) :
    list (queue_call * queue_answer) -> gmap loc (list Z) -> Prop :=
| fifo_nil : fifo_run m [] m
| fifo_cons c a t m1 m2 : fifo_step m c a m1 -> fifo_run m1 t m2 -> fifo_run m ((c, a) :: t) m2.

(** The calls that call [malloc]. *)
Definition allocates (c : queue_call) : bool := match c with Init | Push _ _ => true | _ => false end.

(** The calls a client may make: on queues that exist. *)
Definition live (m : gmap loc (list Z)) (c : queue_call) : Prop :=
  match c with
  | Init => True
  | Push q _ | Front q | Pop q | Empty q | Clean q | Delete q => is_Some (m !! q)
  end.

Section Runs.
Context {MA : Malloc}.

Definition call (c : queue_call) : prog heap queue_answer :=
  match c with
  | Init => q <- queue_init ;; ret (Pointer q)
  | Push q x => queue_push q x ;;; ret Nothing
  | Front q => x <- queue_front q ;; ret (Byte x)
  | Pop q => queue_pop q ;;; ret Nothing
  | Empty q => b <- queue_empty q ;; ret (Flag b)
  | Clean q => queue_clean q ;;; ret Nothing
  | Delete q => queue_delete q ;;; ret Nothing
  end.

(** What a call does when memory has run out. *)
Lemma call_without_memory c h : allocates c = true -> malloc_loc h = None -> call c h = Undef.
Proof.
  destruct c; try done; intros _ E; unfold call, queue_init, queue_push, bind, malloc; by rewrite E.
Qed.

Lemma call_simulates c h m : queues h m -> live m c -> (allocates c = true -> is_Some (malloc_loc h)) ->
  wp (call c) (fun a h' => exists m', fifo_step m c a m' /\ queues h' m') h.
Proof.
  intros Hw Hl Hmem. destruct c as [|q x|q|q|q|q|q]; cbn [call live allocates] in *;
    [|destruct Hl as [l Hl]..]; wp_step.
  - eapply wp_mono; [by apply queue_init_law; [apply Hmem|]|]. intros q h' [Hq Hw']. wp_step.
    eexists. split; [by constructor|done].
  - eapply wp_mono; [by eapply queue_push_law; [apply Hmem|..]|]. intros [] h' Hw'; cbn beta in Hw'. wp_step.
    eexists. split; [by constructor|done].
  - eapply wp_mono; [by eapply queue_front_law|]. intros r h' [-> ->]. wp_step.
    exists m. split; [|done]. destruct l; by econstructor.
  - eapply wp_mono; [by eapply queue_pop_law|]. intros [] h' Hw'; cbn beta in Hw'. wp_step.
    destruct l as [|x l]; cbn in Hw'.
    + exists m. split; [by constructor|]. by rewrite insert_id in Hw'.
    + eexists. split; [by econstructor|done].
  - eapply wp_mono; [by eapply queue_empty_law|]. intros r h' [-> ->]. wp_step.
    exists m. split; [by constructor|done].
  - eapply wp_mono; [by eapply queue_clean_law|]. intros [] h' Hw'; cbn beta in Hw'. wp_step.
    eexists. split; [by econstructor|done].
  - eapply wp_mono; [by eapply queue_delete_law|]. intros [] h' Hw'; cbn beta in Hw'. wp_step.
    eexists. split; [by econstructor|done].
Qed.

Lemma queues_empty : queues ∅ ∅.
Proof.
  exists (fun _ => []). split.
  - intros q l. by rewrite lookup_empty.
  - intros q q' a [l Hl]. by rewrite lookup_empty in Hl.
  - intros a [c Hc]. by rewrite lookup_empty in Hc.
Qed.

Lemma queues_none_left h : queues h ∅ -> h = ∅.
Proof.
  intros [items Hw]. apply map_eq. intros a. rewrite lookup_empty.
  destruct (h !! a) eqn:E; [|done].
  destruct (qw_exact _ _ _ Hw a ltac:(by eexists)) as [[? H]|(q & [? H] & _)];
    by rewrite lookup_empty in H.
Qed.

(** A client: given what it has seen so far, its next call. *)
Fixpoint client_run (n : nat) (client : list (queue_call * queue_answer) -> queue_call)
    (seen : list (queue_call * queue_answer)) : prog heap (list (queue_call * queue_answer)) :=
  match n with
  | O => ret seen
  | S n => a <- call (client seen) ;; client_run n client (seen ++ [(client seen, a)])
  end.

(** The client only uses queues that exist. *)
Definition well_behaved (client : list (queue_call * queue_answer) -> queue_call) : Prop :=
  forall seen m, fifo_run ∅ seen m -> live m (client seen).

Lemma fifo_run_snoc m t m1 c a m2 :
  fifo_run m t m1 -> fifo_step m1 c a m2 -> fifo_run m (t ++ [(c, a)]) m2.
Proof. induction 1; intros Hs; cbn; econstructor; eauto using fifo_run. Qed.

(** C5: the linked lists are first-in first-out queues for any client that
    only names existing queues: however many queues it keeps and in whatever
    order it calls, every call returns as long as [malloc] does, every answer
    is one the abstract queues give, and once the client has deleted all its
    queues no block is left allocated.  The only undefined behaviour is the
    null pointer that [queue_init] and [queue_push] use unchecked: the run
    stops only at such a call, with the queues in order until then, when
    [malloc] has no block. *)
Theorem queue_refines_fifo n client :
  well_behaved client ->
  match client_run n client [] ∅ with
  | Done (seen, h) => length seen = n /\
      exists m, fifo_run ∅ seen m /\ queues h m /\ (m = ∅ -> h = ∅)
  | Undef => exists seen h m, (length seen < n)%nat /\ fifo_run ∅ seen m /\ queues h m /\
      allocates (client seen) = true /\ malloc_loc h = None
  | OutOfFuel => False
  end.
Proof.
  intros Hwb.
  assert (forall k seen h m, fifo_run ∅ seen m -> queues h m -> (length seen + k = n)%nat ->
    match client_run k client seen h with
    | Done (seen, h) => length seen = n /\ exists m, fifo_run ∅ seen m /\ queues h m /\ (m = ∅ -> h = ∅)
    | Undef => exists seen h m, (length seen < n)%nat /\ fifo_run ∅ seen m /\ queues h m /\
        allocates (client seen) = true /\ malloc_loc h = None
    | OutOfFuel => False
    end) as Hgen; [|by apply (Hgen n [] ∅ ∅); [constructor|apply queues_empty|]].
  induction k as [|k IH]; intros seen h m Hr Hw Hn; cbn [client_run].
  - split; [lia|]. exists m. split_and!; [done..|]. intros ->. by apply queues_none_left.
  - unfold bind. destruct (allocates (client seen)) eqn:Ea; [destruct (malloc_loc h) eqn:Em|].
    2: { rewrite call_without_memory by done. exists seen, h, m. split_and!; [lia|done..]. }
    all: pose proof (call_simulates (client seen) h m Hw (Hwb _ _ Hr)) as Hc; rewrite Ea in Hc;
      apply (proj1 (wp_Done _ _ _)) in Hc as (a & h' & -> & m' & Hs & Hw'); [|by rewrite ?Em..];
      apply (IH _ _ m'); [by eapply fifo_run_snoc|done|rewrite length_app; cbn; lia].
Qed.
End Runs.

(** An allocator that takes the first free block. *)
#[export] Instance first_free : Malloc.
Proof.
  refine {| malloc_loc h := Some (fresh (dom h)) |}.
  intros h l [= <-]. apply not_elem_of_dom, is_fresh.
Defined.
#[export] Instance first_free_plenty : Plenty.
Proof. intros h. by eexists. Qed.

(** One that has [n] blocks. *)
Definition blocks_of (n : nat) : Malloc.
Proof.
  refine {| malloc_loc h := if decide (size h < n)%nat then Some (fresh (dom h)) else None |}.
  intros h l. case_decide; [|done]. intros [= <-]. apply not_elem_of_dom, is_fresh.
Defined.

(** A client that creates a queue, pushes, looks and deletes. *)
Definition sample_client (seen : list (queue_call * queue_answer)) : queue_call :=
  match seen with
  | [(Init, Pointer q)] => Push q 7
  | [(Init, Pointer q); (Push _ _, _)] => Front q
  | [(Init, Pointer q); (Push _ _, _); (Front _, _)] => Delete q
  | _ => Init
  end.

Lemma queue_refines_fifo_witness :
  well_behaved sample_client /\
  wp (client_run 4 sample_client []) (fun seen h =>
    seen.*2 = [Pointer 1; Nothing; Byte 7; Nothing]%positive /\ h = ∅ /\
    exists m, fifo_run ∅ seen m) ∅.
Proof.
  assert (well_behaved sample_client) as Hwb.
  { intros seen m Hr. unfold sample_client. repeat (break_match; try exact I); subst;
    repeat match goal with
    | H : fifo_run _ (_ :: _) _ |- _ => inversion H; clear H; subst
    | H : fifo_run _ [] _ |- _ => inversion H; clear H; subst
    | H : fifo_step _ _ _ _ |- _ => inversion H; clear H; subst
    end; cbn; rewrite ?lookup_insert_is_Some'; auto. }
  split; [done|].
  pose proof (queue_refines_fifo 4 sample_client Hwb) as H.
  destruct (client_run 4 sample_client [] ∅) as [[seen h]| |] eqn:E; [|by vm_compute in E..].
  destruct H as (_ & m & Hr & _ & Hh). apply wp_Done. exists seen, h. split; [exact E|].
  vm_compute in E. injection E as <- <-. split_and!; [reflexivity|reflexivity|by exists m].
Defined.

(** With a single block the client does not get past its first push. *)
Lemma queue_push_without_memory : client_run (MA := blocks_of 1) 2 sample_client [] ∅ = Undef.
Proof. vm_compute. reflexivity. Qed.
