(* ===== verification/Uart.v ===== *)
(** * Uart

    The serial port driver, [src/proj/system/lib/uart.c]: line set-up, polled
    transmission and reception, and the interrupt handler that moves bytes
    between the port and two queues.  The queues are used through their
    interface ([Queue.QueueStore]). *)

From S2P Require Import Prelude Hardware Queue.

(** ** Constants of [rs232.h] *)
Definition COM1_UART_IRQ : Z := 4.
Definition COM1_UART_ADDRESS : Z := 0x3F8.
Definition UART_LSR : Z := 5.
Definition UART_LCR : Z := 3.
Definition UART_RBR : Z := 0.
Definition UART_THR : Z := 0.
Definition UART_DLL : Z := 0.
Definition UART_DLH : Z := 1.
Definition UART_FCR : Z := 2.
Definition UART_IIR : Z := 2.
Definition UART_IER : Z := 1.
Definition FIFO_ENABLE : Z := BIT 0.
Definition FIFO_CLR_RCVR : Z := BIT 1.
Definition FIFO_CLR_SEND : Z := BIT 2.
Definition FIFO_ONE_BYTE : Z := 0.
Definition IIR_INT : Z := BIT 0.
Definition IIR_RECV_DATA_AVAIL : Z := BIT 2.
Definition IIR_CHAR_TIMEOUT : Z := Z.lor (BIT 2) (BIT 3).
Definition IIR_TRNSMT_EMPTY : Z := BIT 1.
Definition IIR_STATUS : Z := Z.lor (BIT 1) (BIT 2).
Definition INT_MASK : Z := Z.lor (Z.lor (BIT 1) (BIT 2)) (BIT 3).
Definition RECEIVE_DATA : Z := BIT 0.
Definition OVERRUN_ERR : Z := BIT 1.
Definition PARITY_ERR : Z := BIT 2.
Definition FRAMING_ERR : Z := BIT 3.
Definition TRANS_HOLD_EMPTY : Z := BIT 5.
Definition FIFO_ERR : Z := BIT 7.
Definition LINE_ERRS : Z := Z.lor (Z.lor (Z.lor OVERRUN_ERR PARITY_ERR) FRAMING_ERR) FIFO_ERR.
Definition DLAB_ON : Z := BIT 7.
Definition DLAB_OFF : Z := Z.lnot (BIT 7).
Definition UART_MAX_TRIES : nat := 4.
Definition UART_DELAY : Z := 20.
Definition UART_ERROR_CODE : Z := -1.
Definition GET_MSB (n : Z) : Z := Z.land (Z.shiftr n 8) 0xff.
Definition GET_LSB (n : Z) : Z := Z.land n 0xff.

Definition LSR_PORT : Z := COM1_UART_ADDRESS + UART_LSR.
Definition IIR_PORT : Z := COM1_UART_ADDRESS + UART_IIR.
Definition DATA_PORT : Z := COM1_UART_ADDRESS + UART_RBR.

(** ** State: the statics of [uart.c]; the queues live in a store of their
    own, null until [init_uart_queues]. *)
Record uart (D S : Type) : Type := mk_uart {
  ua_hw : hw D;
  ua_store : S;
  uart_subscribe_result : Z;
  in_fifo : option loc;
  out_fifo : option loc;
  can_send : bool;
}.
Arguments mk_uart {D S}.
Arguments ua_hw {D S}.
Arguments ua_store {D S}.
Arguments uart_subscribe_result {D S}.
Arguments in_fifo {D S}.
Arguments out_fifo {D S}.
Arguments can_send {D S}.
#[global] Instance eta_uart {D S} : Eta (uart D S) := fun r =>
  mk_uart (ua_hw r) (ua_store r) (uart_subscribe_result r) (in_fifo r) (out_fifo r) (can_send r).

Section Uart.
Context {D : Type} `{!Device D} {S : Type} {QS : QueueStore S}.

Definition ua_on_hw {A} (m : prog (hw D) A) : prog (uart D S) A :=
  zoom ua_hw (fun h u => u <| ua_hw := h |>) m.
Definition ua_on_queues {A} (m : prog S A) : prog (uart D S) A :=
  zoom ua_store (fun q u => u <| ua_store := q |>) m.
(** An operation on the queue a static points to. *)
Definition with_fifo {A} (fifo : uart D S -> option loc) (op : loc -> prog S A) :
    prog (uart D S) A :=
  p <- gets fifo ;; q <- defined p ;; ua_on_queues (op q).

Definition init_uart_queues : prog (uart D S) Z :=
  q <- ua_on_queues q_init ;;
  modify (fun u => u <| in_fifo := Some q |>) ;;;
  q <- ua_on_queues q_init ;;
  modify (fun u => u <| out_fifo := Some q |>) ;;;
  ret OK.

Definition free_uart_queues : prog (uart D S) Z :=
  with_fifo in_fifo q_delete ;;;
  with_fifo out_fifo q_delete ;;;
  ret OK.

Definition uart_subscribe_int : prog (uart D S) (Z * Z) :=
  modify (fun u => u <| uart_subscribe_result := COM1_UART_IRQ |>) ;;;
  let bit_no := COM1_UART_IRQ in
  '(err, hook) <- ua_on_hw
     (sys_irqsetpolicy COM1_UART_IRQ (Z.lor IRQ_REENABLE IRQ_EXCLUSIVE) COM1_UART_IRQ) ;;
  modify (fun u => u <| uart_subscribe_result := hook |>) ;;;
  ret (err, bit_no).
Definition uart_disable_int : prog (uart D S) Z :=
  hook <- gets uart_subscribe_result ;; ua_on_hw (sys_irqdisable hook).
Definition uart_enable_int : prog (uart D S) Z :=
  hook <- gets uart_subscribe_result ;; ua_on_hw (sys_irqenable hook).
Definition uart_unsubscribe_int : prog (uart D S) Z :=
  hook <- gets uart_subscribe_result ;; ua_on_hw (sys_irqrmpolicy hook).

Definition uart_init_fifo : prog (hw D) Z :=
  sys_outb (COM1_UART_ADDRESS + UART_FCR)
    (Z.lor (Z.lor (Z.lor FIFO_ENABLE FIFO_CLR_SEND) FIFO_CLR_RCVR) FIFO_ONE_BYTE).
Definition uart_get_line_status (ctrl : Z) : prog (hw D) (Z * Z) :=
  util_sys_inb (COM1_UART_ADDRESS + UART_LSR) ctrl.
Definition uart_get_line_ctrl (ctrl : Z) : prog (hw D) (Z * Z) :=
  util_sys_inb (COM1_UART_ADDRESS + UART_LCR) ctrl.
Definition uart_get_int_id (byte : Z) : prog (hw D) (Z * Z) :=
  util_sys_inb (COM1_UART_ADDRESS + UART_IIR) byte.
Definition uart_set_line_ctrl (ctrl : Z) : prog (hw D) Z :=
  sys_outb (COM1_UART_ADDRESS + UART_LCR) ctrl.
Definition uart_set_interrupt_reg (ctrl : Z) : prog (hw D) Z :=
  sys_outb (COM1_UART_ADDRESS + UART_IER) ctrl.

Definition uart_set_baud_rate (rate : Z) : prog (hw D) Z :=
  ctrl <- uninit_byte ;;
  '(err, ctrl) <- uart_get_line_ctrl ctrl ;;
  if negb (err =? OK) then ret err else
  (err <- uart_set_line_ctrl (u8 (Z.lor ctrl DLAB_ON)) ;;
   if negb (err =? OK) then ret err else
   (err <- sys_outb (COM1_UART_ADDRESS + UART_DLL) (GET_LSB rate) ;;
    if negb (err =? OK) then ret err else
    (err <- sys_outb (COM1_UART_ADDRESS + UART_DLH) (GET_MSB rate) ;;
     if negb (err =? OK) then ret err else
     uart_set_line_ctrl (u8 (Z.land ctrl DLAB_OFF))))).

(** One round of the loop of [uart_send_byte]; a failed poll leaves
    [status] as it was, so it is threaded through the rounds. *)
Fixpoint uart_send_tries (n : nat) (status byte : Z) : prog (hw D) Z :=
  match n with
  | O => ret 1
  | Datatypes.S n =>
      '(_, status) <- uart_get_line_status status ;;
      if has_bits status TRANS_HOLD_EMPTY
      then sys_outb (COM1_UART_ADDRESS + UART_THR) byte
      else (delay UART_DELAY ;;; uart_send_tries n status byte)
  end.
Definition uart_send_byte (byte : Z) : prog (hw D) Z :=
  status <- uninit_byte ;; uart_send_tries UART_MAX_TRIES status byte.

(** [uart_receive_byte(&byte)]: the code and what [*byte] holds; a round that
    goes on leaves [*byte] alone.  [errs] are the line errors it looks for. *)
Definition receive_try (errs byte : Z) : prog (hw D) (option (Z * Z)) :=
  status <- uninit_byte ;;
  '(err, status) <- uart_get_line_status status ;;
  if negb (err =? OK) then (delay UART_DELAY ;;; ret None) else
  ('(err, byte') <- (if has_bits status RECEIVE_DATA
                     then util_sys_inb (COM1_UART_ADDRESS + UART_RBR) byte
                     else ret (1, byte)) ;;
   if has_bits status errs then ret (Some (2, byte')) else
   if err =? OK then ret (Some (OK, byte')) else
   (delay UART_DELAY ;;; ret None)).
Definition uart_receive_try (byte : Z) : prog (hw D) (option (Z * Z)) := receive_try LINE_ERRS byte.
Definition uart_receive_byte (byte : Z) : prog (hw D) (Z * Z) :=
  retry UART_MAX_TRIES (uart_receive_try byte) (1, byte).

(** [uart_recv_front(&byte)]: [Some byte] for true. *)
Definition uart_recv_front : prog (uart D S) (option Z) :=
  empty <- with_fifo in_fifo q_empty ;;
  if (empty : bool) then ret None else
  (byte <- with_fifo in_fifo q_front ;;
   with_fifo in_fifo q_pop ;;;
   ret (Some byte)).

Definition uart_push_transmit (byte : Z) : prog (uart D S) unit :=
  with_fifo out_fifo (fun q => q_push q byte) ;;;
  modify (fun u => u <| can_send := false |>).

Definition transmitter_empty : prog (uart D S) bool := gets can_send.

Definition uart_safe_transmit (byte : Z) : prog (uart D S) unit :=
  empty <- transmitter_empty ;;
  if (empty : bool)
  then (_ <- ua_on_hw (uart_send_byte byte) ;; ret tt)
  else uart_push_transmit byte.

(** The loop [while((err = uart_receive_byte(&byte)) != 1)] of [uart_ih],
    from and to the value of [byte]. *)
Definition uart_receive_all (fuel : nat) (byte : Z) : prog (uart D S) Z :=
  iterate fuel (fun byte =>
    '(err, byte) <- ua_on_hw (uart_receive_byte byte) ;;
    if err =? 1 then ret (inr byte) else
    ((if err =? 2 then with_fifo in_fifo (fun q => q_push q UART_ERROR_CODE) else ret tt) ;;;
     with_fifo in_fifo (fun q => q_push q byte) ;;;
     ret (inl byte))) byte.

(** The loop [while(!queue_empty(out_fifo))] of [uart_ih]. *)
Definition uart_send_all (fuel : nat) : prog (uart D S) unit :=
  iterate fuel (fun _ =>
    empty <- with_fifo out_fifo q_empty ;;
    if (empty : bool) then ret (inr tt) else
    (byte <- with_fifo out_fifo q_front ;;
     err <- ua_on_hw (uart_send_byte (u8 byte)) ;;
     if negb (err =? OK) then ret (inr tt) else
     (with_fifo out_fifo q_pop ;;; ret (inl tt)))) tt.

(** One round of [uart_ih]'s [while(true)]; [fuel] bounds the inner loops. *)
Definition uart_ih_round (fuel : nat) (s : Z * Z) : prog (uart D S) ((Z * Z) + unit) :=
  let '(byte, int_id) := s in
  '(err, int_id) <- ua_on_hw (uart_get_int_id int_id) ;;
  if negb (err =? OK) then ret (inr tt) else
  if has_bits int_id IIR_INT then ret (inr tt) else
  let cause := Z.land int_id INT_MASK in
  if cause =? IIR_STATUS then
    '(_, byte) <- ua_on_hw (uart_get_line_status byte) ;; ret (inl (byte, int_id))
  else if (cause =? IIR_RECV_DATA_AVAIL) || (cause =? IIR_CHAR_TIMEOUT) then
    byte <- uart_receive_all fuel byte ;; ret (inl (byte, int_id))
  else if cause =? IIR_TRNSMT_EMPTY then
    empty <- with_fifo out_fifo q_empty ;;
    if (empty : bool)
    then (modify (fun u => u <| can_send := true |>) ;;; ret (inl (byte, int_id)))
    else (uart_send_all fuel ;;;
          modify (fun u => u <| can_send := false |>) ;;;
          ret (inl (byte, int_id)))
  else ret (inl (byte, int_id)).

Definition uart_ih (fuel : nat) : prog (uart D S) unit :=
  byte <- ua_on_hw uninit_byte ;;
  int_id <- ua_on_hw uninit_byte ;;
  iterate fuel (uart_ih_round fuel) (byte, int_id).

Definition empty_transmit_queue : prog (uart D S) unit := with_fifo out_fifo q_clean.
Definition empty_recv_queue : prog (uart D S) unit := with_fifo in_fifo q_clean.
End Uart.

(** ** What crosses the wire

    The bytes a trace wrote to the transmitter and read from the receiver,
    and whether every line status it read was free of errors. *)
Definition sent (t : list io) : list Z :=
  omap (fun e => match e with
    | Out p v err => if (p =? DATA_PORT) && (err =? 0) then Some v else None
    | _ => None
    end) t.
Definition received (t : list io) : list Z :=
  omap (fun e => match e with
    | In p err v => if (p =? DATA_PORT) && (err =? 0) then Some (u8 v) else None
    | _ => None
    end) t.
Definition error_free (t : list io) : bool :=
  forallb (fun e => match e with
    | In p err v => negb ((p =? LSR_PORT) && (err =? 0) && has_bits (u8 v) LINE_ERRS)
    | _ => true
    end) t.

Lemma sent_app t u : sent (t ++ u) = sent t ++ sent u.
Proof. apply omap_app. Qed.
Lemma received_app t u : received (t ++ u) = received t ++ received u.
Proof. apply omap_app. Qed.
Lemma error_free_app t u : error_free (t ++ u) = error_free t && error_free u.
Proof. apply forallb_app. Qed.

(** A port with finitely much to say, told apart as the chip does: reading a
    byte that LSR announced uses it up, and so does reading LSR a line error;
    the received-data causes persist in IIR until the data is read, so that
    LSR announces it (or the traffic went down meanwhile); the line status
    cause persists until LSR is read; reading IIR uses up any other cause
    (the empty transmitter, the only other one the driver enables).  Writing a
    byte may cause one more interrupt, nothing else causes any. *)
Definition receive_cause (v : Z) : bool :=
  let cause := Z.land (u8 v) INT_MASK in
  (cause =? IIR_RECV_DATA_AVAIL) || (cause =? IIR_CHAR_TIMEOUT).
Definition status_cause (v : Z) : bool := Z.land (u8 v) INT_MASK =? IIR_STATUS.

Class FiniteTraffic (D : Type) {DV : Device D} : Type := {
  traffic : D -> nat;
  traffic_inb p d : (traffic (dev_inb p d).2 <= traffic d)%nat;
  traffic_wait us d : (traffic (dev_wait us d) <= traffic d)%nat;
  traffic_outb p v d :
    (traffic (dev_outb p v d).2 <= traffic d + (if ((dev_outb p v d).1 =? 0)%Z then 1 else 0))%nat;
  traffic_received d d' v : dev_inb IIR_PORT d = ((0, v), d') ->
    has_bits (u8 v) IIR_INT = false -> receive_cause v = true ->
    forall e w d'', dev_inb LSR_PORT d' = ((e, w), d'') ->
      (traffic d'' < traffic d)%nat \/ (e = 0 /\ has_bits (u8 w) RECEIVE_DATA = true);
  traffic_status d d' v : dev_inb IIR_PORT d = ((0, v), d') ->
    has_bits (u8 v) IIR_INT = false -> status_cause v = true ->
    forall r d'', dev_inb LSR_PORT d' = (r, d'') -> (traffic d'' < traffic d)%nat;
  traffic_cause d d' v : dev_inb IIR_PORT d = ((0, v), d') ->
    has_bits (u8 v) IIR_INT = false -> receive_cause v = false -> status_cause v = false ->
    (traffic d' < traffic d)%nat;
  traffic_error d d' v : dev_inb LSR_PORT d = ((0, v), d') ->
    has_bits (u8 v) LINE_ERRS = true -> has_bits (u8 v) RECEIVE_DATA = false ->
    (traffic d' < traffic d)%nat;
  traffic_byte d d1 d2 v r : dev_inb LSR_PORT d = ((0, v), d1) ->
    has_bits (u8 v) RECEIVE_DATA = true ->
    dev_inb DATA_PORT d1 = (r, d2) -> (traffic d2 < traffic d)%nat;
}.

Section PolledIO.
Context {D : Type} `{!Device D}.
Implicit Types h : hw D.

(** The rounds of [uart_send_byte] that found the transmitter busy. *)
Inductive busy_rounds : nat -> list io -> Prop :=
| busy_O : busy_rounds 0 []
| busy_S n err v t : (err = 0 -> has_bits (u8 v) TRANS_HOLD_EMPTY = false) ->
    busy_rounds n t -> busy_rounds (S n) (In LSR_PORT err v :: Wait UART_DELAY :: t).

Lemma uart_send_tries_trace n status byte h :
  wp (uart_send_tries n status byte) (fun r h' => exists k t u,
    trace h' = trace h ++ t ++ u /\ busy_rounds k t /\
    ((k = n /\ r = 1 /\ u = []) \/
     ((k < n)%nat /\ exists err v, u = [In LSR_PORT err v; Out DATA_PORT byte r] /\
        (err = 0 -> has_bits (u8 v) TRANS_HOLD_EMPTY = true)))) h.
Proof.
  revert status h. induction n as [|n IH]; intros status h; cbn [uart_send_tries].
  { wp_step. exists 0%nat, [], []. rewrite app_nil_r. split_and!; [done|constructor|by left]. }
  wp_step. unfold uart_get_line_status.
  assert (forall err v st d, (err = 0 -> st = u8 v) ->
    wp (if has_bits st TRANS_HOLD_EMPTY
        then sys_outb (COM1_UART_ADDRESS + UART_THR) byte
        else delay UART_DELAY ;;; uart_send_tries n st byte)
      (fun r h' => exists k t u, trace h' = trace h ++ t ++ u /\ busy_rounds k t /\
        ((k = S n /\ r = 1 /\ u = []) \/
         ((k < S n)%nat /\ exists err v, u = [In LSR_PORT err v; Out DATA_PORT byte r] /\
            (err = 0 -> has_bits (u8 v) TRANS_HOLD_EMPTY = true))))
      (mk_hw d (trace h ++ [In LSR_PORT err v]))) as Hround.
  { intros err v st d Hst. destruct (has_bits st TRANS_HOLD_EMPTY) eqn:E.
    - repeat hw_step. exists 0%nat, [], [In LSR_PORT err v; Out DATA_PORT byte err0].
      rewrite <- app_assoc. split_and!; [done|constructor|]. right. split; [lia|].
      eexists _, _. split; [done|]. intros He. by rewrite <- Hst.
    - repeat hw_step. eapply wp_mono; [apply IH|]. cbn [trace].
      intros r h' (k & t & u & Ht & Hb & Hr).
      exists (S k), (In LSR_PORT err v :: Wait UART_DELAY :: t), u.
      split_and!; [by rewrite Ht, <- !app_assoc| |].
      + constructor; [|done]. intros He. by rewrite <- Hst.
      + destruct Hr as [(-> & Hr)|(Hk & Hr)]; [by left|right; split; [lia|done]]. }
  apply wp_util_sys_inb; intros; cbn beta iota; by apply Hround.
Qed.

(** [uart_send_byte] polls the line status at most four times, 20 us
    apart, and writes the byte at most once, right after the poll that ended
    the wait; if that poll was read without error the transmitter was empty.
    The result is the result of the write, or 1 when no poll allowed it. *)
Lemma uart_send_byte_protocol byte h :
  wp (uart_send_byte byte) (fun r h' => exists k t u,
    trace h' = trace h ++ t ++ u /\ busy_rounds k t /\
    ((k = UART_MAX_TRIES /\ r = 1 /\ u = []) \/
     ((k < UART_MAX_TRIES)%nat /\ exists err v, u = [In LSR_PORT err v; Out DATA_PORT byte r] /\
        (err = 0 -> has_bits (u8 v) TRANS_HOLD_EMPTY = true)))) h.
Proof.
  unfold uart_send_byte. wp_step. apply wp_uninit_byte. intros g _.
  apply uart_send_tries_trace.
Qed.

Lemma busy_rounds_quiet k t : busy_rounds k t ->
  sent t = [] /\ received t = [].
Proof.
  induction 1 as [|n err v t _ _ [IHs IHr]]; [done|].
  split; [by rewrite <- IHs|by rewrite <- IHr].
Qed.

Lemma uart_send_tries_wire n status byte h :
  wp (uart_send_tries n status byte) (fun r h' => exists t, trace h' = trace h ++ t /\
    sent t = (if r =? OK then [byte] else []) /\ received t = []) h.
Proof.
  eapply wp_mono; [apply uart_send_tries_trace|].
  intros r h' (k & t & u & Ht & Hb & Hr). exists (t ++ u). split; [done|].
  destruct (busy_rounds_quiet _ _ Hb) as [Hs Hc].
  rewrite sent_app, received_app, Hs, Hc.
  destruct Hr as [(-> & -> & ->)|(Hk & err & v & -> & _)]; [done|].
  split; [|done]. destruct (Z.eqb_spec r OK) as [->|Hne]; [done|]. cbn. by destruct r.
Qed.

End PolledIO.

(** *** The same steps on a port with finite traffic *)
Section Traffic.
Context {D : Type} `{!Device D, !FiniteTraffic D}.
Implicit Types h : hw D.

Lemma wp_util_sys_inb_dev port value (Q : Z * Z -> hw D -> Prop) h :
  (forall err v d, dev_inb port (dev h) = ((err, v), d) ->
     Q (if err =? 0 then (0, u8 v) else (1, value)) (mk_hw d (trace h ++ [In port err v]))) ->
  wp (util_sys_inb port value) Q h.
Proof.
  intros H. unfold util_sys_inb, sys_inb. wp_step. unfold wp.
  destruct (dev_inb port (dev h)) as [[err v] d] eqn:E. specialize (H _ _ _ eq_refl).
  cbn. by destruct (err =? 0).
Qed.

Lemma wp_delay_dev us (Q : unit -> hw D -> Prop) h :
  Q tt (mk_hw (dev_wait us (dev h)) (trace h ++ [Wait us])) -> wp (delay us) Q h.
Proof. done. Qed.

Lemma traffic_inb_eq p d r d' : dev_inb p d = (r, d') -> (traffic d' <= traffic d)%nat.
Proof. intros E. pose proof (traffic_inb p d). by rewrite E in *. Qed.

Lemma uart_send_tries_traffic n status byte h :
  wp (uart_send_tries n status byte) (fun r h' =>
    (traffic (dev h') <= traffic (dev h) + (if (r =? OK)%Z then 1 else 0))%nat) h.
Proof.
  revert status h. induction n as [|n IH]; intros status h; cbn [uart_send_tries].
  { wp_step. cbn. lia. }
  wp_step. apply wp_util_sys_inb_dev. intros err v d E%traffic_inb_eq.
  destruct (if err =? 0 then _ else _) as [e st]. cbn.
  destruct (has_bits st TRANS_HOLD_EMPTY).
  - unfold wp, sys_outb. cbn [dev trace].
    pose proof (traffic_outb (COM1_UART_ADDRESS + UART_THR) byte d) as Ht.
    destruct (dev_outb _ _ _) as [r d']. cbn [fst snd dev] in *. unfold OK. lia.
  - wp_step. unfold delay. apply wp_Done. eexists tt, _. split; [done|].
    eapply wp_mono; [apply IH|]. cbn. intros r h' Hr.
    pose proof (traffic_wait UART_DELAY d). lia.
Qed.

(** What one call of [uart_send_byte] puts on the wire. *)
Lemma uart_send_byte_wire byte h :
  wp (uart_send_byte byte) (fun r h' => (exists t, trace h' = trace h ++ t /\
      sent t = (if r =? OK then [byte] else []) /\ received t = []) /\
    (traffic (dev h') <= traffic (dev h) + (if (r =? OK)%Z then 1 else 0))%nat) h.
Proof.
  unfold uart_send_byte. wp_step. apply wp_uninit_byte. intros g _.
  apply wp_and; [apply uart_send_tries_wire|apply uart_send_tries_traffic].
Qed.

(** What one call of [uart_receive_byte] takes from it: nothing on 1, one
    byte on 0, at most one and a line error on 2; on 0 and 2 traffic is used
    up. *)
Definition receive_post (byte : Z) (h : hw D) (r : Z * Z) (h' : hw D) : Prop :=
  exists t, trace h' = trace h ++ t /\ sent t = [] /\
    (traffic (dev h') <= traffic (dev h))%nat /\ 0 <= snd r < 256 /\
    snd r = default byte (last (received t)) /\
    ((fst r = 1 /\ received t = []) \/
     (fst r = 0 /\ received t = [snd r] /\ (traffic (dev h') < traffic (dev h))%nat) \/
     (fst r = 2 /\ error_free t = false /\ (received t = [] \/ received t = [snd r]) /\
      (traffic (dev h') < traffic (dev h))%nat)).

Lemma receive_try_post errs byte h :
  (forall st, has_bits st errs = true -> has_bits st LINE_ERRS = true) -> 0 <= byte < 256 ->
  wp (receive_try errs byte) (fun r h' =>
    match r with
    | Some r => receive_post byte h r h' /\ fst r <> 1
    | None => receive_post byte h (1, byte) h'
    end) h.
Proof.
  intros Herrs Hb. unfold receive_try, receive_post. wp_step. apply wp_uninit_byte. intros g Hg.
  wp_step. apply wp_util_sys_inb_dev. intros err v d E.
  pose proof (traffic_inb_eq _ _ _ _ E) as Htr.
  destruct (Z.eqb_spec err 0) as [->|Herr]; cbn.
  2: { wp_step. apply wp_delay_dev. wp_step. cbn.
       eexists. rewrite <- app_assoc. split; [reflexivity|]. pose proof (traffic_wait UART_DELAY d).
       assert (received [In LSR_PORT err v; Wait UART_DELAY] = []) as Hr by (cbn; by destruct err).
       cbn [app fst snd]. change (COM1_UART_ADDRESS + UART_LSR) with LSR_PORT. rewrite Hr.
       split_and!; [done|lia|lia|lia|done|]. by left. }
  set (st := u8 v) in *. pose proof (wrap_range 8 v) as Hst.
  assert (forall e byte' h1, (exists t', trace h1 = trace h ++ In LSR_PORT 0 v :: t' /\
      sent t' = [] /\ (traffic (dev h1) <= traffic d)%nat /\
      (has_bits st RECEIVE_DATA = true -> (traffic (dev h1) < traffic (dev h))%nat) /\
      0 <= byte' < 256 /\
      ((e <> 0 /\ byte' = byte /\ received t' = []) \/
       (e = 0 /\ received t' = [byte'] /\ (traffic (dev h1) < traffic (dev h))%nat))) ->
    wp (if has_bits st errs then ret (Some (2, byte')) else
        if e =? OK then ret (Some (OK, byte')) else (delay UART_DELAY ;;; ret None))
      (fun r h' =>
        match r with
        | Some r => receive_post byte h r h' /\ fst r <> 1
        | None => receive_post byte h (1, byte) h'
        end) h1) as Hend.
  { intros e byte' h1 (t' & Ht & Hs & Htr1 & Hrx & Hb' & He). unfold receive_post.
    destruct (has_bits st errs) eqn:Eerr.
    - apply Herrs in Eerr. wp_step. split; [|done]. exists (In LSR_PORT 0 v :: t'). cbn [fst snd].
      assert (traffic (dev h1) < traffic (dev h))%nat as Hlt.
      { destruct (has_bits st RECEIVE_DATA) eqn:Erx; [by apply Hrx|].
        pose proof (traffic_error _ _ _ E Eerr Erx). lia. }
      change (received (In LSR_PORT 0 v :: t')) with (received t').
      split_and!; [done|done|lia..| |].
      { destruct He as [(_ & -> & ->)|(_ & -> & _)]; done. }
      right; right. split_and!; [done| | |lia].
      + cbn. change (wrap 8 v) with st. by rewrite Eerr.
      + destruct He as [(_ & _ & ->)|(_ & -> & _)]; auto.
    - destruct He as [(Hne & -> & Hr)|(-> & Hr & Hlt)].
      + destruct (Z.eqb_spec e OK); [done|]. wp_step. apply wp_delay_dev. wp_step. cbn.
        exists ((In LSR_PORT 0 v :: t') ++ [Wait UART_DELAY]).
        rewrite sent_app, received_app, app_assoc, Ht. pose proof (traffic_wait UART_DELAY (dev h1)).
        change (sent (In LSR_PORT 0 v :: t')) with (sent t').
        change (received (In LSR_PORT 0 v :: t')) with (received t'). rewrite Hs, Hr. cbn.
        split_and!; [done|done|lia|lia|lia|done|]. by left.
      + change (0 =? OK) with true. cbn iota. wp_step. split; [|done].
        exists (In LSR_PORT 0 v :: t'). cbn [fst snd].
        change (received (In LSR_PORT 0 v :: t')) with (received t'). rewrite Hr.
        split_and!; [done|done|lia..|done|]. right; left. done. }
  destruct (has_bits st RECEIVE_DATA) eqn:Erx.
  - wp_step. apply wp_util_sys_inb_dev. intros e2 b d2 E2.
    pose proof (traffic_inb_eq _ _ _ _ E2) as Htr2. cbn [dev trace] in *.
    pose proof (traffic_byte _ _ _ _ _ E Erx E2) as Hlt.
    destruct (Z.eqb_spec e2 0) as [->|Hne2]; cbn beta iota; apply Hend;
      (eexists [_]; rewrite <- app_assoc; split; [reflexivity|]); cbn [dev].
    + pose proof (wrap_range 8 b).
      split_and!; [done|lia..|]. right. split_and!; [done|done|lia].
    + split_and!; [done|lia..|]. left. split_and!; [done|done|]. cbn. by destruct e2.
  - wp_step. wp_step. apply Hend. exists []. cbn. split_and!; [done|done|lia|done|lia..|]. by left.
Qed.

Lemma receive_byte_post n errs byte h :
  (forall st, has_bits st errs = true -> has_bits st LINE_ERRS = true) -> 0 <= byte < 256 ->
  wp (retry n (receive_try errs byte) (1, byte)) (receive_post byte h) h.
Proof.
  intros Herrs Hb.
  apply (wp_retry _ _ _ (fun _ h1 => receive_post byte h (1, byte) h1)).
  - intros _ h1 (t1 & Ht1 & Hs1 & Htr1 & _ & _ & Hc1).
    destruct Hc1 as [[_ Hr1]|[[? _]|[? _]]]; [|done..].
    eapply wp_mono; [by apply receive_try_post|]. intros r h2 Hr.
    assert (forall r, receive_post byte h1 r h2 -> receive_post byte h r h2) as Htrans.
    { intros r' (t & Ht & Hs & Htr & Hb' & Hl & Hc). exists (t1 ++ t).
      rewrite sent_app, received_app, error_free_app, Hs1, Hs, Hr1.
      split_and!; [by rewrite app_assoc, <- Ht1|done|lia|lia|lia|done|].
      destruct Hc as [(? & ?)|[(? & ? & ?)|(? & He & ? & ?)]]; [by left|right; left|right; right].
      - split_and!; [done|done|lia].
      - rewrite He, andb_false_r. split_and!; [done|done|done|lia]. }
    destruct r as [r|]; [destruct Hr|]; by apply Htrans.
  - done.
  - exists []. rewrite app_nil_r. split_and!; [done|done|lia|cbn; lia|cbn; lia|done|]. by left.
Qed.
Lemma uart_receive_byte_post byte h :
  0 <= byte < 256 -> wp (uart_receive_byte byte) (receive_post byte h) h.
Proof. by apply receive_byte_post. Qed.

(** A port of at most [n] things to say, that either says one of them in the
    next line status or announces a byte there. *)
Definition announced (d : D) (n : nat) : Prop :=
  (traffic d <= n)%nat /\ forall e w d', dev_inb LSR_PORT d = ((e, w), d') ->
    (traffic d' < n)%nat \/ (e = 0 /\ has_bits (u8 w) RECEIVE_DATA = true).
Definition serves (d d' : D) : Prop := forall n, announced d n -> (traffic d' < n)%nat.

Lemma receive_try_serves errs byte h :
  wp (receive_try errs byte) (fun _ h' => serves (dev h) (dev h')) h.
Proof.
  unfold receive_try. wp_step. apply wp_uninit_byte. intros g _.
  wp_step. apply wp_util_sys_inb_dev. intros err v d E.
  assert (forall us h1 A (x : A), serves (dev h) (dev h1) ->
    wp (delay us ;;; ret x) (fun _ h' => serves (dev h) (dev h')) h1) as Hwait.
  { intros us h1 A x Hs. wp_step. apply wp_delay_dev. wp_step. intros n Hn. cbn [dev].
    pose proof (traffic_wait us (dev h1)). specialize (Hs n Hn). lia. }
  assert (forall (e byte' : Z) h1, serves (dev h) (dev h1) ->
    wp (if has_bits (u8 v) errs then ret (Some (2, byte')) else
        if e =? OK then ret (Some (OK, byte')) else (delay UART_DELAY ;;; ret None))
      (fun _ h' => serves (dev h) (dev h')) h1) as Hend.
  { intros e byte' h1 Hs. destruct (has_bits (u8 v) errs); [by wp_step|].
    destruct (e =? OK); [by wp_step|]. by apply Hwait. }
  destruct (Z.eqb_spec err 0) as [->|Herr]; cbn.
  2: { apply Hwait. intros n [_ Hn]. destruct (Hn _ _ _ E) as [?|[? _]]; done. }
  destruct (has_bits (wrap 8 v) RECEIVE_DATA) eqn:Erx.
  - wp_step. apply wp_util_sys_inb_dev. intros e2 b d2 E2. cbn [dev trace] in *.
    destruct (e2 =? 0); cbn beta iota; apply Hend; intros n [Hle _]; cbn [dev];
      pose proof (traffic_byte _ _ _ _ _ E Erx E2); lia.
  - wp_step. wp_step. apply Hend. intros n [_ Hn]. cbn [dev].
    destruct (Hn _ _ _ E) as [?|[_ Hd]]; [done|congruence].
Qed.

Lemma uart_receive_byte_serves byte h : 0 <= byte < 256 ->
  wp (uart_receive_byte byte) (fun r h' => receive_post byte h r h' /\ serves (dev h) (dev h')) h.
Proof.
  intros Hb. apply wp_and; [by apply uart_receive_byte_post|].
  unfold uart_receive_byte, UART_MAX_TRIES. cbn [retry]. wp_step.
  eapply wp_mono; [apply wp_and; [apply receive_try_serves|by apply (receive_try_post LINE_ERRS byte h)]|].
  intros [r|] h1 [Hs _]; cbn beta iota; [by wp_step|].
  eapply wp_mono; [apply (receive_byte_post 3 LINE_ERRS byte); [done|done]|].
  intros r h2 (_ & _ & _ & Hle & _) n Hn. specialize (Hs n Hn). lia.
Qed.
End Traffic.

(** ** The driver over any queues that keep their promises *)
Section Driver.
Context {D : Type} `{!Device D, !FiniteTraffic D} {S : Type} {QS : QueueStore S} {QL : QueueLaws S}.
Implicit Types u : uart D S.

(** [fifos u lin lout]: the two queues exist, are distinct, and hold [lin]
    and [lout]. *)
Definition fifos u (lin lout : list Z) : Prop :=
  exists m a b, in_fifo u = Some a /\ out_fifo u = Some b /\ a <> b /\
    q_rep (ua_store u) m /\ m !! a = Some lin /\ m !! b = Some lout.

Lemma fifos_store u s m a b lin lout :
  in_fifo u = Some a -> out_fifo u = Some b -> a <> b -> q_rep s m ->
  m !! a = Some lin -> m !! b = Some lout -> fifos (u <| ua_store := s |>) lin lout.
Proof. intros. exists m, a, b. done. Qed.

Lemma set_hw_id u : u <| ua_hw := ua_hw u |> = u.
Proof. by destruct u. Qed.

(** An operation that changes, or looks at, one of the two. *)
Definition updates (op : loc -> prog S unit) (f : list Z -> list Z) : Prop :=
  forall m s q l, q_rep s m -> m !! q = Some l ->
    wp (op q) (fun _ s' => q_rep s' (<[q := f l]> m)) s.
Definition observes {A} (op : loc -> prog S A) (f : list Z -> A) : Prop :=
  forall m s q l, q_rep s m -> m !! q = Some l -> wp (op q) (fun r s' => r = f l /\ s' = s) s.

Lemma set_store_id u : u <| ua_store := ua_store u |> = u.
Proof. by destruct u. Qed.

Lemma wp_in_updates op f u lin lout (Q : unit -> uart D S -> Prop) :
  updates op f -> fifos u lin lout ->
  (forall s, fifos (u <| ua_store := s |>) (f lin) lout -> Q tt (u <| ua_store := s |>)) ->
  wp (with_fifo in_fifo op) Q u.
Proof.
  intros Hop (m & a & b & Ha & Hb & Hne & Hr & Hin & Hout) H.
  unfold with_fifo, ua_on_queues. wp_steps. rewrite Ha. cbn. wp_steps.
  eapply wp_mono; [by eapply Hop|]. intros [] s Hs. apply H.
  eapply fifos_store; [done..| |]; [by rewrite lookup_insert_eq|by rewrite lookup_insert_ne].
Qed.
Lemma wp_out_updates op f u lin lout (Q : unit -> uart D S -> Prop) :
  updates op f -> fifos u lin lout ->
  (forall s, fifos (u <| ua_store := s |>) lin (f lout) -> Q tt (u <| ua_store := s |>)) ->
  wp (with_fifo out_fifo op) Q u.
Proof.
  intros Hop (m & a & b & Ha & Hb & Hne & Hr & Hin & Hout) H.
  unfold with_fifo, ua_on_queues. wp_steps. rewrite Hb. cbn. wp_steps.
  eapply wp_mono; [by eapply Hop|]. intros [] s Hs. apply H.
  eapply fifos_store; [done..| |]; [by rewrite lookup_insert_ne|by rewrite lookup_insert_eq].
Qed.
Lemma wp_in_observes {A} (op : loc -> prog S A) f u lin lout (Q : A -> uart D S -> Prop) :
  observes op f -> fifos u lin lout -> Q (f lin) u -> wp (with_fifo in_fifo op) Q u.
Proof.
  intros Hop (m & a & b & Ha & Hb & Hne & Hr & Hin & Hout) H.
  unfold with_fifo, ua_on_queues. wp_steps. rewrite Ha. cbn. wp_steps.
  eapply wp_mono; [by eapply Hop|]. intros r s [-> ->]. by rewrite set_store_id.
Qed.
Lemma wp_out_observes {A} (op : loc -> prog S A) f u lin lout (Q : A -> uart D S -> Prop) :
  observes op f -> fifos u lin lout -> Q (f lout) u -> wp (with_fifo out_fifo op) Q u.
Proof.
  intros Hop (m & a & b & Ha & Hb & Hne & Hr & Hin & Hout) H.
  unfold with_fifo, ua_on_queues. wp_steps. rewrite Hb. cbn. wp_steps.
  eapply wp_mono; [by eapply Hop|]. intros r s [-> ->]. by rewrite set_store_id.
Qed.

Lemma push_updates x : updates (fun q => q_push q x) (fun l => l ++ [i16 x]).
Proof. intros m s q l. apply q_push_law. Qed.
Lemma pop_updates : updates q_pop tail.
Proof. intros m s q l. apply q_pop_law. Qed.
Lemma clean_updates : updates q_clean (fun _ => []).
Proof. intros m s q l. apply q_clean_law. Qed.
Lemma front_observes : observes q_front (fun l => default 0 (head l)).
Proof. intros m s q l. apply q_front_law. Qed.
Lemma empty_observes : observes q_empty (fun l => bool_decide (l = [])).
Proof. intros m s q l. apply q_empty_law. Qed.

(** The driver's initialisation makes two empty queues. *)
Lemma init_uart_queues_fifos u m : q_rep (ua_store u) m ->
  wp init_uart_queues (fun r u' => r = OK /\ fifos u' [] [] /\
    ua_hw u' = ua_hw u /\ can_send u' = can_send u) u.
Proof.
  intros Hr. unfold init_uart_queues, ua_on_queues. wp_steps.
  eapply wp_mono; [by apply q_init_law|]. intros a s1 [Ha Hr1]. wp_steps.
  eapply wp_mono; [by apply q_init_law|]. intros b s2 [Hb Hr2]. wp_steps. cbn.
  assert (a <> b) by (intros ->; by rewrite lookup_insert_eq in Hb).
  split_and!; [done| |done|done].
  exists (<[b := []]> (<[a := []]> m)), a, b.
  rewrite lookup_insert_ne, !lookup_insert_eq by done. done.
Qed.

(** What an operation did: bytes that arrived, bytes that left. *)
Definition moves u u' (t : list io) (lin lout lin' lout' : list Z) : Prop :=
  trace (ua_hw u') = trace (ua_hw u) ++ t /\ fifos u' lin' lout' /\
  map u8 lout = sent t ++ map u8 lout' /\
  exists news, lin' = lin ++ news /\ sublist (received t) news /\
    (error_free t = true -> news = received t).

Lemma moves_refl u lin lout : fifos u lin lout -> moves u u [] lin lout lin lout.
Proof.
  intros Hf. unfold moves. rewrite app_nil_r. split_and!; [done..|]. exists [].
  by rewrite app_nil_r.
Qed.

Lemma moves_trans u1 u2 u3 t1 t2 lin1 lout1 lin2 lout2 lin3 lout3 :
  moves u1 u2 t1 lin1 lout1 lin2 lout2 -> moves u2 u3 t2 lin2 lout2 lin3 lout3 ->
  moves u1 u3 (t1 ++ t2) lin1 lout1 lin3 lout3.
Proof.
  intros (Ht1 & _ & Ho1 & n1 & -> & Hs1 & He1) (Ht2 & Hf & Ho2 & n2 & -> & Hs2 & He2).
  unfold moves. rewrite sent_app, received_app, error_free_app.
  split_and!; [by rewrite Ht2, Ht1, app_assoc|done|by rewrite Ho1, Ho2, app_assoc|].
  exists (n1 ++ n2). split_and!; [by rewrite app_assoc|by apply sublist_app|].
  intros [E1 E2]%andb_prop. by rewrite He1, He2.
Qed.

(** Moving nothing: the device was used but no byte crossed. *)
Lemma moves_quiet u u' t lin lout :
  trace (ua_hw u') = trace (ua_hw u) ++ t -> fifos u' lin lout -> sent t = [] -> received t = [] ->
  moves u u' t lin lout lin lout.
Proof.
  intros Ht Hf Hs Hr. unfold moves. rewrite Hs, Hr. split_and!; [done..|]. exists [].
  by rewrite app_nil_r.
Qed.

Definition pending u : nat := traffic (dev (ua_hw u)).

Lemma i16_byte b : 0 <= b < 256 -> i16 b = b.
Proof. intros. apply swrap_small; lia. Qed.

Lemma uart_receive_all_spec fuel byte u lin lout :
  0 <= byte < 256 -> fifos u lin lout -> (pending u < fuel)%nat ->
  wp (uart_receive_all fuel byte) (fun byte' u' => 0 <= byte' < 256 /\
    (pending u' <= pending u)%nat /\ serves (dev (ua_hw u)) (dev (ua_hw u')) /\
    can_send u' = can_send u /\ exists t lin', moves u u' t lin lout lin' lout) u.
Proof.
  intros Hb Hf Hfuel. unfold uart_receive_all.
  apply (wp_iterate _ (fun byte' u' => 0 <= byte' < 256 /\ (pending u' <= pending u)%nat /\
    (dev (ua_hw u') = dev (ua_hw u) \/ serves (dev (ua_hw u)) (dev (ua_hw u'))) /\
    can_send u' = can_send u /\ exists t lin', moves u u' t lin lout lin' lout)
    (fun _ u' => pending u')).
  - clear byte Hb. intros byte u1 (Hb & Hp & Hsv & Hc & t1 & lin1 & Hm1).
    unfold ua_on_hw. wp_steps. eapply wp_mono; [by apply uart_receive_byte_serves|].
    intros [err b'] h ((t & Ht & Hs & Htr & Hb' & _ & Hcase) & Hsv1). cbn [fst snd] in *.
    assert (serves (dev (ua_hw u)) (dev h)) as Hsv2.
    { destruct Hsv as [Ed|Hsv]; [by rewrite <- Ed|]. intros n Hn. specialize (Hsv n Hn). lia. }
    assert (fifos (u1 <| ua_hw := h |>) lin1 lout) as Hf1 by apply Hm1.
    destruct Hcase as [(-> & Hr)|[(-> & Hr & Hlt)|(-> & He & Hr & Hlt)]]; cbn beta iota delta [Z.eqb Pos.eqb].
    + wp_step. unfold pending in *. cbn. split_and!; [lia..|done|done|].
      eexists _, _. eapply moves_trans; [done|]. by apply (moves_quiet _ (u1 <| ua_hw := h |>) t).
    + wp_steps. eapply wp_in_updates; [apply push_updates|done|]. intros s Hf2. wp_step.
      rewrite i16_byte in Hf2 by done. unfold pending in *. cbn.
      split; [|lia]. split_and!; [lia..|by right|done|]. eexists _, _. eapply moves_trans; [done|].
      split; [by apply Ht|]. split; [done|]. split; [by rewrite Hs|].
      exists [b']. by rewrite Hr.
    + wp_steps. eapply wp_in_updates; [apply push_updates|done|]. intros s Hf2.
      wp_steps. eapply wp_in_updates; [apply push_updates|done|]. intros s2 Hf3. wp_step.
      rewrite (i16_byte b') in Hf3 by done. unfold pending in *. cbn.
      split; [|lia]. split_and!; [lia..|by right|done|]. eexists _, _. eapply moves_trans; [done|].
      split; [by apply Ht|]. split; [done|]. split; [by rewrite Hs|].
      exists [i16 UART_ERROR_CODE; b']. rewrite He. split; [by rewrite <- app_assoc|].
      split; [|done]. destruct Hr as [-> | ->]; [apply sublist_nil_l|].
      apply sublist_cons, sublist_skip. done.
  - split_and!; [lia..|by left|done|]. eexists _, _. by apply moves_refl.
  - done.
Qed.

Lemma uart_send_all_spec fuel u lin lout :
  fifos u lin lout -> (length lout < fuel)%nat ->
  wp (uart_send_all fuel) (fun _ u' => can_send u' = can_send u /\
    exists t lout', moves u u' t lin lout lin lout' /\
      (pending u' + 2 * length lout' <= pending u + 2 * length lout)%nat) u.
Proof.
  intros Hf Hfuel. unfold uart_send_all.
  apply (wp_iterate_rel _ (fun _ n u' => can_send u' = can_send u /\
    exists t lout', moves u u' t lin lout lin lout' /\ n = length lout' /\
      (pending u' + 2 * length lout' <= pending u + 2 * length lout)%nat) _ _ _ _ (length lout)).
  - intros _ n u1 (Hc & t1 & lout1 & Hm & -> & Hp). pose proof Hm as (_ & Hf1 & _).
    wp_step. eapply wp_out_observes; [apply empty_observes|done|]. cbn beta. case_bool_decide as E.
    { wp_step. split; [done|]. by exists t1, lout1. }
    wp_step. eapply wp_out_observes; [apply front_observes|done|].
    destruct lout1 as [|x lout1]; [done|]. cbn [head default tail] in *.
    unfold ua_on_hw. wp_steps. eapply wp_mono; [apply uart_send_byte_wire|].
    intros err h [(t & Ht & Hs & Hr) Htr]. cbn beta in *.
    destruct (Z.eqb_spec err OK) as [->|Hne]; cbn [negb].
    + wp_step. eapply wp_out_updates; [apply pop_updates|exact Hf1|]. intros s Hf2. wp_step.
      exists (length lout1). split; [cbn; lia|]. split; [done|].
      exists (t1 ++ t), lout1. split; [|split; [done|unfold pending in *; cbn in *; lia]].
      eapply moves_trans; [done|]. split; [by apply Ht|]. split; [done|].
      split; [by rewrite Hs|]. exists []. rewrite Hr, app_nil_r. done.
    + wp_step. split; [done|]. exists (t1 ++ t), (x :: lout1).
      split; [|unfold pending in *; cbn in *; lia].
      eapply moves_trans; [done|]. by apply moves_quiet.
  - split; [done|]. exists [], lout. split; [by apply moves_refl|done].
  - done.
Qed.

Definition pending_work u (lout : list Z) : nat := pending u + 2 * length lout.

(** What a piece of the interrupt handler guarantees about the flag that
    lets [uart_safe_transmit] bypass the queue. *)
Definition flag_sound u (lout : list Z) : Prop := can_send u = true -> lout = [].

Lemma uart_ih_round_spec fuel byte int_id u lin lout :
  0 <= byte < 256 -> fifos u lin lout -> flag_sound u lout ->
  (pending_work u lout < fuel)%nat ->
  wp (uart_ih_round fuel (byte, int_id)) (fun r u' => exists t lin' lout',
    moves u u' t lin lout lin' lout' /\ flag_sound u' lout' /\
    match r with
    | inl (byte', _) => 0 <= byte' < 256 /\ (pending_work u' lout' < pending_work u lout)%nat
    | inr _ => (pending_work u' lout' <= pending_work u lout)%nat
    end) u.
Proof.
  intros Hb Hf Hfl Hfuel. unfold uart_ih_round, uart_get_int_id, ua_on_hw, pending_work in *.
  wp_steps. apply wp_util_sys_inb_dev. intros err v d E.
  pose proof (traffic_inb_eq _ _ _ _ E) as Htr.
  set (u1 := u <| ua_hw := mk_hw d (trace (ua_hw u) ++ [In (COM1_UART_ADDRESS + UART_IIR) err v]) |>).
  assert (fifos u1 lin lout) as Hf1 by done.
  assert (pending u1 <= pending u)%nat as Hp0 by done.
  assert (moves u u1 [In (COM1_UART_ADDRESS + UART_IIR) err v] lin lout lin lout) as Hm1.
  { apply moves_quiet; [done..|]. cbn. by destruct err. }
  destruct (Z.eqb_spec err 0) as [->|Hne]; cbn [negb Z.eqb OK].
  2: { cbn. wp_step. exists [In (COM1_UART_ADDRESS + UART_IIR) err v], lin, lout.
       split_and!; [done|done|lia]. }
  change (0 =? OK) with true. cbn [negb].
  destruct (has_bits (u8 v) IIR_INT) eqn:Epend.
  { wp_step. exists [In (COM1_UART_ADDRESS + UART_IIR) 0 v], lin, lout.
    split_and!; [done|done|lia]. }
  pose proof (traffic_received _ _ _ E Epend) as Hrecv.
  pose proof (traffic_status _ _ _ E Epend) as Hstat.
  pose proof (traffic_cause _ _ _ E Epend) as Hlt.
  unfold receive_cause, status_cause in *. cbv zeta in Hrecv, Hlt.
  set (cause := Z.land (u8 v) INT_MASK) in *.
  destruct (cause =? IIR_STATUS).
  { wp_steps. unfold uart_get_line_status. apply wp_util_sys_inb_dev. intros e2 v2 d2 E2.
    pose proof (Hstat eq_refl _ _ E2) as Htr2.
    set (byte2 := if e2 =? 0 then u8 v2 else byte).
    replace (if e2 =? 0 then (0, u8 v2) else (1, byte)) with (if e2 =? 0 then 0 else 1, byte2)
      by (unfold byte2; by destruct (e2 =? 0)). cbn. wp_step.
    eexists _, lin, lout. split; [eapply moves_trans; [exact Hm1|]|].
    - apply (moves_quiet u1 _ [In (COM1_UART_ADDRESS + UART_LSR) e2 v2]); done.
    - split; [done|]. split.
      + unfold byte2. destruct (e2 =? 0); [apply (wrap_range 8); lia|lia].
      + unfold pending in *. cbn in *. lia. }
  destruct ((cause =? IIR_RECV_DATA_AVAIL) || (cause =? IIR_CHAR_TIMEOUT)).
  { wp_step. eapply wp_mono; [apply (uart_receive_all_spec _ _ u1 lin lout); [done|done|lia]|].
    intros byte' u2 (Hb' & Hp & Hsv & Hc & t & lin' & Hm). wp_step.
    eexists _, lin', lout. split; [by eapply moves_trans|].
    split; [unfold flag_sound; by rewrite Hc|]. split; [done|].
    assert (pending u2 < pending u)%nat; [|lia].
    apply Hsv. split; [done|]. by apply Hrecv. }
  specialize (Hlt eq_refl eq_refl). assert (pending u1 < pending u)%nat as Hp1 by done.
  destruct (cause =? IIR_TRNSMT_EMPTY).
  2: { wp_step. eexists _, lin, lout. split; [exact Hm1|]. split; [done|]. split; [done|lia]. }
  wp_step. eapply wp_out_observes; [apply empty_observes|done|]. cbn beta. case_bool_decide as Eq.
  { wp_step. apply wp_modify. wp_step. eexists _, lin, lout. split; [exact Hm1|].
    split; [by intros _|]. split; [done|]. unfold pending in *. cbn in *. lia. }
  wp_step. eapply wp_mono; [apply (uart_send_all_spec _ u1 lin lout); [done|lia]|].
  intros _ u2 (Hc & t & lout' & Hm & Hp). wp_step. apply wp_modify. wp_step.
  eexists _, lin, lout'. split; [eapply (moves_trans _ u1 _ _ t); [done|exact Hm]|].
  split; [done|]. split; [done|]. unfold pending in *. cbn in *. lia.
Qed.

Lemma uart_ih_spec fuel u lin lout :
  fifos u lin lout -> flag_sound u lout -> (pending_work u lout < fuel)%nat ->
  wp (uart_ih fuel) (fun _ u' => exists t lin' lout',
    moves u u' t lin lout lin' lout' /\ flag_sound u' lout' /\
    (pending_work u' lout' <= pending_work u lout)%nat) u.
Proof.
  intros Hf Hfl Hfuel. unfold uart_ih, ua_on_hw. wp_steps. apply wp_uninit_byte. intros g Hg.
  wp_steps. apply wp_uninit_byte. intros g2 _. cbn [ua_hw]. rewrite !set_hw_id.
  apply (wp_iterate_rel _ (fun s n u' => 0 <= fst s < 256 /\ exists t lin' lout',
    moves u u' t lin lout lin' lout' /\ flag_sound u' lout' /\ n = pending_work u' lout' /\
    (n <= pending_work u lout)%nat) _ _ _ _ (pending_work u lout)).
  - intros [byte int_id] n u1 (Hb & t & lin1 & lout1 & Hm & Hfl1 & -> & Hle). cbn [fst] in *.
    eapply wp_mono; [apply uart_ih_round_spec; [done|apply Hm|done|lia]|].
    intros [[byte' id']|[]] u2 (t2 & lin2 & lout2 & Hm2 & Hfl2 & Hr).
    + destruct Hr as [Hb' Hlt]. eexists. split; [done|]. split; [done|].
      eexists _, _, _. split; [by eapply moves_trans|]. split; [done|]. split; [done|lia].
    + eexists _, _, _. split; [by eapply moves_trans|]. split; [done|lia].
  - split; [done|]. exists [], lin, lout. split; [by apply moves_refl|done].
  - done.
Qed.

(** On a port with finite traffic the interrupt handler returns, and in
    doing so moves bytes without losing or reordering any: every byte read
    from the receiver is appended to the receive queue in order (and, when no
    line error was reported, nothing else is), and the bytes written to the
    transmitter are exactly the ones that left the front of the transmit
    queue; it only ever raises the flag that lets a byte bypass the queue
    when the transmit queue is empty. *)
Lemma uart_ih_moves_bytes fuel u lin lout :
  fifos u lin lout -> (can_send u = true -> lout = []) ->
  (traffic (dev (ua_hw u)) + 2 * length lout < fuel)%nat ->
  wp (uart_ih fuel) (fun _ u' => exists t news lout',
    trace (ua_hw u') = trace (ua_hw u) ++ t /\ fifos u' (lin ++ news) lout' /\
    sublist (received t) news /\ (error_free t = true -> news = received t) /\
    map u8 lout = sent t ++ map u8 lout' /\
    (can_send u' = true -> lout' = [])) u.
Proof.
  intros Hf Hfl Hfuel. eapply wp_mono; [by apply uart_ih_spec|].
  intros [] u' (t & lin' & lout' & (Ht & Hf' & Ho & news & -> & Hn) & Hfl' & _).
  exists t, news, lout'. by destruct Hn.
Qed.

(** *** Calls of the driver's users *)
Inductive port_op : Type :=
| SafeTransmit (byte : Z) | PushTransmit (byte : Z) | Interrupt | RecvFront
| CancelTransmit | CancelRecv.

Definition port_call (fuel : nat) (op : port_op) : prog (uart D S) unit :=
  match op with
  | SafeTransmit byte => uart_safe_transmit byte
  | PushTransmit byte => uart_push_transmit byte
  | Interrupt => uart_ih fuel
  | RecvFront => _ <- uart_recv_front ;; ret tt
  | CancelTransmit => empty_transmit_queue
  | CancelRecv => empty_recv_queue
  end.

(** The bytes a call asks to send, and whether it can lose any. *)
Definition asked (op : port_op) : list Z :=
  match op with SafeTransmit byte | PushTransmit byte => [byte] | _ => [] end.
Definition lossless (op : port_op) : bool :=
  match op with SafeTransmit _ | CancelTransmit => false | _ => true end.

(** [u'] after calls that asked for [req]: what went out followed by what is
    queued. *)
Definition in_order u u' (lout req : list Z) (safe : bool) (work : nat) : Prop :=
  exists t lin' lout', trace (ua_hw u') = trace (ua_hw u) ++ t /\ fifos u' lin' lout' /\
    flag_sound u' lout' /\ (pending_work u' lout' <= pending_work u lout + work)%nat /\
    sublist (sent t ++ map u8 lout') (map u8 lout ++ req) /\
    (safe = true -> sent t ++ map u8 lout' = map u8 lout ++ req).

Lemma in_order_store u s lin' lout lout' req safe work :
  fifos (u <| ua_store := s |>) lin' lout' -> flag_sound u lout' ->
  (2 * length lout' <= 2 * length lout + work)%nat ->
  sublist (map u8 lout') (map u8 lout ++ req) ->
  (safe = true -> map u8 lout' = map u8 lout ++ req) ->
  in_order u (u <| ua_store := s |>) lout req safe work.
Proof.
  intros. exists [], lin', lout'. rewrite app_nil_r. split_and!; [done|done|done| |done|done].
  unfold pending_work, pending in *. cbn in *. lia.
Qed.

Lemma port_call_in_order fuel op u lin lout :
  fifos u lin lout -> flag_sound u lout -> (pending_work u lout < fuel)%nat ->
  Forall (fun b => 0 <= b < 256) (asked op) ->
  wp (port_call fuel op) (fun _ u' => in_order u u' lout (asked op) (lossless op) 2) u.
Proof.
  intros Hf Hfl Hfuel Hb.
  assert (forall b u, 0 <= b < 256 -> fifos u lin lout -> flag_sound u lout ->
    wp (uart_push_transmit b) (fun _ u' => in_order u u' lout [b] true 2) u) as Hpush.
  { clear. intros b u Hb Hf Hfl. unfold uart_push_transmit. wp_step.
    eapply wp_out_updates; [apply push_updates|done|]. intros s Hf'. wp_step.
    exists [], lin, (lout ++ [b]). rewrite i16_byte in Hf' by done. rewrite app_nil_r.
    assert (map u8 (lout ++ [b]) = map u8 lout ++ [b]) as E.
    { rewrite map_app. cbn. by rewrite (wrap_small 8) by lia. }
    unfold pending_work, pending. cbn. rewrite E, length_app. cbn.
    split_and!; [done|done|done|lia|done|done]. }
  destruct op as [b|b| | | |]; cbn [port_call asked lossless] in *.
  - rewrite Forall_singleton in Hb. unfold uart_safe_transmit, transmitter_empty. wp_step. wp_step.
    destruct (can_send u) eqn:Ec.
    + unfold ua_on_hw. wp_steps. eapply wp_mono; [apply uart_send_byte_wire|].
      intros err h [(t & Ht & Hs & Hr) Htr]. wp_step. rewrite (Hfl Ec) in *.
      exists t, lin, []. split_and!; [done|done|done| | |done].
      * unfold pending_work, pending. cbn in *. destruct (err =? OK)%Z; lia.
      * rewrite Hs, app_nil_r. destruct (err =? OK); [done|]. apply sublist_nil_l.
    + cbn iota. eapply wp_mono; [by apply Hpush|].
      intros _ u' (t & l1 & l2 & H1 & H2 & H3 & H4 & H5 & H6). by exists t, l1, l2.
  - rewrite Forall_singleton in Hb. by apply Hpush.
  - eapply wp_mono; [by apply uart_ih_spec|].
    intros _ u' (t & lin' & lout' & (Ht & Hf' & Ho & _) & Hfl' & Hp).
    exists t, lin', lout'. rewrite app_nil_r, Ho. split_and!; [done|done|done|lia|done|done].
  - unfold uart_recv_front. wp_steps. eapply wp_in_observes; [apply empty_observes|done|]. cbn beta.
    case_bool_decide.
    + wp_steps. rewrite <- (set_store_id u) at 2. eapply in_order_store;
        [by rewrite set_store_id|done|lia|by rewrite app_nil_r..].
    + wp_steps. eapply wp_in_observes; [apply front_observes|done|]. cbn beta. wp_steps.
      eapply wp_in_updates; [apply pop_updates|done|]. intros s Hf'. wp_steps.
      eapply in_order_store; [done|done|lia|by rewrite app_nil_r..].
  - eapply wp_out_updates; [apply clean_updates|done|]. intros s Hf'.
    eapply in_order_store; [done|done|cbn; lia|apply sublist_nil_l|done].
  - eapply wp_in_updates; [apply clean_updates|done|]. intros s Hf'.
    eapply in_order_store; [done|done|lia|by rewrite app_nil_r..].
Qed.

(** C7: on a port with finite traffic ([FiniteTraffic]: a 16550 whose other end
    sends finitely many bytes is one, [port16550_traffic]), whose traffic the
    fuel exceeds, over queues that keep their promises ([QueueLaws]: the
    linked queue does while memory lasts): over any sequence of calls of the
    driver and interrupts, started with the flag that lets a byte bypass the
    transmit queue down or that queue empty, every call returns and the bytes
    on the wire are the requested ones, in the order of the requests: what was
    written followed by what is still queued is a subsequence of what was
    queued at first followed by what was asked for, so a byte sent directly
    never overtakes a queued one; and nothing is missing from it unless a
    byte was sent directly or the queue was cancelled. *)
Theorem uart_wire_order fuel ops u lin lout :
  fifos u lin lout -> (can_send u = true -> lout = []) ->
  Forall (fun b => 0 <= b < 256) (flat_map asked ops) ->
  (traffic (dev (ua_hw u)) + 2 * (length lout + length ops) < fuel)%nat ->
  wp (for_each ops (port_call fuel)) (fun _ u' => exists t lin' lout',
    trace (ua_hw u') = trace (ua_hw u) ++ t /\ fifos u' lin' lout' /\
    sublist (sent t ++ map u8 lout') (map u8 lout ++ flat_map asked ops) /\
    (forallb lossless ops = true ->
       sent t ++ map u8 lout' = map u8 lout ++ flat_map asked ops)) u.
Proof.
  intros Hf Hfl Hb Hfuel.
  assert (pending_work u lout + 2 * length ops < fuel)%nat as Hfuel'
    by (unfold pending_work, pending; lia).
  clear Hfuel. revert u lin lout Hf Hfl Hb Hfuel'.
  induction ops as [|op ops IH]; intros u lin lout Hf Hfl Hb Hfuel; cbn [for_each].
  - wp_step. exists [], lin, lout. rewrite !app_nil_r. done.
  - cbn in Hb. apply Forall_app in Hb as [Hb1 Hb2]. cbn in Hfuel.
    wp_step. eapply wp_mono; [apply (port_call_in_order fuel op u lin lout); [done|done|lia|done]|].
    intros [] u1 (t1 & lin1 & lout1 & Ht1 & Hf1 & Hfl1 & Hp1 & Hs1 & He1).
    eapply wp_mono; [apply (IH u1 lin1 lout1); [done|done|done|lia]|].
    intros [] u2 (t2 & lin2 & lout2 & Ht2 & Hf2 & Hs2 & He2).
    exists (t1 ++ t2), lin2, lout2. rewrite sent_app, Ht2, Ht1, <- !app_assoc. cbn.
    split_and!; [done|done| |].
    + transitivity (sent t1 ++ (map u8 lout1 ++ flat_map asked ops)).
      * by apply sublist_app.
      * rewrite !app_assoc. by apply sublist_app.
    + intros [E1 E2]%andb_prop. rewrite He2 by done. rewrite !app_assoc.
      by rewrite He1.
Qed.
End Driver.

(** ** A concrete port: the scripted device says no more than its script *)
#[export] Instance script_traffic : FiniteTraffic script.
Proof.
  assert (forall p d v d', dev_inb p d = ((0, v), d') ->
    (length (readings d') < length (readings d))%nat) as Hread.
  { intros p [[|r rs] ws] v d'; cbn; [done|]. intros [= -> <-]. cbn. lia. }
  assert (forall p d r d', dev_inb p d = (r, d') ->
    (length (readings d') <= length (readings d))%nat) as Hle.
  { intros p [[|r0 rs] ws] r d'; cbn; intros [= <- <-]; cbn; lia. }
  refine {| traffic d := length (readings d) |}.
  - intros p d. destruct (dev_inb p d) eqn:E. by eapply Hle.
  - done.
  - intros p v [rs [|e ws]]; cbn; lia.
  - intros d d' v E%Hread _ _ e w d'' E2%Hle. left. lia.
  - intros d d' v E%Hread _ _ r d'' E2%Hle. lia.
  - intros d d' v E%Hread _ _ _. done.
  - intros d d' v E%Hread _ _. done.
  - intros d d1 d2 v r E%Hread _ E2%Hle. lia.
Defined.

(** *** A 16550

    The serial chip as the driver sees it: a receiver of 16 places, each byte
    with the line errors it came with, shown by LSR when the byte is at the
    front; [coming] is what the other end will still send, one byte per delay,
    a byte that finds the receiver full being lost to an overrun.  IIR shows
    the most urgent cause, and only looking at an empty transmitter there ends
    that cause. *)
Record port16550 : Type := mk_port {
  rx_fifo : list (Z * Z);
  coming : list (Z * Z);
  overrun : bool;
  thr_empty : bool;
}.
Definition char_errs (c : Z * Z) : Z := Z.land (snd c) (Z.lor PARITY_ERR FRAMING_ERR).
Definition front_errs (d : port16550) : Z := default 0 (char_errs <$> head (rx_fifo d)).
Definition line_status (d : port16550) : Z :=
  Z.lor (Z.lor TRANS_HOLD_EMPTY (if bool_decide (rx_fifo d = []) then 0 else RECEIVE_DATA))
    (Z.lor (if overrun d then OVERRUN_ERR else 0) (front_errs d)).
Definition line_errors (d : port16550) : bool := overrun d || negb (front_errs d =? 0).

#[export] Instance port16550_device : Device port16550 := {|
  dev_inb p d :=
    if p =? IIR_PORT then
      if line_errors d then ((0, IIR_STATUS), d)
      else if negb (bool_decide (rx_fifo d = [])) then ((0, IIR_RECV_DATA_AVAIL), d)
      else if thr_empty d then ((0, IIR_TRNSMT_EMPTY), mk_port (rx_fifo d) (coming d) (overrun d) false)
      else ((0, IIR_INT), d)
    else if p =? LSR_PORT then
      ((0, line_status d),
       mk_port (match rx_fifo d with [] => [] | c :: l => (fst c, 0) :: l end) (coming d) false (thr_empty d))
    else if p =? DATA_PORT then
      ((0, default 0 (fst <$> head (rx_fifo d))), mk_port (tail (rx_fifo d)) (coming d) (overrun d) (thr_empty d))
    else ((0, 0), d);
  dev_outb p _ d :=
    (0, if p =? DATA_PORT then mk_port (rx_fifo d) (coming d) (overrun d) true else d);
  dev_wait _ d :=
    match coming d with
    | [] => d
    | c :: l => if Nat.ltb (length (rx_fifo d)) 16 then mk_port (rx_fifo d ++ [c]) l (overrun d) (thr_empty d)
                else mk_port (rx_fifo d) l true (thr_empty d)
    end;
  dev_irqsetpolicy _ _ hook d := ((0, hook), d);
  dev_irqrmpolicy _ d := (0, d);
  dev_irqenable _ d := (0, d);
  dev_irqdisable _ d := (0, d);
  dev_dflt_kbc_cmd_byte _ := 71;
  dev_garbage _ := 165;
|}.

(** What is left to say: a byte, its line errors, an overrun, an empty
    transmitter. *)
Definition char_traffic (c : Z * Z) : nat := if char_errs c =? 0 then 1 else 2.
Definition chars_traffic (l : list (Z * Z)) : nat := sum_list_with char_traffic l.
Definition port_traffic (d : port16550) : nat :=
  (chars_traffic (rx_fifo d) + chars_traffic (coming d) + Nat.b2n (overrun d) + Nat.b2n (thr_empty d))%nat.

Lemma char_traffic_pos c : (1 <= char_traffic c)%nat.
Proof. unfold char_traffic. destruct (_ =? _); lia. Qed.

(** The bits of the line status. *)
Lemma line_status_data d : rx_fifo d <> [] -> has_bits (u8 (line_status d)) RECEIVE_DATA = true.
Proof.
  intros H. unfold has_bits, line_status, RECEIVE_DATA, BIT. rewrite bool_decide_false by done.
  apply negb_true_iff, Z.eqb_neq. intros E. apply (f_equal (fun z => Z.testbit z 0)) in E. revert E.
  unfold wrap. rewrite Z.land_spec, Z.mod_pow2_bits_low, !Z.lor_spec by lia. by rewrite orb_true_r.
Qed.
Lemma line_status_quiet d : rx_fifo d = [] -> overrun d = false -> line_status d = TRANS_HOLD_EMPTY.
Proof. unfold line_status, front_errs. by intros -> ->. Qed.

(** Reading LSR and the data, and waiting, in terms of what is left. *)
Lemma port_lsr d r d' : dev_inb LSR_PORT d = (r, d') ->
  r = (0, line_status d) /\ (port_traffic d' + Nat.b2n (line_errors d) <= port_traffic d)%nat.
Proof.
  cbn. intros [= <- <-]. split; [done|]. unfold port_traffic, line_errors, front_errs. cbn.
  destruct d as [[|[b e] l] c [] t]; cbn; [lia..| |];
    unfold char_traffic, char_errs; cbn; rewrite ?Z.land_0_l; destruct (Z.land e _ =? 0); cbn; lia.
Qed.
Lemma port_data d r d' : dev_inb DATA_PORT d = (r, d') ->
  (port_traffic d' + (if bool_decide (rx_fifo d = []) then 0 else 1) <= port_traffic d)%nat.
Proof.
  cbn. intros [= _ <-]. unfold port_traffic. destruct d as [[|c l] k o t]; cbn; [lia|].
  pose proof (char_traffic_pos c). lia.
Qed.
Lemma port_wait us d : (port_traffic (dev_wait us d) <= port_traffic d)%nat.
Proof.
  unfold dev_wait, port16550_device. destruct d as [rx [|c l] o t]; cbn [coming rx_fifo]; [lia|].
  unfold port_traffic. destruct (Nat.ltb (length rx) 16); cbn.
  - unfold chars_traffic. rewrite sum_list_with_app. cbn. lia.
  - pose proof (char_traffic_pos c). destruct o; cbn; lia.
Qed.
(** The four answers of IIR. *)
Lemma port_iir d v d' : dev_inb IIR_PORT d = ((0, v), d') -> has_bits (u8 v) IIR_INT = false ->
  (d' = d /\ v = IIR_STATUS /\ line_errors d = true) \/
  (d' = d /\ v = IIR_RECV_DATA_AVAIL /\ rx_fifo d <> []) \/
  (v = IIR_TRNSMT_EMPTY /\ (port_traffic d' < port_traffic d)%nat).
Proof.
  cbn. destruct (line_errors d) eqn:El; [intros [= <- <-] _; auto|].
  case_bool_decide as Er; cbn; [|intros [= <- <-] _; auto].
  destruct d as [rx c o []]; cbn in *; intros [= <- <-]; [|done].
  intros _. right; right. split; [done|]. unfold port_traffic. cbn. lia.
Qed.

#[export] Instance port16550_traffic : FiniteTraffic port16550.
Proof.
  refine {| traffic := port_traffic |}.
  - intros p d. destruct (dev_inb p d) as [r d'] eqn:E. cbn [snd].
    unfold dev_inb, port16550_device in E.
    destruct (p =? IIR_PORT) eqn:E1; [|destruct (p =? LSR_PORT) eqn:E2; [|destruct (p =? DATA_PORT) eqn:E3]].
    + destruct (line_errors d); [by injection E as <- <-|].
      destruct (negb _); [by injection E as <- <-|].
      destruct d as [rx c o []]; cbn in E; injection E as <- <-; unfold port_traffic; cbn; lia.
    + destruct (port_lsr d r d' E). lia.
    + pose proof (port_data d r d' E). lia.
    + by injection E as <- <-.
  - apply port_wait.
  - intros p v d. unfold dev_outb, port16550_device. cbn [fst snd]. change (0 =? 0) with true. cbn iota.
    unfold port_traffic. destruct (p =? DATA_PORT); cbn; destruct (thr_empty d); cbn; unfold chars_traffic; lia.
  - intros d d' v E Hi Hr e w d'' E2. right.
    destruct (port_iir d v d' E Hi) as [(-> & -> & _)|[(-> & -> & Hne)|(-> & _)]]; [done| |done].
    destruct (port_lsr d (e, w) d'' E2) as [[= -> ->] _]. split; [done|]. by apply line_status_data.
  - intros d d' v E Hi Hs r d'' E2.
    destruct (port_iir d v d' E Hi) as [(-> & -> & Hl)|[(-> & -> & _)|(-> & _)]]; [|done..].
    destruct (port_lsr d r d'' E2) as [_ H]. rewrite Hl in H. cbn in H. lia.
  - intros d d' v E Hi Hr Hs.
    destruct (port_iir d v d' E Hi) as [(-> & -> & Hl)|[(-> & -> & _)|(-> & ?)]]; done.
  - intros d d' v E Herr Hrx. destruct (port_lsr d _ d' E) as [[= ->] H].
    destruct (line_errors d) eqn:El; cbn in H; [lia|]. exfalso.
    apply orb_false_iff in El as [Eo _].
    destruct (decide (rx_fifo d = [])) as [Erx|Erx].
    + by rewrite line_status_quiet in Herr.
    + by rewrite line_status_data in Hrx.
  - intros d d1 d2 v r E Hrx E2. destruct (port_lsr d _ d1 E) as [[= ->] H].
    assert (rx_fifo d1 <> []) as Hne.
    { cbn in E. injection E as <-. cbn. destruct (rx_fifo d) eqn:Er; [|done]. exfalso. revert Hrx.
      unfold line_status, front_errs. rewrite Er. by destruct (overrun d). }
    pose proof (port_data d1 r d2 E2) as H2. rewrite bool_decide_false in H2 by done. lia.
Defined.

(** The driver at start-up, on a port [d], and with its queues. *)
Definition uart_boot {D} (d : D) : uart D heap :=
  mk_uart (mk_hw d []) ∅ COM1_UART_IRQ None None true.
Definition uart_on {D} `{!Device D} (d : D) : uart D heap :=
  match init_uart_queues (uart_boot d) with Done (_, u) => u | _ => uart_boot d end.

Lemma uart_on_fifos {D} `{!Device D} (d : D) : fifos (uart_on d) [] [] /\
  dev (ua_hw (uart_on d)) = d /\ trace (ua_hw (uart_on d)) = [] /\
  can_send (uart_on d) = true.
Proof.
  pose proof (init_uart_queues_fifos (uart_boot d) ∅ queues_empty) as H.
  apply wp_Done in H as (r & u & E & _ & Hf & Hh & Hc).
  unfold uart_on. rewrite E. split; [done|]. by rewrite Hh, Hc.
Qed.

Definition uart_ready (rs : list (Z * Z)) : uart script heap := uart_on (mk_script rs []).
Lemma uart_ready_fifos rs : fifos (uart_ready rs) [] [] /\
  dev (ua_hw (uart_ready rs)) = mk_script rs [] /\ trace (ua_hw (uart_ready rs)) = [] /\
  can_send (uart_ready rs) = true.
Proof. exact (uart_on_fifos (mk_script rs [])). Qed.

(** One byte arrives, then the transmitter announces that it is empty. *)
Definition one_byte : list (Z * Z) :=
  [(0, 4); (0, 1); (0, 0x41); (0, 0); (0, 0); (0, 0); (0, 0); (0, 2); (0, 1)].

Lemma uart_ih_moves_bytes_at :
  fifos (uart_ready one_byte) [] [] /\
  wp (uart_ih 20) (fun _ u' => fifos u' [0x41] [] /\ can_send u' = true) (uart_ready one_byte).
Proof.
  destruct (uart_ready_fifos one_byte) as (Hf & Hd & Ht & Hc). split; [done|].
  pose proof (uart_ih_moves_bytes 20 (uart_ready one_byte) [] [] Hf
    (fun _ => eq_refl) ltac:(rewrite Hd; vm_compute; lia)) as H.
  apply (proj1 (wp_Done _ _ _)) in H as ([] & u' & E & t & news & lout' & Htr & Hf' & _ & Hn & Ho & _).
  apply (proj2 (wp_Done _ _ _)). exists tt, u'. split; [exact E|].
  vm_compute in E. injection E as <-. split; [|reflexivity].
  rewrite Ht in Htr. vm_compute in Htr. subst t. rewrite Hn in Hf' by reflexivity.
  destruct lout'; [exact Hf'|discriminate Ho].
Defined.

(** Two bytes are queued; a byte has arrived, its parity wrong, and the
    transmitter is empty: three causes in turn, the second one there until the
    byte is read. *)
Definition busy_port : port16550 := mk_port [(0x41, PARITY_ERR)] [(0x42, 0)] false true.
Lemma uart_wire_order_witness :
  Forall (fun b => 0 <= b < 256) (flat_map asked [PushTransmit 7; PushTransmit 8; Interrupt]) /\
  wp (for_each [PushTransmit 7; PushTransmit 8; Interrupt] (port_call 20))
    (fun _ u' => exists lin' lout', fifos u' lin' lout' /\
       sent (trace (ua_hw u')) = [7; 8] /\ lout' = [])
    (uart_on busy_port).
Proof.
  assert (Forall (fun b => 0 <= b < 256)
    (flat_map asked [PushTransmit 7; PushTransmit 8; Interrupt])) as Hb
    by (repeat constructor; lia).
  split; [done|].
  destruct (uart_on_fifos busy_port) as (Hf & Hd & Ht & Hc).
  pose proof (uart_wire_order 20 [PushTransmit 7; PushTransmit 8; Interrupt] _ [] [] Hf
    (fun _ => eq_refl) Hb ltac:(rewrite Hd; vm_compute; lia)) as H.
  apply (proj1 (wp_Done _ _ _)) in H as ([] & u' & E & t & lin' & lout' & Htr & Hf' & _ & He).
  specialize (He eq_refl).
  apply (proj2 (wp_Done _ _ _)). exists tt, u'. split; [exact E|]. exists lin', lout'. split; [exact Hf'|].
  vm_compute in E. injection E as <-. rewrite Ht in Htr. vm_compute in Htr. subst t.
  split; [reflexivity|]. by destruct lout'.
Defined.
