(* ===== verification/Doubles.v ===== *)
(** * Doubles

    The [double] of C: IEEE binary64 with rounding to nearest even, as the
    Standard Library's [SpecFloat] specifies it, so that every computation is
    executable and bit-exact.  The functions of [libm] that are not correctly
    rounded by definition are a parameter ([Libm]). *)

From Stdlib Require Import Floats.SpecFloat.
From S2P Require Import Prelude.

Abbreviation double := spec_float.

Definition dadd : double -> double -> double := SFadd 53 1024.
Definition dsub : double -> double -> double := SFsub 53 1024.
Definition dmul : double -> double -> double := SFmul 53 1024.
Definition ddiv : double -> double -> double := SFdiv 53 1024.
Definition dsqrt : double -> double := SFsqrt 53 1024.
Definition dneg : double -> double := SFopp.
Definition dabs : double -> double := SFabs.
Definition dlt : double -> double -> bool := SFltb.
Definition dle : double -> double -> bool := SFleb.
Definition deq : double -> double -> bool := SFeqb.
Definition dgt (x y : double) : bool := dlt y x.
Definition dge (x y : double) : bool := dle y x.

(** The conversion of an integer, and the literal with decimal value
    [p / q] ([p], [q] below [2^53]). *)
Definition dint (z : Z) : double := binary_normalize 53 1024 z 0 false.
Definition dlit (p q : Z) : double := ddiv (dint p) (dint q).

Definition d0 : double := S754_zero false.

(** The integral part of a finite double, as the conversions of C take it. *)
Definition dtrunc (x : double) : option Z :=
  match x with
  | S754_zero _ => Some 0
  | S754_finite s m e =>
      let a := Z.shiftl (Zpos m) e in Some (if s then - a else a)
  | _ => None
  end.
(** [(T) x] for an integer type with values [lo .. hi]: undefined when the
    integral part does not fit. *)
Definition dto (lo hi : Z) (x : double) : option Z :=
  match dtrunc x with
  | Some z => if (lo <=? z) && (z <=? hi) then Some z else None
  | None => None
  end.
Definition dto_int : double -> option Z := dto INT_MIN INT_MAX.
Definition dto_u8 : double -> option Z := dto 0 255.

(** [cos], [sin], [tan], [atan2] and [pow] of the C library. *)
Class Libm : Type := {
  dcos : double -> double;
  dsin : double -> double;
  dtan : double -> double;
  datan2 : double -> double -> double;
  dpow : double -> double -> double;
}.

Definition M_PI : double := dlit 3141592653589793 1000000000000000.

(** A libm for the witnesses: [cos] and [sin] by their first terms, [pow] by
    multiplication for the exponent 2. *)
#[export] Instance toy_libm : Libm := {|
  dcos x := dsub (dint 1) (ddiv (dmul x x) (dint 2));
  dsin x := x;
  dtan x := x;
  datan2 y x := ddiv y x;
  dpow x _ := dmul x x;
|}.

(** ** Facts *)
Definition dvalid (x : double) : bool := valid_binary 53 1024 x.

Lemma dabs_dmul x y : dabs (dmul x y) = dmul (dabs x) (dabs y).
Proof.
  destruct x as [sx|sx| |sx mx ex], y as [sy|sy| |sy my ey]; try done.
  cbn. unfold binary_round_aux. do 2 (destruct (shr_fexp _ _ _ _ _) as [? ?]; cbn).
  destruct (shr_m _) as [|m|m]; try done. by destruct (Z.leb _ _).
Qed.

Lemma iter_pos_nat {A} (f : A -> A) n x : SpecFloat.iter_pos f n x = Nat.iter (Pos.to_nat n) f x.
Proof.
  revert x. induction n as [n IH|n IH|]; intros x; cbn [SpecFloat.iter_pos].
  - rewrite !IH, <- Nat.iter_succ_r, <- Nat.iter_add. f_equal. lia.
  - rewrite !IH, <- Nat.iter_add. f_equal. lia.
  - done.
Qed.

(** Shifting out zeros is exact. *)
Lemma shr_exact m e k n :
  0 <= n <= k ->
  shr (Build_shr_record (Zpos m * 2 ^ k) false false) e n =
  (Build_shr_record (Zpos m * 2 ^ (k - n)) false false, e + n).
Proof.
  intros Hn. destruct n as [|p|p]; [by rewrite Z.sub_0_r, Z.add_0_r| |lia].
  unfold shr. f_equal. rewrite iter_pos_nat. revert Hn.
  replace (Zpos p) with (Z.of_nat (Pos.to_nat p)) by lia. generalize (Pos.to_nat p). clear p.
  intros n. revert k. induction n as [|n IH]; intros k Hn.
  { cbn. by rewrite Z.sub_0_r. }
  rewrite Nat.iter_succ_r.
  replace (Zpos m * 2 ^ k) with (2 * (Zpos m * 2 ^ (k - 1))).
  2: { replace k with (Z.succ (k - 1)) at 2 by lia. rewrite Z.pow_succ_r by lia. lia. }
  assert (0 < 2 ^ (k - 1)) by (apply Z.pow_pos_nonneg; lia).
  destruct (Zpos m * 2 ^ (k - 1)) as [|q|q] eqn:E; [lia| |lia].
  change (shr_1 _) with (Build_shr_record (Zpos q) false false).
  rewrite <- E, IH by lia. do 2 f_equal. f_equal. lia.
Qed.

Lemma digits2_mul_pow m k : 0 <= k ->
  Zdigits2 (Zpos m * 2 ^ k) = Zpos (digits2_pos m) + k.
Proof.
  revert k. apply natlike_ind; [by rewrite Z.mul_1_r, Z.add_0_r|].
  intros k Hk IH. rewrite Z.pow_succ_r by done.
  replace (Zpos m * (2 * 2 ^ k)) with (2 * (Zpos m * 2 ^ k)) by lia.
  assert (0 < 2 ^ k) by (apply Z.pow_pos_nonneg; lia).
  destruct (Zpos m * 2 ^ k) as [|q|q] eqn:E; [lia| |lia].
  change (Zdigits2 (2 * Zpos q)) with (Zpos (Pos.succ (digits2_pos q))).
  change (Zdigits2 (Zpos q)) with (Zpos (digits2_pos q)) in IH. lia.
Qed.

(** Rounding a number whose surplus bits are zero. *)
Lemma round_exact s m k e (n := fexp 53 1024 (Zpos (digits2_pos m) + k + e) - e) :
  0 <= n <= k ->
  exists p, Zpos p = Zpos m * 2 ^ (k - n) /\
    binary_round_aux 53 1024 s (Zpos m * 2 ^ k) e loc_Exact =
    if e + n <=? 971 then S754_finite s p (e + n) else S754_infinity s.
Proof.
  intros Hn. assert (0 < 2 ^ (k - n)) by (apply Z.pow_pos_nonneg; lia).
  destruct (Zpos m * 2 ^ (k - n)) as [|p|p] eqn:E; [lia| |lia]. exists p. split; [done|].
  unfold binary_round_aux, shr_fexp.
  rewrite digits2_mul_pow by lia. change (fexp 53 1024 (_ + k + e) - e) with n.
  cbn [shr_record_of_loc]. rewrite shr_exact by done. cbn [shr_m loc_of_shr_record round_nearest_even].
  rewrite digits2_mul_pow by lia.
  replace (Zpos (digits2_pos m) + (k - n) + (e + n)) with (Zpos (digits2_pos m) + k + e) by lia.
  replace (fexp 53 1024 _ - (e + n)) with 0 by lia. cbn [shr shr_record_of_loc shr_m].
  by rewrite E.
Qed.

Lemma digits2_pos_bounds m : 2 ^ (Zpos (digits2_pos m) - 1) <= Zpos m < 2 ^ Zpos (digits2_pos m).
Proof.
  induction m as [m IH|m IH|]; cbn [digits2_pos]; [| |done].
  all: rewrite Pos2Z.inj_succ; replace (Z.succ _ - 1) with (Z.succ (Zpos (digits2_pos m) - 1)) by lia;
    rewrite !Z.pow_succ_r by lia; lia.
Qed.

(** ** Scaling is exact *)

Definition d128 : double := dint 128.

(** Multiplying by 128 below 2: the exponent grows by 7, no bit is lost. *)
Lemma dmul_128 s m e :
  dvalid (S754_finite s m e) = true -> e <= -52 ->
  exists p e', dmul (S754_finite s m e) d128 = S754_finite s p e' /\
    e <= e' <= e + 7 /\ Zpos p = Zpos m * 2 ^ (e + 7 - e').
Proof.
  intros Hv He. cbn in Hv. apply andb_prop in Hv as [Hc _]. unfold canonical_mantissa in Hc.
  apply Z.eqb_eq in Hc.
  assert (d128 = S754_finite false (2 ^ 52)%positive (-45)) as -> by done.
  unfold dmul, SFmul. rewrite xorb_false_r.
  assert (-1074 <= e /\ Zpos (digits2_pos m) + e - 53 <= e /\
    (e = -1074 \/ Zpos (digits2_pos m) = 53)) as (Hmin & Hd & Hcase).
  { unfold fexp, emin in Hc. lia. }
  replace (Zpos (m * 2 ^ 52)) with (Zpos m * 2 ^ 52) by lia.
  destruct (round_exact s m 52 (e + -45)) as (p & Hp & Hr).
  { unfold fexp, emin. lia. }
  rewrite Hr. clear Hr. set (n := fexp 53 1024 _ - _) in *.
  assert (0 <= n - 45 <= 7 /\ n <= 52) as Hn by (unfold n, fexp, emin; lia).
  destruct (Z.leb_spec (e + -45 + n) 971); [|lia].
  exists p, (e + -45 + n). split; [done|]. split; [lia|]. rewrite Hp. f_equal. f_equal. lia.
Qed.

Lemma dtrunc_pos p e : e <= 0 ->
  dtrunc (S754_finite false p e) = Some (Zpos p / 2 ^ (- e)).
Proof. intros He. cbn [dtrunc]. rewrite Z.shiftl_div_pow2 by lia. done. Qed.

(** The literal 1.9 of the mouse code. *)
Definition d1_9 : double := dlit 19 10.

(** A magnitude up to 1.9, in 128ths, is a byte of at most 243. *)
Lemma quantum_bound m e :
  dvalid (S754_finite false m e) = true -> dle (S754_finite false m e) d1_9 = true ->
  exists b, dto_u8 (dmul (S754_finite false m e) d128) = Some b /\ 0 <= b <= 243.
Proof.
  intros Hv Hle.
  assert (exists M, d1_9 = S754_finite false M (-52) /\ Zpos M / 2 ^ 45 = 243) as (M & HM & Hq)
    by (by eexists).
  rewrite HM in Hle. unfold dle, SFleb in Hle. cbn in Hle.
  assert (e <= -52 /\ (e = -52 -> Zpos m <= Zpos M)) as [He Hm].
  { destruct (Z.compare_spec e (-52)) as [->|Hlt|Hgt]; [|split; lia|done].
    split; [done|]. intros _. change (Pos.compare_cont Eq m M) with (m ?= M)%positive in Hle.
    destruct (Pos.compare_spec m M); subst; [lia|lia|done]. }
  destruct (dmul_128 false m e Hv He) as (p & e' & -> & He' & Hp).
  unfold dto_u8, dto. rewrite dtrunc_pos by lia.
  assert (Zpos p / 2 ^ (- e') = Zpos m / 2 ^ (- (e + 7))) as ->.
  { rewrite Hp. replace (- e') with ((e + 7 - e') + - (e + 7)) by lia.
    rewrite Z.pow_add_r by lia. rewrite Z.mul_comm.
    apply Z.div_mul_cancel_l; [apply Z.pow_nonzero; lia|apply Z.pow_nonzero; lia]. }
  assert (0 <= Zpos m / 2 ^ (- (e + 7)) <= 243) as Hb.
  { split; [apply Z.div_pos; [lia|apply Z.pow_pos_nonneg; lia]|].
    destruct (Z.eq_dec e (-52)) as [->|Hne].
    - rewrite <- Hq. change (- (-52 + 7)) with 45. apply Z.div_le_mono; [done|]. by apply Hm.
    - assert (Zpos m < 2 ^ 53) as H53.
      { cbn in Hv. apply andb_prop in Hv as [Hc _]. unfold canonical_mantissa in Hc.
        apply Z.eqb_eq in Hc. unfold fexp, emin in Hc.
        pose proof (digits2_pos_bounds m).
        assert (2 ^ Zpos (digits2_pos m) <= 2 ^ 53) by (apply Z.pow_le_mono_r; lia). lia. }
      etransitivity; [apply (Z.div_le_compat_l _ (2 ^ 46)); [lia|]|].
      + split; [done|]. apply Z.pow_le_mono_r; lia.
      + assert (Zpos m / 2 ^ 46 < 128) by (apply Z.div_lt_upper_bound; lia). lia. }
  exists (Zpos m / 2 ^ (- (e + 7))).
  destruct (Z.leb_spec 0 (Zpos m / 2 ^ (- (e + 7)))), (Z.leb_spec (Zpos m / 2 ^ (- (e + 7))) 255);
    try lia. split; [done|lia].
Qed.

(** *** The clamp of the mouse displacement

    Both ends of the network clamp the displacement to [-1.9 .. 1.9], count
    it in 128ths of a radian in one byte, and remember its sign. *)
Definition clamp_desl (x_delta : double) : double :=
  if dgt x_delta d1_9 then d1_9
  else if dlt x_delta (dneg d1_9) then dneg d1_9
  else x_delta.

Lemma SFcompare_antisym x y :
  SFcompare y x = match SFcompare x y with Some c => Some (CompOpp c) | None => None end.
Proof.
  destruct x as [[]|[]| |[] m e], y as [[]|[]| |[] m' e']; try done; cbn.
  all: rewrite (Z.compare_antisym e e'); destruct (e ?= e'); try done; cbn.
  all: change (Pos.compare_cont Eq m' m) with (m' ?= m)%positive;
    change (Pos.compare_cont Eq m m') with (m ?= m')%positive;
    by rewrite (Pos.compare_antisym m m').
Qed.

Lemma SFcompare_neg x y : SFcompare (SFopp x) (SFopp y) = SFcompare y x.
Proof.
  rewrite (SFcompare_antisym x y).
  destruct x as [[]|[]| |[] m e], y as [[]|[]| |[] m' e']; try done; cbn;
    destruct (e ?= e'); try done; by destruct (Pos.compare_cont Eq m m').
Qed.

Lemma dlt_dle x y : x <> S754_nan -> y <> S754_nan -> dlt y x = negb (dle x y).
Proof.
  intros Hx Hy. unfold dlt, dle, SFltb, SFleb. rewrite (SFcompare_antisym x y).
  assert (SFcompare x y <> None) by (by destruct x as [[]|[]| |[] m e], y as [[]|[]| |[] m' e']).
  by destruct (SFcompare x y) as [[]|].
Qed.

Lemma clamp_desl_cases x : dvalid x = true -> x <> S754_nan ->
  (exists s, clamp_desl x = S754_zero s) \/
  exists s m e, clamp_desl x = S754_finite s m e /\ dvalid (S754_finite s m e) = true /\
    dle (S754_finite false m e) d1_9 = true.
Proof.
  intros Hv Hn.
  assert (forall (s : bool), exists m e, (if s then dneg d1_9 else d1_9) = S754_finite s m e /\
    dvalid (S754_finite s m e) = true /\ dle (S754_finite false m e) d1_9 = true) as Hlim
    by (intros []; by eexists _, _).
  unfold clamp_desl, dgt. destruct x as [s|s| |s m e]; [left; by exists s| |done|]; right.
  { exists s. destruct s; [apply (Hlim true)|apply (Hlim false)]. }
  exists s. destruct s.
  - assert (dlt d1_9 (S754_finite true m e) = false) as -> by done.
    assert (dlt (S754_finite true m e) (dneg d1_9) = dlt d1_9 (S754_finite false m e)) as ->.
    { unfold dlt, SFltb. change (S754_finite true m e) with (SFopp (S754_finite false m e)).
      by rewrite SFcompare_neg. }
    rewrite dlt_dle by done. destruct (dle _ d1_9) eqn:E; [by exists m, e|apply (Hlim true)].
  - rewrite dlt_dle by done. destruct (dle _ d1_9) eqn:E; [|apply (Hlim false)]. cbn [negb].
    assert (dlt (S754_finite false m e) (dneg d1_9) = false) as -> by done. by exists m, e.
Qed.

(** The byte and the sign both ends agree on. *)
Lemma clamp_desl_quantum x : dvalid x = true -> x <> S754_nan ->
  exists b, dto_u8 (dmul (dabs (clamp_desl x)) d128) = Some b /\
    dto_u8 (dabs (dmul (clamp_desl x) d128)) = Some b /\ 0 <= b <= 243 /\
    dge (dmul (clamp_desl x) d128) d0 = dge (clamp_desl x) d0.
Proof.
  intros Hv Hn. rewrite dabs_dmul. change (dabs d128) with d128.
  destruct (clamp_desl_cases x Hv Hn) as [[s ->]|(s & m & e & -> & Hv' & Hle)].
  { exists 0. by destruct s. }
  destruct (quantum_bound m e) as (b & Hb & Hr); [done..|]. exists b. cbn [dabs SFabs].
  split_and!; [done|done|lia|lia|].
  assert (e <= -52) as He.
  { revert Hle. assert (exists M, d1_9 = S754_finite false M (-52)) as [M ->] by (by eexists).
    unfold dle, SFleb. cbn. by destruct (Z.compare_spec e (-52)); [lia|lia|]. }
  destruct (dmul_128 s m e Hv' He) as (p & e' & -> & _). by destruct s.
Qed.

(** ** Order *)
Definition nonneg (x : double) : bool :=
  match x with S754_finite true _ _ | S754_infinity true => false | _ => true end.

Lemma binary_round_aux_sign s m e l : (s = false -> nonneg (binary_round_aux 53 1024 s m e l) = true).
Proof.
  intros ->. unfold binary_round_aux. do 2 (destruct (shr_fexp _ _ _ _ _) as [? ?]).
  destruct (shr_m _); try done. by destruct (Z.leb _ _).
Qed.

Lemma nonneg_dadd x y : nonneg x = true -> nonneg y = true -> nonneg (dadd x y) = true.
Proof.
  destruct x as [[]|[]| |[] mx ex], y as [[]|[]| |[] my ey]; try done. intros _ _.
  unfold dadd, SFadd. cbn [cond_Zopp]. unfold binary_normalize.
  destruct (Zpos _ + Zpos _) eqn:E; [done| |lia].
  unfold binary_round. destruct (shl_align p _ _). by apply binary_round_aux_sign.
Qed.

Lemma nonneg_not_minus_one x : nonneg x = true -> deq x (dint (-1)) = false.
Proof. by destruct x as [[]|[]| |[] m e]. Qed.

(** Finite numbers of one sign compare by exponent and mantissa. *)
Lemma pos_cont_compare m m' : Pos.compare_cont Eq m m' = (m ?= m')%positive.
Proof. done. Qed.

Lemma dlt_trans x y z : dlt x y = true -> dlt y z = true -> dlt x z = true.
Proof.
  unfold dlt, SFltb.
  destruct x as [[]|[]| |[] m e], y as [[]|[]| |[] m' e'], z as [[]|[]| |[] m'' e'']; try done.
  all: cbn; change (PosDef.Pos.compare_cont Eq) with Pos.compare.
  all: destruct (Z.compare_spec e e'), (Z.compare_spec e' e''), (Z.compare_spec e e''); subst;
    try done; try lia.
  all: destruct (Pos.compare_spec m m'), (Pos.compare_spec m' m''), (Pos.compare_spec m m'');
    subst; try done; lia.
Qed.

Lemma dlt_irrefl x : dlt x x = false.
Proof.
  unfold dlt, SFltb. destruct x as [[]|[]| |[] m e]; try done; cbn;
    by rewrite Z.compare_refl, pos_cont_compare, Pos.compare_refl.
Qed.

(** ** Whole parts *)
Lemma iter_xO p k : Zpos (Pos.iter xO p k) = Zpos p * 2 ^ Zpos k.
Proof.
  induction k as [|k IH] using Pos.peano_ind; [cbn; lia|].
  rewrite Pos.iter_succ, Pos2Z.inj_succ, Z.pow_succ_r by lia. lia.
Qed.

Lemma dint_pos p (d := Zpos (digits2_pos p)) : d <= 53 ->
  exists q, dint (Zpos p) = S754_finite false q (d - 53) /\ Zpos q = Zpos p * 2 ^ (53 - d).
Proof.
  intros Hd. assert (1 <= d) by lia.
  unfold dint, binary_normalize, binary_round. fold d. rewrite Z.add_0_r.
  assert (fexp 53 1024 d = d - 53) as Hf by (unfold fexp, emin; lia). rewrite Hf.
  assert (exists q, shl_align p 0 (d - 53) = (q, d - 53) /\ Zpos q = Zpos p * 2 ^ (53 - d)) as (q & -> & Hq).
  { unfold shl_align. rewrite Z.sub_0_r. destruct (d - 53) as [|k|k] eqn:E; [|lia|].
    - exists p. split; [done|]. replace (53 - d) with 0 by lia. lia.
    - exists (Pos.iter xO p k). split; [done|]. rewrite iter_xO. do 2 f_equal. lia. }
  exists q. split; [|done]. rewrite Hq.
  destruct (round_exact false p (53 - d) (d - 53)) as (r & Hr & ->).
  - fold d. replace (d + (53 - d) + (d - 53)) with d by lia. lia.
  - revert Hr. fold d. replace (d + (53 - d) + (d - 53)) with d by lia. rewrite Hf, Z.sub_diag, Z.add_0_r, Z.sub_0_r.
    intros Hr. destruct (Z.leb_spec (d - 53) 971); [|lia]. f_equal. lia.
Qed.

Lemma dto_int_range x i : dto_int x = Some i -> INT_MIN <= i <= INT_MAX.
Proof.
  unfold dto_int, dto. destruct (dtrunc x) as [z|]; [|done].
  destruct (Z.leb_spec INT_MIN z), (Z.leb_spec z INT_MAX); cbn; try done. by intros [= <-].
Qed.

(** A whole number is below 0.5 when it is 0. *)
Lemma dint_below_half i : - 2 ^ 31 < i < 2 ^ 31 -> dlt (dint (Z.abs i)) (dlit 5 10) = (i =? 0).
Proof.
  intros Hi. change (dlit 5 10) with (S754_finite false 4503599627370496 (-53)).
  assert (forall p, Zpos p < 2 ^ 31 -> dlt (dint (Zpos p)) (S754_finite false 4503599627370496 (-53)) = false) as H.
  { intros p Hp. assert (Zpos (digits2_pos p) <= 53) as Hd.
    { pose proof (digits2_pos_bounds p). destruct (Z.le_gt_cases (Zpos (digits2_pos p)) 53); [done|].
      assert (2 ^ 31 <= 2 ^ (Zpos (digits2_pos p) - 1)) by (apply Z.pow_le_mono_r; lia). lia. }
    destruct (dint_pos p Hd) as (q & -> & _). unfold dlt, SFltb, SFcompare.
    destruct (Z.compare_spec (Zpos (digits2_pos p) - 53) (-53)); [lia|lia|done]. }
  destruct i as [|p|p]; [reflexivity|by apply H; lia..].
Qed.

Lemma valid_mantissa s m e : dvalid (S754_finite s m e) = true -> Zpos m < 2 ^ 53.
Proof.
  cbn. intros [Hc _]%andb_prop. unfold canonical_mantissa in Hc. apply Z.eqb_eq in Hc.
  unfold fexp, emin in Hc. pose proof (digits2_pos_bounds m).
  assert (2 ^ Zpos (digits2_pos m) <= 2 ^ 53) by (apply Z.pow_le_mono_r; lia). lia.
Qed.

(** The integral part of a double between 0 and [w]. *)
Lemma dto_int_below x w : dvalid x = true -> x <> S754_nan -> 0 <= w < 2 ^ 31 ->
  dlt x (dint 0) = false -> dge x (dint w) = false ->
  exists i, dto_int x = Some i /\ 0 <= i < w.
Proof.
  intros Hv Hn Hw Hlo Hhi. unfold dto_int, dto.
  destruct w as [|w|w]; [by destruct x as [[]|[]| |[] m e]| |lia].
  assert (Zpos (digits2_pos w) <= 53) as Hd.
  { pose proof (digits2_pos_bounds w).
    destruct (Z.le_gt_cases (Zpos (digits2_pos w)) 53); [done|].
    assert (2 ^ 31 <= 2 ^ (Zpos (digits2_pos w) - 1)) by (apply Z.pow_le_mono_r; lia). lia. }
  destruct (dint_pos w Hd) as (q & Hq & Hqw). rewrite Hq in Hhi.
  set (d := Zpos (digits2_pos w)) in *.
  pose proof (digits2_pos_bounds w) as Hb. fold d in Hb.
  assert (d <= 31) as Hd'.
  { destruct (Z.le_gt_cases d 31); [done|].
    assert (2 ^ 31 <= 2 ^ (d - 1)) by (apply Z.pow_le_mono_r; lia). lia. }
  destruct x as [s|s| |s m e]; [by exists 0|by destruct s|done|].
  destruct s; [done|]. unfold dge, dle, SFleb in Hhi. cbn in Hhi.
  rewrite pos_cont_compare in Hhi.
  assert (e < d - 53 \/ e = d - 53 /\ Zpos m < Zpos q) as He.
  { destruct (Z.compare_spec (d - 53) e); [|done|lia].
    destruct (Pos.compare_spec q m); [done|done|lia]. }
  clear Hhi. rewrite dtrunc_pos by lia.
  assert (0 <= Zpos m / 2 ^ (- e) < Zpos w) as Hi.
  { split; [apply Z.div_pos; [lia|apply Z.pow_pos_nonneg; lia]|].
    destruct He as [He|[-> Hm]].
    - pose proof (valid_mantissa _ _ _ Hv).
      assert (Zpos m / 2 ^ (- e) <= Zpos m / 2 ^ (54 - d)).
      { apply Z.div_le_compat_l; [lia|]. split; [apply Z.pow_pos_nonneg; lia|].
        apply Z.pow_le_mono_r; lia. }
      assert (Zpos m / 2 ^ (54 - d) < 2 ^ (d - 1)); [|lia].
      apply Z.div_lt_upper_bound; [apply Z.pow_pos_nonneg; lia|].
      rewrite <- Z.pow_add_r by lia. replace (54 - d + (d - 1)) with 53 by lia. done.
    - replace (- (d - 53)) with (53 - d) by lia.
      apply Z.div_lt_upper_bound; [apply Z.pow_pos_nonneg; lia|]. lia. }
  exists (Zpos m / 2 ^ (- e)). unfold INT_MIN, INT_MAX.
  destruct (Z.leb_spec (-2147483648) (Zpos m / 2 ^ (- e))), (Z.leb_spec (Zpos m / 2 ^ (- e)) 2147483647);
    try lia. done.
Qed.
