(* ===== verification/MapFile.v ===== *)
(** * MapFile

    The game's map, [src/proj/system/file/map.c]: a matrix of rows malloc'd
    one by one and filled from a text file.  The row pointers are explicit,
    since the loader writes one more of them than it asked for, and so are the
    outcomes of the allocations, which the loader does not look at. *)

From stdpp Require Import pretty strings.
From S2P Require Import Prelude.

Definition BAD_FILE : Z := -1.

(** [map_t]: a row pointer that was not assigned is [None]; a null one leads
    to no cells. *)
Record map_t : Type := mk_map {
  matrix : list (option (list Z));
  lines : Z;
  columns : Z;
}.
#[global] Instance eta_map : Eta map_t := fun m => mk_map (matrix m) (lines m) (columns m).

(** [map.matrix[y][x]] *)
Definition map_at (m : map_t) (y x : Z) : option Z :=
  match aget (matrix m) y with
  | Some (Some row) => aget row x
  | _ => None
  end.

(** ** Reading

    The file is the integers it starts with, as [fscanf] would deliver them;
    past the last one a conversion fails and assigns nothing.  [rd_mallocs]
    are the outcomes of the next allocations, past the end they succeed. *)
Record reading : Type := mk_reading { rd_map : map_t; rd_toks : list Z; rd_mallocs : list bool }.
#[global] Instance eta_reading : Eta reading := fun r => mk_reading (rd_map r) (rd_toks r) (rd_mallocs r).

Definition fscanf (conv : Z -> Z) (old : Z) : prog reading Z := fun r =>
  match rd_toks r with
  | [] => Done (old, r)
  | t :: ts => Done (conv t, r <| rd_toks := ts |>)
  end.

Definition pad3 (s : string) : string :=
  match String.length s with
  | 0%nat => "000" ++ s
  | 1%nat => "00" ++ s
  | 2%nat => "0" ++ s
  | _ => s
  end.
(** The path built in [filePath]. *)
Definition map_path (mapNumber : Z) : string :=
  "/home/lcom/labs/minixop/data/maps/map" ++ pad3 (pretty mapNumber) ++ ".mxmap".

Section Loader.
(** What a fresh block holds, and how many row pointers fit in the block
    [malloc] returns beyond the [lines] asked for. *)
Variables (junk : Z) (slack : nat).

Definition map_malloc : prog reading bool := fun r =>
  match rd_mallocs r with
  | [] => Done (true, r)
  | b :: l => Done (b, r <| rd_mallocs := l |>)
  end.
Definition malloc_row (n : Z) : prog reading (list Z) :=
  ok <- map_malloc ;; ret (if (ok : bool) then replicate (Z.to_nat n) junk else []).

(** [map->matrix[y] = row] and [map->matrix[y][x] = v]. *)
Definition set_row (y : Z) (row : list Z) : prog reading unit := fun r =>
  match aset (matrix (rd_map r)) y (Some row) with
  | Some rows => Done (tt, r <| rd_map ::= (fun m => m <| matrix := rows |>) |>)
  | None => Undef
  end.
Definition set_cell (y x v : Z) : prog reading unit := fun r =>
  match aget (matrix (rd_map r)) y with
  | Some (Some row) =>
      match aset row x v with Some row' => set_row y row' r | None => Undef end
  | _ => Undef
  end.

(** One round of the [while]; the loop state is [num], [curLine], [curCol]. *)
Definition load_round (s : Z * Z * Z) : prog reading ((Z * Z * Z) + unit) :=
  let '(num, curLine, curCol) := s in
  ls <- gets (fun r => lines (rd_map r)) ;;
  cols <- gets (fun r => columns (rd_map r)) ;;
  if curLine <? ls then
    num <- fscanf i32 num ;;
    set_cell curLine curCol num ;;;
    let curCol := u16 (curCol + 1) in
    if cols <=? curCol then
      let curLine := u16 (curLine + 1) in
      row <- malloc_row cols ;;
      set_row curLine row ;;;
      ret (inl (num, curLine, 0))
    else ret (inl (num, curLine, curCol))
  else ret (inr tt).

Definition load_rounds (ls cols : Z) : nat := S (Z.to_nat (ls * cols)).

Definition load_map_body : prog reading unit :=
  ls <- gets (fun r => lines (rd_map r)) ;;
  ls <- fscanf (fun z => u16 (i16 z)) ls ;;
  modify (fun r => r <| rd_map ::= (fun m => m <| lines := ls |>) |>) ;;;
  cols <- gets (fun r => columns (rd_map r)) ;;
  cols <- fscanf (fun z => u16 (i16 z)) cols ;;
  modify (fun r => r <| rd_map ::= (fun m => m <| columns := cols |>) |>) ;;;
  ok <- map_malloc ;;
  modify (fun r => r <| rd_map ::=
    (fun m => m <| matrix := if (ok : bool) then replicate (Z.to_nat ls + slack) None else [] |>) |>) ;;;
  row <- malloc_row cols ;;
  set_row 0 row ;;;
  iterate (load_rounds ls cols) load_round (0, 0, 0).

(** [load_map(mapNumber, &map)] in a file system. *)
Definition load_map (fs : string -> option (list Z)) (mapNumber : Z) : prog (map_t * list bool) Z := fun s =>
  match fs (map_path mapNumber) with
  | None => Done (BAD_FILE, s)
  | Some toks =>
      match load_map_body (mk_reading (fst s) toks (snd s)) with
      | Done (_, r) => Done (OK, (rd_map r, rd_mallocs r))
      | Undef => Undef
      | OutOfFuel => OutOfFuel
      end
  end.

(** [close_map]: the rows it frees must have been assigned; what is left is
    every row pointer past [lines]. *)
Definition close_map (m : map_t) : outcome (list (option (list Z))) :=
  let freed := take (Z.to_nat (lines m)) (matrix m) in
  if forallb (fun row => match row with Some _ => true | None => false end) freed
  then Done (drop (Z.to_nat (lines m)) (matrix m))
  else Undef.

(** *** The loop *)
Section Loop.
Variables (ls cols : Z) (toks : list Z).
Hypothesis (Hls : 1 <= ls < 65536) (Hcols : 1 <= cols < 65536).
Hypothesis Htoks : ls * cols <= alen toks.

(** After [y * cols + x] numbers. *)
Record loaded (y x : Z) (r : reading) : Prop := mk_loaded {
  ld_dims : lines (rd_map r) = ls /\ columns (rd_map r) = cols;
  ld_pos : 0 <= y <= ls /\ 0 <= x < cols /\ (y = ls -> x = 0);
  ld_len : alen (matrix (rd_map r)) = ls + Z.of_nat slack;
  ld_toks : rd_toks r = drop (Z.to_nat (y * cols + x)) toks;
  ld_rows y' : 0 <= y' <= y -> exists row,
    aget (matrix (rd_map r)) y' = Some (Some row) /\ alen row = cols;
  ld_cells y' x' : 0 <= y' -> 0 <= x' < cols -> y' * cols + x' < y * cols + x ->
    exists t, aget toks (y' * cols + x') = Some t /\ map_at (rd_map r) y' x' = Some (i32 t);
}.

Lemma loaded_next (y x : Z) r : loaded y x r -> y < ls ->
  exists t row rows', aget toks (y * cols + x) = Some t /\
    rd_toks r = t :: drop (Z.to_nat (y * cols + x + 1)) toks /\
    aget (matrix (rd_map r)) y = Some (Some row) /\ alen row = cols /\
    aset row x (i32 t) = Some (<[Z.to_nat x := i32 t]> row) /\
    aset (matrix (rd_map r)) y (Some (<[Z.to_nat x := i32 t]> row)) = Some rows'.
Proof.
  intros [Hd Hp Hl Ht Hr Hc] Hy.
  assert (y * cols + x < ls * cols) by nia.
  assert (0 <= y * cols) by nia.
  destruct (proj2 (aget_is_Some toks (y * cols + x)) ltac:(lia)) as [t Hget].
  destruct (Hr y ltac:(lia)) as (row & Hrow & Hlen).
  eexists t, row, _. split; [done|]. split.
  - rewrite Ht. unfold aget in Hget. destruct (Z.ltb_spec (y * cols + x) 0); [done|].
    rewrite (drop_S _ _ _ Hget). do 2 f_equal. lia.
  - split; [done|]. split; [done|]. split; [apply aset_Some; lia|].
    apply aset_Some. by eapply aget_Some_range.
Qed.

(** Storing the number extends what is loaded by one cell. *)
Lemma loaded_cell (y x : Z) r t row rows' :
  loaded y x r -> y < ls ->
  aget toks (y * cols + x) = Some t -> aget (matrix (rd_map r)) y = Some (Some row) ->
  alen row = cols ->
  aset (matrix (rd_map r)) y (Some (<[Z.to_nat x := i32 t]> row)) = Some rows' ->
  let m' := (rd_map r) <| matrix := rows' |> in
  alen rows' = ls + Z.of_nat slack /\
  (forall y', 0 <= y' <= y -> exists row, aget rows' y' = Some (Some row) /\ alen row = cols) /\
  (forall y' x', 0 <= y' -> 0 <= x' < cols -> y' * cols + x' < y * cols + x + 1 ->
    exists t, aget toks (y' * cols + x') = Some t /\ map_at m' y' x' = Some (i32 t)).
Proof.
  intros [Hd Hp Hl Ht Hr Hc] Hy Hget Hrow Hlen Hset m'. split; [|split].
  - by rewrite (aset_len _ _ _ _ Hset).
  - intros y' Hy'. destruct (Z.eq_dec y' y) as [->|Hne].
    + eexists. split; [by eapply aget_aset_eq|]. unfold alen. by rewrite length_insert.
    + rewrite (aget_aset_ne _ _ y y' _ Hset) by done. by apply Hr.
  - intros y' x' Hy' Hx' Hlt. unfold map_at. change (matrix m') with rows'.
    assert (y' <= y) by nia.
    destruct (Z.eq_dec y' y) as [->|Hne].
    + rewrite (aget_aset_eq _ _ _ _ Hset).
      assert (aset row x (i32 t) = Some (<[Z.to_nat x := i32 t]> row)) as Hrow' by (apply aset_Some; lia).
      destruct (Z.eq_dec x' x) as [->|Hnx].
      * exists t. split; [done|]. by eapply aget_aset_eq.
      * destruct (Hc y x') as (t' & Ht' & Hm); [lia..|]. exists t'. split; [done|].
        unfold map_at in Hm. rewrite Hrow in Hm.
        by rewrite (aget_aset_ne _ _ _ _ _ Hrow').
    + rewrite (aget_aset_ne _ _ _ _ _ Hset) by done. apply Hc; [lia|lia|nia].
Qed.

(** The row in hand is null. *)
Record doomed (y : Z) (r : reading) : Prop := mk_doomed {
  dm_dims : lines (rd_map r) = ls /\ columns (rd_map r) = cols;
  dm_row : aget (matrix (rd_map r)) y = Some (Some []);
}.
Lemma doomed_round (y x num : Z) r : doomed y r -> y < ls -> load_round (num, y, x) r = Undef.
Proof.
  intros [[Hd1 Hd2] Hrow] Hy. unfold load_round, bind, gets. cbn beta iota.
  rewrite Hd1, Hd2. destruct (Z.ltb_spec y ls); [|lia].
  assert (forall v r', rd_map r' = rd_map r -> set_cell y x v r' = Undef) as Hu.
  { intros v r' E. unfold set_cell. by rewrite E, Hrow, aset_nil. }
  unfold fscanf. destruct (rd_toks r); by rewrite Hu.
Qed.

(** A row that is stored in line [y + 1] after line [y] was filled. *)
Lemma loaded_row (y x : Z) r rows rows2 ts ms :
  loaded y x r -> y < ls -> x = cols - 1 -> ts = drop (Z.to_nat (y * cols + x + 1)) toks ->
  alen rows = ls + Z.of_nat slack ->
  (forall y', 0 <= y' <= y -> exists row, aget rows y' = Some (Some row) /\ alen row = cols) ->
  (forall y' x', 0 <= y' -> 0 <= x' < cols -> y' * cols + x' < y * cols + x + 1 ->
    exists t, aget toks (y' * cols + x') = Some t /\
      map_at ((rd_map r) <| matrix := rows |>) y' x' = Some (i32 t)) ->
  aset rows (y + 1) (Some (replicate (Z.to_nat cols) junk)) = Some rows2 ->
  loaded (y + 1) 0 (mk_reading ((rd_map r) <| matrix := rows2 |>) ts ms).
Proof.
  intros [Hd (Hp1 & Hp2 & Hp3) _ Ht _ _] Hy -> -> Hl Hrows Hcells E2.
  split; cbn; [done|split_and!; [lia..|done]| |f_equal; nia| |].
  - by rewrite (aset_len _ _ _ _ E2).
  - intros y' Hy'. destruct (Z.eq_dec y' (y + 1)) as [->|Hne].
    + eexists. split; [by eapply aget_aset_eq|]. unfold alen. rewrite length_replicate. lia.
    + rewrite (aget_aset_ne _ _ _ _ _ E2) by done. apply Hrows. lia.
  - intros y' x' Hy' Hx' Hlt. assert (y' <= y) by nia.
    destruct (Hcells y' x' Hy' Hx' ltac:(nia)) as (t' & Ht' & Hm). exists t'. split; [done|].
    revert Hm. unfold map_at. cbn.
    by rewrite (aget_aset_ne _ _ _ y' _ E2) by lia.
Qed.

(** A round: it runs out of the block of rows only at its end, and a row that
    could not be allocated stops the next round. *)
Lemma load_round_step (y x num : Z) r : loaded y x r -> y < ls ->
  match load_round (num, y, x) r with
  | Done (inl (_, y', x'), r') => y' * cols + x' = y * cols + x + 1 /\ 0 <= y' <= ls /\ (y' = ls -> x' = 0) /\
      (loaded y' x' r' \/ doomed y' r') /\
      (rd_mallocs r = [] -> rd_mallocs r' = [] /\ loaded y' x' r') /\
      (slack = 0%nat -> y' < ls)
  | Done (inr _, _) => False
  | Undef => slack = 0%nat
  | OutOfFuel => False
  end.
Proof.
  intros Hld Hy. destruct (loaded_next y x r Hld Hy)
    as (t & row & rows' & Hget & Hr & Hrow & Hlen & Hset & Hset').
  destruct (loaded_cell y x r t row rows' Hld Hy Hget Hrow Hlen Hset') as (Hl & Hrows & Hcells).
  pose proof Hld as [[Hd1 Hd2] (Hp1 & Hp2 & Hp3) _ Ht _ _].
  unfold load_round, bind, gets, fscanf, set_cell, ret. cbn beta iota.
  rewrite Hd1, Hd2. destruct (Z.ltb_spec y ls); [|lia].
  rewrite Hr. cbn. rewrite Hrow, Hset. unfold set_row. cbn. rewrite Hset'. cbn.
  rewrite (wrap_small 16) by lia.
  destruct (Z.leb_spec cols (x + 1)).
  - rewrite (wrap_small 16) by lia. assert (x = cols - 1) as Hx by lia.
    assert (forall row ms,
      match
        match aset rows' (y + 1) (Some row) with
        | Some rows2 => Done (tt, mk_reading ((rd_map r) <| matrix := rows2 |>)
                                (drop (Z.to_nat (y * cols + x + 1)) toks) ms)
        | None => Undef
        end
      with
      | Done (_, r') => (y + 1) * cols + 0 = y * cols + x + 1 /\ 0 <= y + 1 <= ls /\ (y + 1 = ls -> 0 = 0) /\
          (row = [] -> doomed (y + 1) r') /\
          (row = replicate (Z.to_nat cols) junk -> loaded (y + 1) 0 r') /\
          rd_mallocs r' = ms /\ (slack = 0%nat -> y + 1 < ls)
      | Undef => slack = 0%nat
      | OutOfFuel => False
      end) as Hstore.
    { intros row2 ms. destruct (aset rows' (y + 1) (Some row2)) as [rows2|] eqn:E2.
      - split; [nia|]. split; [lia|]. split; [done|]. split; [|split; [|split; [done|]]].
        + intros ->. split; [done|]. by eapply aget_aset_eq.
        + intros ->. by apply (loaded_row y x r rows').
        + intros Hs. assert (is_Some (aset rows' (y + 1) (Some row2))) as Hi by (by eexists).
          unfold aset in Hi. destruct (aget rows' (y + 1)) eqn:E4; [|by destruct Hi].
          apply aget_Some_range in E4. lia.
      - destruct (decide (y + 1 < ls + Z.of_nat slack)); [by rewrite aset_Some in E2 by lia|lia]. }
    clear Hld Hr Hrow Hset' Hcells Hd1 Hd2 Ht. unfold malloc_row, map_malloc, bind, ret.
    destruct r as [rm rt [|b ms]].
    + specialize (Hstore (replicate (Z.to_nat cols) junk) []). cbn in Hstore |- *.
      destruct (aset rows' (y + 1) _) as [rows2|]; [|done].
      destruct Hstore as (? & ? & ? & _ & Hl' & Hm & ?). split_and!; first [lia|auto].
    + specialize (Hstore (if b then replicate (Z.to_nat cols) junk else []) ms). cbn in Hstore |- *.
      destruct (aset rows' (y + 1) _) as [rows2|]; [|done].
      destruct Hstore as (? & ? & ? & Hd & Hl' & Hm & ?). split_and!; [lia|lia|lia|auto|destruct b; auto|done|auto].
  - assert (loaded y (x + 1) (r <| rd_toks := drop (Z.to_nat (y * cols + x + 1)) toks |>
      <| rd_map ::= (fun m => m <| matrix := rows' |>) |>)) as Hld'.
    { split; cbn; [done|split_and!; lia|done| |done|].
      + f_equal. lia.
      + intros y' x' ? ? ?. apply Hcells; lia. }
    split; [lia|]. split; [lia|]. split; [lia|]. split; [by left|]. split; [|done]. intros E. split; [exact E|exact Hld'].
Qed.

Lemma load_rounds_fill fuel (y x num : Z) r : (1 <= slack)%nat -> rd_mallocs r = [] -> loaded y x r ->
  (Z.to_nat (ls * cols - (y * cols + x)) < fuel)%nat ->
  wp (iterate fuel load_round (num, y, x)) (fun _ r' => loaded ls 0 r' /\ rd_mallocs r' = []) r.
Proof.
  intros Hslack. revert y x num r. induction fuel as [|fuel IH]; intros y x num r Hms Hld Hf; [lia|].
  cbn [iterate]. wp_step. destruct (Z.lt_ge_cases y ls) as [Hy|Hy].
  - pose proof (load_round_step y x num r Hld Hy) as Hs. unfold wp at 1.
    destruct (load_round (num, y, x) r) as [[[[[num' y'] x']|[]] r']| |]; [|done|lia|done].
    destruct Hs as (Hk & _ & _ & _ & Hok & _). destruct (Hok Hms) as [Hms' Hld']. apply IH; [done|done|].
    assert (y * cols + x < ls * cols) by (destruct (ld_pos _ _ _ Hld); nia). lia.
  - destruct (ld_pos _ _ _ Hld) as (Hp & _ & Hx). assert (y = ls) as -> by lia.
    rewrite Hx in * by done. unfold load_round. wp_steps.
    destruct (ld_dims _ _ _ Hld) as [-> _]. rewrite Z.ltb_irrefl. by wp_steps.
Qed.

Lemma load_rounds_overflow fuel (y x num : Z) r : slack = 0%nat -> loaded y x r \/ doomed y r ->
  0 <= y < ls -> (Z.to_nat (ls * cols - (y * cols + x)) < fuel)%nat ->
  iterate fuel load_round (num, y, x) r = Undef.
Proof.
  intros Hslack. revert y x num r. induction fuel as [|fuel IH]; intros y x num r Hld Hy Hf; [lia|].
  cbn [iterate]. unfold bind at 1. destruct Hld as [Hld|Hd]; [|rewrite doomed_round; [done|exact Hd|lia]].
  pose proof (load_round_step y x num r Hld ltac:(lia)) as Hs.
  destruct (load_round (num, y, x) r) as [[[[[num' y'] x']|[]] r']| |]; [|done|done|done].
  destruct Hs as (Hk & Hy' & _ & Hst & _ & Hlt). specialize (Hlt Hslack).
  destruct (ld_pos _ _ _ Hld) as (Hp & Hx & _).
  apply IH; [done|lia|nia].
Qed.
End Loop.

(** The first row, with or without its cells. *)
Lemma first_row (ls cols : Z) toks row ms :
  1 <= ls <= 32767 -> 1 <= cols <= 32767 ->
  exists r, set_row 0 row (mk_reading (mk_map (replicate (Z.to_nat ls + slack) None) ls cols) toks ms) = Done (tt, r) /\
    rd_mallocs r = ms /\ (row = [] -> doomed ls cols 0 r) /\
    (row = replicate (Z.to_nat cols) junk -> loaded ls cols toks 0 0 r).
Proof.
  intros Hls Hcols. unfold set_row. cbn.
  assert (aset (replicate (Z.to_nat ls + slack) (None : option (list Z))) 0 (Some row) =
    Some (<[0%nat := Some row]> (replicate (Z.to_nat ls + slack) None))) as E.
  { rewrite aset_Some; [done|]. unfold alen. rewrite length_replicate. lia. }
  rewrite E. eexists. split; [reflexivity|]. split; [done|]. apply aget_aset_eq in E as Hget. split.
  { intros ->. by split. }
  intros ->. split; cbn.
  - done.
  - split_and!; [lia..|done].
  - unfold alen. rewrite length_insert, length_replicate. lia.
  - done.
  - intros y' Hy'. assert (y' = 0) as -> by lia. eexists. split; [exact Hget|].
    unfold alen. rewrite length_replicate. lia.
  - intros y' x' ? ? ?. nia.
Qed.

(** The state in which the loop starts. *)
Lemma load_start (ls cols : Z) toks m ms :
  1 <= ls <= 32767 -> 1 <= cols <= 32767 ->
  (ms <> [] /\ load_map_body (mk_reading m (ls :: cols :: toks) ms) = Undef) \/
  exists r, (loaded ls cols toks 0 0 r \/ doomed ls cols 0 r) /\
    (ms = [] -> loaded ls cols toks 0 0 r /\ rd_mallocs r = []) /\
    load_map_body (mk_reading m (ls :: cols :: toks) ms) =
    iterate (load_rounds ls cols) load_round (0, 0, 0) r.
Proof.
  intros Hls Hcols.
  set (rows ms0 := (row <- malloc_row cols ;; set_row 0 row ;;; iterate (load_rounds ls cols) load_round (0, 0, 0))
    (mk_reading (mk_map (replicate (Z.to_nat ls + slack) None) ls cols) toks ms0)).
  assert (load_map_body (mk_reading m (ls :: cols :: toks) ms) =
    match ms with false :: _ => Undef | _ => rows (tail ms) end) as ->.
  { unfold load_map_body, bind, gets, fscanf, modify. cbn.
    rewrite !(swrap_small 16), !(wrap_small 16) by lia. unfold map_malloc. cbn.
    destruct ms as [|[] ms]; [done..|]. unfold malloc_row, map_malloc, bind, ret, set_row. cbn.
    by destruct ms as [|[] ms]; cbn; rewrite aset_nil. }
  assert (forall ms0, exists r, (loaded ls cols toks 0 0 r \/ doomed ls cols 0 r) /\
    (ms0 = [] -> loaded ls cols toks 0 0 r /\ rd_mallocs r = []) /\
    rows ms0 = iterate (load_rounds ls cols) load_round (0, 0, 0) r) as Hrows.
  { intros ms0. set (row := match ms0 with false :: _ => [] | _ => replicate (Z.to_nat cols) junk end).
    destruct (first_row ls cols toks row (tail ms0) Hls Hcols) as (r & E & Hm & Hd & Hl). exists r.
    assert (rows ms0 = iterate (load_rounds ls cols) load_round (0, 0, 0) r) as ->.
    { unfold rows, malloc_row, map_malloc, bind, ret. unfold set_row in *. destruct ms0 as [|[] ms0]; cbn in E |- *; by destruct (aset _ 0 _); [injection E as <-|]. }
    split; [destruct ms0 as [|[] ms0]; auto|]. split; [|done]. intros ->. auto. }
  destruct ms as [|[] ms]; [right|right|by left].
  - apply (Hrows []).
  - destruct (Hrows ms) as (r & ? & _ & ?). by exists r.
Qed.

Variables (fs : string -> option (list Z)) (mapNumber ls cols : Z) (toks : list Z).
Hypothesis Hfile : fs (map_path mapNumber) = Some (ls :: cols :: toks).
Hypothesis (Hls : 1 <= ls <= 32767) (Hcols : 1 <= cols <= 32767).
Hypothesis Htoks : ls * cols <= alen toks.

(** C16: loading a complete map file asks for [lines] row pointers and assigns
    [lines + 1] of them: when [malloc] gives exactly the block asked for, the
    loader writes past its end, whatever the dimensions, unless it has used
    the null pointer of a failed allocation before: whatever the outcomes
    [ms] of the allocations, the call is undefined. *)
Theorem load_map_overflow m ms : slack = 0%nat -> load_map fs mapNumber (m, ms) = Undef.
Proof using Hfile Hls Hcols Htoks.
  intros Hs. unfold load_map. rewrite Hfile. cbn [fst snd].
  destruct (load_start ls cols toks m ms Hls Hcols) as [[_ ->]|(r & Hld & _ & ->)]; [done|].
  rewrite (load_rounds_overflow ls cols toks) with (y := 0) (x := 0); [done|lia|lia|done|done|done|lia|].
  unfold load_rounds. lia.
Qed.

Lemma load_map_ok m : (1 <= slack)%nat ->
  wp (load_map fs mapNumber) (fun r s' => let m' := fst s' in
    r = OK /\ lines m' = ls /\ columns m' = cols /\
    (forall y x, 0 <= y < ls -> 0 <= x < cols ->
       exists t, aget toks (y * cols + x) = Some t /\ map_at m' y x = Some (i32 t)) /\
    (exists row rest, close_map m' = Done (Some row :: rest)) /\ snd s' = []) (m, []).
Proof using Hfile Hls Hcols Htoks.
  intros Hs. unfold load_map. unfold wp at 1. rewrite Hfile. cbn [fst snd].
  destruct (load_start ls cols toks m [] Hls Hcols) as [[? _]|(r & _ & Hok & ->)]; [done|].
  destruct (Hok eq_refl) as [Hld Hms].
  assert (wp (iterate (load_rounds ls cols) load_round (0, 0, 0))
    (fun _ r' => loaded ls cols toks ls 0 r' /\ rd_mallocs r' = []) r) as H.
  { apply load_rounds_fill; [lia|lia|done|done|done|done|]. unfold load_rounds. lia. }
  unfold wp in H. destruct (iterate _ _ _ r) as [[[] r']| |]; [|done|done].
  destruct H as [[[Hd1 Hd2] _ Hl _ Hr Hc] Hms']. cbn. split_and!; [done|done|done| | |done].
  - intros y x Hy Hx. apply Hc; [lia|lia|nia].
  - unfold close_map. rewrite Hd1.
    destruct (Hr ls ltac:(lia)) as (row & Hrow & _). unfold aget in Hrow.
    destruct (Z.ltb_spec ls 0); [lia|]. rewrite (drop_S _ _ _ Hrow).
    exists row. eexists.
    assert (forallb (fun row => match row with Some _ => true | None => false end)
      (take (Z.to_nat ls) (matrix (rd_map r'))) = true) as ->; [|done].
    apply forallb_forall. intros o Ho%list_elem_of_In.
    apply list_elem_of_lookup in Ho as [i Hi]. apply lookup_take_Some in Hi as [Hi Hlt].
    destruct (Hr (Z.of_nat i) ltac:(lia)) as (row' & Hrow' & _).
    rewrite aget_lookup in Hrow'. rewrite Hrow' in Hi. by injection Hi as <-.
Qed.

(** C15: when the allocator's block has room for one more pointer and no
    allocation fails, the loader
    stores the file: the dimensions, and in row y, column x the number at
    position y * columns + x; closing the map then leaves the extra row
    allocated. *)
Theorem load_map_reads m : (1 <= slack)%nat ->
  wp (load_map fs mapNumber) (fun r s' => let m' := fst s' in
    r = OK /\ lines m' = ls /\ columns m' = cols /\
    (forall y x, 0 <= y < ls -> 0 <= x < cols ->
       exists t, aget toks (y * cols + x) = Some t /\ map_at m' y x = Some (i32 t)) /\
    exists row rest, close_map m' = Done (Some row :: rest)) (m, []).
Proof using Hfile Hls Hcols Htoks.
  intros Hs. eapply wp_mono; [exact (load_map_ok m Hs)|]. cbn. intros r s' (? & ? & ? & ? & ? & _). done.
Qed.
End Loader.

(** A 2 x 2 map in file 1. *)
Definition tiny_fs (path : string) : option (list Z) :=
  if decide (path = map_path 1) then Some [2; 2; 5; 0; -3; 5] else None.

Lemma load_map_overflow_witness :
  tiny_fs (map_path 1) = Some [2; 2; 5; 0; -3; 5] /\
  load_map 0 0 tiny_fs 1 (mk_map [] 0 0, []) = Undef.
Proof.
  split; [reflexivity|].
  apply (load_map_overflow 0 0 tiny_fs 1 2 2 [5; 0; -3; 5]); [reflexivity|lia|lia| |done].
  vm_compute. discriminate.
Defined.

Lemma load_map_reads_witness :
  wp (load_map 0 1 tiny_fs 1) (fun r s' => lines (fst s') = 2 /\ map_at (fst s') 1 0 = Some (-3)) (mk_map [] 0 0, []).
Proof.
  eapply wp_mono.
  - apply (load_map_reads 0 1 tiny_fs 1 2 2 [5; 0; -3; 5]); [reflexivity|lia|lia| |lia].
    vm_compute. discriminate.
  - intros r m' (_ & Hl & _ & Hc & _). split; [done|].
    destruct (Hc 1 0 ltac:(lia) ltac:(lia)) as (t & Ht & ->). vm_compute in Ht.
    injection Ht as <-. reflexivity.
Defined.
