(* ===== verification/Utils.v ===== *)
(** * Utils

    The helpers of [src/proj/system/utils/utils.c]: 24-bit integers, digits,
    plane vectors over doubles, circle/rectangle distances, and the ray that
    walks the map cell by cell ([shoot_ray]). *)

From Stdlib Require Import Floats.SpecFloat.
From S2P Require Import Prelude Doubles MapFile.

(** ** Integers *)
Definition int_to_24 (orig : Z) : list Z :=
  (fun i => u8 (Z.land (Z.shiftr orig (i * 8)) 0xff)) <$> [0; 1; 2].

Definition i24_to_int (orig : list Z) : Z :=
  foldl (fun result '(i, b) => Z.lor result (u32 (Z.shiftl b (i * 8)))) 0
    (zip [0; 1; 2] orig).

(** The loop of [digitize]: the index [max_size - 1 - digits] is a [size_t]. *)
Fixpoint digitize_loop (fuel : nat) (num max_size digits : Z) (res : list Z) :
    outcome (list Z) :=
  match fuel with
  | O => OutOfFuel
  | S fuel =>
      if 0 <? num then
        match aset res (u32 (max_size - 1 - digits)) (Z.rem num 10) with
        | Some res => digitize_loop fuel (Z.quot num 10) max_size (digits + 1) res
        | None => Undef
        end
      else Done res
  end.
(** An [int] has at most 10 digits. *)
Definition digitize (num max_size : Z) (res : list Z) : outcome (Z * list Z) :=
  match digitize_loop 11 num max_size 0 res with
  | Done res => Done (max_size, res)
  | Undef => Undef
  | OutOfFuel => OutOfFuel
  end.

(** ** Vectors *)
Record vector_t : Type := mk_vec { vx : double; vy : double }.
#[global] Instance eta_vector : Eta vector_t := fun v => mk_vec (vx v) (vy v).
Definition vec0 : vector_t := mk_vec d0 d0.

(** [coordinate_t]: two [uint16_t]. *)
Record coordinate_t : Type := mk_coord { cx : Z; cy : Z }.
#[global] Instance eta_coord : Eta coordinate_t := fun c => mk_coord (cx c) (cy c).

Record circle_t : Type := mk_circle { center : vector_t; radius : double }.
#[global] Instance eta_circle : Eta circle_t := fun c => mk_circle (center c) (radius c).
Record rectangle_t : Type := mk_rect { left_corner : vector_t; rwidth : Z; rheight : Z }.

Section Vectors.
Context {LM : Libm}.

Definition prod_int (v1 v2 : vector_t) : double :=
  dadd (dmul (vx v1) (vx v2)) (dmul (vy v1) (vy v2)).
Definition determinant (v1 v2 : vector_t) : double :=
  dsub (dmul (vx v1) (vy v2)) (dmul (vy v1) (vx v2)).
Definition degree (v1 v2 : vector_t) : double :=
  let ang := datan2 (determinant v1 v2) (prod_int v1 v2) in
  ddiv (dmul ang (dint 180)) M_PI.
Definition vec_mag_squared (v : vector_t) : double :=
  dadd (dpow (vx v) (dint 2)) (dpow (vy v) (dint 2)).
Definition vec_mag (v : vector_t) : double := dsqrt (vec_mag_squared v).
Definition normalize (v : vector_t) : vector_t :=
  let mag := vec_mag v in mk_vec (ddiv (vx v) mag) (ddiv (vy v) mag).
Definition dist_positions_squared (v1 v2 : vector_t) : double :=
  dadd (dpow (dsub (vx v1) (vx v2)) (dint 2)) (dpow (dsub (vy v1) (vy v2)) (dint 2)).
Definition dist_positions (v1 v2 : vector_t) : double := dsqrt (dist_positions_squared v1 v2).
Definition abs_double (val : double) : double :=
  if dlt val d0 then dmul val (dint (-1)) else val.
Definition rotate_vec (vec : vector_t) (ang : double) : vector_t :=
  let ang := ddiv (dmul ang M_PI) (dint 180) in
  let x := dsub (dmul (vx vec) (dcos ang)) (dmul (vy vec) (dsin ang)) in
  let y := dadd (dmul (vx vec) (dsin ang)) (dmul (vy vec) (dcos ang)) in
  mk_vec x y.
Definition new_vec (x y : double) : vector_t := mk_vec x y.

(** The closest point of the rectangle, on one axis: [lo] the left (upper)
    side, [len] the width (height). *)
Definition closest_coord (c lo : double) (len : Z) : double :=
  if dlt c lo then lo
  else if dgt c (dadd lo (dint len)) then dadd lo (dint len)
  else c.
Definition closest_point (circle : circle_t) (rect : rectangle_t) : vector_t :=
  mk_vec (closest_coord (vx (center circle)) (vx (left_corner rect)) (rwidth rect))
         (closest_coord (vy (center circle)) (vy (left_corner rect)) (rheight rect)).

Definition check_circle_rect_collision (circle : circle_t) (rect : rectangle_t) : bool :=
  let closest := closest_point circle rect in
  dlt (dist_positions_squared (center circle) closest) (dmul (radius circle) (radius circle)).

Definition circle_rect_distance (circle : circle_t) (rect : rectangle_t) : vector_t :=
  let closest := closest_point circle rect in
  mk_vec (dsub (vx closest) (vx (center circle))) (dsub (vy closest) (vy (center circle))).
End Vectors.

(** ** Rays *)
Record ray_hit_t : Type := mk_ray_hit {
  hit : Z;
  side : Z;
  rh_map_pos : coordinate_t;
  distance : double;
}.
#[global] Instance eta_ray_hit : Eta ray_hit_t := fun r =>
  mk_ray_hit (hit r) (side r) (rh_map_pos r) (distance r).

(** What the loop of [shoot_ray] carries. *)
Record ray_state : Type := mk_ray {
  ray_hit : ray_hit_t;
  map_pos : coordinate_t;
  side_dist_x : double;
  side_dist_y : double;
}.
#[global] Instance eta_ray : Eta ray_state := fun r =>
  mk_ray (ray_hit r) (map_pos r) (side_dist_x r) (side_dist_y r).

(** One axis: the step, and the length of the ray to the first side. *)
Definition ray_axis (pos dir : double) (cell : Z) (delta_dist : double) : Z * double :=
  if dlt dir d0 then (-1, dmul (dsub pos (dint cell)) delta_dist)
  else (1, dmul (dsub (dint (cell + 1)) pos) delta_dist).

(** The part of a round that moves to the next cell. *)
Definition ray_advance (step_x step_y : Z) (delta_dist_x delta_dist_y : double)
    (r : ray_state) : ray_state :=
  if dlt (side_dist_x r) (side_dist_y r) then
    r <| map_pos ::= (fun c => c <| cx := u16 (cx c + step_x) |>) |>
      <| ray_hit ::= (fun h => h <| distance := side_dist_x r |> <| side := 0 |>) |>
      <| side_dist_x := dadd (side_dist_x r) delta_dist_x |>
  else
    r <| map_pos ::= (fun c => c <| cy := u16 (cy c + step_y) |>) |>
      <| ray_hit ::= (fun h => h <| distance := side_dist_y r |> <| side := 1 |>) |>
      <| side_dist_y := dadd (side_dist_y r) delta_dist_y |>.

(** One round of the [while]; [inr] leaves the loop. *)
Definition ray_round (m : map_t) (step_x step_y : Z) (delta_dist_x delta_dist_y range : double)
    (r : ray_state) : outcome (ray_state + ray_state) :=
  let r := ray_advance step_x step_y delta_dist_x delta_dist_y r in
  if (lines m <=? cy (map_pos r)) || (columns m <=? cx (map_pos r)) then Done (inr r) else
  if dgt range d0 && dgt (distance (ray_hit r)) range then Done (inr r) else
  match map_at m (cy (map_pos r)) (cx (map_pos r)) with
  | None => Undef
  | Some cell =>
      if 0 <? cell then Done (inr (r <| ray_hit ::= (fun h => h <| hit := 1 |>) |>))
      else Done (inl r)
  end.

Fixpoint ray_loop (fuel : nat) (m : map_t) (step_x step_y : Z)
    (delta_dist_x delta_dist_y range : double) (r : ray_state) : outcome ray_state :=
  match fuel with
  | O => OutOfFuel
  | S fuel =>
      match ray_round m step_x step_y delta_dist_x delta_dist_y range r with
      | Done (inl r) => ray_loop fuel m step_x step_y delta_dist_x delta_dist_y range r
      | Done (inr r) => Done r
      | Undef => Undef
      | OutOfFuel => OutOfFuel
      end
  end.

(** No ray needs more rounds than this ([shoot_ray_walks]). *)
Definition ray_fuel (m : map_t) : nat := Z.to_nat (lines m + columns m + 2).

(** [shoot_ray(pos, ray_dir, &ray_hit, range)] *)
Definition shoot_ray (m : map_t) (pos ray_dir : vector_t) (rh : ray_hit_t) (range : double) :
    outcome ray_hit_t :=
  match dto_int (vx pos), dto_int (vy pos) with
  | Some px, Some py =>
      let start := mk_coord (u16 px) (u16 py) in
      let delta_dist_x := dabs (ddiv (dint 1) (vx ray_dir)) in
      let delta_dist_y := dabs (ddiv (dint 1) (vy ray_dir)) in
      let '(step_x, sdx) := ray_axis (vx pos) (vx ray_dir) (cx start) delta_dist_x in
      let '(step_y, sdy) := ray_axis (vy pos) (vy ray_dir) (cy start) delta_dist_y in
      let rh := rh <| hit := 0 |> <| distance := dint 0 |> in
      match ray_loop (ray_fuel m) m step_x step_y delta_dist_x delta_dist_y range
              (mk_ray rh start sdx sdy) with
      | Done r => Done ((ray_hit r) <| rh_map_pos := map_pos r |>)
      | Undef => Undef
      | OutOfFuel => OutOfFuel
      end
  | _, _ => Undef
  end.

(** ** 24-bit integers and digits *)

(** A byte of an integer, moved to where [i24_to_int] puts it. *)
Lemma byte_bits orig k n : 0 <= k -> k <= 16 -> 0 <= n ->
  Z.testbit (u32 (Z.shiftl (u8 (Z.land (Z.shiftr orig k) 0xff)) k)) n =
  (k <=? n) && (n <? k + 8) && Z.testbit orig n.
Proof.
  intros Hk Hk' Hn. change 0xff with (Z.ones 8). rewrite Z.land_ones by lia.
  unfold wrap. rewrite Z.mod_mod by done.
  rewrite !Z.testbit_mod_pow2, Z.shiftl_spec, Z.testbit_mod_pow2 by lia.
  destruct (Z.leb_spec k n); cbn [andb].
  - rewrite Z.shiftr_spec by lia. replace (n - k + k) with n by lia.
    destruct (Z.ltb_spec n 32), (Z.ltb_spec (n - k) 8), (Z.ltb_spec n (k + 8)); try lia; done.
  - rewrite (Z.testbit_neg_r _ (n - k)) by lia. by rewrite !andb_false_r.
Qed.

(** [i24_to_int] recovers the low 24 bits that [int_to_24] stored, for
    every int, and the three bytes are bytes. *)
Lemma int24_roundtrip orig :
  i24_to_int (int_to_24 orig) = orig mod 2 ^ 24 /\
  Forall (fun b => 0 <= b < 256) (int_to_24 orig).
Proof.
  split; [|repeat constructor; by apply (wrap_range 8)].
  apply Z.bits_inj'. intros n Hn. rewrite Z.testbit_mod_pow2 by lia.
  unfold i24_to_int, int_to_24. cbn [fmap list_fmap zip zip_with foldl].
  rewrite !Z.lor_spec, !byte_bits, Z.bits_0 by lia.
  destruct (Z.testbit orig n); rewrite ?andb_true_r, ?andb_false_r; [|done].
  destruct (Z.leb_spec (0 * 8) n), (Z.ltb_spec n (0 * 8 + 8)), (Z.leb_spec (1 * 8) n),
    (Z.ltb_spec n (1 * 8 + 8)), (Z.leb_spec (2 * 8) n), (Z.ltb_spec n (2 * 8 + 8)),
    (Z.ltb_spec n 24); try lia; done.
Qed.

(** The decimal value of a list of digits, most significant first. *)
Definition digits_value (ds : list Z) : Z := foldl (fun acc d => 10 * acc + d) 0 ds.

Lemma digits_value_snoc l d : digits_value (l ++ [d]) = 10 * digits_value l + d.
Proof. unfold digits_value. by rewrite foldl_app. Qed.

Lemma digitize_loop_S fuel num max_size digits res :
  digitize_loop (S fuel) num max_size digits res =
  if 0 <? num then
    match aset res (u32 (max_size - 1 - digits)) (Z.rem num 10) with
    | Some res => digitize_loop fuel (Z.quot num 10) max_size (digits + 1) res
    | None => Undef
    end
  else Done res.
Proof. done. Qed.

(** One more digit goes in front of the ones written. *)
Lemma digitize_write (pre suf : list Z) (x d : Z) :
  alen (pre ++ [x] ++ suf) < 2 ^ 32 ->
  aset (pre ++ [x] ++ suf) (u32 (alen (pre ++ [x] ++ suf) - 1 - alen suf)) d =
  Some (pre ++ [d] ++ suf).
Proof.
  unfold alen. rewrite !length_app. cbn [length]. intros H.
  rewrite (wrap_small 32) by lia. rewrite aset_Some by (unfold alen; rewrite !length_app; cbn; lia).
  f_equal. rewrite insert_app_r_alt by lia.
  replace (Z.to_nat _ - length pre)%nat with 0%nat by lia. done.
Qed.

(** The loop from [digits] on, when [pre] is still to be written. *)
Lemma digitize_loop_ok fuel num pre suf :
  0 <= num < 10 ^ Z.of_nat fuel -> num < 10 ^ alen pre -> alen (pre ++ suf) < 2 ^ 32 ->
  exists ds, digitize_loop (S fuel) num (alen (pre ++ suf)) (alen suf) (pre ++ suf) =
      Done (take (length pre - length ds) pre ++ ds ++ suf) /\
    (length ds <= length pre)%nat /\ Forall (fun d => 0 <= d <= 9) ds /\ digits_value ds = num.
Proof.
  revert num pre suf. induction fuel as [|fuel IH]; intros num pre suf Hnum Hpre Hlen.
  all: rewrite digitize_loop_S; destruct (Z.ltb_spec 0 num) as [Hpos|Hz].
  1: change (10 ^ Z.of_nat 0) with 1 in Hnum; lia.
  1, 3: exists []; rewrite Nat.sub_0_r, firstn_all; split_and!; [done|cbn; lia|done|cbn; lia].
  destruct pre as [|x pre _] using rev_ind; [change (10 ^ alen []) with 1 in Hpre; lia|].
  rewrite <- app_assoc in *. rewrite digitize_write by done.
  assert (Z.quot num 10 = num / 10 /\ Z.rem num 10 = num mod 10) as [-> ->]
    by (split; [apply Z.quot_div_nonneg|apply Z.rem_mod_nonneg]; lia).
  pose proof (Z.div_mod num 10). pose proof (Z.mod_pos_bound num 10).
  rewrite Nat2Z.inj_succ, Z.pow_succ_r in Hnum by lia.
  unfold alen in Hpre at 1. rewrite length_app, Nat2Z.inj_add in Hpre. cbn in Hpre.
  rewrite Z.add_1_r, Z.pow_succ_r in Hpre by lia.
  destruct (IH (num / 10) pre ([num mod 10] ++ suf)) as (ds & Hds & Hl & Hf & Hv).
  - split; [apply Z.div_pos; lia|]. apply Z.div_lt_upper_bound; lia.
  - apply Z.div_lt_upper_bound; [lia|]. unfold alen. lia.
  - unfold alen in *. rewrite !length_app in *. cbn in *. lia.
  - exists (ds ++ [num mod 10]).
    assert (alen (pre ++ [x] ++ suf) = alen (pre ++ [num mod 10] ++ suf)) as ->
      by (unfold alen; rewrite !length_app; done).
    assert (alen suf + 1 = alen ([num mod 10] ++ suf)) as -> by (unfold alen; cbn; lia).
    rewrite Hds, !length_app, <- !app_assoc. cbn [length]. split_and!.
    + f_equal. f_equal. rewrite take_app_le by lia. f_equal. lia.
    + lia.
    + apply Forall_app. split; [done|]. constructor; [lia|constructor].
    + rewrite digits_value_snoc, Hv. lia.
Qed.

Lemma digitize_loop_overflow fuel num pre suf :
  0 <= num < 10 ^ Z.of_nat fuel -> 10 ^ alen pre <= num -> alen (pre ++ suf) < 2 ^ 32 ->
  digitize_loop (S fuel) num (alen (pre ++ suf)) (alen suf) (pre ++ suf) = Undef.
Proof.
  revert num pre suf. induction fuel as [|fuel IH]; intros num pre suf Hnum Hpre Hlen.
  all: assert (0 < 10 ^ alen pre) by (apply Z.pow_pos_nonneg; unfold alen; lia).
  { change (10 ^ Z.of_nat 0) with 1 in Hnum. lia. }
  rewrite digitize_loop_S. destruct (Z.ltb_spec 0 num) as [Hpos|Hz]; [|lia].
  destruct pre as [|x pre _] using rev_ind.
  - cbn [app] in *. replace (alen suf - 1 - alen suf) with (-1) by lia.
    unfold aset. destruct (aget suf (u32 (-1))) eqn:E; [|done].
    apply aget_Some_range in E. change (u32 (-1)) with (2 ^ 32 - 1) in E. lia.
  - rewrite <- app_assoc in *. rewrite digitize_write by done.
    assert (Z.quot num 10 = num / 10) as -> by (apply Z.quot_div_nonneg; lia).
    rewrite Nat2Z.inj_succ, Z.pow_succ_r in Hnum by lia.
    unfold alen in Hpre at 1. rewrite length_app, Nat2Z.inj_add in Hpre. cbn in Hpre.
    rewrite Z.add_1_r, Z.pow_succ_r in Hpre by lia.
    assert (alen (pre ++ [x] ++ suf) = alen (pre ++ [Z.rem num 10] ++ suf)) as ->
      by (unfold alen; rewrite !length_app; done).
    assert (alen suf + 1 = alen ([Z.rem num 10] ++ suf)) as -> by (unfold alen; cbn; lia).
    apply IH.
    + split; [apply Z.div_pos; lia|]. apply Z.div_lt_upper_bound; lia.
    + apply Z.div_le_lower_bound; [lia|]. unfold alen. lia.
    + unfold alen in *. rewrite !length_app in *. cbn in *. lia.
Qed.

(** [digitize] of a non-negative int into an array of the announced size
    writes the decimal digits right-aligned and leaves the cells before them
    alone; an int that needs more digits than the array has makes it write in
    front of the array, where the header promises that the first digits are
    dropped. *)
Lemma digitize_digits num res :
  0 <= num <= INT_MAX -> alen res < 2 ^ 32 ->
  (num < 10 ^ alen res -> exists ds,
     digitize num (alen res) res =
       Done (alen res, take (length res - length ds) res ++ ds) /\
     (length ds <= length res)%nat /\ Forall (fun d => 0 <= d <= 9) ds /\ digits_value ds = num) /\
  (10 ^ alen res <= num -> digitize num (alen res) res = Undef).
Proof.
  intros Hnum Hlen. assert (0 <= num < 10 ^ Z.of_nat 10) as Hfuel by (unfold INT_MAX in *; lia).
  unfold digitize. split; intros H.
  - destruct (digitize_loop_ok 10 num res []) as (ds & Hds & Hr); [done|done|by rewrite app_nil_r|].
    rewrite !app_nil_r in Hds. exists ds. change (alen []) with 0 in Hds. by rewrite Hds.
  - pose proof (digitize_loop_overflow 10 num res [] Hfuel H) as Ho.
    rewrite !app_nil_r in Ho. change (alen []) with 0 in Ho. by rewrite Ho.
Qed.

Lemma digitize_digits_at :
  (exists ds, digitize 42 3 [0; 0; 0] = Done (3, take (3 - length ds) [0; 0; 0] ++ ds) /\
     digits_value ds = 42) /\
  digitize 1000 3 [0; 0; 0] = Undef.
Proof.
  split.
  - destruct (digitize_digits 42 [0; 0; 0]) as [H _]; [unfold INT_MAX; lia|reflexivity|].
    destruct H as (ds & Hd & _ & _ & Hv); [reflexivity|]. exists ds. split; [exact Hd|exact Hv].
  - apply (digitize_digits 1000 [0; 0; 0]); [unfold INT_MAX; lia|reflexivity|vm_compute; discriminate].
Defined.

(** ** The walk of a ray *)

(** The rows of the map are all there. *)
Definition map_ok (m : map_t) : Prop :=
  0 <= lines m < 2 ^ 16 /\ 0 <= columns m < 2 ^ 16 /\
  forall y x, 0 <= y < lines m -> 0 <= x < columns m -> is_Some (map_at m y x).

Definition inside (m : map_t) (c : coordinate_t) : Prop :=
  0 <= cy c < lines m /\ 0 <= cx c < columns m.

(** [walk m sx sy c c']: [c'] is reached from [c] by single steps, each [sx]
    along x or [sy] along y (the cell numbers wrap at 16 bits); every cell
    walked over after the first one is in the map and holds no wall. *)
Inductive walk (m : map_t) (sx sy : Z) (c : coordinate_t) : coordinate_t -> Prop :=
| walk_here : walk m sx sy c c
| walk_step c1 c2 : walk m sx sy c c1 ->
    (c1 = c \/ inside m c1 /\ exists v, map_at m (cy c1) (cx c1) = Some v /\ v <= 0) ->
    c2 = c1 <| cx ::= (fun x => u16 (x + sx)) |> \/
    c2 = c1 <| cy ::= (fun y => u16 (y + sy)) |> ->
    walk m sx sy c c2.

Section Ray.
Context (m : map_t) (Hm : map_ok m).
Variables (sx sy : Z) (ddx ddy range : double).
Hypothesis (Hsx : sx = 1 \/ sx = -1) (Hsy : sy = 1 \/ sy = -1).

(** The cells left along one axis. *)
Definition cells_left (step pos size : Z) : Z := if step =? 1 then size - pos else pos + 1.

Lemma cells_left_step step pos size :
  step = 1 \/ step = -1 -> 0 <= pos < size -> size < 2 ^ 16 ->
  size <= u16 (pos + step) \/
  (0 <= u16 (pos + step) < size /\
   cells_left step (u16 (pos + step)) size = cells_left step pos size - 1).
Proof.
  intros [-> | ->] Hpos Hsize; unfold cells_left; cbn [Z.eqb Pos.eqb].
  - rewrite (wrap_small 16) by lia. lia.
  - destruct (Z.eq_dec pos 0) as [->|].
    + left. change (u16 (0 + -1)) with 65535. lia.
    + rewrite (wrap_small 16) by lia. lia.
Qed.

Definition ray_measure (c : coordinate_t) : Z :=
  cells_left sx (cx c) (columns m) + cells_left sy (cy c) (lines m).

(** How a round ended. *)
Definition ray_end (r : ray_state) : Prop :=
  (hit (ray_hit r) = 1 /\ inside m (map_pos r) /\
   (exists v, map_at m (cy (map_pos r)) (cx (map_pos r)) = Some v /\ 0 < v) /\
   (dgt range d0 = true -> dgt (distance (ray_hit r)) range = false)) \/
  (hit (ray_hit r) = 0 /\
   (~ inside m (map_pos r) \/
    (dgt range d0 = true /\ dgt (distance (ray_hit r)) range = true))).

Lemma ray_round_spec c0 r :
  walk m sx sy c0 (map_pos r) -> hit (ray_hit r) = 0 ->
  0 <= cx (map_pos r) -> 0 <= cy (map_pos r) ->
  map_pos r = c0 \/ inside m (map_pos r) /\
    (exists v, map_at m (cy (map_pos r)) (cx (map_pos r)) = Some v /\ v <= 0) ->
  match ray_round m sx sy ddx ddy range r with
  | Done (inl r') => walk m sx sy c0 (map_pos r') /\ hit (ray_hit r') = 0 /\
      inside m (map_pos r') /\
      (exists v, map_at m (cy (map_pos r')) (cx (map_pos r')) = Some v /\ v <= 0) /\
      (inside m (map_pos r) -> ray_measure (map_pos r') = ray_measure (map_pos r) - 1)
  | Done (inr r') => walk m sx sy c0 (map_pos r') /\ ray_end r'
  | _ => False
  end.
Proof using Hm Hsx Hsy.
  intros Hw Hh Hx Hy Hfree. unfold ray_round.
  set (r1 := ray_advance sx sy ddx ddy r).
  assert (walk m sx sy c0 (map_pos r1) /\ hit (ray_hit r1) = 0 /\
    0 <= cx (map_pos r1) /\ 0 <= cy (map_pos r1)) as (Hw1 & Hh1 & Hx1 & Hy1).
  { pose proof (wrap_range 16). unfold r1, ray_advance. destruct (dlt _ _); cbn.
    - split; [|split_and!; [done|by apply (wrap_range 16)|done]].
      eapply walk_step; [exact Hw|exact Hfree|by left].
    - split; [|split_and!; [done|done|by apply (wrap_range 16)]].
      eapply walk_step; [exact Hw|exact Hfree|by right]. }
  destruct ((lines m <=? cy (map_pos r1)) || (columns m <=? cx (map_pos r1))) eqn:Eout.
  { split; [done|]. right. split; [done|]. left. intros [? ?].
    apply orb_prop in Eout as [E|E]; apply Z.leb_le in E; lia. }
  bool_lia. assert (inside m (map_pos r1)) as Hin by (unfold inside; lia).
  destruct (dgt range d0 && dgt (distance (ray_hit r1)) range) eqn:Erange.
  { apply andb_prop in Erange as [E1 E2]. split; [done|]. right. split; [done|]. by right. }
  destruct Hm as (Hl & Hc & Hdef).
  destruct (Hdef _ _ (proj1 Hin) (proj2 Hin)) as [v Hv]. rewrite Hv.
  destruct (Z.ltb_spec 0 v).
  - split; [done|]. left. cbn. split_and!; [done|done|by exists v|].
    intros E. by rewrite E in Erange.
  - split_and!; [done|done|done|by exists v|].
    intros [Hiy Hix]. revert Hin. unfold inside, ray_measure, r1, ray_advance.
    destruct (dlt _ _); cbn; intros [Hiy1 Hix1].
    + destruct (cells_left_step sx (cx (map_pos r)) (columns m)); [done|done|lia|lia|lia].
    + destruct (cells_left_step sy (cy (map_pos r)) (lines m)); [done|done|lia|lia|lia].
Qed.

Lemma ray_loop_spec fuel c0 r :
  walk m sx sy c0 (map_pos r) -> hit (ray_hit r) = 0 -> inside m (map_pos r) ->
  (exists v, map_at m (cy (map_pos r)) (cx (map_pos r)) = Some v /\ v <= 0) ->
  (Z.to_nat (ray_measure (map_pos r)) < fuel)%nat ->
  exists r', ray_loop fuel m sx sy ddx ddy range r = Done r' /\
    walk m sx sy c0 (map_pos r') /\ ray_end r'.
Proof using Hm Hsx Hsy.
  revert r. induction fuel as [|fuel IH]; intros r Hw Hh Hin Hv Hf; [lia|].
  cbn [ray_loop]. pose proof (ray_round_spec c0 r Hw Hh) as Hr.
  destruct Hin as [Hiy Hix]. specialize (Hr ltac:(lia) ltac:(lia) (or_intror (conj (conj Hiy Hix) Hv))).
  destruct (ray_round _ _ _ _ _ _ r) as [[r'|r']| |]; [|by exists r'|done|done].
  destruct Hr as (Hw' & Hh' & Hin' & Hv' & Hm'). apply IH; [done..|].
  specialize (Hm' (conj Hiy Hix)).
  assert (0 < ray_measure (map_pos r)).
  { unfold ray_measure, cells_left. repeat break_if; lia. }
  lia.
Qed.

(** From any starting cell. *)
Lemma ray_loop_total r :
  hit (ray_hit r) = 0 -> 0 <= cx (map_pos r) -> 0 <= cy (map_pos r) ->
  exists r', ray_loop (ray_fuel m) m sx sy ddx ddy range r = Done r' /\
    walk m sx sy (map_pos r) (map_pos r') /\ ray_end r'.
Proof using Hm Hsx Hsy.
  intros Hh Hx Hy. unfold ray_fuel.
  assert (exists n, Z.to_nat (lines m + columns m + 2) = S n /\
    Z.of_nat n = lines m + columns m + 1) as (n & -> & Hn).
  { destruct Hm as (Hl & Hc & _). exists (Z.to_nat (lines m + columns m + 1)). lia. }
  cbn [ray_loop].
  pose proof (ray_round_spec (map_pos r) r (walk_here _ _ _ _) Hh Hx Hy (or_introl eq_refl)) as Hr.
  destruct (ray_round _ _ _ _ _ _ r) as [[r'|r']| |]; [|by exists r'|done|done].
  destruct Hr as (Hw' & Hh' & Hin' & Hv' & _). apply ray_loop_spec; [done..|].
  unfold ray_measure, cells_left. destruct Hin' as [Hiy Hix]. repeat break_if; lia.
Qed.
End Ray.

Lemma ray_axis_step pos dir cell dd : (ray_axis pos dir cell dd).1 = 1 \/ (ray_axis pos dir cell dd).1 = -1.
Proof. unfold ray_axis. destruct (dlt dir d0); auto. Qed.

(** C9: a ray always ends.  From any position whose coordinates convert to
    int, in any direction (zero, infinite or NaN included) and with any range,
    [shoot_ray] reads only cells of the map and returns; the cell it reports
    is reached from the starting cell by unit steps over wall-free cells, and
    it reports a hit exactly when that cell is a wall of the map within the
    range, no hit when it is off the map or beyond the range. *)
Theorem shoot_ray_walks m pos ray_dir rh range px py :
  map_ok m -> dto_int (vx pos) = Some px -> dto_int (vy pos) = Some py ->
  exists rh' sx sy, shoot_ray m pos ray_dir rh range = Done rh' /\
    (sx = 1 \/ sx = -1) /\ (sy = 1 \/ sy = -1) /\
    walk m sx sy (mk_coord (u16 px) (u16 py)) (rh_map_pos rh') /\
    ((hit rh' = 1 /\ inside m (rh_map_pos rh') /\
      (exists v, map_at m (cy (rh_map_pos rh')) (cx (rh_map_pos rh')) = Some v /\ 0 < v) /\
      (dgt range d0 = true -> dgt (distance rh') range = false)) \/
     (hit rh' = 0 /\ (~ inside m (rh_map_pos rh') \/
        (dgt range d0 = true /\ dgt (distance rh') range = true)))).
Proof.
  intros Hm Hpx Hpy. unfold shoot_ray. rewrite Hpx, Hpy. cbn [cx cy].
  set (ddx := dabs _). set (ddy := dabs _).
  pose proof (ray_axis_step (vx pos) (vx ray_dir) (u16 px) ddx) as Hsx.
  pose proof (ray_axis_step (vy pos) (vy ray_dir) (u16 py) ddy) as Hsy.
  destruct (ray_axis (vx pos) _ _ _) as [sx sdx], (ray_axis (vy pos) _ _ _) as [sy sdy].
  cbn [fst] in *.
  destruct (ray_loop_total m Hm sx sy ddx ddy range Hsx Hsy
    (mk_ray (rh <| hit := 0 |> <| distance := dint 0 |>) (mk_coord (u16 px) (u16 py)) sdx sdy))
    as (r' & -> & Hw & Hend); [done|apply (wrap_range 16); lia..|].
  eexists _, sx, sy. split; [reflexivity|]. cbn. done.
Qed.

(** A corridor of three cells closed by a wall. *)
Definition corridor : map_t := mk_map [Some [0; 0; 0; 1]] 1 4.
Lemma corridor_ok : map_ok corridor.
Proof.
  split; [cbn; lia|]. split; [cbn; lia|]. cbn. intros y x Hy Hx.
  assert (y = 0) as -> by lia.
  assert (x = 0 \/ x = 1 \/ x = 2 \/ x = 3) as [-> | [-> | [-> | ->]]] by lia; by eexists.
Qed.
Lemma shoot_ray_walks_witness :
  exists rh', shoot_ray corridor (mk_vec (dlit 1 2) (dlit 1 2)) (mk_vec (dint 1) d0)
      (mk_ray_hit 0 0 (mk_coord 0 0) d0) (dint 20) = Done rh' /\
    rh_map_pos rh' = mk_coord 3 0 /\ hit rh' = 1 /\ distance rh' = dlit 5 2.
Proof.
  destruct (shoot_ray_walks corridor (mk_vec (dlit 1 2) (dlit 1 2)) (mk_vec (dint 1) d0)
    (mk_ray_hit 0 0 (mk_coord 0 0) d0) (dint 20) 0 0 corridor_ok eq_refl eq_refl)
    as (rh' & sx & sy & E & _).
  exists rh'. split; [exact E|]. vm_compute in E. injection E as <-. split_and!; reflexivity.
Defined.
