(* ===== verification/Sprites.v ===== *)
(** * Sprites

    Sprites and animations, [src/proj/system/lib/sprites.c]: conversion of an
    XPM image, the animation step, and the loading and freeing of the global
    sprite pointers, with the allocated blocks explicit.  The LCF's XPM
    decoder and the images themselves (the data headers) are parameters. *)

From stdpp Require Import gmap.
From S2P Require Import Prelude MapFile Utils.

Definition MAX_SPRITE_WIDTH : Z := 80.
Definition MAX_SPRITE_HEIGHT : Z := 80.

(** ** Images *)
Record xpm_image_t : Type := mk_image { xi_width : Z; xi_height : Z; xi_bytes : list Z }.

(** [sprite_t], with the pixel block by value. *)
Record sprite_t : Type := mk_sprite {
  screen_pos : coordinate_t;
  texture_size : coordinate_t;
  invis_color : Z;
  x_offset : Z;
  y_offset : Z;
  pixels : list Z;
}.

(** [for(i < new_size) sprite->map[i] = i24_to_int(&pixmap[i])]: an [int24_t]
    is three consecutive bytes. *)
Fixpoint convert_pixels (n : nat) (bytes : list Z) : outcome (list Z) :=
  match n with
  | O => Done []
  | S n =>
      match bytes with
      | b0 :: b1 :: b2 :: bytes =>
          match convert_pixels n bytes with
          | Done px => Done (i24_to_int [b0; b1; b2] :: px)
          | o => o
          end
      | _ => Undef
      end
  end.

Definition load_sprite_image (transparency : Z) (screen : coordinate_t) (image : xpm_image_t) :
    outcome sprite_t :=
  let new_size := i32 (xi_height image * xi_width image) in
  match convert_pixels (Z.to_nat new_size) (xi_bytes image) with
  | Done px =>
      Done (mk_sprite screen (mk_coord (u16 (xi_width image)) (u16 (xi_height image)))
        transparency
        (Z.quot (MAX_SPRITE_WIDTH - u16 (xi_width image)) 2)
        (MAX_SPRITE_HEIGHT - u16 (xi_height image)) px)
  | Undef => Undef
  | OutOfFuel => OutOfFuel
  end.

(** ** Animations

    [animated_sprite_t] over sprite pointers of type [P]. *)
Inductive anim_state : Type := FINISHED | PROGRESS.
#[global] Instance anim_state_eq_dec : EqDecision anim_state.
Proof. solve_decision. Defined.

Record animated_sprite (P : Type) : Type := mk_anim {
  an_sprite : P;
  frames_per_sprite : Z;
  cur_frame : Z;
  num_fig : Z;
  an_state : anim_state;
  frames : list P;
}.
Arguments mk_anim {P}.
Arguments an_sprite {P}.
Arguments frames_per_sprite {P}.
Arguments cur_frame {P}.
Arguments num_fig {P}.
Arguments an_state {P}.
Arguments frames {P}.
#[global] Instance eta_anim {P} : Eta (animated_sprite P) := fun a =>
  mk_anim (an_sprite a) (frames_per_sprite a) (cur_frame a) (num_fig a) (an_state a) (frames a).

(** [time_counter % ints] is signed 64-bit here ([extern time_t]). *)
Definition update_anim {P} (time_counter : Z) (anim : animated_sprite P) :
    outcome (bool * animated_sprite P) :=
  let ints := frames_per_sprite anim in
  let anim := anim <| an_state := PROGRESS |> in
  if ints =? 0 then Undef else
  if Z.rem time_counter ints =? 0 then
    if num_fig anim =? 0 then Undef else
    let cf := Z.rem (i32 (cur_frame anim + 1)) (num_fig anim) in
    let anim := anim <| cur_frame := cf |> in
    match aget (frames anim) cf with
    | None => Undef
    | Some sp =>
        let anim := anim <| an_sprite := sp |> in
        if cf =? 0 then Done (true, anim <| an_state := FINISHED |>) else Done (false, anim)
    end
  else Done (false, anim).

(** ** The global sprite pointers *)
Inductive slot : Type :=
| menu_background | multiplayer_background | win_background | lose_background
| disconnect_background
| single_menu_button | multi_menu_button | exit_menu_button | date_bg
| background_button | next_menu_button | restart_menu_button
| playa (i : Z) | playb (i : Z) | playc (i : Z) | playd (i : Z) | playe (i : Z) | playf (i : Z)
| dead (i : Z)
| ammos (i : Z) | media | arm1a | arm1b
| pisia | pisfa | pisfb | pisfc | pisfd | pisfe
| rifle1 | rifle2 | rifle3 | rifle4
| ray0 | ray1 | ray2 | ray3 | ray4
| number (i : Z) | hud_sprite | cursor_sprite | gun_menu_sprites (i : Z)
| walls_textures_array | walls_textures (i : Z).
#[global] Instance slot_eq_dec : EqDecision slot.
Proof. solve_decision. Defined.

(** The heap of sprite blocks: which are allocated, where every global
    points ([None]: never assigned), and the pixel blocks allocated for
    them. *)
Record sprite_store : Type := mk_sprites {
  next_block : positive;
  blocks : list positive;
  pixel_blocks : list positive;
  pointers : list (slot * option positive);
}.
#[global] Instance eta_sprites : Eta sprite_store := fun s =>
  mk_sprites (next_block s) (blocks s) (pixel_blocks s) (pointers s).

Definition new_block : prog sprite_store positive := fun s =>
  Done (next_block s, s <| next_block ::= Pos.succ |> <| blocks ::= cons (next_block s) |>).
Definition free_block (p : option positive) : prog sprite_store unit := fun s =>
  match p with
  | None => Done (tt, s)
  | Some b =>
      if decide (b ∈ blocks s) then Done (tt, s <| blocks ::= filter (fun x => x <> b) |>) else Undef
  end.
Definition pointer (x : slot) : prog sprite_store (option positive) :=
  gets (fun s => match list_find (fun p => p.1 = x) (pointers s) with
                 | Some (_, (_, p)) => p
                 | None => None
                 end).
Definition assign (x : slot) (p : option positive) : prog sprite_store unit :=
  modify (fun s => s <| pointers ::= cons (x, p) |>).

Section Loading.
(** Whether the pixel block of the [n]-th sprite could be allocated. *)
Variable pixels_ok : positive -> bool.

(** [load_sprite(map, ptr)], on the heap: one pixel block. *)
Definition load_sprite (ptr : positive) : prog sprite_store Z := fun s =>
  if pixels_ok (next_block s)
  then Done (OK, s <| next_block ::= Pos.succ |> <| pixel_blocks ::= cons (next_block s) |>)
  else Done (1, s).

(** [ptr = malloc(...); if(load_sprite(xpm, ptr) != OK) return 1; slot = ptr;] *)
Definition load_then_assign (x : slot) : prog sprite_store Z :=
  ptr <- new_block ;;
  err <- load_sprite ptr ;;
  if negb (err =? OK) then ret 1 else (assign x (Some ptr) ;;; ret OK).
(** [slot = malloc(...); if(load_sprite(xpm, slot) != OK) return 1;] *)
Definition assign_then_load (x : slot) : prog sprite_store Z :=
  ptr <- new_block ;;
  assign x (Some ptr) ;;;
  err <- load_sprite ptr ;;
  if negb (err =? OK) then ret 1 else ret OK.

(** Calls in sequence, each followed by [if(... != OK) return 1]. *)
Fixpoint all_ok (calls : list (prog sprite_store Z)) : prog sprite_store Z :=
  match calls with
  | [] => ret OK
  | c :: calls => err <- c ;; if negb (err =? OK) then ret 1 else all_ok calls
  end.

Definition load_background : prog sprite_store Z := assign_then_load menu_background.
Definition load_mp_background : prog sprite_store Z := assign_then_load multiplayer_background.
Definition load_win_background : prog sprite_store Z := assign_then_load win_background.
Definition load_lose_background : prog sprite_store Z := assign_then_load lose_background.
Definition load_disc_background : prog sprite_store Z := assign_then_load disconnect_background.

Definition load_menu_sprites : prog sprite_store Z :=
  all_ok (assign_then_load <$>
    [single_menu_button; multi_menu_button; exit_menu_button; date_bg;
     background_button; next_menu_button; restart_menu_button]).

Definition load_player_sprites : prog sprite_store Z :=
  all_ok (load_then_assign <$>
    (flat_map (fun i => [playa i; playb i; playc i; playd i; playe i; playf i; dead i])
       (seqZ 0 8))).

Definition load_pickup_sprites : prog sprite_store Z :=
  all_ok (load_then_assign <$> [ammos 0; ammos 1; ammos 2; media; arm1a; arm1b]).

Definition load_gun_sprites : prog sprite_store Z :=
  all_ok (load_then_assign <$>
    [pisia; pisfa; pisfb; pisfc; pisfd; pisfe; rifle1; rifle2; rifle3; rifle4;
     ray0; ray1; ray2; ray3; ray4]).

Definition load_numbers_sprites : prog sprite_store Z :=
  all_ok (load_then_assign <$> (number <$> seqZ 0 12)).

Definition load_hud_sprite : prog sprite_store Z := load_then_assign hud_sprite.
Definition init_cursor_sprite : prog sprite_store Z := assign_then_load cursor_sprite.
Definition init_gun_menu_sprites : prog sprite_store Z :=
  all_ok (assign_then_load <$> (gun_menu_sprites <$> seqZ 0 3)).

Definition init_walls_sprites : prog sprite_store Z :=
  arr <- new_block ;;
  assign walls_textures_array (Some arr) ;;;
  all_ok (load_then_assign <$> (walls_textures <$> seqZ 0 6)).

Definition load_sprites : prog sprite_store Z :=
  err <- all_ok [init_gun_menu_sprites; init_cursor_sprite; init_walls_sprites;
                 load_player_sprites; load_pickup_sprites; load_gun_sprites;
                 load_numbers_sprites; load_menu_sprites; load_background;
                 load_mp_background; load_win_background; load_lose_background;
                 load_disc_background] ;;
  if negb (err =? OK) then ret 1 else load_hud_sprite.
End Loading.

(** [free(slot)] *)
Definition free_slot (x : slot) : prog sprite_store unit := p <- pointer x ;; free_block p.
Definition free_slots (l : list slot) : prog sprite_store unit := for_each l free_slot.

Definition free_background : prog sprite_store unit :=
  free_slots [menu_background; multiplayer_background; win_background; lose_background;
              disconnect_background].
Definition free_menu_sprites : prog sprite_store unit :=
  free_slots [single_menu_button; multi_menu_button; exit_menu_button; date_bg;
              background_button; next_menu_button; restart_menu_button].
Definition free_numbers_sprites : prog sprite_store unit := free_slots (number <$> seqZ 0 10).
Definition free_hud_sprite : prog sprite_store unit :=
  free_slot hud_sprite ;;; assign hud_sprite None.
Definition free_gun_menu_sprites : prog sprite_store unit :=
  free_slots (gun_menu_sprites <$> seqZ 0 3).
Definition free_player_sprites : prog sprite_store unit :=
  free_slots (flat_map (fun i => [playa i; playb i; playc i; playd i; playe i; playf i; dead i])
                (seqZ 0 8)).
Definition free_walls_sprites : prog sprite_store unit :=
  free_slots (walls_textures <$> seqZ 0 6) ;;; free_slot walls_textures_array.
Definition free_gun_sprites : prog sprite_store unit :=
  free_slots [pisfa; pisfb; pisfc; pisfd; pisfe; pisia; rifle1; rifle2; rifle3; rifle4;
              ray0; ray1; ray2; ray3; ray4].
Definition free_cursor_sprite : prog sprite_store unit := free_slot cursor_sprite.
Definition free_pickup_sprites : prog sprite_store unit :=
  free_slots [ammos 0; ammos 1; ammos 2; media; arm1a; arm1b].

Definition free_sprites : prog sprite_store Z :=
  free_walls_sprites ;;; free_cursor_sprite ;;; free_gun_menu_sprites ;;;
  free_numbers_sprites ;;; free_hud_sprite ;;; free_pickup_sprites ;;;
  free_player_sprites ;;; free_gun_sprites ;;; free_menu_sprites ;;; free_background ;;;
  ret OK.

(** ** Conversion *)
Lemma lor_shiftl_add a b k : 0 <= k -> 0 <= a < 2 ^ k -> 0 <= b ->
  Z.lor a (Z.shiftl b k) = a + b * 2 ^ k.
Proof.
  intros Hk Ha Hb. assert (Z.land a (Z.shiftl b k) = 0) as Hland.
  { apply Z.bits_inj'. intros n Hn. rewrite Z.land_spec, Z.bits_0, Z.shiftl_spec by done.
    destruct (Z.lt_ge_cases n k).
    - by rewrite (Z.testbit_neg_r b) by lia; rewrite andb_false_r.
    - rewrite <- (Z.mod_small a (2 ^ k)) by done. by rewrite Z.mod_pow2_bits_high by lia. }
  rewrite <- Z.lxor_lor by done. rewrite <- Z.add_nocarry_lxor by done.
  by rewrite Z.shiftl_mul_pow2.
Qed.

Lemma i24_value b0 b1 b2 : 0 <= b0 < 256 -> 0 <= b1 < 256 -> 0 <= b2 < 256 ->
  i24_to_int [b0; b1; b2] = b0 + 256 * b1 + 65536 * b2.
Proof.
  intros H0 H1 H2. unfold i24_to_int. cbn [zip zip_with foldl].
  rewrite !Z.shiftl_mul_pow2 by lia. rewrite !(wrap_small 32) by lia.
  rewrite <- !Z.shiftl_mul_pow2 by lia. rewrite Z.lor_0_l.
  change (0 * 8) with 0. change (1 * 8) with 8. change (2 * 8) with 16.
  rewrite Z.shiftl_0_r, (lor_shiftl_add b0 b1 8), (lor_shiftl_add _ b2 16) by lia. lia.
Qed.

(** A sprite's pixels are the image's: as many as width times height,
    pixel i being the little-endian 24-bit value of bytes 3i, 3i+1 and 3i+2;
    the conversion reads nothing outside an image that has all its bytes. *)
Lemma load_sprite_pixels transparency screen w h bytes :
  0 <= w < 2 ^ 15 -> 0 <= h < 2 ^ 15 -> Forall (fun b => 0 <= b < 256) bytes ->
  3 * (h * w) <= alen bytes ->
  exists sp, load_sprite_image transparency screen (mk_image w h bytes) = Done sp /\
    alen (pixels sp) = h * w /\ texture_size sp = mk_coord w h /\
    forall i, 0 <= i < h * w -> exists b0 b1 b2,
      aget bytes (3 * i) = Some b0 /\ aget bytes (3 * i + 1) = Some b1 /\
      aget bytes (3 * i + 2) = Some b2 /\
      aget (pixels sp) i = Some (b0 + 256 * b1 + 65536 * b2).
Proof.
  intros Hw Hh Hb Hlen. unfold load_sprite_image. cbn [xi_width xi_height xi_bytes].
  rewrite (swrap_small 32) by nia. rewrite !(wrap_small 16) by lia.
  assert (exists px, convert_pixels (Z.to_nat (h * w)) bytes = Done px /\
    length px = Z.to_nat (h * w) /\ forall i, (i < Z.to_nat (h * w))%nat -> exists b0 b1 b2,
      bytes !! (3 * i)%nat = Some b0 /\ bytes !! (3 * i + 1)%nat = Some b1 /\
      bytes !! (3 * i + 2)%nat = Some b2 /\
      px !! i = Some (b0 + 256 * b1 + 65536 * b2)) as (px & -> & Hl & Hpx).
  { assert (3 * Z.to_nat (h * w) <= length bytes)%nat as Hlen' by (unfold alen in Hlen; lia).
    clear Hlen. revert bytes Hb Hlen'. generalize (Z.to_nat (h * w)). clear.
    intros n. induction n as [|n IH]; intros bytes Hb Hlen.
    { exists []. split_and!; [done|done|lia]. }
    destruct bytes as [|b0 [|b1 [|b2 bytes]]]; cbn in Hlen; try lia.
    apply Forall_cons in Hb as [H0 Hb]. apply Forall_cons in Hb as [H1 Hb].
    apply Forall_cons in Hb as [H2 Hb].
    destruct (IH bytes Hb ltac:(lia)) as (px & Hc & Hl & Hpx). cbn [convert_pixels]. rewrite Hc.
    exists (i24_to_int [b0; b1; b2] :: px). split; [done|]. split; [cbn; lia|].
    intros [|i] Hi.
    - exists b0, b1, b2. split_and!; [done..|]. cbn. f_equal. by apply i24_value.
    - destruct (Hpx i ltac:(lia)) as (c0 & c1 & c2 & E0 & E1 & E2 & E3).
      exists c0, c1, c2. rewrite <- E0, <- E1, <- E2, <- E3.
      replace (3 * S i)%nat with (S (S (S (3 * i)))) by lia. split_and!; [done..|]. done. }
  eexists. split; [reflexivity|]. cbn [pixels texture_size]. split; [unfold alen; lia|].
  split; [done|]. intros i Hi. destruct (Hpx (Z.to_nat i) ltac:(lia)) as (b0 & b1 & b2 & E0 & E1 & E2 & E3).
  exists b0, b1, b2. rewrite <- E0, <- E1, <- E2, <- E3. rewrite <- !aget_lookup.
  split_and!; f_equal; lia.
Qed.

Lemma load_sprite_pixels_at :
  exists sp, load_sprite_image 0 (mk_coord 0 0) (mk_image 2 1 [1; 0; 0; 0; 1; 0]) = Done sp /\
    aget (pixels sp) 1 = Some 256.
Proof.
  destruct (load_sprite_pixels 0 (mk_coord 0 0) 2 1 [1; 0; 0; 0; 1; 0]) as (sp & E & _ & _ & Hp);
    [lia|lia|repeat constructor; lia|reflexivity || (unfold alen; cbn; lia)|].
  exists sp. split; [exact E|]. destruct (Hp 1 ltac:(lia)) as (b0 & b1 & b2 & E0 & E1 & E2 & ->).
  injection E0 as <-. injection E1 as <-. injection E2 as <-. reflexivity.
Defined.

(** ** Animation *)

(** The handler's loop: one [update_anim] per tick; how many reported the end
    of the animation. *)
Fixpoint run_anim {P} (n : nat) (t : Z) (a : animated_sprite P) :
    outcome (Z * animated_sprite P) :=
  match n with
  | O => Done (0, a)
  | S n =>
      match update_anim t a with
      | Done (ended, a) =>
          match run_anim n (t + 1) a with
          | Done (c, a) => Done (b2z ended + c, a)
          | o => o
          end
      | Undef => Undef
      | OutOfFuel => OutOfFuel
      end
  end.

(** A usable animation shows one of its frames. *)
Definition anim_ok {P} (a : animated_sprite P) : Prop :=
  0 < frames_per_sprite a /\ 0 <= cur_frame a < num_fig a /\
  num_fig a <= INT_MAX /\ num_fig a = alen (frames a).

(** The multiples of [fps] in [t .. t + n - 1]. *)
Definition advances (fps t : Z) (n : nat) : Z := (t + Z.of_nat n - 1) / fps - (t - 1) / fps.

Lemma div_step fps t : 0 < fps -> t / fps - (t - 1) / fps = b2z (t mod fps =? 0).
Proof.
  intros Hf. pose proof (Z.div_mod t fps). pose proof (Z.mod_pos_bound t fps Hf).
  destruct (Z.eqb_spec (t mod fps) 0) as [E|E]; cbn.
  - assert ((t - 1) / fps = t / fps - 1) as ->; [|lia].
    symmetry. apply (Z.div_unique _ _ _ (fps - 1)); lia.
  - assert ((t - 1) / fps = t / fps) as ->; [|lia].
    symmetry. apply (Z.div_unique _ _ _ (t mod fps - 1)); lia.
Qed.

Lemma update_anim_step {P} t (a : animated_sprite P) :
  anim_ok a -> 0 <= t ->
  exists a' k, update_anim t a = Done (bool_decide (cur_frame a + k = num_fig a /\ k = 1), a') /\
    k = b2z (t mod frames_per_sprite a =? 0) /\ anim_ok a' /\
    frames a' = frames a /\ num_fig a' = num_fig a /\
    frames_per_sprite a' = frames_per_sprite a /\
    cur_frame a' = (cur_frame a + k) mod num_fig a /\
    (k = 0 -> an_sprite a' = an_sprite a) /\
    (k = 1 -> aget (frames a) (cur_frame a') = Some (an_sprite a')).
Proof.
  intros (Hf & Hc & Hmax & Hn) Ht. pose proof Hmax as Hmax2. unfold INT_MAX in Hmax2.
  unfold update_anim. cbn.
  destruct (Z.eqb_spec (frames_per_sprite a) 0); [lia|].
  rewrite Z.rem_mod_nonneg by lia.
  destruct (Z.eqb_spec (t mod frames_per_sprite a) 0) as [E|E].
  - destruct (Z.eqb_spec (num_fig a) 0); [lia|]. rewrite (swrap_small 32) by lia.
    rewrite Z.rem_mod_nonneg by lia.
    pose proof (Z.mod_pos_bound (cur_frame a + 1) (num_fig a) ltac:(lia)) as Hb.
    destruct (proj2 (aget_is_Some (frames a) ((cur_frame a + 1) mod num_fig a)) ltac:(lia)) as [sp Hsp].
    rewrite Hsp. destruct (Z.eqb_spec ((cur_frame a + 1) mod num_fig a) 0) as [E0|E0].
    + eexists _, 1. rewrite bool_decide_true.
      * split; [reflexivity|]. split; [done|]. split; [split_and!; cbn; [lia..|exact Hn]|]. done.
      * split; [|done]. destruct (Z.eq_dec (cur_frame a + 1) (num_fig a)); [done|].
        rewrite Z.mod_small in E0 by lia. lia.
    + eexists _, 1. rewrite bool_decide_false.
      * split; [reflexivity|]. split; [done|]. split; [split_and!; cbn; [lia..|exact Hn]|]. done.
      * intros [Heq _]. by rewrite Heq, Z.mod_same in E0 by lia.
  - eexists _, 0. rewrite bool_decide_false by lia.
    split; [reflexivity|]. split; [done|]. split; [split_and!; cbn; [lia..|exact Hn]|].
    split_and!; try done. cbn. by rewrite Z.add_0_r, Z.mod_small by lia.
Qed.

(** Over [n] consecutive ticks an animation moves on by one frame at each
    multiple of [frames_per_sprite], cyclically, and reports its end exactly
    once per completed cycle; it never reads outside its frames, and after a
    move it shows the frame it is at. *)
Lemma anim_cycles {P} n t (a : animated_sprite P) :
  anim_ok a -> 0 <= t ->
  exists a', run_anim n t a =
      Done ((cur_frame a + advances (frames_per_sprite a) t n) / num_fig a, a') /\
    anim_ok a' /\ frames a' = frames a /\
    cur_frame a' = (cur_frame a + advances (frames_per_sprite a) t n) mod num_fig a /\
    (advances (frames_per_sprite a) t n <> 0 ->
     aget (frames a) (cur_frame a') = Some (an_sprite a')).
Proof.
  intros Ha Ht.
  assert (0 <= advances (frames_per_sprite a) t n /\ exists a',
    run_anim n t a = Done ((cur_frame a + advances (frames_per_sprite a) t n) / num_fig a, a') /\
    anim_ok a' /\ frames a' = frames a /\
    cur_frame a' = (cur_frame a + advances (frames_per_sprite a) t n) mod num_fig a /\
    (if decide (advances (frames_per_sprite a) t n = 0) then an_sprite a' = an_sprite a
     else aget (frames a) (cur_frame a') = Some (an_sprite a'))) as (_ & a' & Hr & H1 & H2 & H3 & H4).
  2: { exists a'. split_and!; [done..|]. intros Hne. by rewrite decide_False in H4. }
  revert t a Ha Ht. induction n as [|n IH]; intros t a Ha Ht.
  - destruct Ha as (Hf & Hc & Hr). assert (advances (frames_per_sprite a) t 0 = 0) as ->.
    { unfold advances. rewrite Z.add_0_r. lia. }
    split; [done|]. exists a. rewrite Z.add_0_r, Z.div_small, Z.mod_small by lia. done.
  - destruct (update_anim_step t a Ha Ht) as (a1 & k & Hu & Hk & Ha1 & Hfr & Hnf & Hfps & Hcur & Hs0 & Hs1).
    destruct (IH (t + 1) a1 Ha1 ltac:(lia)) as (Hpos & a2 & Hrun & Ha2 & Hfr2 & Hcur2 & Hsp2).
    rewrite Hfps in *. set (fps := frames_per_sprite a) in *. set (A := advances fps (t + 1) n) in *.
    assert (advances fps t (S n) = k + A) as HA.
    { rewrite Hk. destruct Ha as (Hf & _). unfold A, advances. rewrite <- (div_step fps t Hf).
      replace (t + Z.of_nat (S n) - 1) with (t + 1 + Z.of_nat n - 1) by lia.
      replace (t + 1 - 1) with t by lia. lia. }
    assert (0 <= k <= 1) as Hk01 by (rewrite Hk; destruct (_ =? 0); cbn; lia).
    rewrite HA. split; [lia|]. cbn [run_anim]. rewrite Hu, Hrun. exists a2.
    destruct Ha as (Hf & Hc & Hmax & Hn). set (c := cur_frame a) in *. set (N := num_fig a) in *.
    rewrite Hnf, Hcur in *.
    assert (b2z (bool_decide (c + k = N /\ k = 1)) = (c + k) / N) as Hend.
    { case_bool_decide as E; cbn.
      - destruct E as [-> _]. by rewrite Z.div_same by lia.
      - rewrite Z.div_small; [done|]. destruct (Z.eq_dec k 1); [|lia].
        assert (c + k <> N) by tauto. lia. }
    pose proof (Z.div_mod (c + k) N ltac:(lia)) as Hdm.
    replace (c + (k + A)) with ((c + k) mod N + A + (c + k) / N * N) by lia.
    rewrite Z.div_add, Z.mod_add by lia. split_and!.
    + f_equal. f_equal. rewrite Hend. lia.
    + done.
    + by rewrite Hfr2.
    + done.
    + rewrite Hfr in Hsp2. destruct (decide (A = 0)) as [EA|EA], (decide (k + A = 0)) as [EK|EK]; try lia.
      * rewrite Hsp2. apply Hs0. lia.
      * rewrite Hsp2. rewrite EA, Z.add_0_r in Hcur2. rewrite Z.mod_mod in Hcur2 by lia.
        rewrite Hcur2. apply Hs1. lia.
      * done.
Qed.

Lemma anim_cycles_at :
  anim_ok (mk_anim 7 10 0 3 FINISHED [7; 8; 9]) /\
  exists a', run_anim 60 1 (mk_anim 7 10 0 3 FINISHED [7; 8; 9]) = Done (2, a') /\ an_sprite a' = 7.
Proof.
  assert (anim_ok (mk_anim 7 10 0 3 FINISHED [7; 8; 9])) as Ha by (split_and!; cbn; done).
  split; [done|]. destruct (anim_cycles 60 1 _ Ha ltac:(lia)) as (a' & Hr & _ & _ & _ & Hs).
  exists a'. split; [exact Hr|].
  vm_compute in Hr. injection Hr as <-. reflexivity.
Defined.

(** ** Loading and freeing *)

(** Loading all sprites and freeing them releases no block twice and
    never one that is not allocated, but does not release everything: the
    last two of the twelve digits, and the pixel block of every sprite, stay
    allocated. *)
Lemma sprites_freed_once :
  exists s s', load_sprites (fun _ => true) (mk_sprites 1 [] [] []) = Done (OK, s) /\
    free_sprites s = Done (OK, s') /\
    length (blocks s) = 113%nat /\ length (pixel_blocks s') = 112%nat /\
    blocks s' = omap (fun x => match pointer x s with Done (p, _) => p | _ => None end)
                  [number 11; number 10].
Proof.
  eexists _, _. split; [vm_compute; reflexivity|]. split; [vm_compute; reflexivity|].
  split_and!; reflexivity.
Qed.
