(* ===== verification/Guns.v ===== *)
(** * Guns

    Guns and the gun state machine, [src/proj/system/guns/gun.c].  A gun is
    copied by value into every instance, but its animations are an array on
    the heap that all the copies share, so that array is part of the state. *)

From Stdlib Require Import Floats.SpecFloat Sorting.Sorted.
From stdpp Require Import strings.
From S2P Require Import Prelude Doubles Utils Sprites.

(** ** Data *)
Inductive gun_state_t : Type :=
| INVENTORY | INITIAL | CHARGING | READY | COOLDOWN | NO_AMMO | RELOADING.
#[global] Instance gun_state_eq_dec : EqDecision gun_state_t.
Proof. solve_decision. Defined.

(** [gun_t]; [animations] is the index of the array in the animation heap.
    [projectile_launcher], which nothing assigns or reads, is left out. *)
Record gun_t : Type := mk_gun {
  g_name : string;
  reload_time : Z;
  charge_time : Z;
  cooldown_time : Z;
  g_range : double;
  damage : Z;
  ammo_per_packet : Z;
  ammo_per_fire : Z;
  max_packets : Z;
  automatic : bool;
  animations : nat;
  menu_sprite : slot;
  g_num_anims : Z;
  ammo_index : Z;
  spread : bool;
  burst : bool;
}.
#[global] Instance eta_gun : Eta gun_t := fun g =>
  mk_gun (g_name g) (reload_time g) (charge_time g) (cooldown_time g) (g_range g) (damage g)
    (ammo_per_packet g) (ammo_per_fire g) (max_packets g) (automatic g) (animations g)
    (menu_sprite g) (g_num_anims g) (ammo_index g) (spread g) (burst g).

Record gun_instance_t : Type := mk_instance {
  gi_gun : gun_t;
  gi_index : Z;
  curr_anim : Z;
  curr_ammo : Z;
  curr_packets : Z;
  last_op_tick : Z;
  gi_state : gun_state_t;
}.
#[global] Instance eta_instance : Eta gun_instance_t := fun g =>
  mk_instance (gi_gun g) (gi_index g) (curr_anim g) (curr_ammo g) (curr_packets g)
    (last_op_tick g) (gi_state g).

(** The animation arrays of the heap; sprites are named by the global that
    pointed to them when the array was built. *)
Abbreviation anim_heap := (list (list (animated_sprite slot))).

(** ** The state machine *)
Definition reload_gun (gi : gun_instance_t) : gun_instance_t :=
  if 0 <? curr_packets gi
  then gi <| curr_packets ::= (fun p => u16 (p - 1)) |>
          <| curr_ammo := ammo_per_packet (gi_gun gi) |>
  else gi.

Definition add_packets (gi : gun_instance_t) (num_packets : Z) : gun_instance_t :=
  gi <| curr_packets ::= (fun p => u16 (p + num_packets)) |>.

(** The [switch] of [update_gun_state]; ticks are compared as [uint64_t]. *)
Definition gun_switch (time_counter : Z) (shot : bool) (gi : gun_instance_t) : gun_instance_t :=
  let gun := gi_gun gi in
  match gi_state gi with
  | INITIAL =>
      let gi := gi <| last_op_tick := time_counter |> in
      if curr_ammo gi <=? 0 then
        if 0 <? curr_packets gi
        then gi <| gi_state := RELOADING |> <| last_op_tick := time_counter |>
        else gi <| gi_state := NO_AMMO |>
      else gi <| gi_state := CHARGING |>
  | CHARGING =>
      if u64 (last_op_tick gi + charge_time gun) <=? time_counter
      then gi <| gi_state := READY |> else gi
  | READY =>
      if curr_ammo gi <=? 0 then
        if negb (curr_packets gi =? 0)
        then gi <| gi_state := RELOADING |> <| last_op_tick := time_counter |>
        else gi <| gi_state := NO_AMMO |>
      else if shot then gi <| last_op_tick := time_counter |> <| gi_state := COOLDOWN |>
      else gi
  | COOLDOWN =>
      if u64 (last_op_tick gi + cooldown_time gun) <=? time_counter
      then gi <| gi_state := READY |> else gi
  | RELOADING =>
      if u64 (last_op_tick gi + reload_time gun) <=? time_counter
      then (reload_gun gi) <| gi_state := READY |> else gi
  | NO_AMMO =>
      if negb (curr_packets gi =? 0)
      then gi <| gi_state := RELOADING |> <| last_op_tick := time_counter |> else gi
  | INVENTORY => gi
  end.

(** [update_anim(&gun_inst->gun.animations[gun_inst->curr_anim])] *)
Definition update_gun_anim (time_counter : Z) (gi : gun_instance_t) : prog anim_heap bool := fun h =>
  match h !! animations (gi_gun gi) with
  | Some arr =>
      match aget arr (curr_anim gi) with
      | Some a =>
          match update_anim time_counter a with
          | Done (ended, a) =>
              match aset arr (curr_anim gi) a with
              | Some arr => Done (ended, <[animations (gi_gun gi) := arr]> h)
              | None => Undef
              end
          | Undef => Undef
          | OutOfFuel => OutOfFuel
          end
      | None => Undef
      end
  | None => Undef
  end.

Definition update_gun_state (time_counter : Z) (shot player : bool) (gun_inst : gun_instance_t) :
    prog anim_heap gun_instance_t :=
  gun_inst <- (if player
               then (ended <- update_gun_anim time_counter gun_inst ;;
                     ret (if (ended : bool) then gun_inst <| curr_anim := 0 |> else gun_inst))
               else ret gun_inst) ;;
  ret (gun_switch time_counter shot gun_inst).

(** ** The guns of the game *)
Definition idle_anim (sp : slot) : animated_sprite slot := mk_anim sp 1 0 1 FINISHED [sp].

(** [num_ticks] of the three [init_*_anims]; [None] where a conversion to int
    is undefined. *)
Definition fire_ticks (cooldown num_figs : Z) (mult : double) : option Z :=
  let num_ticks := cooldown / num_figs in
  let scaled :=
    if dlt (dmul (dmul (dint num_ticks) mult) (dint num_figs)) (dint cooldown)
    then dto_int (dmul (dint num_ticks) mult) else Some num_ticks in
  match scaled with
  | Some n => Some (if n =? 0 then 1 else n)
  | None => None
  end.

Definition init_anims (idle : slot) (fire : list slot) (first : slot) (mult : double) (g : gun_t) :
    prog anim_heap gun_t := fun h =>
  match fire_ticks (cooldown_time g) (alen fire) mult with
  | None => Undef
  | Some n =>
      Done (g <| animations := length h |> <| g_num_anims := 2 |>,
            h ++ [[idle_anim idle; mk_anim first n 0 (alen fire) FINISHED fire]])
  end.

Definition init_gun_anims (mult : double) (g : gun_t) : prog anim_heap gun_t :=
  init_anims pisia [pisfa; pisfa; pisfb; pisfb; pisfc; pisfd; pisfe] pisfa mult g.
Definition init_rifle_anims (mult : double) (g : gun_t) : prog anim_heap gun_t :=
  init_anims rifle1 [rifle2; rifle3; rifle4; rifle1] rifle2 mult g.
Definition init_ray_anims (mult : double) (g : gun_t) : prog anim_heap gun_t :=
  init_anims ray0 [ray1; ray2; ray3; ray4] ray1 mult g.

(** The records [init_guns] fills in; the pointer is set afterwards. *)
Definition gun1 : gun_t :=
  mk_gun "Minigun" 90 15 10 (dint 20) 15 30 1 5 true 0 (gun_menu_sprites 0) 0 0 false false.
Definition gun2 : gun_t :=
  mk_gun "Service Pistol" 60 10 15 (dint 15) 15 11 1 3 false 0 (gun_menu_sprites 1) 0 1 false false.
Definition gun3 : gun_t :=
  mk_gun "BLMG 5100" 120 30 60 (dint 40) 120 2 1 5 false 0 (gun_menu_sprites 2) 0 2 false false.
Definition bot_gun1 : gun_t :=
  mk_gun "Auto Weak Bot Gun" 60 0 15 (dint 30) 5 30 1 5 true 0 (gun_menu_sprites 0) 0 0 false false.
Definition bot_gun2 : gun_t :=
  mk_gun "Auto STRONG Bot Gun" 60 0 1 (dint 30) 30 30 1 5 true 0 (gun_menu_sprites 0) 0 0 false false.

(** [init_guns]: the array [guns] it leaves. *)
Definition init_guns : prog anim_heap (list gun_t) :=
  gun1 <- init_rifle_anims (dint 1) gun1 ;;
  gun2 <- init_gun_anims (dint 1) gun2 ;;
  gun3 <- init_ray_anims (dlit 3 10) gun3 ;;
  bot_gun1 <- init_rifle_anims (dint 1) bot_gun1 ;;
  bot_gun2 <- init_rifle_anims (dint 1) bot_gun2 ;;
  ret [gun1; gun2; gun3; bot_gun1; bot_gun2].

(** [get_gun(gun_index)]: past the end the code returns an uninitialised
    struct, whose fields must not be read. *)
Definition get_gun (guns : list gun_t) (gun_index : Z) : option gun_t := aget guns gun_index.

Definition create_gun_instance (guns : list gun_t) (gun_index start_ammo start_packets : Z) :
    option gun_instance_t :=
  match get_gun guns gun_index with
  | None => None
  | Some g =>
      Some (mk_instance g gun_index 0
        (u16 (if ammo_per_packet g <? start_ammo then ammo_per_packet g else start_ammo))
        (u16 (if max_packets g <? start_packets then max_packets g else start_packets))
        0 INVENTORY)
  end.

(** The ammunition a shot spends: the counting of the [for] of
    [player.c]'s [fire], at most [ammo_per_fire] and at most what is left. *)
Definition spend_ammo (gi : gun_instance_t) : gun_instance_t :=
  gi <| curr_ammo ::= (fun a => a - Z.min (ammo_per_fire (gi_gun gi)) a) |>.

(** ** Well-formed guns *)
Record gun_ok (g : gun_t) : Prop := mk_gun_ok {
  ok_reload : 0 <= reload_time g < 2 ^ 31;
  ok_charge : 0 <= charge_time g < 2 ^ 31;
  ok_cooldown : 0 <= cooldown_time g < 2 ^ 31;
  ok_packet : 1 <= ammo_per_packet g < 2 ^ 16;
  ok_fire : 1 <= ammo_per_fire g < 2 ^ 16;
  ok_max : 0 <= max_packets g < 2 ^ 16;
}.
Record instance_ok (gi : gun_instance_t) : Prop := mk_instance_ok {
  ok_gun : gun_ok (gi_gun gi);
  ok_ammo : 0 <= curr_ammo gi <= ammo_per_packet (gi_gun gi);
  ok_packets : 0 <= curr_packets gi <= max_packets (gi_gun gi);
}.

Lemma gun_switch_ok t shot gi : instance_ok gi -> instance_ok (gun_switch t shot gi).
Proof.
  intros [Hg Ha Hp]. pose proof Hg as [? ? ? ? ? ?]. unfold gun_switch, reload_gun.
  destruct (gi_state gi); repeat break_if; bool_lia; split; cbn; try done; try lia.
  all: rewrite (wrap_small 16) by lia; lia.
Qed.

(** The animation arrays are the pairs (idle, fire) the loaders build, and
    every animation in them is usable. *)
Definition heap_ok (h : anim_heap) : Prop :=
  Forall (fun arr => alen arr = 2 /\ Forall anim_ok arr) h.
Definition anim_index_ok (h : anim_heap) (gi : gun_instance_t) : Prop :=
  (animations (gi_gun gi) < length h)%nat /\ 0 <= curr_anim gi <= 1.

Lemma update_gun_anim_ok t gi h : 0 <= t -> heap_ok h -> anim_index_ok h gi ->
  wp (update_gun_anim t gi) (fun _ h' => heap_ok h' /\ length h' = length h) h.
Proof.
  intros Ht Hh [Hi Hc]. unfold wp, update_gun_anim.
  destruct (lookup_lt_is_Some_2 _ _ Hi) as [arr Harr]. rewrite Harr.
  pose proof (proj1 (Forall_lookup _ _) Hh _ _ Harr) as [Hlen Hok].
  destruct (proj2 (aget_is_Some arr (curr_anim gi)) ltac:(lia)) as [a Ha]. rewrite Ha.
  assert (anim_ok a) as Haok.
  { unfold aget in Ha. destruct (curr_anim gi <? 0); [done|].
    by apply (proj1 (Forall_lookup _ _) Hok _ _ Ha). }
  destruct (update_anim_step t a Haok Ht) as (a' & k & -> & _ & Ha' & _).
  rewrite aset_Some by lia. split; [|by rewrite length_insert].
  apply Forall_insert; [done|]. split.
  - unfold alen in *. by rewrite length_insert.
  - by apply Forall_insert.
Qed.

Lemma update_gun_state_ok t shot player gi h :
  0 <= t -> heap_ok h -> anim_index_ok h gi ->
  wp (update_gun_state t shot player gi) (fun gi' h' =>
    heap_ok h' /\ length h' = length h /\
    exists ca, (ca = curr_anim gi \/ ca = 0) /\
      gi' = gun_switch t shot (gi <| curr_anim := ca |>)) h.
Proof.
  intros Ht Hh Hi. unfold update_gun_state. wp_step. destruct player.
  - wp_step. eapply wp_mono; [by apply update_gun_anim_ok|]. intros ended h' [Hh' Hl].
    wp_steps. split; [done|]. split; [done|]. destruct ended.
    + exists 0. auto.
    + exists (curr_anim gi). split; [auto|]. f_equal. by destruct gi.
  - wp_steps. split; [done|]. split; [done|]. exists (curr_anim gi). split; [auto|].
    f_equal. by destruct gi.
Qed.

(** ** A gun over time

    One tick of the game with this gun in hand: with the trigger pulled,
    [fire] shoots if the gun is ready, then the state machine moves. *)
Definition gun_tick (t : Z) (trigger player : bool) (gi : gun_instance_t) :
    prog anim_heap (bool * gun_instance_t) :=
  let fires := trigger && bool_decide (gi_state gi = READY) in
  let gi := if fires then (spend_ammo gi) <| curr_anim := 1 |> else gi in
  gi <- update_gun_state t fires player gi ;;
  ret (fires, gi).

(** The ticks at which it fired. *)
Fixpoint gun_run (triggers : list bool) (t : Z) (player : bool) (gi : gun_instance_t) :
    prog anim_heap (list Z * gun_instance_t) :=
  match triggers with
  | [] => ret ([], gi)
  | trigger :: triggers =>
      '(fires, gi) <- gun_tick t trigger player gi ;;
      '(shots, gi) <- gun_run triggers (t + 1) player gi ;;
      ret ((if (fires : bool) then [t] else []) ++ shots, gi)
  end.

Definition gap (gi : gun_instance_t) : Z :=
  Z.min (cooldown_time (gi_gun gi)) (reload_time (gi_gun gi)).

(** Since a shot at [s], the gun has not been ready again too early. *)
Definition rested (s now : Z) (gi : gun_instance_t) : Prop :=
  s < now /\
  match gi_state gi with
  | COOLDOWN | RELOADING => s <= last_op_tick gi
  | READY => s + gap gi < now
  | NO_AMMO | INVENTORY => True
  | INITIAL | CHARGING => False
  end.

Record timely (now : Z) (gi : gun_instance_t) : Prop := mk_timely {
  tm_inst : instance_ok gi;
  tm_last : 0 <= last_op_tick gi <= now;
}.

Lemma gun_switch_timely t shot gi : timely t gi -> timely t (gun_switch t shot gi).
Proof.
  intros [Hi Hl]. split; [by apply gun_switch_ok|].
  unfold gun_switch, reload_gun. destruct (gi_state gi); repeat break_if; cbn; lia.
Qed.
Lemma timely_later t t' gi : timely t gi -> t <= t' -> timely t' gi.
Proof. intros [Hi Hl] Ht. split; [done|lia]. Qed.

Lemma gun_switch_keeps t shot gi : gi_gun (gun_switch t shot gi) = gi_gun gi /\
  curr_anim (gun_switch t shot gi) = curr_anim gi.
Proof. unfold gun_switch, reload_gun. destruct (gi_state gi); repeat break_if; done. Qed.

Lemma gun_switch_rested s t gi : timely t gi -> 0 <= t < 2 ^ 62 ->
  rested s t gi -> rested s (t + 1) (gun_switch t false gi).
Proof.
  intros [[[? ? ? ? ? ?] Ha Hp] Hl] Ht [Hs Hst]. unfold rested, gap in *.
  destruct (gun_switch_keeps t false gi) as [-> _]. split; [lia|].
  unfold gun_switch, reload_gun. destruct (gi_state gi) eqn:E; try done;
    rewrite ?(wrap_small 64) by lia; repeat break_if; bool_lia; cbn; rewrite ?E; first [done|lia].
Qed.

Lemma gun_switch_shot t gi : gi_state gi = READY -> rested t (t + 1) (gun_switch t true gi).
Proof.
  intros E. unfold rested, gun_switch. rewrite E. split; [lia|].
  repeat break_if; cbn; first [done|lia].
Qed.

(** One tick keeps everything in order. *)
Lemma gun_tick_spec t trigger player gi h :
  0 <= t < 2 ^ 62 -> timely t gi -> heap_ok h -> anim_index_ok h gi ->
  wp (gun_tick t trigger player gi) (fun '(fires, gi') h' =>
    heap_ok h' /\ length h' = length h /\ anim_index_ok h' gi' /\ timely t gi' /\ gi_gun gi' = gi_gun gi /\
    (fires = true -> gi_state gi = READY /\ rested t (t + 1) gi') /\
    (fires = false -> forall s, rested s t gi -> rested s (t + 1) gi')) h.
Proof.
  intros Ht Htm Hh [Hi Hc]. unfold gun_tick.
  set (fires := trigger && bool_decide (gi_state gi = READY)).
  set (gi1 := if fires then (spend_ammo gi) <| curr_anim := 1 |> else gi).
  assert (timely t gi1 /\ gi_gun gi1 = gi_gun gi /\ 0 <= curr_anim gi1 <= 1 /\
    gi_state gi1 = gi_state gi /\ (fires = false -> gi1 = gi)) as (Htm1 & Hg1 & Hc1 & Hs1 & Hsame).
  { unfold gi1. destruct fires; [|done]. destruct Htm as [[Hg Ha Hp] Hl].
    split_and!; [|done|done|done|done|done]. split; [|done]. split; cbn; [done| |done].
    destruct Hg. unfold spend_ammo. cbn. lia. }
  wp_step. eapply wp_mono; [apply update_gun_state_ok; [lia|done|by split; [rewrite Hg1|]]|].
  intros gi' h' (Hh' & Hlen & ca & Hca & ->). wp_step.
  set (gi2 := gi1 <| curr_anim := ca |>).
  assert (timely t gi2) as Htm2 by (destruct Htm1 as [[? ? ?] ?]; done).
  destruct (gun_switch_keeps t fires gi2) as [Hkg Hka].
  split_and!; [done|done| |by apply gun_switch_timely|by rewrite Hkg| |].
  - split; [rewrite Hkg; cbn; rewrite Hg1, Hlen; done|]. rewrite Hka. cbn. destruct Hca as [-> | ->]; lia.
  - intros Hf. assert (gi_state gi = READY) as E.
    { unfold fires in Hf. apply andb_prop in Hf as [_ Hf]. by apply bool_decide_eq_true in Hf. }
    split; [done|]. rewrite Hf. apply gun_switch_shot. cbn. by rewrite Hs1.
  - intros Hf s Hr. rewrite Hf. apply gun_switch_rested; [done|done|].
    unfold gi2. rewrite (Hsame Hf). exact Hr.
Qed.

(** C10: rate of fire and ammunition.  Over any sequence of ticks and trigger
    pulls, a gun in hand is always in a defined state (its animation is never
    indexed or divided outside its bounds), keeps its ammunition within one
    packet and its packets within the maximum, and never fires twice within
    the smaller of its cooldown and reload times. *)
Theorem gun_fire_rate triggers t player gi h :
  0 <= t -> t + alen triggers < 2 ^ 62 -> timely t gi -> heap_ok h -> anim_index_ok h gi ->
  wp (gun_run triggers t player gi) (fun '(shots, gi') _ =>
    Sorted (fun s s' => s + gap gi < s') shots /\
    0 <= curr_ammo gi' <= ammo_per_packet (gi_gun gi) /\
    0 <= curr_packets gi' <= max_packets (gi_gun gi)) h.
Proof.
  intros Ht Hlen Htm Hh Hi.
  assert (wp (gun_run triggers t player gi) (fun '(shots, gi') _ =>
    Sorted (fun s s' => s + gap gi < s') shots /\
    (forall s, rested s t gi -> HdRel (fun s s' => s + gap gi < s') s shots) /\
    instance_ok gi' /\ gi_gun gi' = gi_gun gi) h) as H.
  { revert t gi h Ht Hlen Htm Hh Hi. induction triggers as [|trigger triggers IH];
      intros t gi h Ht Hlen Htm Hh Hi; cbn [gun_run].
    { wp_step. split_and!; [constructor|constructor|apply Htm|done]. }
    unfold alen in Hlen. cbn in Hlen.
    wp_step. eapply wp_mono; [apply gun_tick_spec; [lia|done..]|].
    intros [fires gi1] h1 (Hh1 & _ & Hi1 & Htm1 & Hg1 & Hfire & Hidle). wp_step.
    apply (timely_later _ (t + 1)) in Htm1; [|lia].
    eapply wp_mono; [apply IH; [lia|unfold alen; lia|done..]|].
    intros [shots gi2] h2 (Hsort & Hhd & Hok & Hg2). wp_step.
    assert (gap gi1 = gap gi) as Hgap by (unfold gap; by rewrite Hg1). rewrite Hgap in *.
    destruct fires; cbn [app].
    - destruct (Hfire eq_refl) as [Hready Hrest]. split_and!.
      + constructor; [done|]. by apply Hhd.
      + intros s [_ Hs]. rewrite Hready in Hs. by constructor.
      + done.
      + by rewrite Hg2.
    - split_and!; [done| |done|by rewrite Hg2]. intros s Hs. apply Hhd. by apply Hidle. }
  eapply wp_mono; [exact H|]. intros [shots gi'] _ (Hs & _ & [_ Ha Hp] & Hg).
  by rewrite Hg in *.
Qed.

(** ** The guns the game starts with *)

(** The five guns of the game are well formed, with animations that are
    usable from the first tick (frame times are at least 1, so no division by
    zero), and an instance made of one of them starts in the inventory with
    the requested ammunition and packets clamped to the gun's limits; a gun
    index outside the table is an uninitialised gun. *)
Lemma guns_start_well :
  exists guns h, init_guns [] = Done (guns, h) /\ heap_ok h /\ length guns = 5%nat /\
    forall i ammo packets, 0 <= ammo <= INT_MAX -> 0 <= packets <= INT_MAX ->
      if (0 <=? i) && (i <? 5) then
        exists gi g, create_gun_instance guns i ammo packets = Some gi /\ aget guns i = Some g /\
          timely 0 gi /\ anim_index_ok h gi /\ gi_state gi = INVENTORY /\ gi_gun gi = g /\
          curr_ammo gi = Z.min ammo (ammo_per_packet g) /\
          curr_packets gi = Z.min packets (max_packets g)
      else create_gun_instance guns i ammo packets = None.
Proof.
  eexists _, _. split; [vm_compute; reflexivity|]. split.
  { repeat (constructor; [split; [done|repeat constructor; cbn; done]|]). constructor. }
  split; [done|]. intros i ammo packets Hammo Hpackets.
  destruct (Z.leb_spec 0 i), (Z.ltb_spec i 5); cbn [andb].
  - assert (i = 0 \/ i = 1 \/ i = 2 \/ i = 3 \/ i = 4) as Hi by lia.
    unfold INT_MAX in *.
    destruct Hi as [-> | [-> | [-> | [-> | ->]]]]; unfold create_gun_instance, get_gun, aget; cbn;
      eexists _, _; (split; [reflexivity|]); (split; [reflexivity|]);
      repeat split; cbn; try done; repeat break_if; bool_lia; rewrite ?(wrap_small 16) by lia; lia.
  - unfold create_gun_instance, get_gun. destruct (aget _ i) eqn:E; [|done].
    apply aget_Some_range in E. unfold alen in E. cbn in E. lia.
  - unfold create_gun_instance, get_gun. destruct (aget _ i) eqn:E; [|done].
    apply aget_Some_range in E. unfold alen in E. cbn in E. lia.
  - lia.
Qed.

Lemma guns_start_well_at :
  exists guns h, init_guns [] = Done (guns, h) /\
    exists gi, create_gun_instance guns 0 99 9 = Some gi /\ curr_ammo gi = 30 /\ curr_packets gi = 5.
Proof.
  destruct guns_start_well as (guns & h & E & _ & _ & H). exists guns, h. split; [exact E|].
  destruct (H 0 99 9 ltac:(unfold INT_MAX; lia) ltac:(unfold INT_MAX; lia))
    as (gi & g & Hgi & Hg & _ & _ & _ & _ & Ha & Hp).
  exists gi. split; [exact Hgi|]. rewrite Ha, Hp.
  vm_compute in E. injection E as <- <-. injection Hg as <-. split; reflexivity.
Defined.

(** The minigun taken out at tick 1 with the trigger held: it charges, then
    fires every cooldown plus one tick. *)
Definition minigun : gun_instance_t :=
  mk_instance (gun1 <| animations := 0%nat |>) 0 0 30 5 0 INITIAL.
Definition minigun_heap : anim_heap :=
  [[idle_anim rifle1; mk_anim rifle2 2 0 4 FINISHED [rifle2; rifle3; rifle4; rifle1]]].

Lemma gun_fire_rate_witness :
  wp (gun_run (replicate 50 true) 1 true minigun) (fun '(shots, gi') _ =>
    shots = [17; 28; 39; 50] /\ curr_ammo gi' = 26 /\
    Sorted (fun s s' => s + gap minigun < s') shots) minigun_heap.
Proof.
  assert (timely 1 minigun /\ heap_ok minigun_heap /\ anim_index_ok minigun_heap minigun)
    as (Ht & Hh & Hi).
  { split_and!.
    - repeat split; cbn; lia.
    - repeat constructor; cbn; done.
    - repeat split; cbn; lia. }
  pose proof (gun_fire_rate (replicate 50 true) 1 true minigun minigun_heap
    ltac:(lia) ltac:(done) Ht Hh Hi) as H.
  apply (proj1 (wp_Done _ _ _)) in H as ([shots gi'] & h' & E & Hs & _).
  apply (proj2 (wp_Done _ _ _)). exists (shots, gi'), h'. split; [exact E|].
  vm_compute in E. injection E as <- <- _. split_and!; [reflexivity|reflexivity|exact Hs].
Defined.
