(* ===== verification/Controls.v ===== *)
(** * Controls

    The player's input, [src/proj/system/controls/controls.c]: scancodes to
    key states and movement, mouse bytes to packets and cursor motion.  The
    handlers run the interrupt handlers of [Kbc] first. *)

From Stdlib Require Import Floats.SpecFloat.
From S2P Require Import Prelude Hardware Kbc Doubles Utils.

(** ** Constants of [i8042.h] and [kbd_layout.h] *)
Definition KBC_DOUBLE_BYTE : Z := 0xE0.
Definition KBC_BREAK_CODE : Z := BIT 7.
Definition PARSE_BREAK_CODE (x : Z) : Z := Z.land x (Z.lnot KBC_BREAK_CODE).
Definition Q_KEY : Z := 0x10.
Definition W_KEY : Z := 0x11.
Definition A_KEY : Z := 0x1E.
Definition S_KEY : Z := 0x1F.
Definition D_KEY : Z := 0x20.
Definition PT_SHIFT : Z := 0x2A.
Definition PT_CTRL : Z := 0x1D.
Definition PT_1 : Z := 0x02.
Definition PT_0 : Z := 0x0B.

(** ** Data of [controls.h] *)
Record settings_t : Type := mk_settings {
  mouse_sensitivity : double;
  fov : Z;
  mouse_color : Z;
}.

Record kbd_ctrl_state : Type := mk_kbd {
  x_pos : bool; x_neg : bool; y_pos : bool; y_neg : bool;
  sprint : bool; crouch : bool; gun_menu : bool;
  nums_press : list bool;
}.
#[global] Instance eta_kbd : Eta kbd_ctrl_state := fun k =>
  mk_kbd (x_pos k) (x_neg k) (y_pos k) (y_neg k) (sprint k) (crouch k) (gun_menu k) (nums_press k).

Inductive key_state_t : Type := KEY_UP | KEY_DOWN.
#[global] Instance key_state_eq_dec : EqDecision key_state_t.
Proof. solve_decision. Defined.

Record controls_t : Type := mk_controls {
  movement : vector_t;
  kbd_state : kbd_ctrl_state;
  mouse_pos : vector_t;
  mouse_pkt : packet;
  mouse_state : key_state_t;
  mouse_desl : double;
  firing : bool;
  lb_single_tap : bool;
  lb_held_down : bool;
}.
#[global] Instance eta_controls : Eta controls_t := fun c =>
  mk_controls (movement c) (kbd_state c) (mouse_pos c) (mouse_pkt c) (mouse_state c)
    (mouse_desl c) (firing c) (lb_single_tap c) (lb_held_down c).

(** What [memset(..., 0, ...)] leaves. *)
Definition zero_kbd : kbd_ctrl_state :=
  mk_kbd false false false false false false false (replicate 10 false).
Definition zero_packet : packet := mk_packet [0; 0; 0] false false false 0 0 false false.
Definition zero_controls : controls_t :=
  mk_controls vec0 zero_kbd vec0 zero_packet KEY_UP d0 false false false.

Definition dbool (b : bool) : double := dint (b2z b).

(** ** Buttons *)
Definition ms_detect_collision (ms_pos : vector_t) (button_x button_y : Z)
    (button_size : coordinate_t) : bool :=
  dle (vx ms_pos) (dint (button_x + cx button_size)) && dge (vx ms_pos) (dint button_x) &&
  dle (vy ms_pos) (dint (button_y + cy button_size)) && dge (vy ms_pos) (dint button_y).

(** ** Keyboard *)

(** The key table: what a scancode sets. *)
Definition set_key (key : Z) (make : bool) (k : kbd_ctrl_state) : option kbd_ctrl_state :=
  if W_KEY =? key then Some (k <| x_pos := make |>)
  else if S_KEY =? key then Some (k <| x_neg := make |>)
  else if D_KEY =? key then Some (k <| y_pos := make |>)
  else if A_KEY =? key then Some (k <| y_neg := make |>)
  else if PT_SHIFT =? key then Some (k <| sprint := make |>)
  else if PT_CTRL =? key then Some (k <| crouch := make |>)
  else if Q_KEY =? key then Some (k <| gun_menu := make |>)
  else if (PT_1 <=? key) && (key <=? PT_0) then
    match aset (nums_press k) (if key =? PT_0 then 0 else key - 1) make with
    | Some nums => Some (k <| nums_press := nums |>)
    | None => None
    end
  else Some k.

Definition kbd_movement (k : kbd_ctrl_state) : vector_t :=
  mk_vec (dsub (dbool (x_pos k)) (dbool (x_neg k))) (dsub (dbool (y_pos k)) (dbool (y_neg k))).

Definition kbd_parse_data (bytes : list Z) (make : bool) (c : controls_t) : option controls_t :=
  match last bytes with
  | None => None
  | Some b =>
      match set_key (PARSE_BREAK_CODE b) make (kbd_state c) with
      | Some k => Some (c <| kbd_state := k |> <| movement := kbd_movement k |>)
      | None => None
      end
  end.

(** ** State of the file, with the driver's and the player's controls *)
Record input (D : Type) : Type := mk_input {
  in_kbc : kbc D;
  lastDoubleByte : bool;
  ms_data : list Z;
  ms_idx : Z;
  currPkt : packet;
  movm : controls_t;
}.
Arguments mk_input {D}.
Arguments in_kbc {D}.
Arguments lastDoubleByte {D}.
Arguments ms_data {D}.
Arguments ms_idx {D}.
Arguments currPkt {D}.
Arguments movm {D}.
#[global] Instance eta_input {D} : Eta (input D) := fun i =>
  mk_input (in_kbc i) (lastDoubleByte i) (ms_data i) (ms_idx i) (currPkt i) (movm i).

Definition init_settings : settings_t := mk_settings (dlit 2 1000) 66 0x5bfe03.

Section Controls.
Context {D : Type} `{!Device D}.
(** The screen, the settings, and whether the game takes mouse motion
    ([(st == GAME || st == MP_GAME) && gun_menu_state == CLOSED]). *)
Variables (h_res v_res : Z) (settings : settings_t) (in_game : bool).

Definition on_kbc {A} (m : prog (kbc D) A) : prog (input D) A :=
  zoom in_kbc (fun k i => i <| in_kbc := k |>) m.

Definition handle_kbd_evt : prog (input D) unit :=
  on_kbc kbc_ih ;;;
  valid <- gets (fun i => valid_kb_byte (in_kbc i)) ;;
  if (valid : bool) then
    b <- gets (fun i => last_kb_byte (in_kbc i)) ;;
    if b =? KBC_DOUBLE_BYTE then modify (fun i => i <| lastDoubleByte := true |>)
    else
      let make := negb (has_bits b KBC_BREAK_CODE) in
      double_byte <- gets lastDoubleByte ;;
      let bytes := if (double_byte : bool) then [KBC_DOUBLE_BYTE; b] else [b] in
      c <- gets movm ;;
      c <- defined (kbd_parse_data bytes make c) ;;
      modify (fun i => i <| movm := c |> <| lastDoubleByte := false |>)
  else ret tt.

(** [mouse_parse_data()], which reads the static [currPkt]. *)
Definition mouse_move (pkt : packet) (c : controls_t) : controls_t :=
  let x_delta := pkt_delta_x pkt in
  let y_delta := pkt_delta_y pkt in
  if negb (pkt_x_ov pkt) && negb (pkt_y_ov pkt) then
    let x := dadd (vx (mouse_pos c)) (dint x_delta) in
    let c := if dge x (dint 0) && dle x (dint h_res)
             then c <| mouse_pos ::= (fun p => p <| vx := x |>) |> else c in
    let y := dsub (vy (mouse_pos c)) (dint y_delta) in
    if dge y (dint 0) && dle y (dint v_res)
    then c <| mouse_pos ::= (fun p => p <| vy := y |>) |> else c
  else c.
Definition mouse_parse_data (pkt : packet) (c : controls_t) : controls_t :=
  let c := mouse_move pkt c in
  let c := c <| lb_held_down := pkt_lb pkt |> <| mouse_pkt := pkt |> in
  if in_game
  then c <| mouse_desl ::= (fun d => dadd d (dmul (dint (pkt_delta_x pkt)) (mouse_sensitivity settings))) |>
  else c.

(** What [handle_mouse_evt] does with a byte the driver declared valid. *)
Definition mouse_byte (byte : Z) : prog (input D) unit :=
  idx <- gets ms_idx ;;
  if (idx =? 0) && negb (has_bits byte MOUSE_FIRST_BIT) then ret tt else
  (data <- gets ms_data ;;
   data <- defined (aset data idx byte) ;;
   let idx := u8 (idx + 1) in
   modify (fun i => i <| ms_data := data |> <| ms_idx := idx |>) ;;;
   if idx =? 3 then
     match data with
     | [b0; b1; b2] =>
         let pkt := parse_packet b0 b1 b2 in
         modify (fun i => i <| currPkt := pkt |> <| movm ::= mouse_parse_data pkt |>
                            <| ms_idx := 0 |>)
     | _ => undef
     end
   else ret tt).

Definition handle_mouse_evt : prog (input D) unit :=
  on_kbc mouse_ih ;;;
  valid <- gets (fun i => valid_mouse_byte (in_kbc i)) ;;
  if negb valid then modify (fun i => i <| ms_idx := 0 |>)
  else (byte <- gets (fun i => last_mouse_byte (in_kbc i)) ;; mouse_byte byte).
End Controls.

(** ** Keys

    The key a scancode stands for and whether it is a make code. *)
Definition kbd_event (i : list Z) (c : controls_t) : option controls_t :=
  match last i with
  | Some b => kbd_parse_data i (negb (has_bits b KBC_BREAK_CODE)) c
  | None => None
  end.

(** A key is held when its last event was a make code. *)
Fixpoint held (key : Z) (before : bool) (events : list Z) : bool :=
  match events with
  | [] => before
  | b :: events =>
      held key (if PARSE_BREAK_CODE b =? key then negb (has_bits b KBC_BREAK_CODE) else before) events
  end.

(** The ten number keys, in the order of [nums_press]. *)
Definition num_key (i : nat) : Z := if decide (i = 0%nat) then PT_0 else Z.of_nat i + 1.

Record tracks (k0 k : kbd_ctrl_state) (events : list Z) : Prop := mk_tracks {
  tr_w : x_pos k = held W_KEY (x_pos k0) events;
  tr_s : x_neg k = held S_KEY (x_neg k0) events;
  tr_d : y_pos k = held D_KEY (y_pos k0) events;
  tr_a : y_neg k = held A_KEY (y_neg k0) events;
  tr_shift : sprint k = held PT_SHIFT (sprint k0) events;
  tr_ctrl : crouch k = held PT_CTRL (crouch k0) events;
  tr_q : gun_menu k = held Q_KEY (gun_menu k0) events;
  tr_len : length (nums_press k) = 10%nat;
  tr_nums i b : nums_press k0 !! i = Some b -> nums_press k !! i = Some (held (num_key i) b events);
}.

Fixpoint kbd_run (events : list Z) (c : controls_t) : option controls_t :=
  match events with
  | [] => Some c
  | b :: events =>
      match kbd_event [b] c with Some c => kbd_run events c | None => None end
  end.

Lemma set_key_tracks key make k : length (nums_press k) = 10%nat -> 0 <= key ->
  exists k', set_key key make k = Some k' /\
    x_pos k' = (if key =? W_KEY then make else x_pos k) /\
    x_neg k' = (if key =? S_KEY then make else x_neg k) /\
    y_pos k' = (if key =? D_KEY then make else y_pos k) /\
    y_neg k' = (if key =? A_KEY then make else y_neg k) /\
    sprint k' = (if key =? PT_SHIFT then make else sprint k) /\
    crouch k' = (if key =? PT_CTRL then make else crouch k) /\
    gun_menu k' = (if key =? Q_KEY then make else gun_menu k) /\
    length (nums_press k') = 10%nat /\
    forall i b, nums_press k !! i = Some b ->
      nums_press k' !! i = Some (if key =? num_key i then make else b).
Proof.
  intros Hlen Hkey. unfold set_key.
  assert (forall i : nat, (i < 10)%nat -> key <> num_key i \/ (PT_1 <= key <= PT_0)) as Hnk.
  { intros i Hi. unfold num_key, PT_1, PT_0. destruct (decide (i = 0%nat)); lia. }
  assert (~ (PT_1 <= key <= PT_0) -> forall i b, nums_press k !! i = Some b ->
    nums_press k !! i = Some (if key =? num_key i then make else b)) as Hout.
  { intros Hr i b Hi. pose proof (lookup_lt_Some _ _ _ Hi).
    destruct (Z.eqb_spec key (num_key i)); [|done]. destruct (Hnk i ltac:(lia)); lia. }
  rewrite !(Z.eqb_sym _ key).
  repeat match goal with
  | |- context [if key =? ?K then Some _ else _] =>
      destruct (Z.eqb_spec key K) as [E|?];
        [eexists; split; [reflexivity|]; rewrite E; split_and!; try done;
         rewrite <- E; apply Hout; rewrite E; intros [_ HH]; apply HH; reflexivity|]
  end.
  assert (forall K (a b : bool), key <> K -> b = (if key =? K then a else b)) as Hne
    by (intros K a b ?; by destruct (Z.eqb_spec key K)).
  destruct ((PT_1 <=? key) && (key <=? PT_0)) eqn:Er.
  - bool_lia. set (ni := if key =? PT_0 then 0 else key - 1).
    assert (0 <= ni < 10 /\ num_key (Z.to_nat ni) = key) as [Hn Hnum].
    { unfold ni, num_key, PT_0, PT_1 in *. destruct (Z.eqb_spec key 11).
      - rewrite decide_True by done. lia.
      - rewrite decide_False by lia. lia. }
    rewrite aset_Some by (unfold alen; lia).
    eexists. split; [reflexivity|]. cbn. split_and!; try done; try by apply Hne.
    + by rewrite length_insert.
    + intros i b Hi. pose proof (lookup_lt_Some _ _ _ Hi).
      destruct (decide (i = Z.to_nat ni)) as [->|Hi'].
      * rewrite list_lookup_insert_eq by lia. by rewrite Hnum, Z.eqb_refl.
      * rewrite list_lookup_insert_ne by done. rewrite Hi. f_equal. apply Hne.
        intros E. apply Hi'. rewrite E in Hnum. unfold num_key in Hnum.
        unfold ni, PT_0 in *. repeat case_decide; lia.
  - exists k. split; [done|]. split_and!; try done; try by apply Hne.
    apply Hout. intros [? ?]. apply andb_false_iff in Er as [E|E]; apply Z.leb_gt in E; lia.
Qed.

Lemma parse_break_nonneg b : 0 <= b -> 0 <= PARSE_BREAK_CODE b.
Proof. intros. unfold PARSE_BREAK_CODE. apply Z.land_nonneg. by left. Qed.

Lemma movement_axis (a b : bool) : dsub (dbool a) (dbool b) = dint (b2z a - b2z b).
Proof. by destruct a, b. Qed.

Lemma kbd_run_tracks events c :
  Forall (fun b => 0 <= b) events -> length (nums_press (kbd_state c)) = 10%nat ->
  exists c', kbd_run events c = Some c' /\ tracks (kbd_state c) (kbd_state c') events /\
    mouse_pos c' = mouse_pos c /\
    (movement c = kbd_movement (kbd_state c) \/ events <> [] ->
     movement c' = kbd_movement (kbd_state c')).
Proof.
  revert c. induction events as [|b events IH]; intros c Hev Hlen.
  { exists c. split; [done|]. split; [by split|]. split; [done|]. by intros [?|[]]. }
  apply Forall_cons in Hev as [Hb Hev]. cbn [kbd_run].
  unfold kbd_event, kbd_parse_data. cbn [last].
  destruct (set_key_tracks (PARSE_BREAK_CODE b) (negb (has_bits b KBC_BREAK_CODE)) (kbd_state c))
    as (k & -> & Hk); [done|by apply parse_break_nonneg|].
  destruct Hk as (E1 & E2 & E3 & E4 & E5 & E6 & E7 & El & En).
  set (c1 := c <| kbd_state := k |> <| movement := kbd_movement k |>).
  destruct (IH c1 Hev El) as (c' & Hr & [T1 T2 T3 T4 T5 T6 T7 Tl Tn] & Hp & Hm).
  exists c'. split; [done|]. split; [|split; [done|intros _; apply Hm; by left]].
  split; cbn [held].
  1-7: rewrite ?T1, ?T2, ?T3, ?T4, ?T5, ?T6, ?T7; cbn; by rewrite ?E1, ?E2, ?E3, ?E4, ?E5, ?E6, ?E7.
  - done.
  - intros i x Hi. apply Tn. cbn. by rewrite (En i x Hi).
Qed.

(** C12: after any sequence of scancodes every key flag says whether the last
    event of its key was a press (and is unchanged when the key had none),
    for the movement, sprint, crouch, menu and ten number keys; no scancode
    makes the handler write outside [nums_press]; and the movement vector is
    forward minus backward and right minus left, each -1, 0 or 1. *)
Theorem kbd_tracks_keys events c :
  Forall (fun b => 0 <= b < 256) events -> length (nums_press (kbd_state c)) = 10%nat ->
  exists c', kbd_run events c = Some c' /\ tracks (kbd_state c) (kbd_state c') events /\
    (events <> [] ->
     vx (movement c') = dint (b2z (held W_KEY (x_pos (kbd_state c)) events) -
                              b2z (held S_KEY (x_neg (kbd_state c)) events)) /\
     vy (movement c') = dint (b2z (held D_KEY (y_pos (kbd_state c)) events) -
                              b2z (held A_KEY (y_neg (kbd_state c)) events))).
Proof.
  intros Hev Hlen. destruct (kbd_run_tracks events c) as (c' & Hr & Ht & _ & Hm); [|done|].
  { eapply Forall_impl; [exact Hev|]. cbn. lia. }
  exists c'. split; [done|]. split; [done|]. intros Hne. rewrite Hm by auto.
  unfold kbd_movement. cbn [vx vy]. rewrite !movement_axis.
  destruct Ht as [-> -> -> -> _ _ _ _ _]. done.
Qed.

Lemma kbd_tracks_keys_witness :
  exists c', kbd_run [W_KEY; S_KEY; Z.lor W_KEY 0x80; D_KEY] zero_controls = Some c' /\
    movement c' = mk_vec (dint (-1)) (dint 1).
Proof.
  destruct (kbd_tracks_keys [W_KEY; S_KEY; Z.lor W_KEY 0x80; D_KEY] zero_controls)
    as (c' & E & _ & Hm); [repeat constructor; vm_compute; (discriminate || reflexivity)|done|].
  exists c'. split; [exact E|]. destruct (Hm ltac:(done)) as [Hx Hy].
  destruct (movement c') as [x y]. cbn [vx vy] in *. subst. reflexivity.
Defined.

(** ** Mouse *)
Section Mouse.
Context {D : Type} `{!Device D}.
Variables (h_res v_res : Z) (settings : settings_t) (in_game : bool).

(** The cursor is on the screen, and the packet buffer is in order. *)
Definition on_screen (c : controls_t) : Prop :=
  dge (vx (mouse_pos c)) (dint 0) = true /\ dle (vx (mouse_pos c)) (dint h_res) = true /\
  dge (vy (mouse_pos c)) (dint 0) = true /\ dle (vy (mouse_pos c)) (dint v_res) = true.
Definition ms_ok (i : input D) : Prop :=
  0 <= ms_idx i < 3 /\ length (ms_data i) = 3%nat /\ on_screen (movm i) /\
  (0 < ms_idx i -> exists b, ms_data i !! 0%nat = Some b /\ has_bits b MOUSE_FIRST_BIT = true).

Lemma mouse_parse_on_screen pkt c :
  on_screen c -> on_screen (mouse_parse_data h_res v_res settings in_game pkt c).
Proof.
  intros (H1 & H2 & H3 & H4). unfold mouse_parse_data, mouse_move, on_screen.
  destruct in_game; repeat (break_if; cbn in *); bool_lia; cbn; split_and!; done.
Qed.

Lemma mouse_byte_ok byte (i : input D) : ms_ok i ->
  wp (mouse_byte h_res v_res settings in_game byte) (fun _ i' => ms_ok i') i.
Proof.
  intros (Hidx & Hlen & Hscr & Hfirst). unfold mouse_byte. wp_steps.
  destruct ((ms_idx i =? 0) && negb (has_bits byte MOUSE_FIRST_BIT)) eqn:E.
  { wp_steps. done. }
  wp_steps. rewrite aset_Some by (unfold alen; lia). cbn [defined]. wp_steps.
  rewrite (wrap_small 8) by lia.
  set (data := <[Z.to_nat (ms_idx i):=byte]> (ms_data i)).
  assert (length data = 3%nat) as Hl by (unfold data; by rewrite length_insert).
  assert (exists b, data !! 0%nat = Some b /\ has_bits b MOUSE_FIRST_BIT = true) as Hd.
  { unfold data. destruct (Z.eqb_spec (ms_idx i) 0) as [E0|E0].
    - rewrite E0 in *. exists byte. rewrite list_lookup_insert_eq by lia. split; [done|].
      by destruct (has_bits byte MOUSE_FIRST_BIT).
    - rewrite list_lookup_insert_ne by lia. apply Hfirst. lia. }
  destruct (Z.eqb_spec (ms_idx i + 1) 3).
  - destruct data as [|b0 [|b1 [|b2 [|]]]]; try done. wp_steps.
    split_and!; cbn; [lia|lia|done| |lia]. by apply mouse_parse_on_screen.
  - wp_steps. split_and!; cbn; [lia|lia|done|done|]. done.
Qed.

(** The packets in a stream of bytes: skip to a byte with the sync bit, take
    it and the next two. *)
Fixpoint packets (bytes : list Z) : list packet :=
  match bytes with
  | [] => []
  | b0 :: rest =>
      if has_bits b0 MOUSE_FIRST_BIT then
        match rest with
        | b1 :: b2 :: rest => parse_packet b0 b1 b2 :: packets rest
        | _ => []
        end
      else packets rest
  end.

(** One byte at the start of a packet, and the three of a packet. *)
Lemma mouse_byte_skip byte (i : input D) : ms_idx i = 0 -> has_bits byte MOUSE_FIRST_BIT = false ->
  mouse_byte h_res v_res settings in_game byte i = Done (tt, i).
Proof.
  intros H0 Hb. unfold mouse_byte, bind, gets, ret. rewrite H0. cbn. by rewrite Hb.
Qed.

Lemma mouse_bytes_packet b0 b1 b2 (i : input D) (Q : unit -> input D -> Prop) rest :
  ms_idx i = 0 -> length (ms_data i) = 3%nat -> has_bits b0 MOUSE_FIRST_BIT = true ->
  (forall i', ms_idx i' = 0 -> length (ms_data i') = 3%nat ->
     movm i' = mouse_parse_data h_res v_res settings in_game (parse_packet b0 b1 b2) (movm i) ->
     wp (for_each rest (mouse_byte h_res v_res settings in_game)) Q i') ->
  wp (for_each (b0 :: b1 :: b2 :: rest) (mouse_byte h_res v_res settings in_game)) Q i.
Proof.
  intros H0 Hlen Hb Hk. destruct (ms_data i) as [|d0' [|d1 [|d2 [|]]]] eqn:Ed; try done.
  cbn [for_each]. unfold mouse_byte at 1. wp_steps. rewrite H0, Hb. cbn. wp_steps. rewrite Ed. cbn. wp_steps.
  unfold mouse_byte at 1. wp_steps. cbn. wp_steps. unfold mouse_byte at 1. wp_steps. cbn. wp_steps.
  by apply Hk.
Qed.

(** C11: whatever bytes the mouse sends, cursor and view move exactly by the
    packets the stream contains, in order: a packet starts at a byte with the
    sync bit and takes the two that follow, bytes outside packets are
    dropped.  The three-byte buffer is never overrun, and the cursor never
    leaves the screen. *)
Theorem mouse_framing bytes (i : input D) :
  ms_ok i -> ms_idx i = 0 ->
  wp (for_each bytes (mouse_byte h_res v_res settings in_game)) (fun _ i' => ms_ok i' /\
    movm i' = foldl (fun c pkt => mouse_parse_data h_res v_res settings in_game pkt c)
                (movm i) (packets bytes)) i.
Proof.
  intros Hok H0. apply wp_and.
  - apply (wp_for_each _ _ (fun _ i' => ms_ok i')); [|done|done].
    intros b _ i' Hi'. by apply mouse_byte_ok.
  - assert (length (ms_data i) = 3%nat) as Hlen by apply Hok. clear Hok.
    revert i H0 Hlen. induction bytes as [bytes IH] using (well_founded_induction
      (well_founded_ltof _ (@length Z))). intros i H0 Hlen.
    destruct bytes as [|b0 bytes]; [by wp_steps|]. cbn [packets].
    destruct (has_bits b0 MOUSE_FIRST_BIT) eqn:Hb.
    + destruct bytes as [|b1 [|b2 bytes]].
      * destruct (ms_data i) as [|d0' [|d1 [|d2 [|]]]] eqn:Ed; try done.
        cbn [for_each]. unfold mouse_byte. wp_steps. rewrite H0, Hb. cbn. wp_steps. rewrite Ed. cbn. by wp_steps.
      * destruct (ms_data i) as [|d0' [|d1 [|d2 [|]]]] eqn:Ed; try done.
        cbn [for_each]. unfold mouse_byte. wp_steps. rewrite H0, Hb. cbn. wp_steps. rewrite Ed. cbn. wp_steps. cbn.
        by wp_steps.
      * apply mouse_bytes_packet; [done..|]. intros i' H0' Hl' Hm'. cbn [foldl]. rewrite <- Hm'.
        apply IH; [unfold ltof; cbn; lia|done..].
    + cbn [for_each]. unfold wp, bind. rewrite mouse_byte_skip by done.
      apply IH; [unfold ltof; cbn; lia|done..].
Qed.
End Mouse.

(** A state of the input at start-up, cursor in the corner. *)
Definition input_start : input script :=
  mk_input (mk_kbc (scripted []) 1 12 false false 0 0) false [0; 0; 0] 0 zero_packet zero_controls.

Lemma mouse_framing_witness :
  ms_ok 1152 864 input_start /\
  wp (for_each [0; 0x08; 5; 0; 0x02; 0x29; 7; 0xFF] (mouse_byte 1152 864 init_settings true))
    (fun _ i' => mouse_pos (movm i') = mk_vec (dint 12) (dint 1) /\ ms_ok 1152 864 i') input_start.
Proof.
  assert (ms_ok 1152 864 input_start) as Hok.
  { split; [cbn; lia|]. split; [done|]. split; [by split_and!|]. cbn. lia. }
  split; [done|].
  pose proof (mouse_framing 1152 864 init_settings true [0; 0x08; 5; 0; 0x02; 0x29; 7; 0xFF]
    input_start Hok eq_refl) as H.
  apply (proj1 (wp_Done _ _ _)) in H as ([] & i' & E & Hok' & Hm).
  apply (proj2 (wp_Done _ _ _)). exists tt, i'. split; [exact E|]. split; [|exact Hok'].
  rewrite Hm. vm_compute. reflexivity.
Defined.
