(* ===== verification/Players.v ===== *)
(** * Players

    The data of a player and the operations on one player alone,
    [src/proj/system/player/player.c]: construction, the tap detector of the
    mouse button, switching guns, the geometry of a shot, the damage it does,
    and the collision with walls.  What a tick of a player does to the rest of
    the game is in [Battle]. *)

From Stdlib Require Import Floats.SpecFloat.
From S2P Require Import Prelude Kbc Doubles MapFile Utils Sprites Guns Controls.

(** ** Data of [player.h] *)
Inductive player_type_t : Type := PLAYER | NETWORK_PLAYER | BOT.
#[global] Instance player_type_eq_dec : EqDecision player_type_t.
Proof. solve_decision. Defined.

(** [player_info_t].  The blocks behind [guns] and [sprites] are held by
    value, [[]] for a null pointer; the three speeds, which nothing reads, are
    left out. *)
Record player_info_t : Type := mk_player {
  p_movm : controls_t;
  position : vector_t;
  direction : vector_t;
  camera_plane : vector_t;
  p_radius : double;
  health : Z;
  max_health : Z;
  armor : Z;
  max_armor : Z;
  guns : list gun_instance_t;
  gun_index : Z;
  inventory_size : Z;
  p_curr_anim : Z;
  p_num_anims : Z;
  p_type : player_type_t;
  should_render : bool;
  sprites : list (list (animated_sprite slot));
}.
#[global] Instance eta_player : Eta player_info_t := fun p =>
  mk_player (p_movm p) (position p) (direction p) (camera_plane p) (p_radius p) (health p)
    (max_health p) (armor p) (max_armor p) (guns p) (gun_index p) (inventory_size p)
    (p_curr_anim p) (p_num_anims p) (p_type p) (should_render p) (sprites p).

(** What [memset(ptr, 0, sizeof(player_info_t))] leaves. *)
Definition zero_player : player_info_t :=
  mk_player zero_controls vec0 vec0 vec0 d0 0 0 0 0 [] 0 0 0 0 PLAYER false [].

Definition PLAYER_SPEED : double := dlit 5 100.
Definition STRAFE_SPEED : double := dlit 25 1000.

(** ** Construction *)
Definition anim_of (frames_per_sprite : Z) (frames : list slot) (first : slot) : animated_sprite slot :=
  mk_anim first frames_per_sprite 0 (alen frames) FINISHED frames.

(** The six animations, each in eight directions.  The crouch frames are
    shared by the walk and run animations. *)
Definition init_player_anims (p : player_info_t) : player_info_t :=
  let views f := f <$> seqZ 0 8 in
  let idle := views (fun i => anim_of 1 [playe i] (playe i)) in
  let crouch := views (fun i => anim_of 20 [playa i; playb i; playc i; playd i] (playa i)) in
  let walk := (fun a => a <| frames_per_sprite := 10 |>) <$> crouch in
  let run := (fun a => a <| frames_per_sprite := 5 |>) <$> crouch in
  let fire := views (fun i => anim_of 5 [playe i; playf i; playe i] (playe i)) in
  let death := views (fun _ => anim_of 5 (dead <$> seqZ 0 8) (dead 0)) in
  p <| sprites := [idle; crouch; walk; run; fire; death] |> <| p_num_anims := 6 |>
    <| p_curr_anim := 0 |>.

Section Players.
Context {LM : Libm}.

(** [init_player(...)]: the struct it leaves, and [*direction] normalised.
    [guns_block] says whether [malloc] gave the block for the guns; without it
    the rest is skipped (and the player is not counted).  [None] where the code
    reads or writes outside an array. *)
Definition init_player (fov : Z) (guns_block : bool) (type : player_type_t) (pos dir : vector_t)
    (radius : double) (hp max_hp arm max_arm : Z) (instances : list gun_instance_t)
    (num_guns : Z) : option (player_info_t * vector_t * bool) :=
  let dir := normalize dir in
  let p := zero_player <| p_type := type |> <| health := hp |> <| max_health := max_hp |>
             <| armor := arm |> <| max_armor := max_arm |> <| inventory_size := num_guns |>
             <| position := pos |> <| direction := dir |> <| p_radius := radius |>
             <| gun_index := 0 |> <| should_render := true |>
             <| p_movm := zero_controls <| mouse_state := KEY_UP |> |> in
  if negb guns_block then Some (p, dir, false) else
  if alen instances <? num_guns then None else
  match take (Z.to_nat num_guns) instances with
  | [] => None
  | gi :: rest =>
      let gi := gi <| gi_state := INITIAL |> in
      let gi := if decide (type = BOT)
                then gi <| gi_gun ::= (fun g => g <| cooldown_time := 30 |> <| g_range := dint 5 |>) |>
                else gi in
      let p := p <| guns := gi :: rest |> in
      if decide (type = PLAYER) then
        let factor := dtan (ddiv (dmul (dint fov) M_PI) (dint 360)) in
        Some (p <| camera_plane := mk_vec (dmul (dneg (vy dir)) factor) (dmul (vx dir) factor) |>,
              dir, false)
      else Some (init_player_anims p, dir, true)
  end.

Definition init_player_ctrls (p : player_info_t) : player_info_t := p <| p_movm := zero_controls |>.
Definition reset_player_mouse_movm (p : player_info_t) : player_info_t :=
  p <| p_movm ::= (fun c => c <| mouse_desl := dint 0 |>) |>.

(** ** Controls and guns *)
Definition update_player_controls (p : player_info_t) : player_info_t :=
  p <| p_movm ::= (fun c =>
    let lb := pkt_lb (mouse_pkt c) in
    let c := c <| lb_held_down := lb |> in
    match mouse_state c with
    | KEY_UP => if lb then c <| lb_single_tap := true |> <| mouse_state := KEY_DOWN |> else c
    | KEY_DOWN =>
        let c := c <| lb_single_tap := false |> in
        if negb lb then c <| mouse_state := KEY_UP |> else c
    end) |>.

(** The gun in hand, [ply->guns[ply->gun_index]]. *)
Definition gun_in_hand (p : player_info_t) : option gun_instance_t := aget (guns p) (gun_index p).
Definition set_gun_in_hand (gi : gun_instance_t) (p : player_info_t) : option player_info_t :=
  match aset (guns p) (gun_index p) gi with
  | Some gs => Some (p <| guns := gs |>)
  | None => None
  end.

Definition switch_gun (index : Z) (p : player_info_t) : option player_info_t :=
  if gun_index p =? index then Some p else
  match gun_in_hand p with
  | None => None
  | Some gi =>
      match set_gun_in_hand (gi <| gi_state := INVENTORY |>) p with
      | None => None
      | Some p =>
          let p := p <| gun_index := index |> in
          match gun_in_hand p with
          | None => None
          | Some gi => set_gun_in_hand (gi <| gi_state := INITIAL |>) p
          end
      end
  end.

(** [for(i = 1; i <= 3; i++) if(nums[i]) ...] of [player_int_ih]. *)
Fixpoint press_number (nums_left : list Z) (p : player_info_t) : option player_info_t :=
  match nums_left with
  | [] => Some p
  | i :: nums_left =>
      let nums := nums_press (kbd_state (p_movm p)) in
      match aget nums i, aset nums i false with
      | Some true, Some nums =>
          switch_gun (i - 1)
            (p <| p_movm ::= (fun c => c <| kbd_state ::= (fun k => k <| nums_press := nums |>) |>) |>)
      | Some false, _ => press_number nums_left p
      | _, _ => None
      end
  end.

(** ** Shots *)

(** [hit_player(&dist, p1, p2)] *)
Definition hit_player (p1 p2 : player_info_t) : bool * double :=
  let player_dir := mk_vec (dsub (vx (position p2)) (vx (position p1)))
                           (dsub (vy (position p2)) (vy (position p1))) in
  let tang_dir := normalize (mk_vec (dneg (vy player_dir)) (vx player_dir)) in
  let tangent_hit_left := mk_vec (dsub (vx (position p2)) (dmul (vx tang_dir) (p_radius p2)))
                                 (dsub (vy (position p2)) (dmul (vy tang_dir) (p_radius p2))) in
  let left_max := mk_vec (dsub (vx tangent_hit_left) (vx (position p1)))
                         (dsub (vy tangent_hit_left) (vy (position p1))) in
  let max_ang := degree left_max player_dir in
  let ray_ang := degree (direction p1) player_dir in
  (dle (abs_double ray_ang) max_ang, vec_mag player_dir).

(** The body of [if(hit)] in [fire]: half of the damage goes to the armor,
    what it cannot take to the health. *)
Definition take_damage (gun_damage : Z) (t : player_info_t) : option player_info_t :=
  let damage := dint gun_damage in
  let hurt damage t :=
    match dto_int (dsub (dint (health t)) damage) with
    | Some h => Some (t <| health := if h <? 0 then 0 else h |>)
    | None => None
    end in
  if 0 <? armor t then
    match dto_int (dsub (dint (armor t)) (dmul (dlit 5 10) damage)) with
    | Some a =>
        if a <? 0 then hurt (dint (- a)) (t <| armor := 0 |>)
        else Some (t <| armor := a |>)
    | None => None
    end
  else hurt damage t.

(** ** Walls *)

(** The cells next to a coordinate, cut at the borders: the [start_coord] and
    [end_coord] of the collision code, on one axis of size [size]. *)
Definition neighbours (c : double) (size : Z) : option (list Z) :=
  match dto_int c with
  | None => None
  | Some i =>
      if (INT_MIN <? i) && (i <? INT_MAX) then
        let s := if i - 1 <? 0 then 0 else i - 1 in
        let e := if i32 size <=? i + 1 then i32 (u32 (size - 1)) else i + 1 in
        Some (seqZ s (e - s + 1))
      else None
  end.
(** The loop [for x, for y] over them. *)
Definition cells_around (c : vector_t) (width height : Z) : option (list (Z * Z)) :=
  match neighbours (vx c) width, neighbours (vy c) height with
  | Some xs, Some ys => Some (x ← xs; y ← ys; [(x, y)])
  | _, _ => None
  end.

(** One cell of the loop: the collider after it. *)
Definition wall_push (m : map_t) (cell : Z * Z) (collider : circle_t) : option circle_t :=
  let '(x, y) := cell in
  match map_at m y x with
  | None => None
  | Some v =>
      if v <=? 0 then Some collider else
      let distances := circle_rect_distance collider (mk_rect (mk_vec (dint x) (dint y)) 1 1) in
      let squared_distance := vec_mag_squared distances in
      let squared_radius := dmul (radius collider) (radius collider) in
      if dge squared_distance squared_radius then Some collider else
      let factor := dsqrt (ddiv squared_radius squared_distance) in
      if deq squared_distance (dint 0) then
        match dto_int (dadd (vx (center collider)) (dint 1)),
              dto_int (dadd (vy (center collider)) (dint 1)) with
        | Some x, Some y => Some (collider <| center := mk_vec (dint x) (dint y) |>)
        | _, _ => None
        end
      else
        Some (collider <| center := mk_vec
          (dadd (vx (center collider)) (dsub (vx distances) (dmul factor (vx distances))))
          (dadd (vy (center collider)) (dsub (vy distances) (dmul factor (vy distances)))) |>)
  end.

Fixpoint wall_loop (m : map_t) (cells : list (Z * Z)) (collider : circle_t) : option circle_t :=
  match cells with
  | [] => Some collider
  | c :: cells =>
      match wall_push m c collider with
      | Some collider => wall_loop m cells collider
      | None => None
      end
  end.

Definition player_wall_collision (m : map_t) (p : player_info_t) (new_pos : vector_t) :
    option vector_t :=
  match cells_around new_pos (columns m) (lines m) with
  | None => None
  | Some cells =>
      if dlt (vx new_pos) (dint 0) || dlt (vy new_pos) (dint 0) ||
         dge (vy new_pos) (dint (lines m)) || dge (vx new_pos) (dint (columns m))
      then Some new_pos
      else
        match wall_loop m cells (mk_circle new_pos (p_radius p)) with
        | Some collider => Some (center collider)
        | None => None
        end
  end.
End Players.

(** ** The tap detector *)

(** The ticks of a player while the button is reported as [lbs]: whether each
    tick sees a tap, and whether it sees the button held. *)
Fixpoint tap_run (lbs : list bool) (p : player_info_t) : list (bool * bool) :=
  match lbs with
  | [] => []
  | lb :: lbs =>
      let p := p <| p_movm ::= (fun c => c <| mouse_pkt ::= (fun k => k <| pkt_lb := lb |>) |>) |> in
      let p := update_player_controls p in
      (lb_single_tap (p_movm p), lb_held_down (p_movm p)) :: tap_run lbs p
  end.

(** The state of the machine is the last report. *)
Lemma tap_run_edges (prev : bool) lbs p :
  mouse_state (p_movm p) = (if prev then KEY_DOWN else KEY_UP) ->
  (prev = false -> lb_single_tap (p_movm p) = false) ->
  tap_run lbs p = zip_with (fun before now => (now && negb before, now)) (prev :: lbs) lbs.
Proof.
  revert prev p. induction lbs as [|lb lbs IH]; intros prev p Hs Ht; [done|].
  cbn [tap_run zip_with]. f_equal; [|apply IH].
  all: unfold update_player_controls; cbn; rewrite Hs; destruct prev, lb; cbn; try done.
  by rewrite Ht.
Qed.

(** The tap detector of [update_player_controls] reports a single tap at
    exactly the ticks where the left button is down and was up at the tick
    before (the rising edges), however long the button is held, and reports it
    held at exactly the ticks where it is down. *)
Lemma single_tap_edges lbs p :
  mouse_state (p_movm p) = KEY_UP -> lb_single_tap (p_movm p) = false ->
  tap_run lbs p = zip_with (fun before now => (now && negb before, now)) (false :: lbs) lbs.
Proof. intros. by apply tap_run_edges. Qed.

Lemma single_tap_edges_at :
  tap_run [true; true; false; true] zero_player =
  [(true, true); (false, true); (false, false); (true, true)].
Proof. rewrite single_tap_edges; reflexivity. Defined.

(** ** Guns in the inventory *)

(** Every gun but the one in hand is put away. *)
Definition holstered (p : player_info_t) : Prop :=
  forall i gi, guns p !! i = Some gi -> Z.of_nat i <> gun_index p -> gi_state gi = INVENTORY.

Lemma gun_in_hand_Some p : 0 <= gun_index p < alen (guns p) -> exists gi, gun_in_hand p = Some gi.
Proof. intros H. by apply aget_is_Some. Qed.
Lemma set_gun_in_hand_Some gi p : 0 <= gun_index p < alen (guns p) ->
  set_gun_in_hand gi p = Some (p <| guns := <[Z.to_nat (gun_index p) := gi]> (guns p) |>).
Proof. intros H. unfold set_gun_in_hand. by rewrite aset_Some. Qed.

Lemma switch_gun_spec index p :
  0 <= gun_index p < alen (guns p) -> 0 <= index < alen (guns p) -> holstered p ->
  exists p', switch_gun index p = Some p' /\ gun_index p' = index /\ holstered p' /\
    p_movm p' = p_movm p /\ alen (guns p') = alen (guns p) /\
    (index = gun_index p -> p' = p) /\
    (index <> gun_index p -> exists gi, aget (guns p) index = Some gi /\
       gun_in_hand p' = Some (gi <| gi_state := INITIAL |>)).
Proof.
  intros Hc Hi Hh. unfold switch_gun. destruct (Z.eqb_spec (gun_index p) index) as [E|Hne].
  { exists p. by subst. }
  destruct (gun_in_hand_Some p Hc) as [old ->]. rewrite set_gun_in_hand_Some by done. cbn.
  set (g1 := <[Z.to_nat (gun_index p) := _]> (guns p)).
  assert (alen g1 = alen (guns p)) as Hl by (unfold alen, g1; by rewrite length_insert).
  unfold gun_in_hand; cbn. destruct (proj2 (aget_is_Some g1 index) ltac:(lia)) as [gi Hgi].
  rewrite Hgi. rewrite set_gun_in_hand_Some by (cbn; lia). cbn.
  assert (aget (guns p) index = Some gi) as Hgi'.
  { unfold aget in *. destruct (Z.ltb_spec index 0); [lia|].
    unfold g1 in Hgi. rewrite list_lookup_insert_ne in Hgi by lia. done. }
  unfold alen in *. eexists. split; [reflexivity|]. split_and!; cbn; try done.
  - intros i g Hg Hni. cbn in *.
    rewrite list_lookup_insert_ne in Hg by lia. unfold g1 in Hg.
    destruct (decide (i = Z.to_nat (gun_index p))) as [->|Hi'].
    + rewrite list_lookup_insert_eq in Hg by lia. by injection Hg as <-.
    + rewrite list_lookup_insert_ne in Hg by done. apply (Hh i); [done|lia].
  - rewrite length_insert. lia.
  - intros _. exists gi. split; [done|]. unfold aget.
    destruct (Z.ltb_spec index 0); [lia|]. by rewrite list_lookup_insert_eq by lia.
Qed.

(** The lowest of the keys that is down. *)
Definition first_pressed (nums : list bool) (keys : list Z) : option Z :=
  match list_find (fun k => aget nums k = Some true) keys with Some (_, k) => Some k | None => None end.

Lemma press_number_spec keys p (nums := nums_press (kbd_state (p_movm p))) :
  Forall (fun k => 0 <= k < alen nums) keys ->
  press_number keys p =
  match first_pressed nums keys with
  | None => Some p
  | Some k =>
      switch_gun (k - 1)
        (p <| p_movm ::= (fun c => c <| kbd_state ::= (fun s => s <| nums_press := <[Z.to_nat k := false]> nums |>) |>) |>)
  end.
Proof.
  induction keys as [|k keys IH]; intros Hk; [done|]. apply Forall_cons in Hk as [Hk Hks].
  cbn [press_number]. fold nums. unfold first_pressed. cbn [list_find].
  destruct (proj2 (aget_is_Some nums k) Hk) as [b Hb]. rewrite Hb, aset_Some by done.
  destruct b.
  - by rewrite decide_True by done.
  - rewrite decide_False by done. rewrite IH by done. unfold first_pressed.
    by destruct (list_find _ keys) as [[? ?]|].
Qed.

(** The number keys select guns: of the keys 1 to 3 the lowest one that is
    down wins; its flag is consumed, the gun in hand is put away
    ([INVENTORY]) and the gun of that number comes out in state [INITIAL],
    unless it already was in hand, in which case no gun changes.  Afterwards
    every gun but the one in hand is put away. *)
Lemma number_keys_select p (nums := nums_press (kbd_state (p_movm p))) :
  length nums = 10%nat -> 3 <= alen (guns p) -> 0 <= gun_index p < alen (guns p) -> holstered p ->
  exists p', press_number [1; 2; 3] p = Some p' /\ holstered p' /\
    match first_pressed nums [1; 2; 3] with
    | None => p' = p
    | Some k =>
        gun_index p' = k - 1 /\
        nums_press (kbd_state (p_movm p')) = <[Z.to_nat k := false]> nums /\
        (gun_index p = k - 1 -> guns p' = guns p) /\
        (gun_index p <> k - 1 -> exists gi, aget (guns p) (k - 1) = Some gi /\
           gun_in_hand p' = Some (gi <| gi_state := INITIAL |>))
    end.
Proof.
  intros Hn Hg Hi Hh. rewrite press_number_spec by (repeat constructor; unfold alen; fold nums; lia).
  fold nums. unfold first_pressed. destruct (list_find _ _) as [[i k]|] eqn:E; [|by exists p].
  apply list_find_Some in E as (Hk & _).
  assert (1 <= k <= 3) as Hk'.
  { apply list_elem_of_lookup_2 in Hk. set_unfold in Hk. lia. }
  edestruct (switch_gun_spec (k - 1)) as (p' & -> & Hp' & Hh' & Hm & _ & Hs & Hd);
    [| | |exists p'; split; [done|]; split; [done|]; split; [done|]; split; [by rewrite Hm|]; split].
  - done.
  - cbn. lia.
  - done.
  - intros Eq. by rewrite Hs.
  - intros Ne. destruct (Hd ltac:(cbn; lia)) as (gi & Hgi & ?). by exists gi.
Qed.

Lemma number_keys_select_at :
  exists gs : list gun_instance_t,
  let p := zero_player <| guns := gs |> <| p_movm ::= (fun c => c <| kbd_state ::= (fun k =>
             k <| nums_press := <[2%nat := true]> (nums_press k) |>) |>) |> in
  first_pressed (nums_press (kbd_state (p_movm p))) [1; 2; 3] = Some 2 /\
  exists p', press_number [1; 2; 3] p = Some p' /\ gun_index p' = 1.
Proof.
  exists ((fun g => mk_instance g 0 0 10 1 0 INVENTORY) <$> [gun1; gun2; gun3]).
  match goal with |- let p := ?q in _ => set (p := q) end. cbv zeta.
  destruct (number_keys_select p) as (p' & Hp & _ & H).
  - reflexivity.
  - vm_compute; discriminate.
  - vm_compute; split; [discriminate|reflexivity].
  - intros i gi Hgi _. apply list_lookup_fmap_Some in Hgi as (g & -> & _). reflexivity.
  - split; [vm_compute; reflexivity|]. exists p'. split; [exact Hp|]. exact (proj1 H).
Defined.

(** ** Damage *)

(** The two subtractions of doubles, on the values the game uses. *)
Definition gives (x : option Z) (r : Z) : bool := match x with Some v => v =? r | None => false end.
Lemma gives_Some x r : gives x r = true -> x = Some r.
Proof. destruct x as [v|]; [|done]. cbn. by intros ->%Z.eqb_eq. Qed.

Lemma half_damage_exact a d : 0 <= a < 256 -> 0 <= d < 256 ->
  dto_int (dsub (dint a) (dmul (dlit 5 10) (dint d))) = Some (Z.quot (2 * a - d) 2).
Proof.
  intros Ha Hd. apply gives_Some. revert a d Ha Hd.
  apply (forall_bytes dint (fun d => dmul (dlit 5 10) (dint d)) (fun a d x y => gives (dto_int (dsub x y)) (Z.quot (2 * a - d) 2))).
  vm_compute. reflexivity.
Qed.

Lemma full_damage_exact h d : 0 <= h < 256 -> 0 <= d < 256 ->
  dto_int (dsub (dint h) (dint d)) = Some (h - d).
Proof.
  intros Hh Hd. apply gives_Some. revert h d Hh Hd.
  apply (forall_bytes dint dint (fun h d x y => gives (dto_int (dsub x y)) (h - d))). vm_compute. reflexivity.
Qed.

(** A player whose health and armor are within their limits. *)
Record healthy (p : player_info_t) : Prop := mk_healthy {
  hl_health : 0 <= health p <= max_health p;
  hl_armor : 0 <= armor p <= max_armor p;
  hl_max_health : max_health p < 256;
  hl_max_armor : max_armor p < 256;
}.

(** The damage in integers. *)
Definition damaged (d : Z) (t : player_info_t) : player_info_t :=
  let a := Z.quot (2 * armor t - d) 2 in
  if armor t =? 0 then t <| health := Z.max 0 (health t - d) |>
  else if a <? 0 then t <| armor := 0 |> <| health := Z.max 0 (health t + a) |>
  else t <| armor := a |>.

Lemma half_bounds x :
  2 * Z.quot x 2 <= Z.max 0 (x + 1) /\ Z.min 0 (x - 1) <= 2 * Z.quot x 2 /\
  (0 <= x -> 0 <= Z.quot x 2 <= x) /\ (x <= 0 -> x <= Z.quot x 2 <= 0).
Proof. Z.to_euclidean_division_equations. lia. Qed.

Lemma take_damage_spec d t : 0 <= d < 256 -> healthy t -> take_damage d t = Some (damaged d t).
Proof.
  intros Hd [Hh Ha ? ?]. unfold take_damage, damaged.
  assert (forall h x, 0 <= h < 256 -> 0 <= x < 256 ->
    match dto_int (dsub (dint h) (dint x)) with
    | Some r => Some (if r <? 0 then 0 else r) | None => None end = Some (Z.max 0 (h - x))) as Hsub.
  { intros h x Hh' Hx. rewrite full_damage_exact by done.
    destruct (Z.ltb_spec (h - x) 0); f_equal; lia. }
  destruct (Z.ltb_spec 0 (armor t)), (Z.eqb_spec (armor t) 0); try lia.
  - rewrite half_damage_exact by lia. pose proof (half_bounds (2 * armor t - d)).
    set (a := Z.quot _ 2) in *.
    destruct (Z.ltb_spec a 0); [|done]. cbn.
    assert (0 <= - a < 256) by lia.
    specialize (Hsub (health t) (- a) ltac:(lia) ltac:(lia)).
    rewrite full_damage_exact in * by lia. injection Hsub as ->.
    by replace (health t - - a) with (health t + a) by lia.
  - specialize (Hsub (health t) d ltac:(lia) ltac:(lia)).
    rewrite full_damage_exact in * by lia. by injection Hsub as ->.
Qed.

Lemma damaged_healthy d t : 0 <= d -> healthy t ->
  healthy (damaged d t) /\ health (damaged d t) <= health t /\ armor (damaged d t) <= armor t.
Proof.
  intros Hd [Hh Ha ? ?]. unfold damaged.
  destruct (Z.eqb_spec (armor t) 0); [cbn; split; [split; cbn; lia|lia]|].
  pose proof (half_bounds (2 * armor t - d)).
  destruct (Z.ltb_spec (Z.quot (2 * armor t - d) 2) 0); cbn; split; try (split; cbn); lia.
Qed.

(** C22: a hit of [d] points on a player whose health and armor are within
    their limits (at most 255, as everywhere in the game) runs without an
    undefined conversion and, in the code's double arithmetic, does exactly
    this: without armor the health falls by [d], down to 0; with armor [a] the
    armor takes half of the damage, rounded towards zero, and if it cannot,
    the armor is gone and the missing part comes off the health.  Neither ever
    grows or leaves its limits. *)
Theorem take_damage_exact d t : 0 <= d < 256 -> healthy t ->
  exists t', take_damage d t = Some t' /\ healthy t' /\
    health t' <= health t /\ armor t' <= armor t /\
    (armor t = 0 -> armor t' = 0 /\ health t' = Z.max 0 (health t - d)) /\
    (0 < armor t -> let a := Z.quot (2 * armor t - d) 2 in
       (0 <= a -> armor t' = a /\ health t' = health t) /\
       (a < 0 -> armor t' = 0 /\ health t' = Z.max 0 (health t + a))).
Proof.
  intros Hd Ht. exists (damaged d t). rewrite take_damage_spec by done. split; [done|].
  destruct (damaged_healthy d t) as (Hh & ? & ?); [lia|done|]. split_and!; [done..| |].
  - intros E. unfold damaged. rewrite E. done.
  - intros Ha a. unfold damaged. fold a. destruct (Z.eqb_spec (armor t) 0); [lia|].
    destruct (Z.ltb_spec a 0); split; intros; try lia; done.
Qed.

Lemma take_damage_exact_witness :
  let t := zero_player <| health := 50 |> <| max_health := 100 |>
             <| armor := 20 |> <| max_armor := 100 |> in
  exists t', take_damage 60 t = Some t' /\ armor t' = 0 /\ health t' = 40.
Proof.
  destruct (take_damage_exact 60 (zero_player <| health := 50 |> <| max_health := 100 |>
             <| armor := 20 |> <| max_armor := 100 |>)) as (t' & H & _ & _ & _ & _ & Ha).
  - lia.
  - split; cbn; lia.
  - exists t'. split; [exact H|]. apply Ha; reflexivity.
Defined.

(** ** Walls *)

(** The cells the collision code looks at, on one axis. *)
Lemma neighbours_spec c size : 0 <= size < 2 ^ 31 -> forall l, neighbours c size = Some l ->
  exists i, dto_int c = Some i /\ forall x, x ∈ l <-> i - 1 <= x <= i + 1 /\ 0 <= x < size.
Proof.
  intros Hs l. unfold neighbours. destruct (dto_int c) as [i|]; [|done].
  destruct (_ && _) eqn:E; [|done]. bool_lia. intros [= <-]. exists i. split; [done|]. intros x.
  unfold INT_MIN, INT_MAX in *. rewrite elem_of_seqZ, (swrap_small 32 size) by lia.
  assert (0 < size -> i32 (u32 (size - 1)) = size - 1) as Hlast.
  { intros. rewrite wrap_small, swrap_small by lia. done. }
  assert (size = 0 -> i32 (u32 (size - 1)) = -1) by by intros ->.
  destruct (Z.ltb_spec (i - 1) 0), (Z.leb_spec size (i + 1)), (Z.eq_dec size 0);
    try rewrite Hlast by lia; lia.
Qed.

Lemma cells_around_spec c w h cells : 0 <= w < 2 ^ 31 -> 0 <= h < 2 ^ 31 ->
  cells_around c w h = Some cells ->
  exists i j, dto_int (vx c) = Some i /\ dto_int (vy c) = Some j /\
    forall x y, (x, y) ∈ cells <->
      (i - 1 <= x <= i + 1 /\ 0 <= x < w) /\ (j - 1 <= y <= j + 1 /\ 0 <= y < h).
Proof.
  intros Hw Hh. unfold cells_around.
  destruct (neighbours (vx c) w) as [xs|] eqn:Ex; [|done].
  destruct (neighbours (vy c) h) as [ys|] eqn:Ey; [|done]. intros [= <-].
  destruct (neighbours_spec _ _ Hw _ Ex) as (i & Hi & Hxs).
  destruct (neighbours_spec _ _ Hh _ Ey) as (j & Hj & Hys).
  exists i, j. split; [done|]. split; [done|]. intros x y. rewrite <- Hxs, <- Hys.
  rewrite list_elem_of_bind. split.
  - intros (x' & Hx & Hx'). apply list_elem_of_bind in Hx as (y' & Hy & Hy').
    apply list_elem_of_singleton in Hy as [= -> ->]. done.
  - intros [Hx Hy]. exists x. split; [|done]. apply list_elem_of_bind.
    exists y. by rewrite list_elem_of_singleton.
Qed.

Lemma neighbours_length c size l : 0 <= size < 2 ^ 31 -> neighbours c size = Some l ->
  (length l <= 3)%nat.
Proof.
  intros Hs. unfold neighbours. destruct (dto_int c) as [i|]; [|done].
  destruct (_ && _); [|done]. intros [= <-]. rewrite length_seqZ.
  assert (0 < size -> i32 (u32 (size - 1)) = size - 1) as Hlast.
  { intros. rewrite wrap_small, swrap_small by lia. done. }
  assert (size = 0 -> i32 (u32 (size - 1)) = -1) by by intros ->.
  rewrite (swrap_small 32 size) by lia.
  destruct (Z.ltb_spec (i - 1) 0), (Z.leb_spec size (i + 1)), (Z.eq_dec size 0);
    try rewrite Hlast by lia; lia.
Qed.

Lemma cells_around_length c w h cells : 0 <= w < 2 ^ 31 -> 0 <= h < 2 ^ 31 ->
  cells_around c w h = Some cells -> alen cells <= 9.
Proof.
  intros Hw Hh. unfold cells_around.
  destruct (neighbours (vx c) w) as [xs|] eqn:Ex; [|done].
  destruct (neighbours (vy c) h) as [ys|] eqn:Ey; [|done]. intros [= <-].
  apply neighbours_length in Ex, Ey; [|done..]. unfold alen.
  assert (forall xs : list Z, length (x ← xs; y ← ys; [(x, y)]) = (length xs * length ys)%nat) as ->; [|nia].
  clear. intros xs. induction xs as [|x xs IH]; [done|]. cbn. rewrite length_app, IH. f_equal.
  clear. induction ys as [|y ys IH]; [done|]. cbn. by f_equal.
Qed.

Section Walls.
Context {LM : Libm}.

(** The circle of a player at [pos] overlaps the wall in cell [c]. *)
Definition overlaps (m : map_t) (collider : circle_t) (c : Z * Z) : bool :=
  match map_at m c.2 c.1 with
  | Some v => (0 <? v) &&
      negb (dge (vec_mag_squared (circle_rect_distance collider
                   (mk_rect (mk_vec (dint c.1) (dint c.2)) 1 1)))
                (dmul (radius collider) (radius collider)))
  | None => false
  end.

Lemma wall_loop_clear m cells collider :
  Forall (fun c => is_Some (map_at m c.2 c.1)) cells ->
  existsb (overlaps m collider) cells = false -> wall_loop m cells collider = Some collider.
Proof.
  induction 1 as [|[x y] cells [v Hv] _ IH]; [done|]. cbn [wall_loop wall_push existsb].
  unfold overlaps at 1. cbn in *. rewrite Hv. intros [Hc Hr]%orb_false_iff.
  destruct (Z.leb_spec v 0), (Z.ltb_spec 0 v); try lia; [by apply IH|].
  cbn in Hc. apply negb_false_iff in Hc. rewrite Hc. by apply IH.
Qed.

(** On the map, as the guard of the collision code tests it. *)
Definition on_map (m : map_t) (pos : vector_t) : bool :=
  negb (dlt (vx pos) (dint 0) || dlt (vy pos) (dint 0) ||
        dge (vy pos) (dint (lines m)) || dge (vx pos) (dint (columns m))).

(** C23: when the new position is within an [int], the wall collision looks at the at most nine cells around the new
    position that lie on the map, so it never reads outside the matrix, and it
    changes a position only to get a player out of a wall: a position off the
    map comes back as it is, and so does one whose circle overlaps none of
    those wall cells. *)
Theorem wall_collision_clear m p new_pos cells : map_ok m ->
  cells_around new_pos (columns m) (lines m) = Some cells ->
  Forall (fun c => inside m (mk_coord c.1 c.2)) cells /\
  (player_wall_collision m p new_pos <> Some new_pos ->
   on_map m new_pos = true /\ existsb (overlaps m (mk_circle new_pos (p_radius p))) cells = true).
Proof.
  intros (Hl & Hc & Hm) Hcells.
  destruct (cells_around_spec new_pos (columns m) (lines m) cells) as (i & j & _ & _ & Hin); [lia..|done|].
  assert (Forall (fun c => inside m (mk_coord c.1 c.2)) cells) as Hins.
  { apply Forall_forall. intros [x y] (Hx & Hy)%Hin. unfold inside. cbn. lia. }
  split; [done|]. unfold player_wall_collision, on_map. rewrite Hcells.
  destruct (_ || _); [done|]. intros Hne. split; [done|].
  destruct (existsb _ _) eqn:E; [done|]. destruct Hne.
  rewrite wall_loop_clear; [done| |done].
  eapply Forall_impl; [exact Hins|]. intros [x y] [? ?]. by apply Hm.
Qed.
End Walls.

(** A player walking into the wall at the end of a corridor is pushed back. *)
Lemma wall_collision_clear_witness :
  let p := zero_player <| p_radius := dlit 1 4 |> in
  let pos := mk_vec (dlit 29 10) (dlit 5 10) in
  let cells := [(1, 0); (2, 0); (3, 0)] in
  map_ok corridor /\ cells_around pos 4 1 = Some cells /\
  player_wall_collision corridor p pos <> Some pos /\
  existsb (overlaps corridor (mk_circle pos (p_radius p))) cells = true.
Proof.
  intros p pos cells. assert (cells_around pos 4 1 = Some cells) as Hc by reflexivity.
  assert (player_wall_collision corridor p pos <> Some pos) as Hne by (vm_compute; discriminate).
  split; [exact corridor_ok|]. split; [exact Hc|]. split; [exact Hne|].
  exact (proj2 (proj2 (wall_collision_clear corridor p pos cells corridor_ok Hc) Hne)).
Defined.
