(* ===== verification/Pickups.v ===== *)
(** * Pickups

    The objects a player can pick up, [src/proj/system/pickups/pickups.c]: the
    handlers behind the virtual tables, the array of pickups, and the
    collision table that lists for every cell of the map the pickups whose
    circle touches it. *)

From Stdlib Require Import Floats.SpecFloat.
From S2P Require Import Prelude Doubles Utils Sprites Guns Players.

Definition COLLISION_LIST_ALLOC_STEP : Z := 5.
Definition BAD_ALLOC : Z := 1.

(** ** Data *)

(** The virtual table of a pickup with the details it is applied to. *)
Inductive details : Type :=
| AMMO (packets ammo_index : Z)
| MEDKIT (health : Z)
| ARMOR (armor : Z).

(** [pickup_t]; no animation when the loader could not allocate its frames and
    left the struct as it was.  The loaders never write the animation's
    [state], which nothing reads before [update_anim] sets it. *)
Record pickup_t : Type := mk_pickup {
  pk_details : details;
  picked_up : bool;
  collider : circle_t;
  animation : option (animated_sprite slot);
}.
#[global] Instance eta_pickup : Eta pickup_t := fun p =>
  mk_pickup (pk_details p) (picked_up p) (collider p) (animation p).

(** [collision_list_t]; [indexes] is the whole block. *)
Record collision_list_t : Type := mk_list {
  indexes : list Z;
  num_of_indexes : Z;
  max_indexes : Z;
}.
#[global] Instance eta_list : Eta collision_list_t := fun l =>
  mk_list (indexes l) (num_of_indexes l) (max_indexes l).
Definition empty_list : collision_list_t := mk_list [] 0 0.

(** The globals of the file, and the answers of the next calls of [malloc]
    and [realloc] ([true] ever after). *)
Record pickups_t : Type := mk_pickups {
  pickups : ptr (list pickup_t);
  pickups_size : Z;
  table : list (list collision_list_t);
  t_width : Z;
  t_height : Z;
  mallocs : list bool;
}.
#[global] Instance eta_pickups : Eta pickups_t := fun s =>
  mk_pickups (pickups s) (pickups_size s) (table s) (t_width s) (t_height s) (mallocs s).

Definition malloc_ok : prog pickups_t bool := fun s =>
  match mallocs s with
  | [] => Done (true, s)
  | b :: l => Done (b, s <| mallocs := l |>)
  end.

(** ** The handlers *)

(** [for(idx < inventory_size)] over the guns not looked at yet. *)
Fixpoint give_ammo (n : nat) (packets ammo_idx : Z) (gs : list gun_instance_t) :
    option (bool * list gun_instance_t) :=
  match n with
  | O => Some (false, gs)
  | S n =>
      match gs with
      | [] => None
      | gi :: gs =>
          if ammo_index (gi_gun gi) =? ammo_idx then
            if max_packets (gi_gun gi) <=? curr_packets gi then Some (false, gi :: gs) else
            let gi := add_packets gi packets in
            let gi := if max_packets (gi_gun gi) <? curr_packets gi
                      then gi <| curr_packets := max_packets (gi_gun gi) |> else gi in
            Some (true, gi :: gs)
          else
            match give_ammo n packets ammo_idx gs with
            | Some (b, gs) => Some (b, gi :: gs)
            | None => None
            end
      end
  end.
Definition pickup_ammo (packets ammo_index : Z) (p : player_info_t) : option (bool * player_info_t) :=
  match give_ammo (Z.to_nat (inventory_size p)) packets ammo_index (guns p) with
  | Some (b, gs) => Some (b, p <| guns := gs |>)
  | None => None
  end.

Definition pickup_medkit (amount : Z) (p : player_info_t) : bool * player_info_t :=
  if max_health p <=? health p then (false, p) else
  let p := p <| health ::= (fun h => i32 (h + amount)) |> in
  (true, if max_health p <=? health p then p <| health := max_health p |> else p).

Definition pickup_armor (amount : Z) (p : player_info_t) : bool * player_info_t :=
  if max_armor p <=? armor p then (false, p) else
  let p := p <| armor ::= (fun a => i32 (a + amount)) |> in
  (true, if max_armor p <=? armor p then p <| armor := max_armor p |> else p).

(** [pickup->vtable->handler(player, pickup->pickup_details)] *)
Definition pickup_handler (p : player_info_t) (pickup : pickup_t) : option (bool * player_info_t) :=
  match pk_details pickup with
  | AMMO packets ammo_index => pickup_ammo packets ammo_index p
  | MEDKIT amount => Some (pickup_medkit amount p)
  | ARMOR amount => Some (pickup_armor amount p)
  end.

Section Pickups.
Context {LM : Libm}.
(** What an uninitialised [pickup_t] and index hold. *)
Variables (junk_pickup : pickup_t) (junk_index : Z).

(** ** The collision table *)
Definition init_collision_table (width height : Z) : prog pickups_t Z :=
  modify (fun s => s <| t_height := height |> <| t_width := width |>) ;;;
  ok <- malloc_ok ;;
  if negb ok then ret BAD_ALLOC else
  (fix rows (n : nat) (done : list (list collision_list_t)) : prog pickups_t Z :=
     modify (fun s => s <| table := done |>) ;;;
     match n with
     | O => ret OK
     | S n =>
         ok <- malloc_ok ;;
         if negb ok then ret BAD_ALLOC
         else rows n (done ++ [replicate (Z.to_nat width) empty_list])
     end) (Z.to_nat height) [].

(** Frees the rows of the table and the table. *)
Definition free_collision_table : prog pickups_t unit :=
  rows <- gets table ;;
  height <- gets t_height ;;
  if alen rows <? height then undef else modify (fun s => s <| table := [] |>).

Definition table_at (x y : Z) (s : pickups_t) : option collision_list_t :=
  match aget (table s) y with Some row => aget row x | None => None end.
Definition set_table_at (x y : Z) (l : collision_list_t) : prog pickups_t unit := fun s =>
  match aget (table s) y with
  | Some row =>
      match aset row x l with
      | Some row => Done (tt, s <| table := <[Z.to_nat y := row]> (table s) |>)
      | None => Undef
      end
  | None => Undef
  end.

(** The part of [add_collision] that appends to the list of a cell. *)
Definition add_to_list (x y pickup_index : Z) : prog pickups_t Z :=
  list <- gets (table_at x y) ;;
  list <- defined list ;;
  let table_index := num_of_indexes list in
  if (num_of_indexes list =? 0) || (max_indexes list <=? num_of_indexes list) then
    ok <- malloc_ok ;;
    if negb ok then (set_table_at x y (list <| indexes := [] |>) ;;; ret BAD_ALLOC) else
    let n := num_of_indexes list + COLLISION_LIST_ALLOC_STEP in
    let list := list <| indexes ::= resize (Z.to_nat n) junk_index |>
                     <| max_indexes ::= (fun m => u32 (m + 5)) |> in
    ix <- defined (aset (indexes list) table_index pickup_index) ;;
    set_table_at x y (list <| indexes := ix |> <| num_of_indexes ::= (fun n => u32 (n + 1)) |>) ;;;
    ret OK
  else
    (ix <- defined (aset (indexes list) table_index pickup_index) ;;
     set_table_at x y (list <| indexes := ix |> <| num_of_indexes ::= (fun n => u32 (n + 1)) |>) ;;;
     ret OK).

Fixpoint add_to_cells (cells : list (Z * Z)) (collider : circle_t) (pickup_index : Z) :
    prog pickups_t Z :=
  match cells with
  | [] => ret OK
  | (x, y) :: cells =>
      err <- (if check_circle_rect_collision collider (mk_rect (mk_vec (dint x) (dint y)) 1 1)
              then add_to_list x y pickup_index else ret OK) ;;
      if negb (err =? OK) then ret err else add_to_cells cells collider pickup_index
  end.

Definition add_collision (pickup : pickup_t) (pickup_index : Z) : prog pickups_t Z :=
  cells <- gets (fun s => cells_around (center (collider pickup)) (t_width s) (t_height s)) ;;
  cells <- defined cells ;;
  add_to_cells cells (collider pickup) pickup_index.

(** Zeroes the entries of a list that hold the index. *)
Definition clear_index (pickup_index : Z) (l : collision_list_t) : option collision_list_t :=
  let n := Z.to_nat (num_of_indexes l) in
  if alen (indexes l) <? num_of_indexes l then None else
  Some (l <| indexes ::= (fun ix =>
          ((fun i => if i =? pickup_index then 0 else i) <$> take n ix) ++ drop n ix) |>).

Definition remove_collision (position : vector_t) (pickup_index : Z) : prog pickups_t unit :=
  cells <- gets (fun s => cells_around position (t_width s) (t_height s)) ;;
  cells <- defined cells ;;
  for_each cells (fun c =>
    list <- gets (table_at c.1 c.2) ;;
    list <- defined list ;;
    list <- defined (clear_index pickup_index list) ;;
    set_table_at c.1 c.2 list).

(** ** The array *)
Definition pickup_array : prog pickups_t (list pickup_t) :=
  p <- gets pickups ;; defined (deref p).

Definition add_pickup (pickup : pickup_t) : prog pickups_t Z :=
  size <- gets pickups_size ;;
  room <- (if size =? 0 then
             ok <- malloc_ok ;;
             if (ok : bool)
             then (modify (fun s => s <| pickups := Live [junk_pickup; junk_pickup] |>
                                      <| pickups_size := 1 |>) ;;; ret true)
             else (modify (fun s => s <| pickups := Null |>) ;;; ret false)
           else
             arr <- pickup_array ;;
             ok <- malloc_ok ;;
             modify (fun s => s <| pickups := if (ok : bool)
                                              then Live (resize (Z.to_nat (size + 1)) junk_pickup arr)
                                              else Null |>) ;;;
             ret true) ;;
  if negb room then ret 0 else
  index <- gets pickups_size ;;
  err <- add_collision pickup index ;;
  if negb (err =? OK) then ret 0 else
  arr <- pickup_array ;;
  arr <- defined (aset arr index (pickup <| picked_up := false |>)) ;;
  modify (fun s => s <| pickups := Live arr |> <| pickups_size ::= (fun n => u32 (n + 1)) |>) ;;;
  ret index.

Definition init_ammo_anims (ammo_index : Z) : prog pickups_t (option (animated_sprite slot)) :=
  let ammo_index := if 3 <=? ammo_index then 0 else ammo_index in
  ok <- malloc_ok ;;
  ret (if (ok : bool)
       then Some (mk_anim (ammos ammo_index) 1 0 1 FINISHED [ammos ammo_index]) else None).
Definition init_medi_anims : prog pickups_t (option (animated_sprite slot)) :=
  ok <- malloc_ok ;;
  ret (if (ok : bool) then Some (mk_anim media 1 0 1 FINISHED [media]) else None).
Definition init_armor_anims : prog pickups_t (option (animated_sprite slot)) :=
  ok <- malloc_ok ;;
  ret (if (ok : bool) then Some (mk_anim arm1a 10 0 2 FINISHED [arm1a; arm1b]) else None).

Definition add_details (d : details) (anims : prog pickups_t (option (animated_sprite slot)))
    (position : vector_t) (radius : double) : prog pickups_t Z :=
  ok <- malloc_ok ;;
  if negb ok then ret 0 else
  anim <- anims ;;
  add_pickup (mk_pickup d false (mk_circle position radius) anim).

Definition add_ammo (position : vector_t) (radius : double) (ammo_index packets : Z) : prog pickups_t Z :=
  add_details (AMMO packets ammo_index) (init_ammo_anims ammo_index) position radius.
Definition add_medkit (position : vector_t) (radius : double) (health : Z) : prog pickups_t Z :=
  add_details (MEDKIT health) init_medi_anims position radius.
Definition add_armor (position : vector_t) (radius : double) (armor_quantity : Z) : prog pickups_t Z :=
  add_details (ARMOR armor_quantity) init_armor_anims position radius.

Definition delete_pickup (index : Z) : prog pickups_t unit :=
  size <- gets pickups_size ;;
  if size <=? index then ret tt else
  arr <- pickup_array ;;
  pickup <- defined (aget arr index) ;;
  arr <- defined (aset arr index (pickup <| picked_up := true |>)) ;;
  modify (fun s => s <| pickups := Live arr |>) ;;;
  remove_collision (center (collider pickup)) index.

(** Returns the dummy, here [None], past the end. *)
Definition get_pickup (index : Z) : prog pickups_t (option pickup_t) :=
  size <- gets pickups_size ;;
  if size <=? index then ret None else
  arr <- pickup_array ;;
  pickup <- defined (aget arr index) ;;
  ret (Some pickup).

(** [pickup_index(player, index)] *)
Definition pickup_index (p : player_info_t) (index : Z) : prog pickups_t (bool * player_info_t) :=
  arr <- pickup_array ;;
  pickup <- defined (aget arr index) ;;
  '(got, p) <- defined (pickup_handler p pickup) ;;
  if (got : bool) then (delete_pickup index ;;; ret (got, p)) else ret (got, p).

(** One entry of the scan: the best so far is an index and its distance. *)
Definition scan_entry (arr : list pickup_t) (pos : vector_t) (idx : Z) (best : Z * double) :
    option (Z * double) :=
  match aget arr idx with
  | None => None
  | Some pickup =>
      let distance := dist_positions_squared pos (center (collider pickup)) in
      if dle distance (dmul (radius (collider pickup)) (radius (collider pickup))) then
        if deq best.2 (dint (-1)) || dlt distance best.2 then Some (idx, distance) else Some best
      else Some best
  end.
Fixpoint scan_list (arr : list pickup_t) (pos : vector_t) (ix : list Z) (best : Z * double) :
    option (Z * double) :=
  match ix with
  | [] => Some best
  | idx :: ix =>
      match scan_entry arr pos idx best with
      | Some best => scan_list arr pos ix best
      | None => None
      end
  end.

Definition check_player_pickup_collision (p : player_info_t) : prog pickups_t Z :=
  let pos := position p in
  x <- defined (dto_int (vx pos)) ;;
  y <- defined (dto_int (vy pos)) ;;
  s <- gets id ;;
  if dlt (vx pos) (dint 0) || dlt (vy pos) (dint 0) || dge (vy pos) (dint (t_height s)) ||
     dge (vx pos) (dint (t_width s)) then ret 0 else
  list <- defined (table_at (u16 x) (u16 y) s) ;;
  if num_of_indexes list =? 0 then ret 0 else
  arr <- pickup_array ;;
  if alen (indexes list) <? num_of_indexes list then undef else
  best <- defined (scan_list arr pos (take (Z.to_nat (num_of_indexes list)) (indexes list)) (0, dint (-1))) ;;
  ret best.1.

(** [for(idx = 1; idx < pickups_size; idx++) update_anim(...)] *)
Definition update_pickups (time_counter : Z) : prog pickups_t unit :=
  size <- gets pickups_size ;;
  for_each (seqZ 1 (size - 1)) (fun idx =>
    arr <- pickup_array ;;
    pickup <- defined (aget arr idx) ;;
    anim <- defined (animation pickup) ;;
    match update_anim time_counter anim with
    | Done (_, anim) =>
        arr <- defined (aset arr idx (pickup <| animation := Some anim |>)) ;;
        modify (fun s => s <| pickups := Live arr |>)
    | Undef => undef
    | OutOfFuel => undef
    end).

Definition get_pickups_size : prog pickups_t Z := gets pickups_size.

(** Frees the details of every pickup, then the array. *)
Definition free_pickups : prog pickups_t unit :=
  size <- gets pickups_size ;;
  arr <- (if 1 <? size then pickup_array else ret []) ;;
  modify (fun s => s <| pickups_size := 0 |>) ;;;
  p <- gets pickups ;;
  p <- defined (free_ptr p) ;;
  modify (fun s => s <| pickups := p |>).
End Pickups.

(** ** The handlers saturate *)

(** The gun an ammunition pickup is for: the first of its kind. *)
Definition gun_for (ammo_idx : Z) (gs : list gun_instance_t) : option (nat * gun_instance_t) :=
  list_find (fun gi => ammo_index (gi_gun gi) = ammo_idx) gs.

Lemma give_ammo_spec n packets ammo_idx gs : n = length gs -> 0 <= packets ->
  Forall (fun gi => instance_ok gi /\ packets + max_packets (gi_gun gi) < 2 ^ 16) gs ->
  give_ammo n packets ammo_idx gs =
  match gun_for ammo_idx gs with
  | None => Some (false, gs)
  | Some (i, gi) =>
      if max_packets (gi_gun gi) <=? curr_packets gi then Some (false, gs)
      else Some (true, <[i := gi <| curr_packets :=
                        Z.min (max_packets (gi_gun gi)) (curr_packets gi + packets) |>]> gs)
  end.
Proof.
  intros -> Hp. unfold gun_for. induction 1 as [|gi gs [[Hg Ha Hc] Hm] _ IH]; [done|].
  cbn [give_ammo length list_find].
  destruct (Z.eqb_spec (ammo_index (gi_gun gi)) ammo_idx) as [E|Hne].
  - rewrite decide_True by done. destruct (Z.leb_spec (max_packets (gi_gun gi)) (curr_packets gi)); [done|].
    unfold add_packets. cbn. rewrite (wrap_small 16) by lia.
    break_if; bool_lia; cbn; [rewrite Z.min_l by lia; done|rewrite Z.min_r by lia].
    unfold set; cbn. by rewrite (wrap_small 16) by lia.
  - rewrite decide_False by done. rewrite IH.
    destruct (list_find _ gs) as [[i g]|]; [|done]. cbn. by break_if.
Qed.

(** A player as the game keeps it. *)
Record player_ok (p : player_info_t) : Prop := mk_player_ok {
  po_healthy : healthy p;
  po_guns : Forall instance_ok (guns p);
  po_inventory : inventory_size p = alen (guns p);
}.

(** What the pickup raises, and what it is at and can become. *)
Definition details_ok (p : player_info_t) (d : details) : Prop :=
  match d with
  | AMMO packets _ => 0 <= packets /\ Forall (fun gi => packets + max_packets (gi_gun gi) < 2 ^ 16) (guns p)
  | MEDKIT a | ARMOR a => 0 <= a < 2 ^ 16
  end.
Definition gained (d : details) (p p' : player_info_t) : Prop :=
  match d with
  | AMMO packets k => exists i gi, gun_for k (guns p) = Some (i, gi) /\
      curr_packets gi < max_packets (gi_gun gi) /\
      p' = p <| guns := <[i := gi <| curr_packets :=
                  Z.min (max_packets (gi_gun gi)) (curr_packets gi + packets) |>]> (guns p) |>
  | MEDKIT a => health p < max_health p /\ p' = p <| health := Z.min (max_health p) (health p + a) |>
  | ARMOR a => armor p < max_armor p /\ p' = p <| armor := Z.min (max_armor p) (armor p + a) |>
  end.
Definition full (d : details) (p : player_info_t) : Prop :=
  match d with
  | AMMO _ k => match gun_for k (guns p) with
                | Some (_, gi) => curr_packets gi = max_packets (gi_gun gi) | None => True end
  | MEDKIT _ => health p = max_health p
  | ARMOR _ => armor p = max_armor p
  end.

(** The outcome of a handler. *)
Definition handled (d : details) (p : player_info_t) (got : bool) (p' : player_info_t) : Prop :=
  player_ok p' /\ if got then gained d p p' else full d p /\ p' = p.

Lemma pickup_ammo_spec packets k p : player_ok p -> details_ok p (AMMO packets k) ->
  exists got p', pickup_ammo packets k p = Some (got, p') /\ handled (AMMO packets k) p got p'.
Proof.
  intros Hok [Hp Hd]. pose proof Hok as [Hh Hg Hi]. unfold pickup_ammo, handled. cbn [gained full].
  rewrite Hi. unfold alen. rewrite Nat2Z.id. rewrite give_ammo_spec; [|done|done|by apply Forall_and].
  destruct (gun_for k (guns p)) as [[i gi]|] eqn:E; [|exists false, p; split; [by destruct p|done]].
  pose proof E as E'. apply list_find_Some in E' as (Hgi & _ & _).
  pose proof (proj1 (Forall_lookup _ _) Hg _ _ Hgi) as [G Ha Hc].
  destruct (Z.leb_spec (max_packets (gi_gun gi)) (curr_packets gi)).
  - exists false, p. split; [by destruct p|]. split; [done|]. split; [lia|done].
  - eexists true, _. split; [reflexivity|]. split; [|by exists i, gi]. split; cbn.
    + by destruct Hh.
    + apply Forall_insert; [done|]. split; cbn; [done|done|lia].
    + unfold alen. by rewrite length_insert.
Qed.
Lemma pickup_medkit_spec a p : player_ok p -> 0 <= a < 2 ^ 16 ->
  exists got p', pickup_medkit a p = (got, p') /\ handled (MEDKIT a) p got p'.
Proof.
  intros Hok Ha. pose proof Hok as [Hh Hg Hi]. pose proof Hh as [? ? ? ?]. unfold pickup_medkit, handled. cbn [gained full].
  destruct (Z.leb_spec (max_health p) (health p)).
  { exists false, p. split; [done|]. split; [done|]. split; [lia|done]. }
  exists true, (p <| health := Z.min (max_health p) (health p + a) |>). split.
  - unfold set; cbn. rewrite (swrap_small 32) by lia. break_if; bool_lia; [by rewrite Z.min_l by lia|by rewrite Z.min_r by lia].
  - split; [|done]. split; [split; cbn; lia|done..].
Qed.
Lemma pickup_armor_spec a p : player_ok p -> 0 <= a < 2 ^ 16 ->
  exists got p', pickup_armor a p = (got, p') /\ handled (ARMOR a) p got p'.
Proof.
  intros Hok Ha. pose proof Hok as [Hh Hg Hi]. pose proof Hh as [? ? ? ?]. unfold pickup_armor, handled. cbn [gained full].
  destruct (Z.leb_spec (max_armor p) (armor p)).
  { exists false, p. split; [done|]. split; [done|]. split; [lia|done]. }
  exists true, (p <| armor := Z.min (max_armor p) (armor p + a) |>). split.
  - unfold set; cbn. rewrite (swrap_small 32) by lia. break_if; bool_lia; [by rewrite Z.min_l by lia|by rewrite Z.min_r by lia].
  - split; [|done]. split; [split; cbn; lia|done..].
Qed.

(** C21: a pickup's handler never leaves the limits of a well-formed player: it
    takes the pickup exactly when what it raises (the health, the armor, or
    the packets of the first gun of its kind) is not yet full, raises it by
    the pickup's amount but not beyond the maximum, and changes nothing else;
    otherwise it refuses and changes nothing. *)
Theorem pickup_handler_saturates p pickup :
  player_ok p -> details_ok p (pk_details pickup) ->
  exists got p', pickup_handler p pickup = Some (got, p') /\ player_ok p' /\
    (if got then gained (pk_details pickup) p p' else full (pk_details pickup) p /\ p' = p).
Proof.
  intros Hok Hd. unfold pickup_handler. destruct (pk_details pickup) as [packets k|a|a].
  - by apply pickup_ammo_spec.
  - destruct (pickup_medkit_spec a p Hok Hd) as (got & p' & -> & H). by exists got, p'.
  - destruct (pickup_armor_spec a p Hok Hd) as (got & p' & -> & H). by exists got, p'.
Qed.

Lemma pickup_handler_saturates_witness :
  let p := zero_player <| health := 90 |> <| max_health := 100 |> in
  exists p', pickup_handler p (mk_pickup (MEDKIT 30) false (mk_circle vec0 d0) None) = Some (true, p') /\
    health p' = 100.
Proof.
  destruct (pickup_handler_saturates (zero_player <| health := 90 |> <| max_health := 100 |>)
              (mk_pickup (MEDKIT 30) false (mk_circle vec0 d0) None)) as (got & p' & H & _ & Hg).
  - split; [split; cbn; lia|constructor|reflexivity].
  - cbn; lia.
  - destruct got; [|destruct Hg as [Hf _]; vm_compute in Hf; discriminate].
    exists p'. split; [exact H|]. destruct Hg as [_ ->]. reflexivity.
Defined.

(** ** The collision table

    [live l]: the entries of a list in use.  [tbl_ok touch b s]: the table has
    the shape of the map, no list holds more than [b] entries, and the indexes
    in the list of cell [c] are, besides the zeroes of deleted entries, exactly
    the ones that touch [c]. *)
Definition live (l : collision_list_t) : list Z := take (Z.to_nat (num_of_indexes l)) (indexes l).

Record list_shape (b : Z) (l : collision_list_t) : Prop := mk_list_shape {
  ls_num : 0 <= num_of_indexes l <= b;
  ls_max : num_of_indexes l <= max_indexes l <= b + 5;
  ls_block : alen (indexes l) = max_indexes l;
}.
Record list_ok (b : Z) (l : collision_list_t) : Prop := mk_list_ok {
  lo_shape : list_shape b l;
  lo_none : num_of_indexes l = 0 -> max_indexes l = 0;
}.

Record tbl_ok (touch : Z -> Z * Z -> Prop) (b : Z) (s : pickups_t) : Prop := mk_tbl_ok {
  tb_width : 0 <= t_width s < 2 ^ 31;
  tb_height : 0 <= t_height s < 2 ^ 31;
  tb_shape x y : is_Some (table_at x y s) <-> 0 <= x < t_width s /\ 0 <= y < t_height s;
  tb_list x y l : table_at x y s = Some l -> list_ok b l;
  tb_touch x y l i : table_at x y s = Some l -> i <> 0 -> (i ∈ live l <-> touch i (x, y));
}.

Lemma tbl_ok_ext touch touch' b s : (forall i c, i <> 0 -> touch i c <-> touch' i c) ->
  tbl_ok touch b s -> tbl_ok touch' b s.
Proof. intros He []. split; auto. intros x y l i Hl Hi. rewrite <- He by done. eauto. Qed.

(** The parts of the state the table does not depend on. *)
Lemma tbl_ok_frame touch b s s' : table s' = table s -> t_width s' = t_width s ->
  t_height s' = t_height s -> tbl_ok touch b s -> tbl_ok touch b s'.
Proof.
  intros Et Ew Eh [Hw Hh Hs Hl Ht].
  assert (forall x y, table_at x y s' = table_at x y s) as Ea by (intros; unfold table_at; by rewrite Et).
  split; intros *; rewrite ?Ew, ?Eh, ?Ea; eauto.
Qed.

Lemma set_table_at_spec x y l0 l s : table_at x y s = Some l0 ->
  exists t, set_table_at x y l s = Done (tt, s <| table := t |>) /\
    forall x' y', table_at x' y' (s <| table := t |>) =
      if decide ((x', y') = (x, y)) then Some l else table_at x' y' s.
Proof.
  intros H0. unfold set_table_at. unfold table_at in H0. cbn.
  destruct (aget (table s) y) as [row|] eqn:Er; [|done].
  destruct (aset row x l) as [row'|] eqn:Es.
  2: { pose proof (aget_Some_range _ _ _ H0). by rewrite aset_Some in Es by done. }
  eexists. split; [reflexivity|]. intros x' y'. unfold table_at. cbn.
  assert (aset (table s) y row' = Some (<[Z.to_nat y := row']> (table s))) as Et
    by (unfold aset; by rewrite Er).
  destruct (decide (y' = y)) as [->|Hy].
  - rewrite (aget_aset_eq _ _ _ _ Et), Er. destruct (decide (x' = x)) as [->|Hx].
    + rewrite decide_True by done. by apply (aget_aset_eq _ _ _ _ Es).
    + rewrite decide_False by congruence. by apply (aget_aset_ne _ _ _ _ _ Es).
  - rewrite (aget_aset_ne _ _ _ y' _ Et) by done. by rewrite decide_False by congruence.
Qed.

(** Replacing the list of one cell. *)
Lemma tbl_ok_set touch touch' b b' x y l s t : tbl_ok touch b s -> b <= b' ->
  is_Some (table_at x y s) -> list_ok b' l ->
  (forall x' y', table_at x' y' (s <| table := t |>) =
     if decide ((x', y') = (x, y)) then Some l else table_at x' y' s) ->
  (forall i, i <> 0 -> i ∈ live l <-> touch' i (x, y)) ->
  (forall i c, i <> 0 -> c <> (x, y) -> touch i c <-> touch' i c) ->
  tbl_ok touch' b' (s <| table := t |>).
Proof.
  intros [Hw Hh Hs Hl Ht] Hb Hin Hok Hat Hlive Hother. split; cbn; [done|done| | |].
  - intros x' y'. rewrite Hat. case_decide as E; [|by apply Hs].
    injection E as -> ->. rewrite <- Hs. split; [done|by eexists].
  - intros x' y' l'. rewrite Hat. case_decide as E; [by intros [= <-]|].
    intros H. destruct (Hl _ _ _ H) as [[] ?]. split; [split|]; lia.
  - intros x' y' l' i. rewrite Hat. case_decide as E.
    + intros [= <-]. injection E as -> ->. apply Hlive.
    + intros H Hi. rewrite (Ht _ _ _ _ H Hi). by apply Hother.
Qed.

Section Table.
Context {LM : Libm}.
Context (junk_pickup : pickup_t) (junk_index : Z).

(** Appending to a list whose block has room. *)
Lemma live_append l ix idx : 0 <= num_of_indexes l < alen (indexes l) -> 0 <= num_of_indexes l < 2 ^ 30 ->
  aset (indexes l) (num_of_indexes l) idx = Some ix ->
  live (l <| indexes := ix |> <| num_of_indexes ::= (fun n => u32 (n + 1)) |>) = live l ++ [idx].
Proof.
  intros Hn Hm H. rewrite aset_Some in H by done. injection H as <-.
  unfold live. cbn. rewrite (wrap_small 32) by lia. unfold alen in Hn.
  replace (Z.to_nat (num_of_indexes l + 1)) with (S (Z.to_nat (num_of_indexes l))) by lia.
  rewrite (take_S_r _ _ idx) by (apply list_lookup_insert_eq; lia).
  by rewrite take_insert_ge by lia.
Qed.

Lemma append_ok b l idx : list_shape b l -> 0 <= b < 2 ^ 29 -> num_of_indexes l < alen (indexes l) ->
  exists ix, aset (indexes l) (num_of_indexes l) idx = Some ix /\
    let l' := l <| indexes := ix |> <| num_of_indexes ::= (fun n => u32 (n + 1)) |> in
    list_ok (b + 1) l' /\ live l' = live l ++ [idx].
Proof.
  intros [Hn Hm Hb] Hb' Hr. destruct (aset (indexes l) (num_of_indexes l) idx) as [ix|] eqn:E.
  2: { by rewrite aset_Some in E by lia. }
  exists ix. split; [done|]. cbv zeta. split; [|apply live_append; [lia|lia|done]].
  pose proof (aset_len _ _ _ _ E). split; [split|]; cbn; rewrite ?(wrap_small 32) by lia; lia.
Qed.

Lemma grow_ok b l (n := num_of_indexes l + COLLISION_LIST_ALLOC_STEP)
    (l' := l <| indexes ::= resize (Z.to_nat n) junk_index |> <| max_indexes ::= (fun m => u32 (m + 5)) |>) :
  list_shape b l -> 0 <= b < 2 ^ 29 -> max_indexes l = num_of_indexes l ->
  list_shape b l' /\ live l' = live l /\ num_of_indexes l' < alen (indexes l').
Proof.
  intros [Hn Hm Hb] Hb' He. unfold l', n, COLLISION_LIST_ALLOC_STEP, live, alen in *. cbn.
  split_and!.
  - split; cbn; unfold alen; rewrite ?length_resize, ?(wrap_small 32) by lia; lia.
  - rewrite resize_ge, take_app_le by lia. done.
  - rewrite length_resize. lia.
Qed.

(** [add_to_list] on a good table. *)
Lemma add_to_list_spec touch b x y idx s : tbl_ok touch b s -> 0 <= b < 2 ^ 29 -> mallocs s = [] ->
  idx <> 0 -> 0 <= x < t_width s -> 0 <= y < t_height s ->
  exists t, add_to_list junk_index x y idx s = Done (OK, s <| table := t |>) /\
    tbl_ok (fun i c => touch i c \/ i = idx /\ c = (x, y)) (b + 1) (s <| table := t |>).
Proof.
  intros Hok Hb Hm Hidx Hx Hy. destruct (proj2 (tb_shape _ _ _ Hok x y)) as [l Hl]; [done|].
  pose proof (tb_list _ _ _ Hok _ _ _ Hl) as [Hsh H0].
  assert (forall l', list_ok (b + 1) l' -> live l' = live l ++ [idx] ->
    exists t, set_table_at x y l' s = Done (tt, s <| table := t |>) /\
      tbl_ok (fun i c => touch i c \/ i = idx /\ c = (x, y)) (b + 1) (s <| table := t |>)) as Hset.
  { intros l' Hl' Hlive. destruct (set_table_at_spec x y l l' s Hl) as (t & Ht & Hat).
    exists t. split; [done|]. eapply (tbl_ok_set touch _ b); [done|lia|by eexists|done|done| |].
    - intros i Hi. rewrite Hlive, elem_of_app, list_elem_of_singleton, (tb_touch _ _ _ Hok _ _ _ i Hl) by done.
      split; [intros [?|?]|intros [?|[? _]]]; auto.
    - intros i c Hi Hc. split; [auto|]. intros [?|[_ ?]]; [done|congruence]. }
  unfold add_to_list, bind, gets. rewrite Hl. cbn [defined]. unfold ret.
  destruct (_ || _) eqn:E.
  - assert (max_indexes l = num_of_indexes l) as He.
    { destruct Hsh. apply orb_true_iff in E as [E|E]; bool_lia. }
    destruct (grow_ok b l Hsh Hb He) as (Hsh' & Hlive & Hroom).
    destruct (append_ok b _ idx Hsh' Hb Hroom) as (ix & Hix & Hl' & Hlive').
    unfold malloc_ok. rewrite Hm. cbn [negb].
    match type of Hix with aset _ (num_of_indexes ?l') _ = _ =>
      change (num_of_indexes l') with (num_of_indexes l) in Hix end.
    rewrite Hix. cbn [defined]. unfold ret.
    destruct (Hset _ Hl') as (t & Ht & Htok); [by rewrite Hlive', Hlive|].
    exists t. by rewrite Ht.
  - apply orb_false_iff in E as [E1 E2]. bool_lia. assert (num_of_indexes l < alen (indexes l)) as Hroom by (destruct Hsh; lia).
    destruct (append_ok b l idx Hsh Hb Hroom) as (ix & Hix & Hl' & Hlive').
    rewrite Hix. cbn [defined]. unfold ret. destruct (Hset _ Hl' Hlive') as (t & Ht & Htok).
    exists t. by rewrite Ht.
Qed.

(** The cells of a pickup: near it, and touched by its circle. *)
Definition hits (c : circle_t) (cell : Z * Z) : Prop :=
  check_circle_rect_collision c (mk_rect (mk_vec (dint cell.1) (dint cell.2)) 1 1) = true.
Definition touches (w h : Z) (c : circle_t) (cell : Z * Z) : Prop :=
  exists cells, cells_around (center c) w h = Some cells /\ cell ∈ cells /\ hits c cell.

Lemma add_to_cells_spec cells touch b coll idx s : tbl_ok touch b s -> 0 <= b -> b + alen cells < 2 ^ 29 ->
  mallocs s = [] -> idx <> 0 ->
  Forall (fun c => 0 <= c.1 < t_width s /\ 0 <= c.2 < t_height s) cells ->
  exists t, add_to_cells junk_index cells coll idx s = Done (OK, s <| table := t |>) /\
    tbl_ok (fun i c => touch i c \/ i = idx /\ c ∈ cells /\ hits coll c) (b + alen cells) (s <| table := t |>).
Proof.
  intros Hok Hb0 Hb Hm Hidx Hc. revert touch b s Hok Hb0 Hb Hm Hc.
  induction cells as [|[x y] cells IH]; intros touch b s Hok Hb0 Hb Hm Hc.
  { exists (table s). cbn. unfold ret. split; [by destruct s|]. rewrite Z.add_0_r.
    eapply tbl_ok_ext; [|eapply tbl_ok_frame; [..|exact Hok]; done].
    intros i c _. rewrite elem_of_nil. tauto. }
  apply Forall_cons in Hc as [[Hx Hy] Hcs]. cbn in Hx, Hy.
  unfold alen in *. cbn [length] in *.
  assert (exists t b', (if check_circle_rect_collision coll (mk_rect (mk_vec (dint x) (dint y)) 1 1)
      then add_to_list junk_index x y idx else ret OK) s = Done (OK, s <| table := t |>) /\
      b <= b' <= b + 1 /\
      tbl_ok (fun i c => touch i c \/ i = idx /\ c = (x, y) /\ hits coll c) b' (s <| table := t |>))
    as (t & b' & Hrun & Hb' & Hok').
  { unfold hits. destruct (check_circle_rect_collision _ _) eqn:E.
    - destruct (add_to_list_spec touch b x y idx s) as (t & Ht & Hok'); [done|lia|done..|].
      exists t, (b + 1). split; [done|]. split; [lia|]. eapply tbl_ok_ext; [|exact Hok'].
      intros i c Hi. split; [intros [?|[-> ->]]; [by left|by right]|intros [?|(-> & -> & _)]; auto].
    - exists (table s), b. split; [by destruct s|]. split; [lia|].
      eapply tbl_ok_ext; [|eapply tbl_ok_frame; [..|exact Hok]; done].
      intros i c Hi. split; [by left|]. intros [?|(-> & -> & Hh)]; [done|]. cbn in Hh. congruence. }
  destruct (IH _ b' _ Hok') as (t' & Ht' & Hok''); [lia|lia|done|done|].
  cbn [add_to_cells]. unfold bind. rewrite Hrun. cbn [negb OK Z.eqb]. rewrite Ht'.
  exists t'. split; [done|].
  assert (tbl_ok (fun i c => touch i c \/ i = idx /\ c ∈ (x, y) :: cells /\ hits coll c)
    (b' + Z.of_nat (length cells)) (s <| table := t' |>)) as Hfin.
  { eapply tbl_ok_ext; [|exact Hok'']. intros i c _. rewrite elem_of_cons. tauto. }
  destruct Hfin as [? ? ? Hl ?]. split; try done. intros x' y' l H.
  destruct (Hl _ _ _ H) as [[] ?]. split; [split|]; lia.
Qed.
Lemma clear_ok b l idx : list_ok b l ->
  exists l', clear_index idx l = Some l' /\ list_ok b l' /\
    forall i, i <> 0 -> i ∈ live l' <-> i ∈ live l /\ i <> idx.
Proof.
  intros [[Hn Hm Hb] H0]. unfold clear_index. destruct (Z.ltb_spec (alen (indexes l)) (num_of_indexes l)); [lia|].
  eexists. split; [reflexivity|]. unfold alen in *. split.
  - split; [split|]; cbn; unfold alen; rewrite ?length_app, ?length_fmap, ?length_take, ?length_drop; lia.
  - intros i Hi. unfold live. cbn. rewrite take_app_le by (rewrite length_fmap, length_take; lia).
    rewrite take_ge by (rewrite length_fmap, length_take; lia).
    rewrite list_elem_of_fmap. split.
    + intros (j & -> & Hj). destruct (Z.eqb_spec j idx); done.
    + intros [Hin Hne]. exists i. by destruct (Z.eqb_spec i idx).
Qed.

Lemma remove_cells_spec cells touch b idx s (body : Z * Z -> prog pickups_t unit) :
  (forall c s l, table_at c.1 c.2 s = Some l -> body c s =
    match clear_index idx l with Some l' => set_table_at c.1 c.2 l' s | None => Undef end) ->
  tbl_ok touch b s -> idx <> 0 ->
  Forall (fun c => 0 <= c.1 < t_width s /\ 0 <= c.2 < t_height s) cells ->
  exists t, for_each cells body s = Done (tt, s <| table := t |>) /\
    tbl_ok (fun i c => touch i c /\ ~ (i = idx /\ c ∈ cells)) b (s <| table := t |>).
Proof.
  intros Hbody Hok Hidx Hc. revert touch s Hok Hc.
  induction cells as [|[x y] cells IH]; intros touch s Hok Hc.
  { exists (table s). split; [by destruct s|].
    eapply tbl_ok_ext; [|eapply tbl_ok_frame; [..|exact Hok]; done].
    intros i c _. rewrite elem_of_nil. tauto. }
  apply Forall_cons in Hc as [Hxy Hcs]. destruct (proj2 (tb_shape _ _ _ Hok x y)) as [l Hl]; [done|].
  destruct (clear_ok b l idx (tb_list _ _ _ Hok _ _ _ Hl)) as (l' & Hl' & Hlok & Hlive).
  destruct (set_table_at_spec x y l l' s Hl) as (t & Ht & Hat).
  assert (tbl_ok (fun i c => touch i c /\ ~ (i = idx /\ c = (x, y))) b (s <| table := t |>)) as Hok'.
  { eapply (tbl_ok_set touch _ b); [done|lia|by eexists|done|done| |].
    - intros i Hi. rewrite Hlive, (tb_touch _ _ _ Hok _ _ _ i Hl) by done. tauto.
    - intros i c Hi Hne. tauto. }
  destruct (IH _ _ Hok' Hcs) as (t' & Ht' & Hok'').
  cbn [for_each]. unfold bind. rewrite (Hbody (x, y) s l Hl), Hl'. cbn [fst snd]. rewrite Ht, Ht'.
  exists t'. split; [done|]. eapply tbl_ok_ext; [|exact Hok''].
  intros i c _. rewrite elem_of_cons. tauto.
Qed.

Lemma remove_collision_spec touch b pos idx s cells : tbl_ok touch b s -> idx <> 0 ->
  cells_around pos (t_width s) (t_height s) = Some cells ->
  exists t, remove_collision pos idx s = Done (tt, s <| table := t |>) /\
    tbl_ok (fun i c => touch i c /\ ~ (i = idx /\ c ∈ cells)) b (s <| table := t |>).
Proof.
  intros Hok Hidx Hcells. unfold remove_collision, bind at 1, gets at 1. rewrite Hcells.
  unfold bind at 1. cbn [defined]. unfold ret at 1.
  destruct (tb_width _ _ _ Hok), (tb_height _ _ _ Hok).
  destruct (cells_around_spec pos (t_width s) (t_height s) cells) as (i & j & _ & _ & Hin); [lia..|done|].
  apply remove_cells_spec; [|done|done|].
  - intros [x y] s' l Hl. cbn in *. unfold bind, gets. rewrite Hl. cbn [defined]. unfold ret.
    by destruct (clear_index idx l).
  - apply Forall_forall. intros [x y] (? & ?)%Hin. cbn. lia.
Qed.

Lemma add_collision_spec touch b pickup idx s cells : tbl_ok touch b s -> 0 <= b < 2 ^ 28 ->
  mallocs s = [] -> idx <> 0 ->
  cells_around (center (collider pickup)) (t_width s) (t_height s) = Some cells ->
  exists t, add_collision junk_index pickup idx s = Done (OK, s <| table := t |>) /\
    tbl_ok (fun i c => touch i c \/ i = idx /\ touches (t_width s) (t_height s) (collider pickup) c)
      (b + 9) (s <| table := t |>).
Proof.
  intros Hok Hb Hm Hidx Hcells. unfold add_collision, bind at 1, gets at 1. rewrite Hcells.
  unfold bind at 1. cbn [defined]. unfold ret at 1.
  destruct (tb_width _ _ _ Hok), (tb_height _ _ _ Hok).
  destruct (cells_around_spec (center (collider pickup)) (t_width s) (t_height s) cells)
    as (i & j & _ & _ & Hin); [lia..|done|].
  assert (alen cells <= 9) as Hlen by (eapply cells_around_length; [..|exact Hcells]; lia).
  assert (0 <= alen cells) by (unfold alen; lia).
  destruct (add_to_cells_spec cells touch b (collider pickup) idx s) as (t & Ht & Hok');
    [done|lia|lia|done|done| |].
  { apply Forall_forall. intros [x y] (? & ?)%Hin. cbn. lia. }
  exists t. split; [done|].
  assert (tbl_ok (fun i c => touch i c \/ i = idx /\ touches (t_width s) (t_height s) (collider pickup) c)
    (b + alen cells) (s <| table := t |>)) as [? ? ? Hl ?].
  { eapply tbl_ok_ext; [|exact Hok']. intros i' c _. unfold touches. rewrite Hcells.
    split; (intros [?|(-> & Hc)]; [by left|right; split; [done|]]).
    - by exists cells.
    - by destruct Hc as (? & [= <-] & ?). }
  split; try done. intros x' y' l H'. destruct (Hl _ _ _ H') as [[] ?]. split; [split|]; lia.
Qed.
End Table.

(** ** The pickups of a level *)

(** Pickup [i] is still to be had, and its circle touches cell [c]. *)
Definition available (s : pickups_t) (i : Z) (pk : pickup_t) : Prop :=
  1 <= i < pickups_size s /\ picked_up pk = false /\
  exists arr, pickups s = Live arr /\ aget arr i = Some pk.

Section Level.
Context {LM : Libm}.
Context (junk_pickup : pickup_t) (junk_index : Z).

Definition listed (s : pickups_t) (i : Z) (c : Z * Z) : Prop :=
  exists pk, available s i pk /\ touches (t_width s) (t_height s) (collider pk) c.

Record pickups_ok (s : pickups_t) : Prop := mk_pickups_ok {
  pk_malloc : mallocs s = [];
  pk_size : 0 <= pickups_size s < 2 ^ 24;
  pk_array : pickups_size s = 0 \/ exists arr, pickups s = Live arr /\ pickups_size s <= alen arr;
  pk_cells i pk : available s i pk ->
    is_Some (cells_around (center (collider pk)) (t_width s) (t_height s));
  pk_table : tbl_ok (listed s) (9 * pickups_size s) s;
}.

Lemma wp_malloc_ok (Q : bool -> pickups_t -> Prop) s : mallocs s = [] -> Q true s -> wp malloc_ok Q s.
Proof. intros Hm H. unfold wp, malloc_ok. by rewrite Hm. Qed.

Lemma table_at_replicate w h x y s :
  table s = replicate (Z.to_nat h) (replicate (Z.to_nat w) empty_list) ->
  0 <= w -> 0 <= h ->
  table_at x y s = if decide (0 <= x < w /\ 0 <= y < h) then Some empty_list else None.
Proof.
  intros Ht Hw Hh. unfold table_at, aget. rewrite Ht.
  destruct (Z.ltb_spec y 0) as [|Hy]; [by rewrite decide_False by lia|].
  destruct (replicate _ _ !! Z.to_nat y) as [row|] eqn:Er.
  2: { apply lookup_replicate_None in Er. by rewrite decide_False by lia. }
  apply lookup_replicate in Er as [-> Hyh].
  destruct (Z.ltb_spec x 0) as [|Hx]; [by rewrite decide_False by lia|].
  destruct (replicate _ _ !! Z.to_nat x) as [l|] eqn:El.
  - apply lookup_replicate in El as [-> Hxw]. by rewrite decide_True by lia.
  - apply lookup_replicate_None in El. by rewrite decide_False by lia.
Qed.

(** [init_collision_table] from a program without pickups. *)
Lemma init_collision_table_ok w h s : mallocs s = [] -> pickups_size s = 0 ->
  0 <= w < 2 ^ 31 -> 0 <= h < 2 ^ 31 ->
  wp (init_collision_table w h) (fun r s' => r = OK /\ pickups_ok s' /\
    t_width s' = w /\ t_height s' = h /\ pickups_size s' = 0) s.
Proof.
  intros Hm Hs Hw Hh. unfold init_collision_table. wp_steps. apply wp_malloc_ok; [done|]. cbn [negb].
  match goal with |- wp (?f _ _) _ _ => set (rows := f) end.
  set (s1 := s <| t_height := h |> <| t_width := w |>).
  assert (forall n done s1, mallocs s1 = [] ->
    wp (rows n done) (fun r s' => r = OK /\
      s' = s1 <| table := done ++ replicate n (replicate (Z.to_nat w) empty_list) |>) s1) as Hrows.
  { intros n. induction n as [|n IH]; intros done s2 Hm2; cbn [rows]; wp_steps.
    - split; [reflexivity|]. by rewrite app_nil_r.
    - apply wp_malloc_ok; [done|]. cbn [negb]. eapply wp_mono; [by apply IH|].
      intros r s' [-> ->]. split; [reflexivity|]. cbn. by rewrite <- app_assoc. }
  eapply wp_mono; [apply Hrows; done|]. clear Hrows. intros r s' [-> ->]. split; [done|].
  set (s' := s1 <| table := _ |>). assert (forall i pk, ~ available s' i pk) as Hno.
  { intros i pk (Hi & _). cbn in Hi. lia. }
  assert (forall x y, table_at x y s' = if decide (0 <= x < w /\ 0 <= y < h) then Some empty_list else None)
    as Hat by (intros; by apply table_at_replicate; [|lia..]).
  split_and!; try done. split; cbn; try lia; try done.
  - intros i pk Ha. by destruct (Hno i pk).
  - split; cbn; [done|done| | |].
    + intros x y. rewrite Hat. case_decide; [done|]. split; [by intros []|done].
    + intros x y l. rewrite Hat. case_decide; [|done]. intros [= <-]. split; [split|]; cbn; unfold alen; cbn; lia.
    + intros x y l i. rewrite Hat. case_decide; [|done]. intros [= <-] _. unfold live. cbn.
      rewrite elem_of_nil. split; [done|]. intros (pk & Ha & _). by destruct (Hno i pk).
Qed.

(** [s'] has the table and dimensions of [s]. *)
Lemma tbl_ok_weaken touch b b' s : tbl_ok touch b s -> b <= b' -> tbl_ok touch b' s.
Proof.
  intros [] Hb. split; try done. intros x y l Hl. destruct (tb_list0 _ _ _ Hl) as [[] ?].
  split; [split|]; lia.
Qed.

(** The array has room for the new pickup at [index]. *)
Lemma add_pickup_tail pickup s index arr cells : mallocs s = [] ->
  pickups s = Live arr -> pickups_size s = index -> 1 <= index < alen arr -> index < 2 ^ 24 - 1 ->
  (forall i pk, available s i pk ->
    is_Some (cells_around (center (collider pk)) (t_width s) (t_height s))) ->
  cells_around (center (collider pickup)) (t_width s) (t_height s) = Some cells ->
  tbl_ok (listed s) (9 * index) s ->
  wp (index <- gets pickups_size ;;
      err <- add_collision junk_index pickup index ;;
      if negb (err =? OK) then ret 0 else
      (arr <- pickup_array ;;
       arr <- defined (aset arr index (pickup <| picked_up := false |>)) ;;
       modify (fun s => s <| pickups := Live arr |> <| pickups_size ::= (fun n => u32 (n + 1)) |>) ;;;
       ret index))
    (fun r s' => r = index /\ pickups_ok s' /\ pickups_size s' = index + 1 /\
       t_width s' = t_width s /\ t_height s' = t_height s /\
       forall i pk, available s' i pk <->
         available s i pk \/ i = index /\ pk = pickup <| picked_up := false |>) s.
Proof.
  intros Hm Ha Hs Hi Hmax Hav Hcells Hok. wp_steps. rewrite Hs.
  destruct (add_collision_spec junk_index (listed s) (9 * index) pickup index s cells)
    as (t & Ht & Hok'); [done|lia|done|lia|done|].
  eapply wp_Done_eq; [exact Ht|]. cbn [negb OK Z.eqb]. unfold pickup_array. wp_steps.
  change (pickups (s <| table := t |>)) with (pickups s). rewrite Ha. cbn [deref defined]. wp_step.
  destruct (aset arr index (pickup <| picked_up := false |>)) as [arr'|] eqn:E.
  2: { by rewrite aset_Some in E by lia. }
  cbn [defined]. wp_steps. set (s' := _ <| pickups_size ::= _ |>).
  assert (forall i pk, available s' i pk <->
    available s i pk \/ i = index /\ pk = pickup <| picked_up := false |>) as Havail.
  { intros i pk. unfold available. cbn. rewrite Hs, (wrap_small 32) by lia. split.
    - intros (Hir & Hp & a & [= <-] & Hget). destruct (decide (i = index)) as [->|Hne].
      + right. rewrite (aget_aset_eq _ _ _ _ E) in Hget. by injection Hget as <-.
      + left. rewrite (aget_aset_ne _ _ _ i _ E) in Hget by done. split; [lia|]. split; [done|].
        by exists arr.
    - intros [(Hir & Hp & a & Ha' & Hget)|[-> ->]].
      + split; [lia|]. split; [done|]. exists arr'. split; [done|].
        rewrite Ha in Ha'. injection Ha' as <-. by rewrite (aget_aset_ne _ _ _ i _ E) by lia.
      + split; [lia|]. split; [done|]. exists arr'. split; [done|]. by apply (aget_aset_eq _ _ _ _ E). }
  assert (pickups_size s' = index + 1) as Hsz by (cbn; rewrite Hs, (wrap_small 32) by lia; done).
  split; [done|]. split; [|by split_and!]. split; rewrite ?Hsz; cbn.
  - done.
  - lia.
  - right. exists arr'. split; [done|]. rewrite (aset_len _ _ _ _ E). lia.
  - intros i pk [Hx|[-> ->]]%Havail; [by apply (Hav i)|]. cbn. by rewrite Hcells.
  - eapply tbl_ok_weaken; [|instantiate (1 := 9 * index + 9); lia].
    eapply tbl_ok_ext; [|eapply (tbl_ok_frame _ _ (s <| table := t |>)); [..|exact Hok']; done].
    intros i c _. cbn. unfold listed. setoid_rewrite Havail. cbn. split.
    + intros [(pk & Hx & Ht')|[-> Ht']]; [by exists pk; auto|].
      exists (pickup <| picked_up := false |>). auto.
    + intros (pk & [Hx|[-> ->]] & Ht'); [left; by exists pk|by right].
Qed.

(** Adding a pickup: it gets the next index, is listed in the cells its circle
    touches, and nothing else changes. *)
Lemma add_pickup_ok pickup s : pickups_ok s -> pickups_size s < 2 ^ 24 - 2 ->
  is_Some (cells_around (center (collider pickup)) (t_width s) (t_height s)) ->
  wp (add_pickup junk_pickup junk_index pickup)
    (fun r s' => r = Z.max 1 (pickups_size s) /\ pickups_ok s' /\ pickups_size s' = r + 1 /\
       t_width s' = t_width s /\ t_height s' = t_height s /\
       forall i pk, available s' i pk <->
         available s i pk \/ i = r /\ pk = pickup <| picked_up := false |>) s.
Proof.
  intros [Hm Hs Harr Hav Htab] Hmax [cells Hcells]. unfold add_pickup. do 3 wp_step.
  destruct (Z.eqb_spec (pickups_size s) 0) as [Hz|Hnz].
  - wp_step. apply wp_malloc_ok; [done|]. wp_steps. cbn [negb].
    set (s1 := s <| pickups := _ |> <| pickups_size := 1 |>).
    assert (forall i pk, available s i pk <-> available s1 i pk) as Heq.
    { intros i pk. unfold available. cbn. split; lia. }
    eapply wp_mono; [apply (add_pickup_tail pickup s1 1 [junk_pickup; junk_pickup] cells); try done|].
    + intros i pk Hx. cbn. apply (Hav i). by apply Heq.
    + eapply tbl_ok_weaken; [|instantiate (1 := 9 * pickups_size s); lia].
      eapply tbl_ok_ext; [|eapply (tbl_ok_frame _ _ s); [..|exact Htab]; done].
      intros i c _. unfold listed. by setoid_rewrite Heq.
    + intros r s' (-> & ? & ? & ? & ? & Hx). split; [lia|]. split_and!; try done.
      intros i pk. by rewrite Heq.
  - destruct Harr as [?|(arr & Ha & Hlen)]; [done|]. unfold pickup_array. wp_steps. rewrite Ha.
    cbn [deref defined]. wp_steps. apply wp_malloc_ok; [done|]. wp_steps. cbn [negb].
    set (arr1 := resize (Z.to_nat (pickups_size s + 1)) junk_pickup arr). set (s1 := s <| pickups := _ |>).
    assert (forall i pk, available s i pk <-> available s1 i pk) as Heq.
    { intros i pk. unfold available. cbn. rewrite Ha. split; intros (Hi & Hp & a & [= <-] & Hg);
        (split; [done|]; split; [done|]; eexists; split; [done|]); unfold aget, arr1, alen in *;
        destruct (Z.ltb_spec i 0); try done.
      - by rewrite lookup_resize by lia.
      - by rewrite lookup_resize in Hg by lia. }
    eapply wp_mono; [apply (add_pickup_tail pickup s1 (pickups_size s) arr1 cells); try done|].
    + unfold arr1, alen. rewrite length_resize. lia.
    + lia.
    + intros i pk Hx. cbn. apply (Hav i). by apply Heq.
    + eapply tbl_ok_ext; [|eapply (tbl_ok_frame _ _ s); [..|exact Htab]; done].
      intros i c _. unfold listed. by setoid_rewrite Heq.
    + intros r s' (-> & ? & ? & ? & ? & Hx). split; [lia|]. split_and!; try done.
      intros i pk. by rewrite Heq.
Qed.

Lemma delete_pickup_ok s idx pk : pickups_ok s -> available s idx pk ->
  wp (delete_pickup idx) (fun _ s' => pickups_ok s' /\ pickups_size s' = pickups_size s /\
    t_width s' = t_width s /\ t_height s' = t_height s /\
    forall i q, available s' i q <-> available s i q /\ i <> idx) s.
Proof.
  intros [Hm Hs Harr Hav Htab] Hidx. pose proof Hidx as (Hi & Hp & arr & Ha & Hg).
  destruct (Hav _ _ Hidx) as [cells Hcells].
  destruct Harr as [?|(arr' & Ha' & Hlen)]; [lia|]. rewrite Ha in Ha'. injection Ha' as <-.
  unfold delete_pickup. do 2 wp_step. destruct (Z.leb_spec (pickups_size s) idx); [lia|].
  unfold pickup_array. wp_steps. rewrite Ha. cbn [deref defined]. wp_steps. rewrite Hg. cbn [defined].
  wp_steps. destruct (aset arr idx (pk <| picked_up := true |>)) as [arr'|] eqn:E.
  2: { by rewrite aset_Some in E by lia. }
  cbn [defined]. wp_steps. set (s1 := s <| pickups := Live arr' |>).
  destruct (remove_collision_spec (listed s) (9 * pickups_size s) (center (collider pk)) idx s1 cells)
    as (t & Ht & Hok); [|lia|done|].
  { eapply tbl_ok_frame; [..|exact Htab]; done. }
  eapply wp_Done_eq; [exact Ht|]. set (s' := s1 <| table := t |>).
  assert (forall i q, available s' i q <-> available s i q /\ i <> idx) as Havail.
  { intros i q. unfold available. cbn. rewrite Ha. destruct (decide (i = idx)) as [->|Hne].
    - split; [|by intros []]. intros (_ & Hq & a & [= <-] & Hget).
      rewrite (aget_aset_eq _ _ _ _ E) in Hget. injection Hget as <-. done.
    - split; [intros (? & ? & a & [= <-] & Hget)|intros [(? & ? & a & [= <-] & Hget) _]].
      + rewrite (aget_aset_ne _ _ _ i _ E) in Hget by done. split; [|done]. split_and!; try done; try lia. by exists arr.
      + split_and!; try done; try lia. exists arr'. split; [done|]. by rewrite (aget_aset_ne _ _ _ i _ E) by done. }
  split; [|by split_and!]. split; cbn; try done.
  - right. exists arr'. split; [done|]. by rewrite (aset_len _ _ _ _ E).
  - intros i q [Hx _]%Havail. by apply (Hav i).
  - eapply tbl_ok_ext; [|exact Hok]. intros i c Hnz. unfold listed. setoid_rewrite Havail. cbn. split.
    + intros [(q & Hq & Ht') Hn]. exists q. split; [split; [done|]|done]. intros ->. apply Hn. split; [done|].
      destruct Hq as (_ & _ & a & Ha2 & Hg2). rewrite Ha in Ha2. injection Ha2 as <-.
      rewrite Hg in Hg2. injection Hg2 as <-. destruct Ht' as (cs & Hcs & ? & _). cbn in *.
      rewrite Hcells in Hcs. by injection Hcs as <-.
    + intros (q & [Hq Hne] & Ht'). split; [by exists q|]. by intros [? _].
Qed.

(** *** The scan of a cell *)

(** A square is not negative: documented for [pow(x, 2)]. *)
Context (pow_square_nonneg : forall x, nonneg (dpow x (dint 2)) = true).

Definition dist_to (pos : vector_t) (pk : pickup_t) : double :=
  dist_positions_squared pos (center (collider pk)).
Definition reach (pos : vector_t) (pk : pickup_t) : Prop :=
  dle (dist_to pos pk) (dmul (radius (collider pk)) (radius (collider pk))) = true.

Definition near (arr : list pickup_t) (pos : vector_t) (i : Z) (d : double) : Prop :=
  exists pk, aget arr i = Some pk /\ reach pos pk /\ d = dist_to pos pk.

Definition best_of (arr : list pickup_t) (pos : vector_t) (seen : list Z) (best : Z * double) : Prop :=
  (best = (0, dint (-1)) /\ forall j d, j ∈ seen -> ~ near arr pos j d) \/
  (best.1 ∈ seen /\ near arr pos best.1 best.2 /\
   forall j d, j ∈ seen -> near arr pos j d -> dlt d best.2 = false).

Lemma near_dist arr pos i d : near arr pos i d -> deq d (dint (-1)) = false.
Proof.
  intros (pk & _ & _ & ->). apply nonneg_not_minus_one. unfold dist_to, dist_positions_squared.
  by apply nonneg_dadd.
Qed.
Lemma near_fun arr pos i d d' : near arr pos i d -> near arr pos i d' -> d = d'.
Proof. intros (pk & E & _ & ->) (pk' & E' & _ & ->). rewrite E in E'. by injection E' as <-. Qed.

Lemma scan_entry_best arr pos seen i best : is_Some (aget arr i) -> best_of arr pos seen best ->
  exists best', scan_entry arr pos i best = Some best' /\ best_of arr pos (seen ++ [i]) best'.
Proof.
  intros [pk Hpk] Hb. unfold scan_entry. rewrite Hpk.
  change (dist_positions_squared pos (center (collider pk))) with (dist_to pos pk).
  assert (forall j, j ∈ seen ++ [i] <-> j ∈ seen \/ j = i) as Hin
    by (intros; by rewrite elem_of_app, list_elem_of_singleton).
  destruct (dle _ _) eqn:Hr.
  - assert (near arr pos i (dist_to pos pk)) as Hn by (by exists pk).
    destruct (_ || _) eqn:Et.
    + eexists. split; [reflexivity|]. right. cbn. split_and!; [apply Hin; by right|done|].
      intros j d [Hj| ->]%Hin Hd; [|rewrite (near_fun _ _ _ _ _ Hd Hn); apply dlt_irrefl].
      destruct Hb as [[-> Hno]|(_ & Hbn & Hmin)]; [by destruct (Hno j d)|].
      rewrite (near_dist _ _ _ _ Hbn) in Et. cbn in Et.
      destruct (dlt d (dist_to pos pk)) eqn:E; [|done].
      rewrite <- (Hmin j d Hj Hd). symmetry. by eapply dlt_trans.
    + apply orb_false_iff in Et as [E1 E2]. exists best. split; [done|]. right.
      destruct Hb as [[-> Hno]|(Hs & Hbn & Hmin)]; [done|]. split_and!; [apply Hin; by left|done|].
      intros j d [Hj| ->]%Hin Hd; [by apply (Hmin j)|]. by rewrite (near_fun _ _ _ _ _ Hd Hn).
  - exists best. split; [done|].
    assert (forall d, ~ near arr pos i d) as Hi.
    { intros d (pk' & E & Hr' & _). rewrite Hpk in E. injection E as <-. unfold reach in Hr'. congruence. }
    destruct Hb as [[-> Hno]|(Hs & Hbn & Hmin)]; [left|right].
    + split; [done|]. intros j d [Hj| ->]%Hin; [by apply Hno|by apply Hi].
    + split_and!; [apply Hin; by left|done|]. intros j d [Hj| ->]%Hin Hd; [by apply (Hmin j)|by destruct (Hi d)].
Qed.

Lemma scan_list_best arr pos ix : forall seen best, Forall (fun i => is_Some (aget arr i)) ix ->
  best_of arr pos seen best ->
  exists best', scan_list arr pos ix best = Some best' /\ best_of arr pos (seen ++ ix) best'.
Proof.
  induction ix as [|i ix IH]; intros seen best Hix Hb; [exists best; by rewrite app_nil_r|].
  apply Forall_cons in Hix as [Hi Hix]. cbn [scan_list].
  destruct (scan_entry_best arr pos seen i best Hi Hb) as (b1 & -> & Hb1).
  destruct (IH _ _ Hix Hb1) as (b2 & Hb2 & Hok). exists b2. by rewrite <- app_assoc in Hok.
Qed.

(** A position the conversions of the scan are defined on. *)
Record pos_ok (pos : vector_t) : Prop := mk_pos_ok {
  ps_vx : dvalid (vx pos) = true /\ vx pos <> S754_nan /\ is_Some (dto_int (vx pos));
  ps_vy : dvalid (vy pos) = true /\ vy pos <> S754_nan /\ is_Some (dto_int (vy pos));
}.

(** The guard of the scan: the position is on the table. *)
Definition on_table (s : pickups_t) (pos : vector_t) : bool :=
  negb (dlt (vx pos) (dint 0) || dlt (vy pos) (dint 0) ||
        dge (vy pos) (dint (t_height s)) || dge (vx pos) (dint (t_width s))).

(** Pickup [q] is available and, from cell [c], in reach. *)
Definition candidate (s : pickups_t) (pos : vector_t) (c : Z * Z) (i : Z) (q : pickup_t) : Prop :=
  available s i q /\ touches (t_width s) (t_height s) (collider q) c /\ reach pos q.

(** What the scan of cell [c] finds: the nearest candidate; nothing only if
    there is none, or if the never initialised slot 0, which deleted entries
    point to, happens to be in reach and at least as near. *)
Definition closest (s : pickups_t) (pos : vector_t) (c : Z * Z) (r : Z) : Prop :=
  if r =? 0 then
    forall i q, candidate s pos c i q -> exists arr slot0, pickups s = Live arr /\
      aget arr 0 = Some slot0 /\ reach pos slot0 /\ dlt (dist_to pos q) (dist_to pos slot0) = false
  else exists pk, candidate s pos c r pk /\
    forall i q, candidate s pos c i q -> dlt (dist_to pos q) (dist_to pos pk) = false.

Definition found (s : pickups_t) (pos : vector_t) (r : Z) : Prop :=
  if on_table s pos
  then exists x y, dto_int (vx pos) = Some x /\ dto_int (vy pos) = Some y /\ closest s pos (x, y) r
  else r = 0.

Lemma best_closest s pos x y l arr best : pickups_ok s -> pickups s = Live arr ->
  table_at x y s = Some l -> best_of arr pos (live l) best -> closest s pos (x, y) best.1.
Proof.
  intros Hok Ha Hl Hb. pose proof (tb_touch _ _ _ (pk_table _ Hok)) as Htouch.
  assert (forall i q, candidate s pos (x, y) i q -> i ∈ live l /\ near arr pos i (dist_to pos q)) as Hc.
  { intros i q (Hav & Ht & Hr). pose proof Hav as (Hi & _ & a & Ha' & Hg). rewrite Ha in Ha'.
    injection Ha' as <-. split; [|by exists q].
    apply (Htouch x y l i Hl); [lia|]. by exists q. }
  unfold closest. destruct Hb as [[-> Hno]|(Hin & Hn & Hmin)].
  { cbn. intros i q [Hi Hq]%Hc. by destruct (Hno i (dist_to pos q) Hi). }
  pose proof Hn as (pk & Hg & Hr & Hd). destruct (Z.eqb_spec best.1 0) as [E|Hne].
  - intros i q [Hi Hq]%Hc. exists arr, pk. rewrite <- E. split_and!; try done.
    rewrite <- Hd. by apply (Hmin i).
  - destruct (proj1 (Htouch x y l _ Hl Hne) Hin) as (pk' & Hav & Ht). exists pk'.
    pose proof Hav as (_ & _ & a & Ha' & Hg'). rewrite Ha in Ha'. injection Ha' as <-.
    rewrite Hg in Hg'. injection Hg' as <-. split; [by split_and!|].
    intros i q [Hi Hq]%Hc. rewrite <- Hd. by apply (Hmin i).
Qed.

Lemma check_pickup_spec p s : pickups_ok s -> pos_ok (position p) ->
  t_width s < 2 ^ 16 -> t_height s < 2 ^ 16 ->
  wp (check_player_pickup_collision p) (fun r s' => s' = s /\ found s (position p) r) s.
Proof.
  intros Hok [(Hvx & Hnx & [x Hx]) (Hvy & Hny & [y Hy])] Hw Hh.
  pose proof Hok as [Hm Hs Harr Hav [Htw Hth Hshape Hlist Htouch]].
  unfold check_player_pickup_collision, found, on_table. rewrite Hx, Hy. cbn [defined]. wp_steps. unfold id.
  destruct (_ || _) eqn:Eg; cbn [negb]; [by wp_step|].
  apply orb_false_iff in Eg as [[[Eg1 Eg2]%orb_false_iff Eg3]%orb_false_iff Eg4].
  destruct (dto_int_below (vx (position p)) (t_width s)) as (x' & Ex & Hxr); [done|done|lia|done..|].
  destruct (dto_int_below (vy (position p)) (t_height s)) as (y' & Ey & Hyr); [done|done|lia|done..|].
  rewrite Hx in Ex. rewrite Hy in Ey. injection Ex as <-. injection Ey as <-.
  rewrite !(wrap_small 16) by lia. destruct (proj2 (Hshape x y)) as [l Hl]; [done|].
  rewrite Hl. cbn [defined]. wp_steps. pose proof (Hlist _ _ _ Hl) as [[Hn Hmx Hblk] _].
  assert (forall i, i ∈ live l -> exists arr, pickups s = Live arr /\ is_Some (aget arr i)) as Hent.
  { intros i Hi. destruct Harr as [Hz|(arr & Ha & Hlen)].
    { unfold live in Hi. replace (num_of_indexes l) with 0 in Hi by lia. by apply elem_of_nil in Hi. }
    exists arr. split; [done|]. apply aget_is_Some. destruct (Z.eq_dec i 0) as [->|Hne].
    - destruct (Z.eq_dec (pickups_size s) 0); [|lia]. unfold live in Hi.
      replace (num_of_indexes l) with 0 in Hi by lia. by apply elem_of_nil in Hi.
    - destruct (proj1 (Htouch _ _ _ _ Hl Hne) Hi) as (pk & (Hir & _) & _). lia. }
  assert (best_of [] (position p) [] (0, dint (-1))) as H00 by (left; split; [done|]; by intros ? ? ?%elem_of_nil).
  destruct (Z.eqb_spec (num_of_indexes l) 0) as [Hz|Hnz].
  - wp_step. split; [done|]. exists x, y. split; [done|]. split; [done|]. cbn.
    intros i q (Ha & Ht & _). assert (i ∈ live l) as Hi.
    { apply (Htouch x y l i Hl); [destruct Ha; lia|]. by exists q. }
    unfold live in Hi. rewrite Hz in Hi. by apply elem_of_nil in Hi.
  - destruct (live l) as [|i0 ix] eqn:El.
    { apply (f_equal length) in El. unfold live in El. rewrite length_take in El. unfold alen in Hblk. cbn in El. lia. }
    destruct (Hent i0) as (arr & Ha & _); [by left|]. rewrite <- El in *.
    unfold pickup_array. wp_steps. rewrite Ha. cbn [deref defined]. wp_steps.
    destruct (Z.ltb_spec (alen (indexes l)) (num_of_indexes l)); [lia|]. wp_steps.
    destruct (scan_list_best arr (position p) (live l) [] (0, dint (-1))) as (best & Hb & Hbest).
    { apply Forall_forall. intros i Hi. destruct (Hent i Hi) as (arr' & Ha' & Hg). congruence. }
    { left. split; [done|]. by intros ? ? ?%elem_of_nil. }
    fold (live l). rewrite Hb. cbn [defined]. wp_steps. split; [done|]. exists x, y.
    split; [done|]. split; [done|]. by eapply best_closest.
Qed.

(** *** Visits

    Players pass by one after the other; each tick, as in [player_int_ih], a
    player in reach of a pickup tries to take it.  The indexes taken. *)
Definition visit (p : player_info_t) : prog pickups_t (list Z) :=
  idx <- check_player_pickup_collision p ;;
  if 0 <? idx then
    ('(got, _) <- pickup_index p idx ;; ret (if (got : bool) then [idx] else []))
  else ret [].
Fixpoint visits (ps : list player_info_t) : prog pickups_t (list Z) :=
  match ps with
  | [] => ret []
  | p :: ps => taken <- visit p ;; rest <- visits ps ;; ret (taken ++ rest)
  end.

Definition visitor_ok (s : pickups_t) (p : player_info_t) : Prop :=
  pos_ok (position p) /\ forall i pk, available s i pk -> is_Some (pickup_handler p pk).

(** [taken] left [s] for [s']. *)
Definition took (s : pickups_t) (taken : list Z) (s' : pickups_t) : Prop :=
  pickups_ok s' /\ t_width s' = t_width s /\ t_height s' = t_height s /\
  (forall i, i ∈ taken -> exists pk, available s i pk) /\
  forall i pk, available s' i pk <-> available s i pk /\ i ∉ taken.

Lemma took_nil s : pickups_ok s -> took s [] s.
Proof.
  intros Hok. split; [done|]. split_and!; try done; [by intros i ?%elem_of_nil|].
  intros i pk. rewrite elem_of_nil. tauto.
Qed.

(** The pickup found is taken, or refused. *)
Lemma pickup_index_spec p s idx pk got p' : pickups_ok s -> available s idx pk ->
  pickup_handler p pk = Some (got, p') ->
  wp (pickup_index p idx) (fun r s' => r = (got, p') /\ took s (if got then [idx] else []) s') s.
Proof.
  intros Hok Hpk Hrun. pose proof Hpk as (_ & _ & arr & Ha & Hg). unfold pickup_index, pickup_array. wp_steps. rewrite Ha.
  cbn [deref defined]. wp_steps. rewrite Hg. cbn [defined]. wp_steps. rewrite Hrun. cbn [defined]. wp_steps.
  destruct got; [|wp_step; split; [done|by apply took_nil]].
  wp_step. eapply wp_mono; [by eapply delete_pickup_ok|]. intros [] s' (Hok' & _ & Ew & Eh & Hav').
  wp_step. split; [done|]. split; [done|]. split_and!; try done.
  - intros i ->%list_elem_of_singleton. by exists pk.
  - intros i q. by rewrite Hav', list_elem_of_singleton.
Qed.
Lemma found_available s pos idx : found s pos idx -> 0 < idx -> exists pk, available s idx pk.
Proof.
  intros Hf Hi. unfold found in Hf. destruct (on_table _ _); [|lia].
  destruct Hf as (x & y & _ & _ & Hc). unfold closest in Hc.
  destruct (Z.eqb_spec idx 0); [lia|]. destruct Hc as (pk & (Ha & _) & _). by exists pk.
Qed.

Lemma visit_spec p s : pickups_ok s -> visitor_ok s p -> t_width s < 2 ^ 16 -> t_height s < 2 ^ 16 ->
  wp (visit p) (fun taken s' => took s taken s' /\ NoDup taken) s.
Proof.
  intros Hok [Hpos Hhand] Hw Hh. unfold visit. wp_step.
  eapply wp_mono; [by apply check_pickup_spec|]. intros idx s' [-> Hf].
  destruct (Z.ltb_spec 0 idx) as [Hi|Hi]; [|wp_step; split; [by apply took_nil|constructor]].
  destruct (found_available _ _ _ Hf Hi) as [pk Hpk]. destruct (Hhand _ _ Hpk) as [[got p'] Hrun].
  wp_step. eapply wp_mono; [by eapply pickup_index_spec|]. intros r s' [-> Ht]. wp_step. split; [done|].
  destruct got; [apply NoDup_singleton|constructor].
Qed.

Lemma visitor_ok_took s taken s' p : took s taken s' -> visitor_ok s p -> visitor_ok s' p.
Proof. intros (_ & _ & _ & _ & Hav) [Hp Hh]. split; [done|]. intros i pk [Ha _]%Hav. by eapply Hh. Qed.


(** What the player at a position can take is decided by the cell it
    stands in: the scan of that cell returns the available pickup nearest to
    the player among those whose circle touches the cell and contains the
    player, and 0 if there is none.  It returns 0 in one more case, since
    deleted entries point to slot 0 of the array, which is never initialised:
    if whatever that slot holds is in reach and at least as near.  Off the
    table the answer is 0, and nothing is changed. *)
Lemma closest_pickup p s : pickups_ok s -> pos_ok (position p) ->
  t_width s < 2 ^ 16 -> t_height s < 2 ^ 16 ->
  wp (check_player_pickup_collision p) (fun r s' => s' = s /\ found s (position p) r) s.
Proof. apply check_pickup_spec. Qed.

(** *** Every pickup of the array, taken or not *)
Definition all_pickups (P : pickup_t -> Prop) (s : pickups_t) : Prop :=
  forall arr i pk, pickups s = Live arr -> 1 <= i < pickups_size s -> aget arr i = Some pk -> P pk.

Lemma set_table_at_array x y l : keeps (fun s => (pickups s, pickups_size s)) (set_table_at x y l).
Proof. intros s [] s'. unfold set_table_at. repeat case_match; try done. by intros [= <-]. Qed.
#[local] Hint Resolve set_table_at_array : framing.
Lemma delete_pickup_all P idx : (forall pk, P pk -> P (pk <| picked_up := true |>)) ->
  respects (stays (all_pickups P)) (delete_pickup idx).
Proof.
  intros HP s r s' E Hall. refine (wlp_Done _ (fun _ => all_pickups P) _ _ _ _ E). clear E. unfold delete_pickup. wlp_steps. destruct (Z.leb_spec (pickups_size s) idx); wlp_steps; [done|].
  unfold pickup_array. wlp_steps. destruct (pickups s) as [|arr|] eqn:Ea; try done.
  match goal with H : deref _ = _ |- _ => injection H as -> end. wlp_steps.
  match goal with H : aset _ _ _ = Some ?b |- _ => rename H into Es; rename b into arr' end.
  match goal with H : aget _ _ = Some ?b |- _ => rename H into Eg; rename b into pk end.
  apply (wlp_respects (same (fun s => (pickups s, pickups_size s)))); [unfold remove_collision; keeps_tac|].
  intros [] s1 [= Ep Esz] arr2 i q Ha Hi Hq. rewrite Ep in Ha. injection Ha as <-. rewrite Esz in Hi. cbn in Hi.
  destruct (decide (i = idx)) as [->|Hne].
  - rewrite (aget_aset_eq _ _ _ _ Es) in Hq. injection Hq as <-. apply HP. by eapply Hall.
  - rewrite (aget_aset_ne _ _ _ i _ Es) in Hq by done. by eapply Hall.
Qed.

(** A pickup that can be drawn. *)
Definition animated (pk : pickup_t) : Prop := exists a, animation pk = Some a /\ anim_ok a.
(** The same pickup at another frame of its animation. *)
Definition redrawn (pk pk' : pickup_t) : Prop := pk' = pk <| animation := animation pk' |> /\ (animated pk -> animated pk').

Lemma redrawn_available arr arr' s i : Forall2 redrawn arr arr' -> pickups s = Live arr ->
  (forall pk', available (s <| pickups := Live arr' |>) i pk' -> exists pk, available s i pk /\ redrawn pk pk') /\
  (forall pk, available s i pk -> exists pk', available (s <| pickups := Live arr' |>) i pk' /\ redrawn pk pk').
Proof.
  intros Hr Ha. split.
  - intros pk' (Hi & Hp & a & [= <-] & Hg). unfold aget in Hg. destruct (Z.ltb_spec i 0); [done|].
    destruct (Forall2_lookup_r _ _ _ _ _ Hr Hg) as (pk & Hpk & Hrd). exists pk. split; [|done].
    split; [exact Hi|]. pose proof Hrd as [E _]. rewrite E in Hp. split; [exact Hp|]. exists arr. split; [done|].
    unfold aget. by destruct (Z.ltb_spec i 0); [lia|].
  - intros pk (Hi & Hp & a & Ha' & Hg). rewrite Ha in Ha'. injection Ha' as <-.
    unfold aget in Hg. destruct (Z.ltb_spec i 0); [done|].
    destruct (Forall2_lookup_l _ _ _ _ _ Hr Hg) as (pk' & Hpk & Hrd). exists pk'. split; [|done].
    split; [exact Hi|]. pose proof Hrd as [E _]. rewrite E. split; [exact Hp|]. exists arr'. split; [done|].
    unfold aget. destruct (Z.ltb_spec i 0); [lia|]. by rewrite <- E.
Qed.
Lemma redrawn_ok arr arr' s : pickups_ok s -> Forall2 redrawn arr arr' -> pickups s = Live arr ->
  pickups_ok (s <| pickups := Live arr' |>).
Proof.
  intros [Hm Hs Harr Hav Htab] Hr Ha. split; cbn; try done.
  - destruct Harr as [?|(a & Ha' & Hl)]; [by left|right]. exists arr'. split; [done|].
    rewrite Ha in Ha'. injection Ha' as <-. unfold alen in *. by rewrite <- (Forall2_length _ _ _ Hr).
  - intros i pk' Hpk. apply (proj1 (redrawn_available _ _ _ i Hr Ha)) in Hpk as (pk & Hpk & -> & _). by apply (Hav i pk).
  - eapply tbl_ok_ext; [|eapply tbl_ok_frame; [..|exact Htab]; done]. intros i c _. unfold listed. split.
    + intros (pk & (pk' & Hpk & E & _)%(redrawn_available _ _ _ i Hr Ha) & Ht). exists pk'. split; [done|]. by rewrite E.
    + intros (pk' & (pk & Hpk & E & _)%(redrawn_available _ _ _ i Hr Ha) & Ht). exists pk. split; [done|]. by rewrite E in Ht.
Qed.

(** Every pickup moves to its next frame; nothing else changes. *)
Lemma update_pickups_spec t s : pickups_ok s -> 0 <= t -> all_pickups animated s ->
  wp (update_pickups t) (fun _ s' => s' = s \/ exists arr arr', pickups s = Live arr /\ Forall2 redrawn arr arr' /\
    s' = s <| pickups := Live arr' |>) s.
Proof.
  intros Hok Ht Hall. unfold update_pickups. wp_steps. destruct (pk_array _ Hok) as [E|(arr & Ha & Hl)].
  { rewrite E. change (seqZ 1 (0 - 1)) with (@nil Z). cbn [for_each]. wp_step. by left. }
  apply (wp_for_each _ _ (fun l s1 => (forall i, i ∈ l -> 1 <= i < pickups_size s) /\
    exists arr', Forall2 redrawn arr arr' /\ s1 = s <| pickups := Live arr' |>)).
  - intros i l s1 (Hl' & arr1 & Hr & ->). assert (1 <= i < pickups_size s) as Hi by (apply Hl'; by left).
    unfold pickup_array. wp_steps. cbn [deref defined pickups set]. wp_steps.
    assert (alen arr1 = alen arr) as El by (unfold alen; by rewrite (Forall2_length _ _ _ Hr)).
    destruct (proj2 (aget_is_Some arr1 i)) as [pk1 Hpk1]; [lia|]. rewrite Hpk1. cbn [defined]. wp_steps.
    assert (aget arr1 i = arr1 !! Z.to_nat i) as Eg by (unfold aget; by destruct (Z.ltb_spec i 0); [lia|]).
    rewrite Eg in Hpk1. destruct (Forall2_lookup_r _ _ _ _ _ Hr Hpk1) as (pk & Hpk & Epk & Hanim).
    destruct Hanim as (a & Han & Haok).
    { apply (Hall arr i); [done|done|]. unfold aget. by destruct (Z.ltb_spec i 0); [lia|]. }
    rewrite Han. cbn [defined]. wp_steps. destruct (update_anim_step t a Haok Ht) as (a' & k & -> & _ & Ha' & _).
    rewrite aset_Some by lia. cbn [defined]. wp_steps. split; [intros j Hj; apply Hl'; by right|].
    exists (<[Z.to_nat i := pk1 <| animation := Some a' |>]> arr1). split; [|done].
    rewrite <- (list_insert_id arr (Z.to_nat i) pk) by done. apply Forall2_insert; [done|].
    split; [rewrite Epk; by destruct pk|]. intros _. by exists a'.
  - intros s1 (_ & arr' & Hr & ->). right. exists arr, arr'. by split_and!.
  - split; [intros i Hi%elem_of_seqZ; lia|]. exists arr. split; [|by destruct s; cbn in Ha; subst].
    apply Forall_Forall2_diag, Forall_forall. intros pk _. split; [by destruct pk|done].
Qed.

(** *** Setting up a level *)
Definition add_one (a : details * vector_t * double) : prog pickups_t Z :=
  let '(d, pos, r) := a in
  match d with
  | AMMO packets k => add_ammo junk_pickup junk_index pos r k packets
  | MEDKIT h => add_medkit junk_pickup junk_index pos r h
  | ARMOR q => add_armor junk_pickup junk_index pos r q
  end.
Fixpoint add_all (l : list (details * vector_t * double)) : prog pickups_t (list Z) :=
  match l with
  | [] => ret []
  | a :: l => i <- add_one a ;; ids <- add_all l ;; ret (i :: ids)
  end.

Definition describes (a : details * vector_t * double) (pk : pickup_t) : Prop :=
  pk_details pk = a.1.1 /\ collider pk = mk_circle a.1.2 a.2 /\ is_Some (animation pk).

Lemma add_one_ok a s : pickups_ok s -> pickups_size s < 2 ^ 24 - 2 ->
  is_Some (cells_around a.1.2 (t_width s) (t_height s)) ->
  wp (add_one a) (fun r s' => r = Z.max 1 (pickups_size s) /\ pickups_ok s' /\ pickups_size s' = r + 1 /\
    t_width s' = t_width s /\ t_height s' = t_height s /\
    exists new, describes a new /\ forall i pk, available s' i pk <->
      available s i pk \/ i = r /\ pk = new) s.
Proof.
  destruct a as [[d pos] r]. intros Hok Hsz Hc. cbn [fst snd] in *.
  assert (forall anims anim, (forall Q, Q (Some anim) s -> wp anims Q s) ->
    wp (add_details junk_pickup junk_index d anims pos r) (fun r0 s' =>
      r0 = Z.max 1 (pickups_size s) /\ pickups_ok s' /\ pickups_size s' = r0 + 1 /\
      t_width s' = t_width s /\ t_height s' = t_height s /\
      exists new, describes (d, pos, r) new /\ forall i pk, available s' i pk <->
        available s i pk \/ i = r0 /\ pk = new) s) as H.
  { intros anims anim Hanims. unfold add_details. wp_step. apply wp_malloc_ok; [apply Hok|].
    cbn [negb]. wp_step. apply Hanims. eapply wp_mono; [by apply add_pickup_ok|].
    intros i s' (-> & ? & ? & ? & ? & Hav). split_and!; try done. eexists. split; [|exact Hav]. by split_and!. }
  destruct d; eapply H; intros Q HQ; (unfold init_ammo_anims, init_medi_anims, init_armor_anims;
    wp_step; apply wp_malloc_ok; [apply Hok|]; wp_step; exact HQ).
Qed.

(** What holds of the new pickup and of the old ones holds of all. *)
Lemma wlp_malloc_ok (Q : bool -> pickups_t -> Prop) s : (forall b l, Q b (s <| mallocs := l |>)) -> wlp malloc_ok Q s.
Proof.
  intros H. unfold wlp, malloc_ok. destruct (mallocs s) as [|b l] eqn:E; [|apply H]. specialize (H true []). by destruct s; cbn in E; subst.
Qed.
Lemma malloc_ok_array : keeps (fun s => (pickups s, pickups_size s)) malloc_ok.
Proof. intros s b s'. unfold malloc_ok. by destruct (mallocs s); intros [= _ <-]. Qed.
#[local] Hint Resolve malloc_ok_array : framing.
Lemma add_collision_array p i : keeps (fun s => (pickups s, pickups_size s)) (add_collision junk_index p i).
Proof.
  unfold add_collision. apply keeps_bind; [apply _|keeps_tac|intros o]. apply keeps_bind; [apply _|keeps_tac|intros cells].
  induction cells as [|[x y] cells IH]; cbn [add_to_cells]; unfold add_to_list; keeps_tac.
Qed.

Lemma aget_resize_lt {A} (l : list A) n x i : 0 <= i < alen l -> i < Z.of_nat n -> aget (resize n x l) i = aget l i.
Proof.
  intros Hi Hn. unfold aget, alen in *. destruct (Z.ltb_spec i 0); [lia|]. apply lookup_resize; lia.
Qed.
Lemma add_pickup_all P pickup s : pickups_ok s -> all_pickups P s -> P (pickup <| picked_up := false |>) ->
  wlp (add_pickup junk_pickup junk_index pickup) (fun _ => all_pickups P) s.
Proof.
  intros [_ Hs Harr _ _] Hall Hnew. unfold add_pickup, pickup_array. wlp_steps.
  assert (forall s1, all_pickups P s1 -> 0 <= pickups_size s1 < 2 ^ 24 ->
    wlp (index <- gets pickups_size ;;
      err <- add_collision junk_index pickup index ;;
      if negb (err =? OK) then ret 0 else
      arr <- (p <- gets pickups ;; defined (deref p)) ;;
      arr <- defined (aset arr index (pickup <| picked_up := false |>)) ;;
      modify (fun s => s <| pickups := Live arr |> <| pickups_size ::= (fun n => u32 (n + 1)) |>) ;;;
      ret index) (fun _ => all_pickups P) s1) as Hrest.
  { intros s1 H1 Hs1. wlp_steps. apply (wlp_respects (same (fun s => (pickups s, pickups_size s)))); [apply add_collision_array|].
    intros err s2 [= Ep Esz]. assert (all_pickups P s2) as H2 by (intros arr i pk; rewrite Ep, Esz; apply H1).
    destruct (negb (err =? OK)); wlp_steps; [exact H2|]. destruct (pickups s2) as [|arr|] eqn:Ea; try done.
    match goal with H : deref _ = Some _ |- _ => injection H as <- end.
    match goal with H : aset _ _ _ = Some ?b |- _ => rename H into Es; rename b into arr' end.
    intros arr2 i q [= <-] Hi Hq. cbn in Hi. rewrite Esz, (wrap_small 32) in Hi by lia.
    destruct (Z.eq_dec i (pickups_size s1)) as [->|Hne].
    - rewrite (aget_aset_eq _ _ _ _ Es) in Hq. by injection Hq as <-.
    - rewrite (aget_aset_ne _ _ _ i _ Es) in Hq by done. apply (H2 arr i); [exact Ea|rewrite Esz; lia|exact Hq]. }
  destruct (Z.eqb_spec (pickups_size s) 0) as [Ez|Hnz].
  - wlp_step. apply wlp_malloc_ok. intros [] l; wlp_steps; cbn [negb].
    + apply Hrest; [|cbn; lia]. intros arr i pk _ Hi. cbn in Hi. lia.
    + wlp_step. intros arr i pk [=].
  - destruct Harr as [?|(arr & Ha & Hl)]; [done|]. do 3 wlp_step. apply wlp_defined. intros b Hd. rewrite Ha in Hd. injection Hd as <-.
    wlp_step. apply wlp_malloc_ok. intros [] l; wlp_steps; cbn [negb].
    + apply Hrest; [|exact Hs]. intros arr2 i pk [= <-] Hi Hg. cbn in Hi. rewrite aget_resize_lt in Hg by lia. by apply (Hall arr i).
    + apply Hrest; [|exact Hs]. by intros arr2 i pk [=].
Qed.

(** A new pickup has an animation, if its frames could be allocated. *)
Lemma add_one_all P (a : details * vector_t * double) s : pickups_ok s -> all_pickups P s ->
  (forall new, describes a new -> animated new -> P new) -> wlp (add_one a) (fun _ => all_pickups P) s.
Proof.
  destruct a as [[d pos] r]. intros Hok Hall HP.
  assert (forall anims anim, anim_ok anim -> (forall Q, Q (Some anim) s -> wlp anims Q s) ->
    wlp (add_details junk_pickup junk_index d anims pos r) (fun _ => all_pickups P) s) as H.
  { intros anims anim Ha Hanims. unfold add_details. wlp_step. apply wp_wlp, wp_malloc_ok; [apply Hok|].
    cbn [negb]. wlp_step. apply Hanims. apply add_pickup_all; [done|done|]. apply HP; [done|by exists anim]. }
  destruct d; eapply H;
    [|intros Q HQ; unfold init_ammo_anims; wlp_step; apply wp_wlp, wp_malloc_ok; [apply Hok|]; wlp_step; exact HQ|
     |intros Q HQ; unfold init_medi_anims; wlp_step; apply wp_wlp, wp_malloc_ok; [apply Hok|]; wlp_step; exact HQ|
     |intros Q HQ; unfold init_armor_anims; wlp_step; apply wp_wlp, wp_malloc_ok; [apply Hok|]; wlp_step; exact HQ];
    by vm_compute.
Qed.


Lemma add_all_ok l s (n := Z.max 1 (pickups_size s)) : pickups_ok s -> n + alen l < 2 ^ 24 - 2 ->
  Forall (fun a => is_Some (cells_around a.1.2 (t_width s) (t_height s))) l ->
  wp (add_all l) (fun ids s' => ids = seqZ n (alen l) /\ pickups_ok s' /\
    t_width s' = t_width s /\ t_height s' = t_height s /\
    exists news, Forall2 describes l news /\ forall i pk, available s' i pk <->
      available s i pk \/ aget news (i - n) = Some pk) s.
Proof.
  revert s n. induction l as [|a l IH]; intros s n Hok Hn Hl; cbn [add_all].
  { wp_step. split_and!; try done. exists []. split; [constructor|]. intros i pk.
    split; [auto|]. intros [?|Hg]; [done|]. apply aget_Some_range in Hg. unfold alen in Hg. cbn in Hg. lia. }
  apply Forall_cons in Hl as [Ha Hl].
  assert (alen (a :: l) = alen l + 1) as Hlen by (unfold alen; cbn [length]; lia).
  assert (0 <= alen l) by (unfold alen; lia). rewrite Hlen in *.
  wp_step. eapply wp_mono; [apply add_one_ok; [done|lia|done]|].
  intros r s1 (-> & Hok1 & Hs1 & Ew & Eh & new & Hnew & Hav1). fold n in Hs1, Hav1. wp_step.
  assert (Z.max 1 (pickups_size s1) = n + 1) as Hn1 by lia.
  eapply wp_mono; [apply (IH s1 Hok1); [lia|by rewrite Ew, Eh]|].
  intros ids s2 (-> & Hok2 & Ew2 & Eh2 & news & Hnews & Hav2). rewrite Hn1 in *. wp_step.
  split_and!; try congruence.
  - rewrite (seqZ_cons n) by lia. do 2 f_equal; lia.
  - exists (new :: news). split; [by constructor|]. intros i pk. rewrite Hav2, Hav1.
    destruct (Z.eq_dec i n) as [->|Hne].
    + rewrite Z.sub_diag. cbn. split.
      * intros [[?|[_ ->]]|Hg]; auto. apply aget_Some_range in Hg. lia.
      * intros [?|[= ->]]; auto.
    + assert (aget (new :: news) (i - n) = aget news (i - (n + 1))) as ->.
      2: { split; [intros [[?|[? _]]|?]; [by left|done|by right]|intros [?|?]; auto]. }
      unfold aget. destruct (Z.ltb_spec (i - n) 0), (Z.ltb_spec (i - (n + 1)) 0); try lia; [done|].
      replace (Z.to_nat (i - n)) with (S (Z.to_nat (i - (n + 1)))) by lia. done.
Qed.

(** C20: setting up a level when no call of [malloc] or [realloc] fails
    ([mallocs s = []]), on a table of fewer than 2^16 columns and lines, as the
    ones of a map are: from a program without pickups, making the table and
    adding fewer than 2^23 pickups whose positions the conversions are defined
    on succeeds without an out-of-bounds write (the lists of the cells grow as
    needed); the pickups get the indexes 1, 2, ... in order, all of them are
    available with the details, position and radius given, and the table lists
    in every cell exactly those whose circle touches it.  (What the failure
    paths do is not stated.) *)
Theorem pickups_set_up l w h s : mallocs s = [] -> pickups_size s = 0 ->
  0 <= w < 2 ^ 16 -> 0 <= h < 2 ^ 16 -> alen l < 2 ^ 23 ->
  Forall (fun a => is_Some (cells_around a.1.2 w h)) l ->
  wp (err <- init_collision_table w h ;; ids <- add_all l ;; ret (err, ids)) (fun r s' =>
    r = (OK, seqZ 1 (alen l)) /\ pickups_ok s' /\
    exists news, Forall2 describes l news /\
      forall i pk, available s' i pk <-> aget news (i - 1) = Some pk) s.
Proof.
  intros Hm Hs Hw Hh Hn Hl. wp_step. eapply wp_mono; [apply init_collision_table_ok; [done|done|lia|lia]|].
  intros r s1 (-> & Hok & Ew & Eh & Hs1). wp_step.
  eapply wp_mono; [apply add_all_ok; [done|lia|by rewrite Ew, Eh]|].
  intros ids s2 (-> & Hok2 & _ & _ & news & Hnews & Hav). rewrite Hs1 in *. wp_step.
  split; [done|]. split; [done|]. exists news. split; [done|]. intros i pk. rewrite Hav. split; [|by right].
  intros [(Hi & _)|?]; [lia|done].
Qed.
End Level.

(** *** A small level *)
Definition no_pickups : pickups_t := mk_pickups Null 0 [] 0 0 [].
Definition junk_slot : pickup_t := mk_pickup (MEDKIT 0) true (mk_circle vec0 d0) None.
Definition small_level : list (details * vector_t * double) :=
  [(AMMO 1 0, mk_vec (dlit 15 10) (dlit 15 10), dlit 5 10);
   (MEDKIT 30, mk_vec (dlit 25 10) (dlit 15 10), dlit 5 10)].

Lemma pickups_set_up_witness :
  exists s', (err <- init_collision_table 4 4 ;; ids <- add_all junk_slot 7 small_level ;; ret (err, ids))
    no_pickups = Done ((OK, [1; 2]), s') /\ pickups_ok s'.
Proof.
  assert (wp (err <- init_collision_table 4 4 ;; ids <- add_all junk_slot 7 small_level ;; ret (err, ids))
    (fun r s' => r = (OK, [1; 2]) /\ pickups_ok s') no_pickups) as H.
  { eapply wp_mono; [apply (pickups_set_up junk_slot 7 small_level 4 4)|].
    - reflexivity.
    - reflexivity.
    - lia.
    - lia.
    - reflexivity.
    - repeat constructor; eexists; vm_compute; reflexivity.
    - intros r s' (-> & Hok & _). split; [reflexivity|exact Hok]. }
  apply (proj1 (wp_Done _ _ _)) in H as (r & s' & E & -> & Hok). exists s'. split; [exact E|exact Hok].
Defined.

Lemma toy_pow_square_nonneg x : nonneg (dpow x (dint 2)) = true.
Proof.
  destruct x as [[]|[]| |s m e]; try done. cbn [dpow toy_libm]. unfold dmul, SFmul.
  rewrite xorb_nilpotent. by apply binary_round_aux_sign.
Qed.

(** The player of the witnesses, next to the first pickup. *)
Definition visitor : player_info_t :=
  zero_player <| position := mk_vec (dlit 16 10) (dlit 15 10) |>
    <| guns := [mk_instance gun1 0 0 0 0 0 INITIAL] |> <| inventory_size := 1 |>
    <| max_health := 100 |> <| health := 50 |>.
Definition small_state : pickups_t :=
  match (err <- init_collision_table 4 4 ;; ids <- add_all junk_slot 7 small_level ;; ret (err, ids))
    no_pickups with Done (_, s) => s | _ => no_pickups end.

Lemma small_state_ok : pickups_ok small_state.
Proof.
  unfold small_state. destruct pickups_set_up_witness as (s' & -> & Hok). done.
Qed.
Lemma visitor_visits : visitor_ok small_state visitor.
Proof.
  split; [split; (split; [|split]); vm_compute; first [done|eauto]|].
  intros i pk _. unfold pickup_handler. destruct (pk_details pk) as [n k| |]; [|by eexists..].
  unfold pickup_ammo. cbn. change (Z.to_nat 1) with 1%nat. cbn [give_ammo].
  repeat break_if; by eexists.
Qed.


Lemma closest_pickup_at :
  exists s', check_player_pickup_collision visitor small_state = Done (1, s') /\
    found small_state (position visitor) 1.
Proof.
  assert (wp (check_player_pickup_collision visitor) (fun r s' => s' = small_state /\
    found small_state (position visitor) r) small_state) as H.
  { apply closest_pickup.
    - exact toy_pow_square_nonneg.
    - exact small_state_ok.
    - exact (proj1 visitor_visits).
    - vm_compute; reflexivity.
    - vm_compute; reflexivity. }
  apply (proj1 (wp_Done _ _ _)) in H as (r & s' & E & -> & Hf). exists small_state.
  assert (r = 1) as -> by (vm_compute in E; injection E as <-; reflexivity).
  split; [exact E|exact Hf].
Defined.
