(* ===== verification/Battle.v ===== *)
(** * Battle

    A tick of a player in the world, [fire], [player_int_ih] and [bot_int_ih]
    of [src/proj/system/player/player.c]: turning, moving, switching guns,
    picking things up, shooting at the others, and the animations.  The world
    holds the globals these functions share. *)

From Stdlib Require Import Floats.SpecFloat.
From S2P Require Import Prelude Kbc Doubles MapFile Utils Sprites Guns Controls Players Pickups.

(** ** The world *)
Record world : Type := mk_world {
  w_player : player_info_t;
  w_enemies : list player_info_t;
  w_map : map_t;
  w_anims : anim_heap;
  w_pickups : pickups_t;
  time_counter : Z;
}.
#[global] Instance eta_world : Eta world := fun w =>
  mk_world (w_player w) (w_enemies w) (w_map w) (w_anims w) (w_pickups w) (time_counter w).

(** A [player_info_t *]: [&player] or [&enemies[i]]. *)
Inductive who : Type := ThePlayer | Enemy (i : Z).
#[global] Instance who_eq_dec : EqDecision who.
Proof. solve_decision. Defined.

Definition find_player (p : who) (w : world) : option player_info_t :=
  match p with ThePlayer => Some (w_player w) | Enemy i => aget (w_enemies w) i end.
Definition load_player (p : who) : prog world player_info_t :=
  x <- gets (find_player p) ;; defined x.
Definition store_player (p : who) (x : player_info_t) : prog world unit :=
  match p with
  | ThePlayer => modify (fun w => w <| w_player := x |>)
  | Enemy i => es <- gets w_enemies ;; es <- defined (aset es i x) ;; modify (fun w => w <| w_enemies := es |>)
  end.
(** Through the pointer, [p := f p]. *)
Definition update_player (p : who) (f : player_info_t -> option player_info_t) : prog world unit :=
  x <- load_player p ;; x <- defined (f x) ;; store_player p x.

Definition on_anims {A} (m : prog anim_heap A) : prog world A :=
  zoom w_anims (fun h w => w <| w_anims := h |>) m.
Definition on_pickups {A} (m : prog pickups_t A) : prog world A :=
  zoom w_pickups (fun s w => w <| w_pickups := s |>) m.

Definition zero_ray_hit : ray_hit_t := mk_ray_hit 0 0 (mk_coord 0 0) d0.

Section Battle.
Context {LM : Libm}.
(** What the uninitialised [bool hit] of [fire] holds. *)
Variable junk_hit : bool.

(** ** [fire] *)
Record aim : Type := mk_aim { hit_target : option who; aim_dist : double; aim_hit : bool }.

(** One target of the inner loop. *)
Definition aim_at (ply : player_info_t) (range : double) (t : who) (target : player_info_t) (a : aim) : aim :=
  let '(seen, player_dist) := hit_player ply target in
  let hit_local := (0 <? health target) && seen && dle player_dist range in
  if hit_local && (dlt (aim_dist a) (dint 0) || dlt player_dist (dadd (aim_dist a) (dlit 2 10)))
  then mk_aim (Some t) player_dist true else a.

Fixpoint aim_loop (ply : player_info_t) (range : double) (targets : list who) (a : aim) : prog world aim :=
  match targets with
  | [] => ret a
  | t :: targets => target <- load_player t ;; aim_loop ply range targets (aim_at ply range t target a)
  end.

Definition targets_of (ply : player_info_t) : prog world (list who) :=
  es <- gets w_enemies ;;
  ret (if decide (p_type ply = PLAYER) then Enemy <$> seqZ 0 (alen es) else [ThePlayer]).

(** A bullet: [ply] does not change while it flies. *)
Definition bullet (p : who) : prog world unit :=
  ply <- load_player p ;;
  gi <- defined (gun_in_hand ply) ;;
  targets <- targets_of ply ;;
  let range := g_range (gi_gun gi) in
  a <- aim_loop ply range targets (mk_aim None (dint (-1)) junk_hit) ;;
  m <- gets w_map ;;
  rh <- match shoot_ray m (position ply) (direction ply) zero_ray_hit range with
        | Done rh => ret rh
        | Undef => undef
        | OutOfFuel => fun _ => OutOfFuel
        end ;;
  let hit := if negb (hit rh =? 0) && dlt (distance rh) (aim_dist a) then false else aim_hit a in
  if hit then
    match hit_target a with
    | None => undef
    | Some t => update_player t (take_damage (damage (gi_gun gi)))
    end
  else ret tt.

Definition change_gun (p : who) (f : gun_instance_t -> gun_instance_t) : prog world unit :=
  update_player p (fun ply =>
    match gun_in_hand ply with Some gi => set_gun_in_hand (f gi) ply | None => None end).

(** [for(bullet = 0; bullet < ammo_per_fire && curr_ammo > 0; curr_ammo--, bullet++)] *)
Fixpoint bullets (n : nat) (p : who) : prog world unit :=
  match n with
  | O => ret tt
  | S n =>
      ply <- load_player p ;;
      gi <- defined (gun_in_hand ply) ;;
      if 0 <? curr_ammo gi then
        bullet p ;;;
        change_gun p (fun gi => gi <| curr_ammo ::= (fun a => a - 1) |>) ;;;
        bullets n p
      else ret tt
  end.

Definition fire (p : who) : prog world bool :=
  ply <- load_player p ;;
  gi <- defined (gun_in_hand ply) ;;
  if negb (bool_decide (gi_state gi = READY)) then ret false else
  (change_gun p (fun gi => gi <| curr_anim := 1 |>) ;;;
   bullets (Z.to_nat (ammo_per_fire (gi_gun gi))) p ;;;
   ret true).

(** ** The tick *)

(** The rotation: the displacement is clamped and counted in 128ths, as the
    other machine receives it. *)
Definition quantise (mouse_desl : double) : option double :=
  let x_delta := clamp_desl mouse_desl in
  let signal := negb (dge x_delta (dint 0)) in
  match dto_u8 (dmul (dabs x_delta) d128) with
  | Some x_d => let x := ddiv (dint x_d) d128 in Some (if signal then dneg x else x)
  | None => None
  end.
Definition turn (x_delta : double) (v : vector_t) : vector_t :=
  mk_vec (dsub (dmul (vx v) (dcos x_delta)) (dmul (vy v) (dsin x_delta)))
         (dadd (dmul (vx v) (dsin x_delta)) (dmul (vy v) (dcos x_delta))).
Definition rotate_player (p : player_info_t) : option player_info_t :=
  match quantise (mouse_desl (p_movm p)) with
  | Some x => Some (p <| direction ::= turn x |> <| camera_plane ::= turn x |>)
  | None => None
  end.

(** Where the keys move the player. *)
Definition next_position (p : player_info_t) : vector_t :=
  let mov := movement (p_movm p) in
  let k := kbd_state (p_movm p) in
  let perp_dir := mk_vec (dneg (vy (direction p))) (vx (direction p)) in
  let speed_mult := dadd (dsub (dint 1) (dmul (dlit 5 10) (dbool (crouch k)))) (dmul (dlit 5 10) (dbool (sprint k))) in
  let axis d perp := dmul speed_mult (dadd (dmul (dmul PLAYER_SPEED (vx mov)) d) (dmul (dmul STRAFE_SPEED (vy mov)) perp)) in
  mk_vec (dadd (vx (position p)) (axis (vx (direction p)) (vx perp_dir)))
         (dadd (vy (position p)) (axis (vy (direction p)) (vy perp_dir))).

(** [player_int_ih] up to the pickups, on the player alone. *)
Definition move_player (m : map_t) (p : player_info_t) : option player_info_t :=
  let p := if decide (p_type p = NETWORK_PLAYER)
           then p <| p_movm ::= (fun c => c <| movement := kbd_movement (kbd_state c) |>) |> else p in
  match (if decide (p_type p = BOT) then Some p else rotate_player p) with
  | None => None
  | Some p =>
      match player_wall_collision m p (next_position p) with
      | None => None
      | Some pos =>
          let p := p <| position := pos |> in
          if decide (p_type p = BOT) then Some p else
          match press_number (seqZ 1 3) p with
          | Some p => Some (update_player_controls p)
          | None => None
          end
      end
  end.

Definition take_pickup (p : who) : prog world unit :=
  ply <- load_player p ;;
  idx <- on_pickups (check_player_pickup_collision ply) ;;
  if 0 <? idx then
    ('(_, ply) <- on_pickups (pickup_index ply idx) ;; store_player p ply)
  else ret tt.

(** Whether the trigger is pulled; [playing]: the game runs and no menu is
    open. *)
Definition trigger (playing : bool) (ply : player_info_t) : option bool :=
  if decide (p_type ply = PLAYER) then
    match gun_in_hand ply with
    | Some gi => Some (playing && ((lb_held_down (p_movm ply) && automatic (gi_gun gi)) ||
                                   lb_single_tap (p_movm ply)))
    | None => None
    end
  else Some true.

(** The animation of another player. *)
Definition choose_anim (shot : bool) (p : player_info_t) : option Z :=
  match sprites p !! 4%nat with
  | Some (a :: _) =>
      let mov := movement (p_movm p) in
      let k := kbd_state (p_movm p) in
      Some (if health p <=? 0 then 5
            else if bool_decide (an_state a = PROGRESS) || shot then 4
            else if dlt (dabs (vx mov)) (dlit 5 100) && dlt (dabs (vy mov)) (dlit 5 100) then 0
            else if (crouch k && sprint k) || (negb (crouch k) && negb (sprint k)) then 2
            else if crouch k then 1 else 3)
  | _ => None
  end.

(** [for(i < 8) update_anim(ply->sprites[ply->curr_anim] + i)]: the views and
    whether one of them ended. *)
Fixpoint update_views (t : Z) (n : nat) (views : list (animated_sprite slot)) :
    option (bool * list (animated_sprite slot)) :=
  match n with
  | O => Some (false, views)
  | S n =>
      match views with
      | [] => None
      | a :: views =>
          match update_anim t a, update_views t n views with
          | Done (ended, a), Some (rest, views) => Some (ended || rest, a :: views)
          | _, _ => None
          end
      end
  end.

Definition animate (t : Z) (shot : bool) (p : player_info_t) : option player_info_t :=
  if decide (p_type p = PLAYER) then Some p else
  match choose_anim shot p with
  | None => None
  | Some ca =>
      let p := p <| p_curr_anim := ca |> in
      match aget (sprites p) ca with
      | None => None
      | Some views =>
          match update_views t 8 views with
          | None => None
          | Some (ended, views) =>
              match aset (sprites p) ca views with
              | None => None
              | Some sp =>
                  let p := p <| sprites := sp |> in
                  Some (if ended && (ca =? 5) then p <| should_render := false |> else p)
              end
          end
      end
  end.

(** [update_gun_state(&ply->guns[ply->gun_index], shot, ply->type == PLAYER)] *)
Definition update_gun (p : who) (shot : bool) : prog world unit :=
  ply <- load_player p ;;
  gi <- defined (gun_in_hand ply) ;;
  t <- gets time_counter ;;
  gi <- on_anims (update_gun_state t shot (bool_decide (p_type ply = PLAYER)) gi) ;;
  ply <- defined (set_gun_in_hand gi ply) ;;
  store_player p ply.

(** The second half of [player_int_ih]: trigger, animations, gun. *)
Definition shoot_step (playing : bool) (p : who) : prog world bool :=
  ply <- load_player p ;;
  pulled <- defined (trigger playing ply) ;;
  shot <- (if (pulled : bool) then fire p else ret false) ;;
  t <- gets time_counter ;;
  update_player p (animate t shot) ;;;
  update_gun p shot ;;;
  ret shot.

Definition player_int_ih (playing : bool) (p : who) : prog world unit :=
  m <- gets w_map ;;
  update_player p (move_player m) ;;;
  take_pickup p ;;;
  _ <- shoot_step playing p ;;
  ret tt.

(** [for(i < num_enemies) if(enemies[i].should_render) player_int_ih(&enemies[i])] *)
Definition bot_int_ih (playing : bool) : prog world unit :=
  es <- gets w_enemies ;;
  for_each (seqZ 0 (alen es)) (fun i =>
    e <- load_player (Enemy i) ;;
    if should_render e then player_int_ih playing (Enemy i) else ret tt).
End Battle.

(** ** The world as it is kept *)

(** A shot player: its health and armor went down, within their limits. *)
Definition wounded (x x' : player_info_t) : Prop :=
  exists h a, x' = x <| health := h |> <| armor := a |> /\ h <= health x /\ a <= armor x.

Lemma wounded_refl x : wounded x x.
Proof. exists (health x), (armor x). split; [by destruct x|lia]. Qed.
Lemma wounded_trans x y z : wounded x y -> wounded y z -> wounded x z.
Proof.
  intros (h & a & -> & ? & ?) (h' & a' & -> & Hh & Ha). exists h', a'. split; [done|].
  cbn in Hh, Ha. lia.
Qed.

(** A gun that can be fired and animated at tick [t]. *)
Record gun_fit (t : Z) (h : anim_heap) (gi : gun_instance_t) : Prop := mk_gun_fit {
  gf_timely : timely t gi;
  gf_anim : anim_index_ok h gi;
  gf_damage : 0 <= damage (gi_gun gi) < 256;
}.

Record fighter_ok (t : Z) (h : anim_heap) (p : player_info_t) : Prop := mk_fighter_ok {
  fo_healthy : healthy p;
  fo_index : 0 <= gun_index p < alen (guns p);
  fo_guns : Forall (gun_fit t h) (guns p);
  fo_x : is_Some (dto_int (vx (position p)));
  fo_y : is_Some (dto_int (vy (position p)));
}.

Record world_ok (w : world) : Prop := mk_world_ok {
  wo_map : map_ok (w_map w);
  wo_time : 0 <= time_counter w < 2 ^ 62;
  wo_heap : heap_ok (w_anims w);
  wo_fighters p x : find_player p w = Some x -> fighter_ok (time_counter w) (w_anims w) x;
  wo_player : p_type (w_player w) = PLAYER;
  wo_enemies i e : aget (w_enemies w) i = Some e -> p_type e <> PLAYER;
}.

(** Everything but the players is the same. *)
Record same_stage (w w' : world) : Prop := mk_same_stage {
  ss_map : w_map w' = w_map w;
  ss_anims : w_anims w' = w_anims w;
  ss_pickups : w_pickups w' = w_pickups w;
  ss_time : time_counter w' = time_counter w;
}.
Lemma same_stage_refl w : same_stage w w.
Proof. done. Qed.
Lemma same_stage_trans w w' w'' : same_stage w w' -> same_stage w' w'' -> same_stage w w''.
Proof. intros [? ? ? ?] [? ? ? ?]. split; congruence. Qed.

(** [w'] is [w] with [x] for player [p]. *)
Definition replaced (p : who) (x : player_info_t) (w w' : world) : Prop :=
  same_stage w w' /\ forall q, find_player q w' = if decide (q = p) then Some x else find_player q w.

Lemma store_player_spec p x0 x w : find_player p w = Some x0 ->
  exists w', store_player p x w = Done (tt, w') /\ replaced p x w w'.
Proof.
  destruct p as [|i]; intros Hx.
  { eexists. split; [reflexivity|]. split; [done|]. intros [|j]; cbn; repeat case_decide; congruence. }
  cbn in Hx. unfold store_player, bind, gets.
  destruct (aset (w_enemies w) i x) as [es|] eqn:E.
  2: { apply aget_Some_range in Hx. by rewrite aset_Some in E by done. }
  eexists. split; [reflexivity|]. split; [done|]. intros [|j]; cbn; [by rewrite decide_False by done|].
  destruct (decide (j = i)) as [->|Hne].
  - rewrite decide_True by done. by apply (aget_aset_eq _ _ _ _ E).
  - rewrite decide_False by congruence. by apply (aget_aset_ne _ _ _ _ _ E).
Qed.

Lemma wp_load_player p x w (Q : player_info_t -> world -> Prop) :
  find_player p w = Some x -> Q x w -> wp (load_player p) Q w.
Proof. intros Hx HQ. unfold load_player. wp_steps. by rewrite Hx. Qed.

Lemma wp_update_player p f x x' w (Q : unit -> world -> Prop) :
  find_player p w = Some x -> f x = Some x' ->
  (forall w', replaced p x' w w' -> Q tt w') -> wp (update_player p f) Q w.
Proof.
  intros Hx Hf HQ. unfold update_player. wp_step. apply (wp_load_player _ _ _ _ Hx). wp_step.
  rewrite Hf. cbn [defined]. wp_step. destruct (store_player_spec p x x' w Hx) as (w' & E & Hw').
  eapply wp_Done_eq; [exact E|]. by apply HQ.
Qed.

Lemma replaced_same p x w w' : replaced p x w w' -> find_player p w' = Some x.
Proof. intros [_ H]. rewrite H. by rewrite decide_True. Qed.

(** The array of enemies keeps its length. *)
Lemma replaced_len p x x' w w' : replaced p x' w w' -> find_player p w = Some x ->
  alen (w_enemies w') = alen (w_enemies w).
Proof.
  intros [_ H] Hx.
  assert (forall j, is_Some (aget (w_enemies w') j) <-> is_Some (aget (w_enemies w) j)) as Hd.
  { intros j. specialize (H (Enemy j)). cbn in H. rewrite H. case_decide as E; [|done]. subst p. cbn in Hx. by rewrite Hx. }
  setoid_rewrite aget_is_Some in Hd. pose proof (Hd (alen (w_enemies w))). pose proof (Hd (alen (w_enemies w'))).
  unfold alen in *. lia.
Qed.

(** A change that keeps a fighter in order keeps the world in order. *)
Lemma replaced_ok p x x' w w' : world_ok w -> replaced p x' w w' -> find_player p w = Some x ->
  fighter_ok (time_counter w) (w_anims w) x' -> p_type x' = p_type x -> world_ok w'.
Proof.
  intros [Hm Ht Hh Hf Hp He] [[Em Ea Ep Et] Hq] Hx Hok Htype.
  assert (forall q y, find_player q w' = Some y ->
    exists y0, find_player q w = Some y0 /\ p_type y = p_type y0 /\ fighter_ok (time_counter w) (w_anims w) y) as H.
  { intros q y. rewrite Hq. case_decide as E; [|by eauto]. intros [= <-]. subst q. by exists x. }
  split; rewrite ?Em, ?Ea, ?Et; try done.
  - intros q y Hy. by destruct (H q y Hy) as (_ & _ & _ & ?).
  - destruct (H ThePlayer (w_player w') eq_refl) as (y & [= <-] & -> & _). done.
  - intros i e Hi. destruct (H (Enemy i) e Hi) as (y & Hy & -> & _). by apply (He i).
Qed.

Lemma fighter_ok_wounded t h x d : 0 <= d < 256 -> fighter_ok t h x ->
  exists x', take_damage d x = Some x' /\ wounded x x' /\ fighter_ok t h x' /\ p_type x' = p_type x.
Proof.
  intros Hd [Hh Hi Hg Hx Hy]. exists (damaged d x). rewrite take_damage_spec by done.
  destruct (damaged_healthy d x) as (Hh' & Hle & Hla); [lia|done|].
  assert (exists h' a', damaged d x = x <| health := h' |> <| armor := a' |>) as (h' & a' & E).
  { unfold damaged. repeat break_if; by eexists _, _. }
  split; [done|]. rewrite E in *. split; [by exists h', a'|]. done.
Qed.

(** *** Guns in hand *)
Lemma in_hand_fit t h x gi : fighter_ok t h x -> gun_in_hand x = Some gi -> gun_fit t h gi.
Proof.
  intros [_ _ Hg _ _]. unfold gun_in_hand, aget. destruct (_ <? 0); [done|].
  apply (proj1 (Forall_lookup _ _) Hg).
Qed.

Definition with_gun (gi : gun_instance_t) (x : player_info_t) : player_info_t :=
  x <| guns := <[Z.to_nat (gun_index x) := gi]> (guns x) |>.

Lemma set_in_hand t h x gi : fighter_ok t h x -> gun_fit t h gi ->
  set_gun_in_hand gi x = Some (with_gun gi x) /\ gun_in_hand (with_gun gi x) = Some gi /\
  fighter_ok t h (with_gun gi x).
Proof.
  intros [Hh Hi Hg Hx Hy] Hgi. rewrite set_gun_in_hand_Some by done. split; [done|]. split.
  - unfold gun_in_hand, aget, with_gun. cbn. unfold alen in Hi. destruct (Z.ltb_spec (gun_index x) 0); [lia|].
    by rewrite list_lookup_insert_eq by lia.
  - split; try done; unfold with_gun; cbn.
    + by destruct Hh.
    + unfold alen in *. by rewrite length_insert.
    + by apply Forall_insert.
Qed.

Lemma with_gun_twice gi gi' x : with_gun gi (with_gun gi' x) = with_gun gi x.
Proof. unfold with_gun, set. cbn. by rewrite list_insert_insert_eq. Qed.
Lemma with_gun_same gi x : 0 <= gun_index x -> gun_in_hand x = Some gi -> with_gun gi x = x.
Proof.
  intros Hi. unfold gun_in_hand, aget, with_gun. destruct (Z.ltb_spec (gun_index x) 0); [lia|].
  intros Hgi. unfold set. cbn. rewrite list_insert_id by done. by destruct x.
Qed.

(** Putting the gun in hand away and taking one out. *)
Lemma hold_gun t h x gi st : fighter_ok t h x -> gun_in_hand x = Some gi ->
  set_gun_in_hand (gi <| gi_state := st |>) x = Some (with_gun (gi <| gi_state := st |>) x) /\
  gi_gun <$> guns (with_gun (gi <| gi_state := st |>) x) = gi_gun <$> guns x /\
  fighter_ok t h (with_gun (gi <| gi_state := st |>) x).
Proof.
  intros Hx Hgi. pose proof (in_hand_fit _ _ _ _ Hx Hgi) as [[[? ? ?] ?] [? ?] ?].
  destruct (set_in_hand t h x (gi <| gi_state := st |>)) as (E & _ & Hx'); [done| |].
  { split; [|done|done]. split; [|done]. by split. }
  split; [exact E|]. split; [|exact Hx']. cbn. rewrite list_fmap_insert. apply list_insert_id. rewrite list_lookup_fmap.
  unfold gun_in_hand, aget in Hgi. destruct (_ <? 0); [done|]. by rewrite Hgi.
Qed.
Lemma switch_gun_fit t h i x : fighter_ok t h x -> 0 <= i < alen (guns x) ->
  exists gs, switch_gun i x = Some (x <| gun_index := i |> <| guns := gs |>) /\
    gi_gun <$> gs = gi_gun <$> guns x /\ fighter_ok t h (x <| gun_index := i |> <| guns := gs |>).
Proof.
  intros Hx Hi. unfold switch_gun. destruct (Z.eqb_spec (gun_index x) i) as [<-|_].
  { exists (guns x). assert (x <| gun_index := gun_index x |> <| guns := guns x |> = x) as -> by (by destruct x).
    by split. }
  destruct (gun_in_hand_Some x (fo_index _ _ _ Hx)) as [gi Hgi]. rewrite Hgi.
  destruct (hold_gun t h x gi INVENTORY Hx Hgi) as (-> & Hg1 & Hx1). cbv zeta.
  set (x2 := (with_gun (gi <| gi_state := INVENTORY |>) x) <| gun_index := i |>).
  assert (fighter_ok t h x2) as Hx2.
  { destruct Hx1 as [[] ? ? ? ?]. split; [by split| |done..]. cbn in Hi |- *. unfold alen in *. by rewrite length_insert. }
  destruct (gun_in_hand_Some x2 (fo_index _ _ _ Hx2)) as [gi2 Hgi2]. rewrite Hgi2.
  destruct (hold_gun t h x2 gi2 INITIAL Hx2 Hgi2) as (-> & Hg3 & Hx3).
  eexists. split; [reflexivity|]. split; [|exact Hx3]. rewrite <- Hg1. exact Hg3.
Qed.

Section Fighting.
Context {LM : Libm}.

(** *** A shot *)
Lemma aim_loop_spec ply range targets w a :
  (forall t, t ∈ targets -> is_Some (find_player t w)) ->
  (aim_hit a = true -> is_Some (hit_target a)) ->
  wp (aim_loop ply range targets a) (fun a' w' => w' = w /\
    (aim_hit a' = true -> is_Some (hit_target a')) /\
    (forall t, hit_target a' = Some t -> hit_target a = Some t \/ t ∈ targets)) w.
Proof.
  intros Ht Hhit. revert a Hhit. induction targets as [|t targets IH]; intros a Hhit; cbn [aim_loop].
  { wp_step. split_and!; [done|done|by left]. }
  destruct (Ht t) as [x Hx]; [by left|]. wp_step. apply (wp_load_player _ _ _ _ Hx).
  assert (aim_at ply range t x a = a \/ hit_target (aim_at ply range t x a) = Some t) as Hcase.
  { unfold aim_at. destruct (hit_player _ _). destruct (_ && _); auto. }
  eapply wp_mono; [apply IH|].
  - intros t' Hin. apply Ht. by right.
  - destruct Hcase as [-> | ->]; [done|by eexists].
  - intros a' w' (-> & Hh & Htg). split; [done|]. split; [done|]. intros t' H.
    destruct (Htg _ H) as [H'|H']; [|by right; right].
    destruct Hcase as [E|E]; rewrite E in H'; [by left|]. injection H' as <-. right. by left.
Qed.

(** Who can hit whom: the player the others, the others only the player. *)
Definition opponents (p q : who) : bool :=
  match p, q with ThePlayer, Enemy _ | Enemy _, ThePlayer => true | _, _ => false end.

Lemma targets_of_spec p ply w : world_ok w -> find_player p w = Some ply ->
  wp (targets_of ply) (fun ts w' => w' = w /\
    forall t, t ∈ ts -> opponents p t = true /\ is_Some (find_player t w)) w.
Proof.
  intros [_ _ _ _ Hp He] Hx. unfold targets_of. wp_steps. split; [done|]. intros t.
  destruct p as [|i]; cbn in Hx.
  - injection Hx as <-. rewrite decide_True by done. intros (j & -> & Hj)%list_elem_of_fmap.
    apply elem_of_seqZ in Hj. split; [done|]. apply aget_is_Some. lia.
  - rewrite decide_False by (by eapply He). intros ->%list_elem_of_singleton. split; [done|]. by eexists.
Qed.

(** What a shot of [p] leaves of the world. *)
Definition shot_at (p : who) (w w' : world) : Prop :=
  same_stage w w' /\ world_ok w' /\
  forall q x, find_player q w = Some x -> exists x', find_player q w' = Some x' /\
    wounded x x' /\ (opponents p q = false -> x' = x).

Lemma shot_at_refl p w : world_ok w -> shot_at p w w.
Proof.
  intros Hok. split; [done|]. split; [done|]. intros q x Hx. exists x.
  split; [done|]. split; [apply wounded_refl|done].
Qed.

Lemma shoot_ray_defined m pos dir rh range : map_ok m ->
  is_Some (dto_int (vx pos)) -> is_Some (dto_int (vy pos)) ->
  exists rh', shoot_ray m pos dir rh range = Done rh'.
Proof.
  intros Hm [px Hpx] [py Hpy]. unfold shoot_ray. rewrite Hpx, Hpy. cbn [cx cy].
  set (ddx := dabs _). set (ddy := dabs _).
  pose proof (ray_axis_step (vx pos) (vx dir) (u16 px) ddx) as Hsx.
  pose proof (ray_axis_step (vy pos) (vy dir) (u16 py) ddy) as Hsy.
  destruct (ray_axis (vx pos) _ _ _) as [sx sdx], (ray_axis (vy pos) _ _ _) as [sy sdy].
  destruct (ray_loop_total m Hm sx sy ddx ddy range Hsx Hsy
    (mk_ray (rh <| hit := 0 |> <| distance := dint 0 |>) (mk_coord (u16 px) (u16 py)) sdx sdy))
    as (r' & -> & _); [done|apply (wrap_range 16); lia..|]. by eexists.
Qed.

Lemma bullet_spec p ply gi w : world_ok w -> find_player p w = Some ply -> gun_in_hand ply = Some gi ->
  wp (bullet false p) (fun _ => shot_at p w) w.
Proof.
  intros Hok Hply Hgi. pose proof (wo_fighters _ Hok _ _ Hply) as Hf.
  pose proof (in_hand_fit _ _ _ _ Hf Hgi) as [_ _ Hdmg].
  unfold bullet. wp_step. apply (wp_load_player _ _ _ _ Hply). wp_step. rewrite Hgi. cbn [defined]. wp_step.
  wp_step. eapply wp_mono; [by apply targets_of_spec|]. intros ts w' [-> Hts]. wp_step.
  eapply wp_mono; [apply aim_loop_spec; [by intros t Ht; apply Hts|done]|].
  intros a w' (-> & Hhit & Htg). wp_steps.
  destruct (shoot_ray_defined (w_map w) (position ply) (direction ply) zero_ray_hit (g_range (gi_gun gi)))
    as [rh ->]; [apply Hok|apply Hf|apply Hf|]. wp_step.
  destruct (if _ && _ then false else aim_hit a) eqn:E; [|wp_step; by apply shot_at_refl].
  destruct Hhit as [t Ht]; [by destruct (_ && _)|]. rewrite Ht.
  destruct (Htg t Ht) as [?|Hin]; [done|]. destruct (Hts t Hin) as [Hopp [x Hx]].
  destruct (fighter_ok_wounded _ _ x _ Hdmg (wo_fighters _ Hok _ _ Hx)) as (x' & Hd & Hw & Hfx & Hty).
  eapply wp_update_player; [exact Hx|exact Hd|]. intros w' Hrep. pose proof Hrep as [Hst Hq].
  split; [done|]. split; [by eapply replaced_ok|]. intros q y Hy. rewrite Hq. case_decide as Eq.
  - subst q. rewrite Hx in Hy. injection Hy as <-. exists x'. split; [done|]. split; [done|]. congruence.
  - exists y. split; [done|]. split; [apply wounded_refl|done].
Qed.

(** [p], who ends up as [ply'], shot at its opponents. *)
Definition fought (p : who) (ply' : player_info_t) (w w' : world) : Prop :=
  same_stage w w' /\ world_ok w' /\ find_player p w' = Some ply' /\
  forall q x, q <> p -> find_player q w = Some x -> exists x', find_player q w' = Some x' /\
    wounded x x' /\ (opponents p q = false -> x' = x).

Lemma fought_trans p ply1 ply2 w w1 w2 : fought p ply1 w w1 -> fought p ply2 w1 w2 -> fought p ply2 w w2.
Proof.
  intros (Hs1 & _ & _ & Hq1) (Hs2 & Hok & Hp & Hq2). split; [by eapply same_stage_trans|].
  split; [done|]. split; [done|]. intros q x Hne Hx.
  destruct (Hq1 q x Hne Hx) as (x1 & Hx1 & Hw1 & He1). destruct (Hq2 q x1 Hne Hx1) as (x2 & Hx2 & Hw2 & He2).
  exists x2. split; [done|]. split; [by eapply wounded_trans|]. intros Ho. by rewrite He2, He1.
Qed.

Lemma shot_at_fought p ply w w' : find_player p w = Some ply -> shot_at p w w' -> fought p ply w w'.
Proof.
  intros Hp (Hs & Hok & Hq). split; [done|]. split; [done|]. split; [|by intros q x _; apply Hq].
  destruct (Hq p ply Hp) as (x' & Hx' & _ & E). rewrite Hx', E; [done|]. by destruct p.
Qed.

(** A change to one's own gun. *)
Lemma change_gun_spec p f ply gi w : world_ok w -> find_player p w = Some ply ->
  gun_in_hand ply = Some gi -> gun_fit (time_counter w) (w_anims w) (f gi) ->
  wp (change_gun p f) (fun _ => fought p (with_gun (f gi) ply) w) w.
Proof.
  intros Hok Hp Hgi Hfit. pose proof (wo_fighters _ Hok _ _ Hp) as Hf.
  destruct (set_in_hand _ _ _ _ Hf Hfit) as (Hset & _ & Hf').
  unfold change_gun. eapply wp_update_player; [exact Hp|cbn; rewrite Hgi; exact Hset|].
  intros w' Hrep. pose proof Hrep as [Hst Hq]. split; [done|]. split; [by eapply replaced_ok|].
  split; [by eapply replaced_same|]. intros q x Hne Hx. exists x. rewrite Hq, decide_False by done.
  split; [done|]. split; [apply wounded_refl|done].
Qed.

Definition spend (n : Z) (gi : gun_instance_t) : gun_instance_t :=
  gi <| curr_ammo ::= (fun a => a - Z.min n a) |>.

Lemma spend_fit t h n gi : 0 <= n -> gun_fit t h gi -> gun_fit t h (spend n gi).
Proof. intros Hn [[[Hg Ha Hp] Hl] Han Hd]. split; [split; [split|]|..]; cbn; try done; lia. Qed.

Lemma bullets_spec n p ply gi w : world_ok w -> find_player p w = Some ply -> gun_in_hand ply = Some gi ->
  wp (bullets false n p) (fun _ => fought p (with_gun (spend (Z.of_nat n) gi) ply) w) w.
Proof.
  revert ply gi w. induction n as [|n IH]; intros ply gi w Hok Hp Hgi;
    pose proof (wo_fighters _ Hok _ _ Hp) as Hf; pose proof (in_hand_fit _ _ _ _ Hf Hgi) as Hfit;
    pose proof Hfit as [[[_ Ha _] _] _ _].
  { cbn [bullets]. wp_step. assert (spend (Z.of_nat 0) gi = gi) as ->.
    { unfold spend, set. cbn. rewrite Z.min_l, Z.sub_0_r by lia. by destruct gi. }
    rewrite with_gun_same by (apply Hf || done). apply shot_at_fought; [done|by apply shot_at_refl]. }
  cbn [bullets]. wp_step. apply (wp_load_player _ _ _ _ Hp). wp_step. rewrite Hgi. cbn [defined]. wp_step.
  destruct (Z.ltb_spec 0 (curr_ammo gi)).
  - wp_step. eapply wp_mono; [by eapply bullet_spec|]. intros [] w1 Hw1%(shot_at_fought _ _ _ _ Hp).
    pose proof Hw1 as (Hs1 & Hok1 & Hp1 & _). wp_step.
    assert (gun_fit (time_counter w1) (w_anims w1) (spend 1 gi)) as Hfit1.
    { destruct Hs1 as [_ -> _ ->]. apply spend_fit; [lia|done]. }
    assert (gi <| curr_ammo ::= (fun a => a - 1) |> = spend 1 gi) as E1.
    { unfold spend, set. cbn. by rewrite Z.min_l by lia. }
    eapply wp_mono; [eapply change_gun_spec; [done|done|done|cbn beta; by rewrite E1]|]. cbn beta. rewrite E1.
    intros [] w2 Hw2. pose proof Hw2 as (_ & Hok2 & Hp2 & _).
    pose proof (set_in_hand _ _ _ _ (wo_fighters _ Hok1 _ _ Hp1) Hfit1) as (_ & Hgi2 & _).
    eapply wp_mono; [by eapply IH|]. intros [] w3 Hw3.
    assert (with_gun (spend (Z.of_nat n) (spend 1 gi)) (with_gun (spend 1 gi) ply) =
      with_gun (spend (Z.of_nat (S n)) gi) ply) as E.
    { rewrite with_gun_twice. f_equal. unfold spend, set. cbn. f_equal. lia. }
    rewrite <- E. by eapply fought_trans, fought_trans.
  - wp_step. assert (spend (Z.of_nat (S n)) gi = gi) as ->.
    { unfold spend, set. cbn. rewrite Z.min_r by lia. replace (_ - _) with (curr_ammo gi) by lia. by destruct gi. }
    rewrite with_gun_same by (apply Hf || done). apply shot_at_fought; [done|by apply shot_at_refl].
Qed.

(** The gun after [fire]. *)
Definition fired (gi : gun_instance_t) : gun_instance_t :=
  if bool_decide (gi_state gi = READY) then (spend_ammo gi) <| curr_anim := 1 |> else gi.

Lemma fire_spec p ply gi w : world_ok w -> find_player p w = Some ply -> gun_in_hand ply = Some gi ->
  wp (fire false p) (fun shot w' => shot = bool_decide (gi_state gi = READY) /\
    fought p (with_gun (fired gi) ply) w w') w.
Proof.
  intros Hok Hp Hgi. pose proof (wo_fighters _ Hok _ _ Hp) as Hf.
  pose proof (in_hand_fit _ _ _ _ Hf Hgi) as Hfit. pose proof Hfit as [Htm [Hai _] Hd].
  pose proof (tm_inst _ _ Htm) as [[? ? ? ? Haf ?] _ _]. unfold fire, fired.
  wp_step. apply (wp_load_player _ _ _ _ Hp). wp_step. rewrite Hgi. cbn [defined]. wp_step.
  destruct (bool_decide _); cbn [negb].
  - assert (gun_fit (time_counter w) (w_anims w) (gi <| curr_anim := 1 |>)) as Hfit1.
    { destruct Htm as [[? ? ?] ?]. split; [done|split; cbn; [done|lia]|done]. }
    wp_step. eapply wp_mono; [by eapply change_gun_spec|]. intros [] w1 Hw1.
    pose proof Hw1 as (_ & Hok1 & Hp1 & _).
    pose proof (set_in_hand _ _ _ _ Hf Hfit1) as (_ & Hgi1 & _).
    wp_step. eapply wp_mono; [by eapply bullets_spec|]. intros [] w2 Hw2. wp_step. split; [done|].
    assert (with_gun (spend (Z.of_nat (Z.to_nat (ammo_per_fire (gi_gun gi)))) (gi <| curr_anim := 1 |>))
      (with_gun (gi <| curr_anim := 1 |>) ply) = with_gun ((spend_ammo gi) <| curr_anim := 1 |>) ply) as E.
    { rewrite with_gun_twice. f_equal. rewrite Z2Nat.id by lia. done. }
    rewrite <- E. by eapply fought_trans.
  - wp_step. split; [done|]. rewrite with_gun_same by (apply Hf || done).
    apply shot_at_fought; [done|by apply shot_at_refl].
Qed.

(** C19: [fire] in a world kept in order.  A gun that is not ready does not
    fire and nothing changes.  A ready gun fires: it spends one bullet per
    shot, at most [ammo_per_fire] and at most what is left, and starts its
    firing animation; only opponents can be hurt (the player's shots hurt the
    others, theirs only the player, never each other), which lowers their
    health and armor within their limits; no array is accessed out of bounds,
    no conversion is undefined, and everything else stays as it is.  This
    supposes that the variable [hit], which the code never initialises, reads
    as false. *)
Theorem fire_effects p ply gi w : world_ok w -> find_player p w = Some ply -> gun_in_hand ply = Some gi ->
  wp (fire false p) (fun shot w' =>
    shot = bool_decide (gi_state gi = READY) /\ world_ok w' /\ same_stage w w' /\
    find_player p w' = Some (if (shot : bool) then with_gun ((spend_ammo gi) <| curr_anim := 1 |>) ply else ply) /\
    forall q x, q <> p -> find_player q w = Some x -> exists x', find_player q w' = Some x' /\
      wounded x x' /\ (shot && opponents p q = false -> x' = x)) w.
Proof.
  intros Hok Hp Hgi. destruct (decide (gi_state gi = READY)) as [E|E].
  - eapply wp_mono; [by eapply fire_spec|]. intros shot w' (-> & Hs & Hok' & Hp' & Hq).
    unfold fired in Hp'. rewrite bool_decide_true in * by done. by split_and!.
  - unfold fire. wp_step. apply (wp_load_player _ _ _ _ Hp). wp_step. rewrite Hgi. cbn [defined]. wp_step.
    rewrite bool_decide_false by done. cbn [negb]. wp_step. split_and!; try done.
    intros q x _ Hx. exists x. split; [done|]. split; [apply wounded_refl|done].
Qed.

(** *** The gun of a player over a tick *)

(** The animations of a player that is drawn. *)
Definition sprites_ok (x : player_info_t) : Prop :=
  p_type x = PLAYER \/
  alen (sprites x) = 6 /\ Forall (fun v => length v = 8%nat /\ Forall anim_ok v) (sprites x).

Lemma update_views_spec t n views : 0 <= t -> (n <= length views)%nat -> Forall anim_ok views ->
  exists ended views', update_views t n views = Some (ended, views') /\
    length views' = length views /\ Forall anim_ok views'.
Proof.
  intros Ht. revert views. induction n as [|n IH]; intros views Hn Hv; [by exists false, views|].
  destruct views as [|a views]; [cbn in Hn; lia|]. apply Forall_cons in Hv as [Ha Hv]. cbn in Hn.
  destruct (update_anim_step t a Ha Ht) as (a' & k & E & _ & Ha' & _).
  destruct (IH views ltac:(lia) Hv) as (ended & views' & E' & Hl & Hv').
  cbn [update_views]. rewrite E, E'. eexists _, _. split; [reflexivity|].
  split; [cbn; by f_equal|by constructor].
Qed.

Lemma choose_anim_range shot x : alen (sprites x) = 6 ->
  Forall (fun v => length v = 8%nat /\ Forall anim_ok v) (sprites x) ->
  exists ca, choose_anim shot x = Some ca /\ 0 <= ca < 6 /\ (health x <= 0 -> ca = 5).
Proof.
  intros Hl Hv. unfold choose_anim. unfold alen in Hl.
  destruct (sprites x !! 4%nat) as [v|] eqn:E; [|apply lookup_ge_None in E; lia].
  pose proof (proj1 (Forall_lookup _ _) Hv _ _ E) as [H8 _]. destruct v as [|a v]; [done|].
  eexists. split; [reflexivity|]. destruct (Z.leb_spec (health x) 0); [lia|].
  split; [|lia]. repeat break_if; lia.
Qed.

Lemma animate_spec t shot x : 0 <= t -> sprites_ok x ->
  exists x', animate t shot x = Some x' /\ sprites_ok x' /\
    x' = x <| p_curr_anim := p_curr_anim x' |> <| sprites := sprites x' |>
           <| should_render := should_render x' |>.
Proof.
  intros Ht Hs. unfold animate. case_decide as Ep.
  { exists x. split; [done|]. split; [done|]. by destruct x. }
  destruct Hs as [?|[Hl Hv]]; [done|].
  destruct (choose_anim_range shot x Hl Hv) as (ca & -> & Hca & _).
  cbn -[update_views].
  destruct (proj2 (aget_is_Some (sprites x) ca)) as [views Hviews]; [lia|]. rewrite Hviews.
  assert (length views = 8%nat /\ Forall anim_ok views) as [H8 Hok].
  { unfold aget in Hviews. destruct (ca <? 0); [done|]. apply (proj1 (Forall_lookup _ _) Hv _ _ Hviews). }
  destruct (update_views_spec t 8 views Ht) as (ended & views' & -> & Hl' & Hok'); [lia|done|].
  rewrite aset_Some by lia. eexists. split; [reflexivity|].
  assert (alen (<[Z.to_nat ca:=views']> (sprites x)) = 6 /\
    Forall (fun v => length v = 8%nat /\ Forall anim_ok v) (<[Z.to_nat ca:=views']> (sprites x))) as Hs'.
  { split; [unfold alen; by rewrite length_insert|]. apply Forall_insert; [done|]. split; [lia|done]. }
  destruct (ended && _); (split; [by right|done]).
Qed.

(** The other animations, of the same number, fit as well. *)
Lemma fighter_ok_heap t h h' x : length h' = length h -> fighter_ok t h x -> fighter_ok t h' x.
Proof.
  intros Hl [Hh Hi Hg Hx Hy]. split; try done. eapply Forall_impl; [exact Hg|].
  intros gi [? [? ?] ?]. split; [done|split; [by rewrite Hl|done]|done].
Qed.
Lemma world_ok_anims h w : world_ok w -> heap_ok h -> length h = length (w_anims w) ->
  world_ok (w <| w_anims := h |>).
Proof.
  intros [Hm Ht Hh Hf Hp He] Hok Hl. split; cbn; try done. intros [|i] x Hx; cbn in *.
  - apply (fighter_ok_heap _ (w_anims w)); [done|]. by apply (Hf ThePlayer).
  - apply (fighter_ok_heap _ (w_anims w)); [done|]. by apply (Hf (Enemy i)).
Qed.

(** [p], who ends up as [ply'], shot at its opponents and drew its gun's
    animations. *)
Record stepped (p : who) (ply' : player_info_t) (w w' : world) : Prop := mk_stepped {
  sp_map : w_map w' = w_map w;
  sp_pickups : w_pickups w' = w_pickups w;
  sp_time : time_counter w' = time_counter w;
  sp_world : world_ok w';
  sp_self : find_player p w' = Some ply';
  sp_others q x : q <> p -> find_player q w = Some x -> exists x', find_player q w' = Some x' /\
    wounded x x' /\ (opponents p q = false -> x' = x);
}.

Lemma fought_stepped p ply w w' : fought p ply w w' -> stepped p ply w w'.
Proof. by intros ([? ? ? ?] & ? & ? & ?). Qed.
Lemma stepped_replaced p x x' w w1 w2 : stepped p x w w1 -> replaced p x' w1 w2 ->
  fighter_ok (time_counter w1) (w_anims w1) x' -> p_type x' = p_type x -> stepped p x' w w2.
Proof.
  intros [Em Ep Et Hok Hp Ho] Hrep Hf Hty. pose proof Hrep as [[Em2 Ea2 Ep2 Et2] Hq].
  split; [congruence..|by eapply replaced_ok|by eapply replaced_same|].
  intros q y Hne Hy. rewrite Hq, decide_False by done. by apply Ho.
Qed.
Lemma stepped_anims p x h w w1 : stepped p x w w1 -> heap_ok h -> length h = length (w_anims w1) ->
  stepped p x w (w1 <| w_anims := h |>).
Proof.
  intros [Em Ep Et Hok Hp Ho] Hh Hl. split; [done|done|done|by apply world_ok_anims|by destruct p|].
  intros q y Hne Hy. destruct (Ho q y Hne Hy) as (y' & Hy' & ?). exists y'. split; [by destruct q|done].
Qed.

(** The gun in hand of [with_gun], with animations of its own. *)
Lemma with_gun_drawn gi x ca sp r : 0 <= gun_index x < alen (guns x) ->
  gun_in_hand ((with_gun gi x) <| p_curr_anim := ca |> <| sprites := sp |> <| should_render := r |>) = Some gi.
Proof.
  intros Hi. unfold gun_in_hand, aget, with_gun. cbn. unfold alen in Hi. destruct (Z.ltb_spec (gun_index x) 0); [lia|].
  by rewrite list_lookup_insert_eq by lia.
Qed.

Lemma shoot_step_spec playing p ply gi w :
  world_ok w -> find_player p w = Some ply -> gun_in_hand ply = Some gi -> sprites_ok ply ->
  exists pulled, trigger playing ply = Some pulled /\
  wp (shoot_step false playing p) (fun shot w' => exists gi' ply' ca sp r,
    gun_tick (time_counter w) pulled (bool_decide (p_type ply = PLAYER)) gi (w_anims w) =
      Done ((shot, gi'), w_anims w') /\ gi_gun gi' = gi_gun gi /\
    ply' = (with_gun gi' ply) <| p_curr_anim := ca |> <| sprites := sp |> <| should_render := r |> /\
    sprites_ok ply' /\ stepped p ply' w w') w.
Proof.
  intros Hok Hp Hgi Hsp. pose proof (wo_fighters _ Hok _ _ Hp) as Hf.
  pose proof (in_hand_fit _ _ _ _ Hf Hgi) as [Htm Han Hdm].
  assert (exists pulled, trigger playing ply = Some pulled) as [pulled Hpull].
  { unfold trigger. rewrite Hgi. case_decide; by eexists. }
  exists pulled. split; [done|].
  set (fires := pulled && bool_decide (gi_state gi = READY)).
  set (gi1 := if fires then (spend_ammo gi) <| curr_anim := 1 |> else gi).
  assert (wp (if pulled then fire false p else ret false) (fun shot w' => shot = fires /\
    fought p (with_gun gi1 ply) w w') w) as Hfire.
  { unfold gi1, fires. destruct pulled; cbn [andb].
    - eapply wp_mono; [by eapply fire_spec|]. intros shot w' [-> Hw']. by split.
    - wp_step. split; [done|]. rewrite with_gun_same by (apply Hf || done).
      apply shot_at_fought; [done|by apply shot_at_refl]. }
  unfold shoot_step. wp_step. apply (wp_load_player _ _ _ _ Hp). wp_step. rewrite Hpull. cbn [defined].
  do 2 wp_step. eapply wp_mono; [exact Hfire|]. intros shot w1 [-> Hw1].
  pose proof Hw1 as ([_ Ea _ Et] & Hok1 & Hp1 & _). apply fought_stepped in Hw1.
  pose proof (wo_fighters _ Hok1 _ _ Hp1) as Hf1. wp_steps. rewrite Et.
  destruct (animate_spec (time_counter w) fires (with_gun gi1 ply)) as (x' & Hx' & Hsx & E);
    [apply Hok|by destruct Hsp; [left|right]|].
  eapply wp_update_player; [exact Hp1|exact Hx'|]. intros w2 Hrep. pose proof Hrep as [[_ Ea2 _ Et2] _].
  assert (stepped p x' w w2) as Hw2.
  { eapply stepped_replaced; [exact Hw1|exact Hrep| |]; rewrite E; [|done]. by destruct Hf1 as [[] ? ? ? ?]. }
  apply replaced_same in Hrep. cbn beta. wp_step. unfold update_gun. wp_step. apply (wp_load_player _ _ _ _ Hrep). wp_step.
  assert (gun_in_hand x' = Some gi1) as Hgx by (rewrite E; apply with_gun_drawn; apply Hf).
  assert (p_type x' = p_type ply) as Ety by (by rewrite E).
  rewrite Hgx. cbn [defined]. do 3 wp_step. unfold on_anims. do 2 wp_step. rewrite Et2, Ea2, Et, Ea, Ety.
  pose proof (gun_tick_spec (time_counter w) pulled (bool_decide (p_type ply = PLAYER)) gi (w_anims w)
    (wo_time _ Hok) Htm (wo_heap _ Hok) Han) as Hgt.
  apply (proj1 (wp_Done _ _ _)) in Hgt as ([shot' gi'] & h' & Hrun & Hh' & Hl' & Han' & Htm' & Hg' & _).
  pose proof Hrun as Hrun'. unfold gun_tick in Hrun'. fold fires in Hrun'. fold gi1 in Hrun'.
  unfold bind in Hrun'. destruct (update_gun_state _ _ _ _ _) as [[g hh]| |] eqn:Eu; try done.
  injection Hrun' as <- <- <-. eapply wp_Done_eq; [exact Eu|]. cbn beta.
  assert (stepped p x' w (w2 <| w_anims := hh |>)) as Hw3.
  { apply stepped_anims; [done|done|]. by rewrite Ea2, Ea. }
  assert (fighter_ok (time_counter w2) hh x') as Hf3 by (apply (wo_fighters _ (sp_world _ _ _ _ Hw3) p), Hw3).
  assert (gun_fit (time_counter w2) hh g) as Hfit.
  { rewrite Et2, Et. split; [done|done|]. by rewrite Hg'. }
  destruct (set_in_hand _ _ _ _ Hf3 Hfit) as (Hset & _ & Hf4).
  wp_step. rewrite Hset. cbn [defined]. wp_step.
  destruct (store_player_spec p x' (with_gun g x') _ (sp_self _ _ _ _ Hw3)) as (w4 & E4 & Hrep4).
  eapply wp_Done_eq; [exact E4|]. wp_step.
  assert (stepped p (with_gun g x') w w4) as Hw4 by (by eapply stepped_replaced).
  assert (with_gun g x' = (with_gun g ply) <| p_curr_anim := p_curr_anim x' |> <| sprites := sprites x' |>
    <| should_render := should_render x' |>) as Efin.
  { rewrite E at 1. unfold with_gun, set. cbn. by rewrite list_insert_insert_eq. }
  exists g, (with_gun g x'), (p_curr_anim x'), (sprites x'), (should_render x').
  pose proof Hrep4 as [[_ -> _ _] _]. split; [exact Hrun|]. split; [done|]. split; [exact Efin|]. split; [|exact Hw4].
  destruct Hsx as [Hs|Hs]; [left|right]; [|exact Hs]. done.
Qed.

(** C18: if the uninitialised [hit] of [fire] (player.c:309) happens to be
    false (with the other value a shot that meets nothing is undefined), then
    in a sound world, for every player, bot or network player with a gun in
    hand whose sprites are there, the second half of
    [player_int_ih] moves the gun in hand exactly as the gun automaton
    [gun_tick] does: the trigger is the one [player_int_ih] computes, a shot
    is reported to [update_gun_state] exactly when [fire] fired, and the shared
    animations advance as there.  So what holds of [gun_tick] over time (the
    rate of fire, the ammunition, the animation bounds) holds of every player
    in the game; under these conditions the step never leaves an array and
    always returns. *)
Theorem shoot_step_gun_tick playing p ply gi w :
  world_ok w -> find_player p w = Some ply -> gun_in_hand ply = Some gi -> sprites_ok ply ->
  exists pulled, trigger playing ply = Some pulled /\
  wp (shoot_step false playing p) (fun shot w' => exists gi' ply',
    gun_tick (time_counter w) pulled (bool_decide (p_type ply = PLAYER)) gi (w_anims w) =
      Done ((shot, gi'), w_anims w') /\
    find_player p w' = Some ply' /\ gun_in_hand ply' = Some gi' /\ guns ply' = guns (with_gun gi' ply)) w.
Proof.
  intros Hok Hp Hgi Hsp. destruct (shoot_step_spec playing p ply gi w Hok Hp Hgi Hsp) as (pulled & Ht & H).
  exists pulled. split; [exact Ht|]. eapply wp_mono; [exact H|].
  intros shot w' (gi' & ply' & ca & sp & r & Hrun & _ & -> & _ & Hw'). exists gi'. eexists. split; [exact Hrun|].
  split; [apply Hw'|]. split; [|done]. apply with_gun_drawn. apply (wo_fighters _ Hok _ _ Hp).
Qed.
End Fighting.

(** *** A duel

    The player, minigun ready and trigger pulled, and a bot in the corridor. *)
Definition duel_gun : gun_instance_t := minigun <| gi_state := READY |>.
Definition duel_player : player_info_t :=
  zero_player <| position := mk_vec (dlit 1 2) (dlit 1 2) |> <| direction := mk_vec (dint 1) d0 |>
    <| guns := [duel_gun] |> <| health := 50 |> <| max_health := 100 |> <| max_armor := 100 |>
    <| p_radius := dlit 1 5 |> <| p_movm ::= (fun c => c <| lb_single_tap := true |>) |>.
Definition duel_bot (hp : Z) : player_info_t :=
  init_player_anims (duel_player <| p_type := BOT |> <| position := mk_vec (dlit 5 2) (dlit 1 2) |>
                       <| health := hp |>).
Definition duel (hp : Z) : world :=
  mk_world duel_player [duel_bot hp] corridor minigun_heap no_pickups 20.

Lemma duel_ok hp : 0 <= hp <= 100 -> world_ok (duel hp).
Proof.
  intros Hhp. assert (fighter_ok 20 minigun_heap duel_player) as Hp.
  { split; [split; cbn; lia|split; [done|reflexivity]| |eexists; reflexivity|eexists; reflexivity].
    constructor; [|constructor]. split; [repeat split; cbn; lia|repeat split; cbn; lia|cbn; lia]. }
  split.
  - exact corridor_ok.
  - cbn. lia.
  - repeat constructor; cbn; done.
  - intros [|i] x Hx; cbn in Hx; [by injection Hx as <-|].
    pose proof (aget_Some_range _ _ _ Hx) as Hi. unfold alen in Hi. cbn in Hi.
    replace i with 0 in Hx by lia. injection Hx as <-. destruct Hp as [? ? ? ? ?].
    split; [split; cbn; lia|done|done|eexists; reflexivity|eexists; reflexivity].
  - done.
  - intros i e Hx. cbn in Hx. pose proof (aget_Some_range _ _ _ Hx) as Hi. unfold alen in Hi. cbn in Hi.
    replace i with 0 in Hx by lia. by injection Hx as <-.
Qed.

Lemma fire_effects_witness :
  exists w', fire false ThePlayer (duel 50) = Done (true, w') /\ world_ok w' /\
    health <$> w_enemies w' = [35].
Proof.
  pose proof (fire_effects ThePlayer duel_player duel_gun (duel 50) (duel_ok 50 ltac:(lia)) eq_refl eq_refl) as H.
  apply (proj1 (wp_Done _ _ _)) in H as (shot & w' & E & _ & Hok & _).
  exists w'. split; [|split; [exact Hok|]]; vm_compute in E; injection E as <- <-; vm_compute; reflexivity.
Defined.

Lemma shoot_step_gun_tick_witness :
  exists w' gi', shoot_step false true ThePlayer (duel 50) = Done (true, w') /\
    gun_tick 20 true true duel_gun minigun_heap = Done ((true, gi'), w_anims w') /\
    gi_state gi' = COOLDOWN /\ curr_ammo gi' = 29.
Proof.
  destruct (shoot_step_gun_tick true ThePlayer duel_player duel_gun (duel 50)) as (pulled & Hp & H).
  - apply duel_ok; lia.
  - reflexivity.
  - reflexivity.
  - left; reflexivity.
  - assert (pulled = true) as -> by (vm_compute in Hp; injection Hp as <-; reflexivity).
    apply (proj1 (wp_Done _ _ _)) in H as (shot & w' & E & gi' & ply' & Hrun & _).
    assert (shot = true) as -> by (vm_compute in E; injection E as <- _; reflexivity).
    exists w', gi'. split; [exact E|]. split; [exact Hrun|].
    vm_compute in Hrun. injection Hrun as <- _. split; reflexivity.
Defined.

(** [fire] declares [bool hit] without a value and only sets it when a
    target is hit or a wall is nearer: a shot that misses everybody (here at a
    bot already dead) tests whatever the variable holds.  If that reads as
    true the code follows the null [hit_target]; if false the shot is
    harmless. *)
Lemma fire_reads_uninitialised :
  fire true ThePlayer (duel 0) = Undef /\
  exists w', fire false ThePlayer (duel 0) = Done (true, w') /\ w_enemies w' = w_enemies (duel 0).
Proof. split; [vm_compute; reflexivity|]. eexists. split; vm_compute; reflexivity. Qed.
