(* ===== verification/Network.v ===== *)
(** * Network

    The two-player protocol over the serial line,
    [src/proj/system/networking/networking.c]: the handshake, the packet that
    carries a player's controls in three bytes, and the receiver that finds
    the packets in the byte stream and plays the other player's tick. *)

From Stdlib Require Import Floats.SpecFloat.
From S2P Require Import Prelude Hardware Kbc Queue Uart Doubles Utils Controls Players Pickups Battle.

(** ** Constants of [networking.h] *)
Definition DATA_SHOOTDOWN : Z := BIT 0.
Definition DATA_CTRLDOWN : Z := BIT 1.
Definition DATA_SHIFTDOWN : Z := BIT 2.
Definition DATA_DDOWN : Z := BIT 3.
Definition DATA_SDOWN : Z := BIT 4.
Definition DATA_ADOWN : Z := BIT 5.
Definition DATA_WDOWN : Z := BIT 6.
Definition DATA_MOUSE_MSB : Z := BIT 7.
Definition DATA_GUN_BITS : Z := Z.lor (Z.lor (BIT 0) (BIT 1)) (BIT 2).
Definition DATA_CONFIRM_PACKET : Z := Z.lor (Z.lor (BIT 7) (BIT 5)) (BIT 3).
Definition DATA_CONFIRM_MASK : Z := 0xf8.
Definition DATA_BYTES : Z := 3.
Definition UART_JOIN_REQUEST : Z := 74.
Definition UART_SYNC_PASSWORD : list Z := [83; 84; 65; 82; 84; 0].
Definition UART_SYNC_RESPONSE : list Z := [66; 69; 71; 73; 78; 0].
Definition UART_PASSWORD_SIZE : Z := 5.
Definition UART_ACK : Z := 79.
Definition UART_GET_RESPONSE : Z := 80.
Definition UART_WIN_GAME : list Z := [87; 73; 78].
Definition UART_LOSE_GAME : list Z := [76; 79; 83].
Definition LOSE_GAME_ERR : Z := 5.
Definition WIN_GAME_ERR : Z := 6.
Definition UART_SYNC_TRIES : Z := 30 * 60.
Definition UART_PACKET_TRIES : Z := 8 * 60.

(** ** Data *)
Inductive network_state_t : Type := INIT | WAITING | LINKED | CONNECTED | DISCONNECTED | CLEANUP.
#[global] Instance network_state_eq_dec : EqDecision network_state_t.
Proof. solve_decision. Defined.

Record network_packet_t : Type := mk_net_packet {
  mouse_byte : Z;
  mouse_msb : Z;
  w_down : bool; a_down : bool; s_down : bool; d_down : bool;
  ctrl_down : bool; shift_down : bool; shoot_down : bool;
  gun_down : Z;
}.

(** The statics of the file, with the driver and the world they act on;
    [sync_tries] is the static of [uart_sync], [net_bytes] the one of
    [uart_receive_data]. *)
Record network (D S : Type) : Type := mk_network {
  n_uart : uart D S;
  n_world : world;
  net_idx : Z;
  packet_idx : Z;
  packet_tries : Z;
  net_state : network_state_t;
  net_player : Z;
  sync_tries : Z;
  net_bytes : list Z;
}.
Arguments mk_network {D S}.
Arguments n_uart {D S}.
Arguments n_world {D S}.
Arguments net_idx {D S}.
Arguments packet_idx {D S}.
Arguments packet_tries {D S}.
Arguments net_state {D S}.
Arguments net_player {D S}.
Arguments sync_tries {D S}.
Arguments net_bytes {D S}.
#[global] Instance eta_network {D S} : Eta (network D S) := fun n =>
  mk_network (n_uart n) (n_world n) (net_idx n) (packet_idx n) (packet_tries n) (net_state n)
    (net_player n) (sync_tries n) (net_bytes n).

(** ** Packets *)
Definition encode_packet (ply : player_info_t) : option network_packet_t :=
  let k := kbd_state (p_movm ply) in
  let desl := dmul (clamp_desl (mouse_desl (p_movm ply))) d128 in
  match dto_u8 (dabs desl) with
  | Some b =>
      Some (mk_net_packet b (if dge desl (dint 0) then 0 else 1) (x_pos k) (y_neg k) (x_neg k) (y_pos k)
              (crouch k) (sprint k) (pkt_lb (mouse_pkt (p_movm ply))) (u8 (gun_index ply + 1)))
  | None => None
  end.

Definition decode_packet (pkt : network_packet_t) (ply : player_info_t) : option player_info_t :=
  let nums := nums_press (kbd_state (p_movm ply)) in
  match aset (replicate 3 false ++ drop 3 nums) (gun_down pkt) true with
  | None => None
  | Some nums =>
      let desl := ddiv (dint (mouse_byte pkt)) d128 in
      let desl := if negb (mouse_msb pkt =? 0) then dneg desl else desl in
      Some (ply <| p_movm ::= (fun c =>
        c <| kbd_state ::= (fun k => k <| x_pos := w_down pkt |> <| x_neg := s_down pkt |>
                                       <| y_pos := d_down pkt |> <| y_neg := a_down pkt |>
                                       <| sprint := shift_down pkt |> <| crouch := ctrl_down pkt |>
                                       <| nums_press := nums |>) |>
          <| mouse_desl := desl |>
          <| mouse_pkt ::= (fun m => m <| pkt_lb := shoot_down pkt |>) |>) |>)
  end.

Definition flag (b : bool) (m : Z) : Z := if b then m else 0.
(** [data[0..2]]; the shift of [DATA_GUN_DOWN(n)] is undefined for [n = 0]. *)
Definition encode_data (pkt : network_packet_t) : option (list Z) :=
  let data2 := foldl (fun acc m => u8 (Z.lor acc m)) 0
    [flag (shoot_down pkt) DATA_SHOOTDOWN; flag (ctrl_down pkt) DATA_CTRLDOWN;
     flag (shift_down pkt) DATA_SHIFTDOWN; flag (d_down pkt) DATA_DDOWN;
     flag (s_down pkt) DATA_SDOWN; flag (a_down pkt) DATA_ADOWN; flag (w_down pkt) DATA_WDOWN;
     flag (negb (mouse_msb pkt =? 0)) DATA_MOUSE_MSB] in
  if (1 <=? gun_down pkt) && (gun_down pkt <=? 31) then
    Some [u8 (Z.lor DATA_CONFIRM_PACKET (BIT (gun_down pkt - 1))); mouse_byte pkt; data2]
  else None.

Definition decode_data (data : list Z) : option network_packet_t :=
  match data with
  | [data0; data1; data2] =>
      let g := Z.land data0 DATA_GUN_BITS in
      Some (mk_net_packet data1 (b2z (Z.land data2 DATA_MOUSE_MSB =? DATA_MOUSE_MSB))
              (has_bits data2 DATA_WDOWN) (has_bits data2 DATA_ADOWN) (has_bits data2 DATA_SDOWN)
              (has_bits data2 DATA_DDOWN) (has_bits data2 DATA_CTRLDOWN)
              (has_bits data2 DATA_SHIFTDOWN) (has_bits data2 DATA_SHOOTDOWN)
              (if has_bits g (BIT 0) then 1 else if has_bits g (BIT 1) then 2
               else if has_bits g (BIT 2) then 3 else 0))
  | _ => None
  end.

(** [uart_bytes_cmp(b1, b2, size)], on blocks of [size] bytes. *)
Definition uart_bytes_cmp (b1 b2 : list Z) : bool := bool_decide (b1 = b2).

Section Network.
Context {D : Type} `{!Device D} {S : Type} {QS : QueueStore S} {LM : Libm}.
Variables (junk_hit playing : bool).

Definition on_uart {A} (m : prog (uart D S) A) : prog (network D S) A :=
  zoom n_uart (fun u n => n <| n_uart := u |>) m.
Definition on_world {A} (m : prog world A) : prog (network D S) A :=
  zoom n_world (fun w n => n <| n_world := w |>) m.

Definition get_network_player : prog (network D S) Z := gets net_player.
Definition get_network_state : prog (network D S) network_state_t := gets net_state.
Definition set_network_state (nstate : network_state_t) : prog (network D S) unit :=
  modify (fun n => n <| net_state := nstate |>).

(** ** The handshake *)
Definition send_join_request : prog (network D S) unit :=
  on_uart (uart_safe_transmit UART_JOIN_REQUEST).

Definition next_idx : prog (network D S) Z :=
  modify (fun n => n <| net_idx ::= (fun i => u8 (i + 1)) |>) ;;; gets net_idx.

Definition uart_sync_link : prog (network D S) Z :=
  front <- on_uart uart_recv_front ;;
  match front with
  | None => ret 2
  | Some byte =>
      if byte =? UART_ERROR_CODE then ret 1 else
      idx <- gets net_idx ;;
      if byte =? UART_ACK then
        if idx =? UART_PASSWORD_SIZE then
          modify (fun n => n <| net_state := LINKED |> <| net_idx := 0 |>) ;;;
          on_uart (uart_safe_transmit UART_GET_RESPONSE) ;;;
          ret OK
        else
          (c <- defined (aget UART_SYNC_PASSWORD idx) ;;
           on_uart (uart_safe_transmit c) ;;;
           _ <- next_idx ;;
           ret OK)
      else if byte =? UART_JOIN_REQUEST then
        on_uart empty_transmit_queue ;;;
        on_uart (uart_safe_transmit UART_ACK) ;;;
        modify (fun n => n <| net_idx := 0 |>) ;;;
        ret OK
      else
        (c <- defined (aget UART_SYNC_PASSWORD idx) ;;
         if byte =? c then
           on_uart (uart_safe_transmit UART_ACK) ;;;
           idx <- next_idx ;;
           if idx =? UART_PASSWORD_SIZE
           then (modify (fun n => n <| net_state := LINKED |> <| net_idx := 0 |>) ;;; ret OK)
           else ret OK
         else ret 2)
  end.

Definition uart_sync_connect : prog (network D S) Z :=
  front <- on_uart uart_recv_front ;;
  match front with
  | None => ret 2
  | Some byte =>
      if byte =? UART_ERROR_CODE then ret 1 else
      idx <- gets net_idx ;;
      if byte =? UART_ACK then
        if idx =? UART_PASSWORD_SIZE then
          modify (fun n => n <| net_state := CONNECTED |> <| net_player := 1 |>) ;;;
          on_uart empty_transmit_queue ;;;
          ret OK
        else
          (c <- defined (aget UART_SYNC_RESPONSE idx) ;;
           on_uart (uart_safe_transmit c) ;;;
           _ <- next_idx ;;
           ret OK)
      else if byte =? UART_GET_RESPONSE then
        on_uart empty_transmit_queue ;;;
        c <- defined (aget UART_SYNC_RESPONSE 0) ;;
        on_uart (uart_safe_transmit c) ;;;
        modify (fun n => n <| net_idx := 1 |>) ;;;
        ret OK
      else
        (c <- defined (aget UART_SYNC_RESPONSE idx) ;;
         if byte =? c then
           on_uart (uart_safe_transmit UART_ACK) ;;;
           idx <- next_idx ;;
           if idx =? UART_PASSWORD_SIZE
           then (modify (fun n => n <| net_player := 2 |> <| net_state := CONNECTED |>) ;;;
                 on_uart empty_transmit_queue ;;;
                 ret OK)
           else ret OK
         else ret 2)
  end.

Definition reset_sync : prog (network D S) unit :=
  modify (fun n => n <| net_state := CLEANUP |> <| net_idx := 0 |>).

(** The draining loops of the cleanup; [cleanup_byte] is threaded through. *)
Definition drain (fuel : nat) (byte : Z) : prog (network D S) (bool * Z) :=
  iterate fuel (fun '(clean, byte) =>
    '(err, byte) <- on_uart (ua_on_hw (uart_receive_byte byte)) ;;
    if err =? 1 then ret (inr (clean, byte)) else ret (inl (false, byte))) (true, byte).
Definition cleanup (fuel : nat) (byte : Z) : prog (network D S) unit :=
  iterate fuel (fun byte =>
    tries <- gets sync_tries ;;
    if tries <? Z.of_nat UART_MAX_TRIES then
      '(clean, byte) <- drain fuel byte ;;
      modify (fun n => n <| sync_tries := if (clean : bool) then u32 (tries + 1) else 0 |>) ;;;
      ret (inl byte)
    else ret (inr tt)) byte.

(** [if(err == 1) reset_sync(); else if(err == 2) ...] *)
Definition sync_failed (err : Z) : prog (network D S) unit :=
  if err =? 1 then reset_sync
  else if err =? 2 then
    modify (fun n => n <| sync_tries ::= (fun t => u32 (t + 1)) |>) ;;;
    tries <- gets sync_tries ;;
    if UART_SYNC_TRIES <? tries
    then modify (fun n => n <| net_idx := 0 |> <| net_state := INIT |> <| sync_tries := 0 |>)
    else ret tt
  else ret tt.

Definition uart_sync (fuel : nat) : prog (network D S) unit :=
  state <- gets net_state ;;
  (if decide (state = CLEANUP) then
     _ <- on_uart (ua_on_hw uart_init_fifo) ;;
     modify (fun n => n <| net_idx := 0 |> <| packet_idx := 0 |> <| packet_tries := 0 |>) ;;;
     on_uart empty_transmit_queue ;;;
     on_uart empty_recv_queue ;;;
     byte <- on_uart (ua_on_hw uninit_byte) ;;
     cleanup fuel byte ;;;
     modify (fun n => n <| net_state := WAITING |>) ;;;
     send_join_request ;;;
     modify (fun n => n <| sync_tries := 0 |>)
   else ret tt) ;;;
  state <- gets net_state ;;
  (if decide (state = WAITING) then err <- uart_sync_link ;; sync_failed err else ret tt) ;;;
  state <- gets net_state ;;
  if decide (state = LINKED) then err <- uart_sync_connect ;; sync_failed err else ret tt.

(** ** Data *)
Definition uart_send_string (word : list Z) (size : Z) : prog (network D S) Z :=
  c <- defined (aget word 0) ;;
  on_uart (uart_safe_transmit c) ;;;
  for_each (seqZ 1 (size - 1)) (fun i =>
    c <- defined (aget word i) ;; on_uart (uart_push_transmit c)) ;;;
  ret OK.

Definition uart_send_data (p : who) : prog (network D S) Z :=
  ply <- on_world (load_player p) ;;
  pkt <- defined (encode_packet ply) ;;
  bytes <- defined (encode_data pkt) ;;
  uart_send_string bytes DATA_BYTES.

(** What a complete packet does to the other player. *)
Definition apply_packet (p : who) (pkt : network_packet_t) : prog world unit :=
  update_player p (decode_packet pkt) ;;;
  player_int_ih junk_hit playing p.

(** Whether [uart_receive_data] skips the byte while it waits for a packet. *)
Definition skipped (byte : Z) : bool :=
  negb (Z.land byte DATA_CONFIRM_MASK =? DATA_CONFIRM_PACKET) &&
  negb (byte =? 87) && negb (byte =? 76).

(** One round of the [while]; [inr] leaves the function, or ([None]) the loop. *)
Definition receive_round (p : who) : prog (network D S) (unit + option Z) :=
  front <- on_uart uart_recv_front ;;
  match front with
  | None => ret (inr None)
  | Some byte =>
      i <- gets packet_idx ;;
      if (i =? 0) && skipped byte then ret (inl tt) else
      bytes <- gets net_bytes ;;
      bytes <- defined (aset bytes i (u8 byte)) ;;
      let i := u8 (i + 1) in
      modify (fun n => n <| net_bytes := bytes |> <| packet_idx := i |>) ;;;
      if i =? DATA_BYTES then
        modify (fun n => n <| packet_idx := 0 |> <| packet_tries := 0 |>) ;;;
        if uart_bytes_cmp bytes UART_WIN_GAME then ret (inr (Some WIN_GAME_ERR))
        else if uart_bytes_cmp bytes UART_LOSE_GAME then ret (inr (Some LOSE_GAME_ERR))
        else
          (pkt <- defined (decode_data bytes) ;;
           on_world (apply_packet p pkt) ;;;
           ret (inl tt))
      else ret (inl tt)
  end.

Definition uart_receive_data (fuel : nat) (p : who) : prog (network D S) Z :=
  modify (fun n => n <| packet_tries ::= (fun t => u32 (t + 1)) |>) ;;;
  out <- iterate fuel (fun _ => receive_round p) tt ;;
  match out with
  | Some r => ret r
  | None =>
      tries <- gets packet_tries ;;
      (if UART_PACKET_TRIES <? tries then set_network_state DISCONNECTED else ret tt) ;;;
      ret OK
  end.
End Network.

(** ** A packet reproduces the player *)

(** Bits of [encode_data]'s third byte. *)
Lemma data_roundtrip pkt : 1 <= gun_down pkt <= 3 -> mouse_msb pkt = 0 \/ mouse_msb pkt = 1 ->
  exists d0 d2, encode_data pkt = Some [d0; mouse_byte pkt; d2] /\ 0 <= d0 < 256 /\ 0 <= d2 < 256 /\
    Z.land d0 DATA_CONFIRM_MASK = DATA_CONFIRM_PACKET /\
    decode_data [d0; mouse_byte pkt; d2] = Some pkt.
Proof.
  destruct pkt as [mb msb w a s d c sh fi g]. cbn [gun_down mouse_msb mouse_byte]. intros Hg Hmsb.
  assert (g = 1 \/ g = 2 \/ g = 3) as Hg' by lia. clear Hg.
  eexists _, _. split; [unfold encode_data; cbn [gun_down]; by destruct Hg' as [-> | [-> | ->]]|].
  split; [by apply (wrap_range 8)|]. cbn [mouse_byte].
  destruct Hmsb as [-> | ->], Hg' as [-> | [-> | ->]], w, a, s, d, c, sh, fi; by vm_compute.
Qed.

(** Counting a displacement in 128ths again gives the same angle. *)
Lemma quantise_again (b : Z) (neg : bool) : 0 <= b <= 243 ->
  let x := if neg then dneg (ddiv (dint b) d128) else ddiv (dint b) d128 in
  exists y, quantise x = Some y /\ deq x y = true.
Proof.
  intros Hb x.
  assert (match quantise x with Some y => deq x y | None => false end = true) as H.
  { unfold x. clear x. destruct neg; revert b Hb.
    - intros b Hb. apply (forall_below 244 (fun b => match quantise (dneg (ddiv (dint b) d128)) with
        | Some y => deq (dneg (ddiv (dint b) d128)) y | None => false end)); [|lia].
      vm_compute. reflexivity.
    - intros b Hb. apply (forall_below 244 (fun b => match quantise (ddiv (dint b) d128) with
        | Some y => deq (ddiv (dint b) d128) y | None => false end)); [|lia].
      vm_compute. reflexivity. }
  destruct (quantise x) as [y|]; [by exists y|done].
Qed.

(** The number key a decoded packet presses. *)
Lemma number_selected nums g : length nums = 10%nat -> 0 <= g <= 2 ->
  exists nums', aset (replicate 3 false ++ drop 3 nums) (g + 1) true = Some nums' /\
    first_pressed nums' [1; 2; 3] = Some (g + 1).
Proof.
  intros Hl Hg. destruct nums as [|n0 [|n1 [|n2 [|n3 ns]]]]; [discriminate Hl..|].
  assert (g = 0 \/ g = 1 \/ g = 2) as [-> | [-> | ->]] by lia; eexists; split; reflexivity.
Qed.

(** The keys a packet carries, and the ones that press a gun number. *)
Definition same_controls (c c' : controls_t) : Prop :=
  kbd_movement (kbd_state c') = kbd_movement (kbd_state c) /\
  sprint (kbd_state c') = sprint (kbd_state c) /\ crouch (kbd_state c') = crouch (kbd_state c) /\
  pkt_lb (mouse_pkt c') = pkt_lb (mouse_pkt c).

(** C24: what one machine sends, the other plays.  For every player with a gun
    in hand and a mouse displacement that is a number, encoding its controls
    gives three bytes whose header is recognised and that are neither of the
    two end-of-game words; decoding them gives the packet back; and applied to
    the other machine's copy of the player they reproduce the movement keys,
    sprint, crouch and the trigger, select the gun in hand, and make the copy
    turn by the same angle, since both machines count the clamped displacement
    in 128ths (and counting it twice changes nothing). *)
Theorem network_replica ply remote :
  dvalid (mouse_desl (p_movm ply)) = true -> mouse_desl (p_movm ply) <> S754_nan ->
  0 <= gun_index ply <= 2 -> length (nums_press (kbd_state (p_movm remote))) = 10%nat ->
  exists pkt bytes remote' x y,
    encode_packet ply = Some pkt /\ encode_data pkt = Some bytes /\ decode_data bytes = Some pkt /\
    length bytes = 3%nat /\ Forall (fun b => 0 <= b < 256) bytes /\
    (forall b, head bytes = Some b -> skipped b = false /\ b <> 87 /\ b <> 76) /\
    decode_packet pkt remote = Some remote' /\
    same_controls (p_movm ply) (p_movm remote') /\
    first_pressed (nums_press (kbd_state (p_movm remote'))) [1; 2; 3] = Some (gun_index ply + 1) /\
    quantise (mouse_desl (p_movm ply)) = Some x /\
    quantise (mouse_desl (p_movm remote')) = Some y /\ deq x y = true.
Proof.
  intros Hv Hn Hg Hnums.
  destruct (clamp_desl_quantum _ Hv Hn) as (b & Hb1 & Hb2 & Hb & Hsign).
  unfold encode_packet. rewrite Hb2. set (pkt := mk_net_packet _ _ _ _ _ _ _ _ _ _).
  assert (gun_down pkt = gun_index ply + 1) as Hgd by (cbn; by rewrite (wrap_small 8) by lia).
  assert (mouse_msb pkt = 0 \/ mouse_msb pkt = 1) as Hmsb by (cbn; break_if; auto).
  destruct (data_roundtrip pkt) as (d0' & d2 & He & H0 & H2 & Hmask & Hd); [lia|done|].
  destruct (number_selected (nums_press (kbd_state (p_movm remote))) (gun_index ply) Hnums Hg)
    as (nums' & Hset & Hfirst). rewrite <- Hgd in Hset.
  set (neg := negb (dge (clamp_desl (mouse_desl (p_movm ply))) (dint 0))).
  set (x := if neg then dneg (ddiv (dint b) d128) else ddiv (dint b) d128).
  destruct (quantise_again b neg Hb) as (y & Hy & Hxy).
  assert (quantise (mouse_desl (p_movm ply)) = Some x) as Hq by (unfold quantise; by rewrite Hb1).
  assert (decode_packet pkt remote = Some (remote <| p_movm ::= (fun c =>
        c <| kbd_state ::= (fun k => k <| x_pos := w_down pkt |> <| x_neg := s_down pkt |>
                                       <| y_pos := d_down pkt |> <| y_neg := a_down pkt |>
                                       <| sprint := shift_down pkt |> <| crouch := ctrl_down pkt |>
                                       <| nums_press := nums' |>) |>
          <| mouse_desl := x |>
          <| mouse_pkt ::= (fun m => m <| pkt_lb := shoot_down pkt |>) |>) |>)) as Hdec.
  { unfold decode_packet. rewrite Hset. do 2 f_equal. unfold x, neg. cbn [mouse_msb mouse_byte pkt].
    change (dint 0) with d0. rewrite <- Hsign. by destruct (dge _ _). }
  exists pkt, [d0'; b; d2]. eexists _, x, y. split; [done|]. split; [exact He|].
  split; [exact Hd|]. split; [done|]. split; [repeat constructor; lia|]. split.
  { intros c [= <-]. unfold skipped. rewrite Hmask. split; [done|].
    split; intros ->; vm_compute in Hmask; discriminate Hmask. }
  split; [exact Hdec|]. split; [repeat split; reflexivity|]. split; [exact Hfirst|]. split; [exact Hq|].
  split; [exact Hy|exact Hxy].
Qed.

Lemma network_replica_witness :
  let ply := zero_player <| gun_index := 1 |> <| p_movm ::= (fun c =>
               c <| mouse_desl := dlit (-3) 10 |> <| kbd_state ::= (fun k => k <| x_pos := true |>) |>) |> in
  exists pkt bytes, encode_packet ply = Some pkt /\ encode_data pkt = Some bytes /\
    bytes = [170; 38; 192] /\ decode_data bytes = Some pkt.
Proof.
  destruct (network_replica (zero_player <| gun_index := 1 |> <| p_movm ::= (fun c =>
      c <| mouse_desl := dlit (-3) 10 |> <| kbd_state ::= (fun k => k <| x_pos := true |>) |>) |>)
    zero_player) as (pkt & bytes & _ & _ & _ & He & Hd & Hr & _).
  - vm_compute; reflexivity.
  - vm_compute; discriminate.
  - vm_compute; split; discriminate.
  - reflexivity.
  - exists pkt, bytes. split; [exact He|]. split; [exact Hd|]. split; [|exact Hr].
    vm_compute in He. injection He as <-. vm_compute in Hd. injection Hd as <-. reflexivity.
Defined.

(** ** The receiver finds the packets *)
Section Receiver.
Context {D : Type} `{!Device D} {S : Type} {QS : QueueStore S} {QL : QueueLaws S}
  {LM : Libm}.
Context (junk_hit playing : bool).
Implicit Types n : network D S.

(** [fifos] of the driver inside. *)
Lemma recv_front_some u b lin lout : fifos u (b :: lin) lout ->
  wp (uart_recv_front (D:=D)) (fun r u' => r = Some b /\ fifos u' lin lout /\
    ua_hw u' = ua_hw u /\ can_send u' = can_send u) u.
Proof.
  intros Hf. unfold uart_recv_front. wp_step. eapply wp_in_observes; [apply empty_observes|done|]. cbn beta.
  rewrite bool_decide_false by done. wp_step. eapply wp_in_observes; [apply front_observes|done|]. cbn.
  wp_step. eapply wp_in_updates; [apply pop_updates|done|]. intros s Hf'. wp_step. done.
Qed.
Lemma recv_front_none u lout : fifos u [] lout ->
  wp (uart_recv_front (D:=D)) (fun r u' => r = None /\ u' = u) u.
Proof.
  intros Hf. unfold uart_recv_front. wp_step. eapply wp_in_observes; [apply empty_observes|done|]. cbn beta.
  rewrite bool_decide_true by done. by wp_step.
Qed.

(** A block of the stream: bytes that are skipped, then the three bytes of a
    packet. *)
Record frame : Type := mk_frame { fr_junk : list Z; fr_pkt : network_packet_t; fr_bytes : list Z }.
Record frame_ok (f : frame) : Prop := mk_frame_ok {
  fk_junk : Forall (fun b => skipped b = true) (fr_junk f);
  fk_pkt : decode_data (fr_bytes f) = Some (fr_pkt f);
  fk_bytes : Forall (fun b => 0 <= b < 256) (fr_bytes f);
  fk_head b : head (fr_bytes f) = Some b -> skipped b = false;
  fk_win : fr_bytes f <> UART_WIN_GAME;
  fk_lose : fr_bytes f <> UART_LOSE_GAME;
}.
Definition frame_bytes (f : frame) : list Z := fr_junk f ++ fr_bytes f.

(** How the stream ends: it runs dry, or the other machine announces that this
    player won ([true]) or lost, and more bytes may follow. *)
Definition ending : Type := option (bool * list Z).
Definition ending_bytes (e : ending) : list Z :=
  match e with
  | None => []
  | Some (true, rest) => UART_WIN_GAME ++ rest
  | Some (false, rest) => UART_LOSE_GAME ++ rest
  end.
Definition ending_left (e : ending) : list Z := match e with Some (_, rest) => rest | None => [] end.
Definition ending_code (e : ending) : option Z :=
  match e with Some (b, _) => Some (if b then WIN_GAME_ERR else LOSE_GAME_ERR) | None => None end.

(** The receiver between packets. *)
Record ready n (lin lout : list Z) (w : world) : Prop := mk_ready {
  rd_fifos : fifos (n_uart n) lin lout;
  rd_idx : packet_idx n = 0;
  rd_bytes : length (net_bytes n) = 3%nat;
  rd_world : n_world n = w;
}.

Abbreviation loop p fuel := (iterate fuel (fun _ => receive_round junk_hit playing p) tt).

Lemma receive_skip p fuel n b lin lout w (Q : option Z -> network D S -> Prop) :
  ready n (b :: lin) lout w -> skipped b = true ->
  (forall n', ready n' lin lout w -> packet_tries n' = packet_tries n -> net_state n' = net_state n ->
     wp (loop p fuel) Q n') ->
  wp (loop p (Datatypes.S fuel)) Q n.
Proof.
  intros [Hf Hi Hb Hw] Hs HQ. apply wp_iterate_S. unfold receive_round, on_uart. do 2 wp_step.
  eapply wp_mono; [by eapply recv_front_some|]. intros r u (-> & Hf' & _). do 2 wp_step. cbn. rewrite Hi, Hs.
  cbn. wp_step. by apply HQ.
Qed.

(** A byte that is stored, and the one that completes a packet. *)
Lemma receive_store p fuel n b lin lout i bytes (Q : option Z -> network D S -> Prop) :
  fifos (n_uart n) (b :: lin) lout -> packet_idx n = i -> (i = 0 -> skipped b = false) ->
  0 <= b < 256 -> 0 <= i < 2 -> aset (net_bytes n) i b = Some bytes ->
  (forall n', fifos (n_uart n') lin lout -> packet_idx n' = i + 1 -> net_bytes n' = bytes ->
     packet_tries n' = packet_tries n -> net_state n' = net_state n -> n_world n' = n_world n ->
     wp (loop p fuel) Q n') ->
  wp (loop p (Datatypes.S fuel)) Q n.
Proof.
  intros Hf Hi Hs Hb Hr Hset HQ. apply wp_iterate_S. unfold receive_round, on_uart. do 2 wp_step.
  eapply wp_mono; [by eapply recv_front_some|]. intros r u (-> & Hf' & _).
  set (n1 := n <| n_uart := u |>). do 2 wp_step. change (packet_idx n1) with (packet_idx n).
  rewrite Hi. assert ((i =? 0) && skipped b = false) as ->.
  { destruct (Z.eqb_spec i 0); [by apply Hs|done]. }
  do 2 wp_step. change (net_bytes n1) with (net_bytes n). rewrite (wrap_small 8 b), Hset by lia.
  cbn [defined]. wp_steps. rewrite (wrap_small 8 (i + 1)) by lia.
  destruct (Z.eqb_spec (i + 1) DATA_BYTES) as [E|_]; [unfold DATA_BYTES in E; lia|]. wp_step. by apply HQ.
Qed.

Lemma receive_last p fuel n b lin lout bytes (Q : option Z -> network D S -> Prop) :
  fifos (n_uart n) (b :: lin) lout -> packet_idx n = 2 -> 0 <= b < 256 ->
  aset (net_bytes n) 2 b = Some bytes ->
  (forall n', fifos (n_uart n') lin lout -> packet_idx n' = 0 -> net_bytes n' = bytes ->
     packet_tries n' = 0 -> net_state n' = net_state n -> n_world n' = n_world n ->
     if uart_bytes_cmp bytes UART_WIN_GAME then Q (Some WIN_GAME_ERR) n'
     else if uart_bytes_cmp bytes UART_LOSE_GAME then Q (Some LOSE_GAME_ERR) n'
     else exists pkt, decode_data bytes = Some pkt /\
       wp (apply_packet junk_hit playing p pkt) (fun _ w => wp (loop p fuel) Q (n' <| n_world := w |>)) (n_world n')) ->
  wp (loop p (Datatypes.S fuel)) Q n.
Proof.
  intros Hf Hi Hb Hset HQ. apply wp_iterate_S. unfold receive_round, on_uart. do 2 wp_step.
  eapply wp_mono; [by eapply recv_front_some|]. intros r u (-> & Hf' & _).
  set (n1 := n <| n_uart := u |>). do 2 wp_step. change (packet_idx n1) with (packet_idx n).
  rewrite Hi. change ((2 =? 0) && skipped b) with false. cbn iota.
  do 2 wp_step. change (net_bytes n1) with (net_bytes n). rewrite (wrap_small 8 b), Hset by lia.
  cbn [defined]. wp_steps. change (u8 (2 + 1) =? DATA_BYTES) with true. cbn iota. wp_steps.
  match goal with |- wp _ _ ?n' => set (n2 := n') end. specialize (HQ n2 Hf' eq_refl eq_refl eq_refl eq_refl eq_refl).
  destruct (uart_bytes_cmp _ UART_WIN_GAME); [by wp_step|].
  destruct (uart_bytes_cmp _ UART_LOSE_GAME); [by wp_step|].
  destruct HQ as (pkt & Hpkt & HQ). rewrite Hpkt. cbn [defined]. unfold on_world. wp_steps.
  eapply wp_mono; [exact HQ|]. intros [] w Hw. wp_step. exact Hw.
Qed.

(** Three bytes that are not skipped. *)
Lemma receive_three p fuel n b0 b1 b2 lin lout w (Q : option Z -> network D S -> Prop) :
  ready n (b0 :: b1 :: b2 :: lin) lout w -> skipped b0 = false ->
  Forall (fun b => 0 <= b < 256) [b0; b1; b2] ->
  (forall n', ready n' lin lout w -> packet_tries n' = 0 -> net_state n' = net_state n ->
     if uart_bytes_cmp [b0; b1; b2] UART_WIN_GAME then Q (Some WIN_GAME_ERR) n'
     else if uart_bytes_cmp [b0; b1; b2] UART_LOSE_GAME then Q (Some LOSE_GAME_ERR) n'
     else exists pkt, decode_data [b0; b1; b2] = Some pkt /\
       wp (apply_packet junk_hit playing p pkt) (fun _ w => wp (loop p fuel) Q (n' <| n_world := w |>)) w) ->
  wp (loop p (Datatypes.S (Datatypes.S (Datatypes.S fuel)))) Q n.
Proof.
  intros [Hf Hi Hb Hw] Hs Hbytes HQ.
  apply Forall_cons in Hbytes as [H0 Hbytes]. apply Forall_cons in Hbytes as [H1 Hbytes].
  apply Forall_cons in Hbytes as [H2 _].
  destruct (net_bytes n) as [|x0 [|x1 [|x2 [|? ?]]]] eqn:Ebytes; try done.
  eapply (receive_store _ _ _ b0 _ _ 0); [done|done|done|done|lia|by rewrite Ebytes|].
  intros n1 Hf1 Hi1 Hb1 Ht1 Hs1 Hw1.
  eapply (receive_store _ _ _ b1 _ _ 1); [done|done|done|done|lia|by rewrite Hb1|].
  intros n2 Hf2 Hi2 Hb2 Ht2 Hs2 Hw2.
  eapply (receive_last _ _ _ b2); [done|done|done|by rewrite Hb2|].
  intros n3 Hf3 Hi3 Hb3 Ht3 Hs3 Hw3.
  assert (n_world n3 = w) as Hw' by congruence. rewrite Hw'.
  apply HQ; [by split; rewrite ?Hb3|done|congruence].
Qed.

(** The frames of a stream, each applied in turn to the world. *)
Lemma receive_junk p fuel junk n lin lout w (Q : option Z -> network D S -> Prop) :
  ready n (junk ++ lin) lout w -> Forall (fun b => skipped b = true) junk ->
  (forall n', ready n' lin lout w -> packet_tries n' = packet_tries n -> net_state n' = net_state n ->
     wp (loop p fuel) Q n') ->
  wp (loop p (length junk + fuel)) Q n.
Proof.
  revert n. induction junk as [|b junk IH]; intros n Hr Hj HQ; [by apply HQ|].
  apply Forall_cons in Hj as [Hb Hj]. cbn [length plus app] in *.
  eapply receive_skip; [done|done|]. intros n1 Hr1 Ht1 Hs1.
  apply IH; [done|done|]. intros n2 Hr2 Ht2 Hs2. apply HQ; [done|congruence|congruence].
Qed.

Lemma decode_data_three bytes pkt : decode_data bytes = Some pkt ->
  exists b0 b1 b2, bytes = [b0; b1; b2].
Proof. destruct bytes as [|b0 [|b1 [|b2 [|? ?]]]]; try done. by eexists _, _, _. Qed.

Lemma receive_frames p fs fuel rest n lout w (Q : option Z -> network D S -> Prop) R :
  ready n (flat_map frame_bytes fs ++ rest) lout w -> Forall frame_ok fs ->
  wp (for_each fs (fun f => apply_packet junk_hit playing p (fr_pkt f))) (fun _ => R) w ->
  (forall n' w', ready n' rest lout w' -> R w' -> net_state n' = net_state n ->
     packet_tries n' = (if decide (fs = []) then packet_tries n else 0) -> wp (loop p fuel) Q n') ->
  wp (loop p (length (flat_map frame_bytes fs) + fuel)) Q n.
Proof.
  revert n w. induction fs as [|[junk pkt bytes] fs IH]; intros n w Hr Hok Hrun HQ.
  { cbn in *. by eapply (HQ n w). }
  apply Forall_cons in Hok as [[Hj Hp Hb Hh Hw Hl] Hok]. cbn [fr_junk fr_pkt fr_bytes] in *.
  destruct (decode_data_three _ _ Hp) as (b0 & b1 & b2 & ->).
  cbn [flat_map frame_bytes fr_junk fr_bytes] in *. unfold frame_bytes at 1 in Hr. cbn [fr_junk fr_bytes] in Hr.
  unfold frame_bytes at 1. cbn [fr_junk fr_bytes].
  rewrite !length_app, <- !app_assoc in *. cbn [length app] in *.
  cbn [for_each fr_pkt] in Hrun. apply wp_bind in Hrun.
  rewrite <- !Nat.add_assoc. eapply receive_junk; [done|done|]. intros n1 Hr1 Ht1 Hs1.
  change (3 + (length (flat_map frame_bytes fs) + fuel))%nat with
    (Datatypes.S (Datatypes.S (Datatypes.S (length (flat_map frame_bytes fs) + fuel)))).
  eapply receive_three; [done|by apply Hh|done|]. intros n2 Hr2 Ht2 Hs2.
  unfold uart_bytes_cmp. rewrite !bool_decide_false by done. exists pkt. split; [done|].
  eapply wp_mono; [exact Hrun|]. intros [] w' Hrun'.
  apply (IH _ w'); [by destruct Hr2; split|done|done|].
  intros n3 w3 Hr3 HR Hs3 Ht3. apply (HQ n3 w3); [done|done|rewrite Hs3; cbn; congruence|].
  rewrite decide_False by done. rewrite Ht3. cbn. by case_decide.
Qed.

(** C25: the receiver finds the packets.  Whatever bytes that cannot start a
    packet come before, between and after them, the packets in the receive
    queue are found, decoded, and applied to the other player in order, each
    followed by that player's tick; if the other machine's end-of-game word
    follows, its code is returned and the bytes after it stay queued, otherwise
    the queue is drained, the result is OK, and the connection counts as lost
    exactly when more than [UART_PACKET_TRIES] calls in a row brought no
    packet.  The number of rounds is at most the number of bytes plus one. *)
Theorem receive_data_finds_packets p fs tail_junk (e : ending) fuel n lout (R : world -> Prop) :
  ready n (flat_map frame_bytes fs ++ tail_junk ++ ending_bytes e) lout (n_world n) ->
  Forall frame_ok fs -> Forall (fun b => skipped b = true) tail_junk ->
  0 <= packet_tries n < 2 ^ 32 - 1 ->
  (length (flat_map frame_bytes fs ++ tail_junk) + 3 < fuel)%nat ->
  wp (for_each fs (fun f => apply_packet junk_hit playing p (fr_pkt f))) (fun _ => R) (n_world n) ->
  wp (uart_receive_data junk_hit playing fuel p) (fun r n' => R (n_world n') /\
    r = default OK (ending_code e) /\ ready n' (ending_left e) lout (n_world n') /\
    (e = None -> let tries := if decide (fs = []) then packet_tries n + 1 else 0 in
       packet_tries n' = tries /\
       net_state n' = if UART_PACKET_TRIES <? tries then DISCONNECTED else net_state n) /\
    (e <> None -> packet_tries n' = 0 /\ net_state n' = net_state n)) n.
Proof.
  intros Hr Hok Hj Ht Hfuel Hrun. unfold uart_receive_data. do 2 wp_step.
  rewrite length_app in Hfuel.
  set (n0 := n <| packet_tries ::= _ |>).
  assert (packet_tries n0 = packet_tries n + 1) as Ht0 by (cbn; rewrite (wrap_small 32) by lia; done).
  set (k := (fuel - (length (flat_map frame_bytes fs) + length tail_junk) - 4)%nat).
  replace fuel with (length (flat_map frame_bytes fs) + (length tail_junk +
    Datatypes.S (Datatypes.S (Datatypes.S (Datatypes.S k)))))%nat by (unfold k; lia).
  wp_step. eapply (receive_frames p fs _ _ n0); [by destruct Hr; split|done|exact Hrun|].
  intros n1 w1 Hr1 HR Hs1 Ht1. eapply receive_junk; [done|done|]. intros n2 Hr2 Ht2 Hs2.
  rewrite Ht0 in Ht1. change (net_state n0) with (net_state n) in Hs1.
  destruct e as [[win rest]|]; cbn [ending_bytes ending_left ending_code default] in *.
  - assert (forall b0 b1 b2, (if win then UART_WIN_GAME else UART_LOSE_GAME) = [b0; b1; b2] ->
      wp (loop p (Datatypes.S (Datatypes.S (Datatypes.S (Datatypes.S k))))) (fun out n' =>
        out = Some (if win then WIN_GAME_ERR else LOSE_GAME_ERR) /\ ready n' rest lout w1 /\
        packet_tries n' = 0 /\ net_state n' = net_state n) n2) as Hend.
    { intros b0 b1 b2 E. eapply receive_three.
      - destruct win; [unfold UART_WIN_GAME in *|unfold UART_LOSE_GAME in *]; injection E as <- <- <-; exact Hr2.
      - destruct win; injection E as <- <- <-; done.
      - destruct win; injection E as <- <- <-; repeat constructor; lia.
      - intros n3 Hr3 Ht3 Hs3. rewrite <- E. destruct win; cbn; (split_and!; [done|done|done|congruence]). }
    assert (exists b0 b1 b2, (if win then UART_WIN_GAME else UART_LOSE_GAME) = [b0; b1; b2])
      as (b0 & b1 & b2 & Hword) by (destruct win; by eexists _, _, _).
    eapply wp_mono; [by eapply Hend|]. intros out n3 (-> & Hr3 & Ht3 & Hs3). wp_step.
    pose proof (rd_world _ _ _ _ Hr3) as Ew. rewrite Ew. split_and!; try done.
  - apply wp_iterate_S. unfold receive_round at 1, on_uart. do 2 wp_step.
    eapply wp_mono; [eapply recv_front_none; apply Hr2|]. intros r u [-> ->]. wp_steps.
    set (n3 := n2 <| n_uart := n_uart n2 |>). change (packet_tries n3) with (packet_tries n2).
    assert (ready n3 [] lout w1) as Hr3 by (by destruct Hr2; split).
    rewrite Ht2, Ht1. set (tries := if decide (fs = []) then packet_tries n + 1 else 0) in *.
    assert (packet_tries n2 = tries) as Htr by congruence.
    assert (net_state n3 = net_state n) as Hs3 by (cbn; congruence).
    destruct (Z.ltb_spec UART_PACKET_TRIES tries) as [Hlt|Hge].
    + unfold set_network_state. wp_steps. split_and!; try done; [|by destruct Hr3; split].
      change (R (n_world n3)). by rewrite (rd_world _ _ _ _ Hr3).
    + wp_steps. rewrite (rd_world _ _ _ _ Hr3). split_and!; try done.
Qed.
End Receiver.

(** *** A receiver with bytes waiting *)

(** What [uart_receive_all] does to the queue with the bytes of the wire. *)
Definition feed {D S} {QS : QueueStore S} (bs : list Z) : prog (uart D S) unit :=
  for_each bs (fun b => with_fifo in_fifo (fun q => q_push q b)).

Lemma feed_fifos {D S} {QS : QueueStore S} {QL : QueueLaws S} bs (u : uart D S) lin lout :
  Forall (fun b => 0 <= b < 256) bs -> fifos u lin lout ->
  wp (feed bs) (fun _ u' => fifos u' (lin ++ bs) lout) u.
Proof.
  unfold feed. revert u lin. induction bs as [|b bs IH]; intros u lin Hbs Hf; cbn [for_each].
  { wp_step. by rewrite app_nil_r. }
  apply Forall_cons in Hbs as [Hb Hbs]. wp_step.
  eapply wp_in_updates; [apply push_updates|done|]. intros s Hf'.
  rewrite (swrap_small 16 b) in Hf' by lia. specialize (IH _ _ Hbs Hf').
  by rewrite <- app_assoc in IH.
Qed.

Definition uart_with (bs : list Z) : uart script heap :=
  match feed bs (uart_ready []) with Done (_, u) => u | _ => uart_ready [] end.

Lemma uart_with_fifos bs : Forall (fun b => 0 <= b < 256) bs -> fifos (uart_with bs) bs [].
Proof.
  intros Hbs. destruct (uart_ready_fifos []) as [Hf _].
  pose proof (feed_fifos bs _ _ _ Hbs Hf) as H. apply (proj1 (wp_Done _ _ _)) in H as ([] & u & E & Hu).
  unfold uart_with. by rewrite E.
Qed.

(** The duel over the network: the opponent walks and shoots. *)
Definition net_duel : world := (duel 50) <| w_enemies := [init_player_anims
  (duel_player <| p_type := NETWORK_PLAYER |> <| position := mk_vec (dlit 5 2) (dlit 1 2) |>
     <| direction := mk_vec (dint (-1)) d0 |>)] |>.
Definition duel_frame : frame :=
  mk_frame [7; 200] (mk_net_packet 10 0 true false false false false false true 1) [169; 10; 65].

(** Noise, a packet, noise, the word [WIN], and one more byte. *)
Lemma duel_frames_ok : Forall frame_ok [duel_frame].
Proof.
  constructor; [|constructor].
  split; [repeat constructor|reflexivity|repeat constructor; lia|by intros b [= <-]|discriminate|discriminate].
Qed.

Definition net_script : list Z := [7; 200; 169; 10; 65; 1; 87; 73; 78; 5].
Definition net_receiver : network script heap :=
  mk_network (uart_with net_script) net_duel 0 0 3 CONNECTED 1 0 [0; 0; 0].

Lemma net_receiver_ready : ready net_receiver net_script [] net_duel.
Proof.
  split; [|reflexivity..]. unfold net_receiver. cbn [n_uart]. apply uart_with_fifos.
  unfold net_script. repeat constructor; lia.
Qed.

Lemma receive_data_finds_packets_witness :
  exists n', uart_receive_data false true 20 (Enemy 0) net_receiver = Done (WIN_GAME_ERR, n') /\
    health (w_player (n_world n')) = 35 /\ fifos (n_uart n') [5] [] /\ packet_tries n' = 0.
Proof.
  pose proof (receive_data_finds_packets false true (Enemy 0) [duel_frame] [1] (Some (true, [5])) 20
    net_receiver [] (fun w => health (w_player w) = 35) net_receiver_ready duel_frames_ok) as H.
  assert (wp (for_each [duel_frame] (fun f => apply_packet false true (Enemy 0) (fr_pkt f)))
    (fun _ w => health (w_player w) = 35) (n_world net_receiver)) as Hrun by (vm_compute; reflexivity).
  specialize (H ltac:(repeat constructor) ltac:(split; [discriminate|reflexivity])
    ltac:(apply Nat.ltb_lt; reflexivity) Hrun).
  apply (proj1 (wp_Done _ _ _)) in H as (r & n' & E & Hh & Hc & Hr & _ & Ht).
  exists n'. rewrite E, Hc. split; [reflexivity|]. split; [exact Hh|]. split; [exact (rd_fifos _ _ _ _ Hr)|].
  apply Ht. discriminate.
Defined.
