(* ===== verification/Handshake.v ===== *)
(** * Handshake

    The conversation by which two machines agree to play,
    [uart_sync] of [src/proj/system/networking/networking.c] on both ends of a
    serial cable.  The protocol of one end is stated as a small machine on
    bytes, [peer_tick]; [uart_sync], the driver and any queues refine it on a
    line that works; and the two ends together reach an agreement, or, when
    both ask at once, never do. *)

From S2P Require Import Prelude Hardware Queue Uart Battle Network.

(** ** One end of a cable

    The device is a 16550 whose transmitter is always empty: the bytes that
    arrived and those it put on the wire. *)
Record wire : Type := mk_wire { w_in : list Z; w_out : list Z }.

#[export] Instance wire_device : Device wire := {|
  dev_inb port d :=
    if port =? LSR_PORT then ((0, match w_in d with [] => 0x20 | _ => 0x21 end), d)
    else if port =? IIR_PORT then ((0, match w_in d with [] => 1 | _ => 4 end), d)
    else if port =? DATA_PORT then
      match w_in d with
      | [] => ((0, 0), d)
      | b :: l => ((0, b), mk_wire l (w_out d))
      end
    else ((0, 0), d);
  dev_outb port v d :=
    (0, if port =? DATA_PORT then mk_wire (w_in d) (w_out d ++ [v])
        else if (port =? COM1_UART_ADDRESS + UART_FCR) && has_bits v FIFO_CLR_RCVR
        then mk_wire [] (w_out d) else d);
  dev_wait _ d := d;
  dev_irqsetpolicy _ _ hook d := ((0, hook), d);
  dev_irqrmpolicy _ d := (0, d);
  dev_irqenable _ d := (0, d);
  dev_irqdisable _ d := (0, d);
  dev_dflt_kbc_cmd_byte _ := 71;
  dev_garbage _ := 165;
|}.

Lemma wire_receive_none byte out t : exists t',
  uart_receive_byte byte (mk_hw (mk_wire [] out) t) = Done ((1, byte), mk_hw (mk_wire [] out) t').
Proof. eexists. cbv. reflexivity. Qed.
Lemma wire_receive_some byte b l out t : exists t',
  uart_receive_byte byte (mk_hw (mk_wire (b :: l) out) t) = Done ((OK, u8 b), mk_hw (mk_wire l out) t').
Proof. eexists. reflexivity. Qed.
Lemma wire_send byte inb out t : exists t',
  uart_send_byte byte (mk_hw (mk_wire inb out) t) = Done (OK, mk_hw (mk_wire inb (out ++ [byte])) t').
Proof. destruct inb; eexists; reflexivity. Qed.
Lemma wire_fifo inb out t : exists t',
  uart_init_fifo (mk_hw (mk_wire inb out) t) = Done (OK, mk_hw (mk_wire [] out) t').
Proof. eexists. reflexivity. Qed.
Lemma wire_int_id byte inb out t : exists t',
  uart_get_int_id byte (mk_hw (mk_wire inb out) t) =
    Done ((OK, match inb with [] => 1 | _ => 4 end), mk_hw (mk_wire inb out) t').
Proof. destruct inb; eexists; reflexivity. Qed.

(** ** The protocol

    What one end does with a byte.  While it waits for a link the word is
    [START], a request is [J] and is acknowledged; once linked the word is
    [BEGIN], a request is [P] and is answered with the first letter.  An
    acknowledgement asks for the next letter, the expected letter is
    acknowledged, and anything else means nothing. *)
Record peer : Type := mk_peer { pe_state : network_state_t; pe_idx : Z; pe_player : Z }.
#[global] Instance peer_eq_dec : EqDecision peer.
Proof. solve_decision. Defined.

Definition START : list Z := [83; 84; 65; 82; 84].
Definition BEGIN : list Z := [66; 69; 71; 73; 78].

Definition peer_byte (b : Z) (p : peer) : option (peer * list Z) :=
  let i := pe_idx p in
  match pe_state p with
  | WAITING =>
      if b =? UART_ACK then
        match aget START i with
        | Some c => Some (mk_peer WAITING (i + 1) (pe_player p), [c])
        | None => Some (mk_peer LINKED 0 (pe_player p), [UART_GET_RESPONSE])
        end
      else if b =? UART_JOIN_REQUEST then Some (mk_peer WAITING 0 (pe_player p), [UART_ACK])
      else if decide (aget START i = Some b) then
        Some (if i =? 4 then mk_peer LINKED 0 (pe_player p) else mk_peer WAITING (i + 1) (pe_player p),
              [UART_ACK])
      else None
  | LINKED =>
      if b =? UART_ACK then
        match aget BEGIN i with
        | Some c => Some (mk_peer LINKED (i + 1) (pe_player p), [c])
        | None => Some (mk_peer CONNECTED i 1, [])
        end
      else if b =? UART_GET_RESPONSE then Some (mk_peer LINKED 1 (pe_player p), [66])
      else if decide (aget BEGIN i = Some b) then
        Some (if i =? 4 then mk_peer CONNECTED 5 2 else mk_peer LINKED (i + 1) (pe_player p), [UART_ACK])
      else None
  | _ => None
  end.

(** A phase looks at one byte of the inbox, if there is one. *)
Definition peer_take (p : peer) (inbox : list Z) : peer * list Z * list Z :=
  match inbox with
  | [] => (p, [], [])
  | b :: inbox =>
      match peer_byte b p with
      | Some (p', out) => (p', inbox, out)
      | None => (p, inbox, [])
      end
  end.
Definition in_phase (s : network_state_t) (c : peer * list Z * list Z) : peer * list Z * list Z :=
  let '(p, inbox, out) := c in
  if decide (pe_state p = s) then
    let '(p', inbox', out') := peer_take p inbox in (p', inbox', out ++ out')
  else c.
(** A tick; the first one forgets everything and asks to join. *)
Definition peer_tick (p : peer) (inbox : list Z) : peer * list Z * list Z :=
  in_phase LINKED (in_phase WAITING
    (if decide (pe_state p = CLEANUP)
     then (mk_peer WAITING 0 (pe_player p), [], [UART_JOIN_REQUEST])
     else (p, inbox, []))).

(** Indices stay within the words. *)
Definition peer_ok (p : peer) : Prop := 0 <= pe_idx p <= 5.

Lemma peer_byte_ok b p p' out : peer_ok p -> peer_byte b p = Some (p', out) -> peer_ok p'.
Proof.
  unfold peer_ok, peer_byte. intros Hp H.
  repeat match type of H with
  | context [aget ?l ?i] => let E := fresh in destruct (aget l i) eqn:E; [apply aget_Some_range in E; unfold alen in E; cbn in E|]
  | context [if ?b then _ else _] => destruct b eqn:?
  | context [match pe_state p with _ => _ end] => destruct (pe_state p)
  end; try discriminate H; injection H as <- <-; cbn; bool_lia; try discriminate.
Qed.

Lemma peer_take_ok p inbox : peer_ok p -> Forall (fun b => 0 < b < 256) inbox ->
  let '(p', inbox', _) := peer_take p inbox in peer_ok p' /\ Forall (fun b => 0 < b < 256) inbox'.
Proof.
  intros Hp Hin. unfold peer_take. destruct inbox as [|b inbox]; [done|]. apply Forall_cons in Hin as [_ Hin].
  destruct (peer_byte b p) as [[p' o]|] eqn:E; [|done]. split; [by eapply peer_byte_ok|done].
Qed.

(** ** [uart_sync] refines the protocol *)
Section Refinement.
Context {S : Type} {QS : QueueStore S} {QL : QueueLaws S}.
Implicit Types n : network wire S.

(** A machine in state [p] with [inbox] received, [out] sent since, and at
    most [t] tries; its transmitter is free. *)
Record machine n (p : peer) (inbox out : list Z) (t : Z) : Prop := mk_machine {
  mc_fifos : fifos (n_uart n) inbox [];
  mc_send : can_send (n_uart n) = true;
  mc_wire : dev (ua_hw (n_uart n)) = mk_wire [] out;
  mc_state : net_state n = pe_state p;
  mc_idx : net_idx n = pe_idx p;
  mc_player : net_player n = pe_player p;
  mc_tries : 0 <= sync_tries n <= t;
}.

(** The driver's steps, on a line that works. *)
Lemma machine_front n p b inbox out t (Q : option Z -> network wire S -> Prop) :
  machine n p (b :: inbox) out t -> (forall n', machine n' p inbox out t -> sync_tries n' = sync_tries n -> Q (Some b) n') ->
  wp (on_uart uart_recv_front) Q n.
Proof.
  intros [] HQ. unfold on_uart. wp_step. eapply wp_mono; [by eapply recv_front_some|].
  intros r u (-> & Hf & Hh & Hc). apply HQ; [|done]. split; cbn; congruence || done.
Qed.
Lemma machine_front_none n p out t (Q : option Z -> network wire S -> Prop) :
  machine n p [] out t -> (Q None n) -> wp (on_uart uart_recv_front) Q n.
Proof.
  intros [] HQ. unfold on_uart. wp_step. eapply wp_mono; [by eapply recv_front_none|].
  intros r u (-> & ->). by destruct n.
Qed.
Lemma machine_transmit n p inbox out t c (Q : unit -> network wire S -> Prop) :
  machine n p inbox out t -> (forall n', machine n' p inbox (out ++ [c]) t -> sync_tries n' = sync_tries n -> Q tt n') ->
  wp (on_uart (uart_safe_transmit c)) Q n.
Proof.
  intros [Hf Hc Hw ? ? ? ?] HQ. unfold on_uart, uart_safe_transmit, transmitter_empty. wp_steps. rewrite Hc.
  unfold ua_on_hw. wp_steps. destruct (ua_hw (n_uart n)) as [d tr] eqn:Eh. cbn in Hw. subst d.
  destruct (wire_send c [] out tr) as [t' E]. eapply wp_Done_eq; [exact E|]. wp_step.
  apply HQ; [|done]. by split.
Qed.
Lemma machine_clear n p inbox out t (Q : unit -> network wire S -> Prop) :
  machine n p inbox out t -> (forall n', machine n' p inbox out t -> sync_tries n' = sync_tries n -> Q tt n') ->
  wp (on_uart empty_transmit_queue) Q n.
Proof.
  intros [] HQ. unfold on_uart, empty_transmit_queue. wp_step.
  eapply wp_out_updates; [apply clean_updates|done|]. intros s Hf. apply HQ; [|done]. by split.
Qed.
Lemma machine_clear_inbox n p inbox out t (Q : unit -> network wire S -> Prop) :
  machine n p inbox out t -> (forall n', machine n' p [] out t -> sync_tries n' = sync_tries n -> Q tt n') ->
  wp (on_uart empty_recv_queue) Q n.
Proof.
  intros [] HQ. unfold on_uart, empty_recv_queue. wp_step.
  eapply wp_in_updates; [apply clean_updates|done|]. intros s Hf. apply HQ; [|done]. by split.
Qed.

(** A letter of a word the code stores with its terminator. *)
Lemma letter_of word i c : aget word i = Some c -> aget (word ++ [0]) i = Some c.
Proof.
  unfold aget. destruct (i <? 0); [done|]. intros H. by apply lookup_app_l_Some.
Qed.
Lemma letter_in word i : 0 <= i <= alen word ->
  aget (word ++ [0]) i = Some (default 0 (aget word i)).
Proof.
  intros Hi. destruct (aget word i) as [c|] eqn:E; [by apply letter_of|].
  destruct (decide (i < alen word)) as [Hlt|Hge].
  { destruct (proj2 (aget_is_Some word i)) as [x Hx]; [lia|congruence]. }
  replace i with (Z.of_nat (length word)) by (unfold alen in *; lia).
  by rewrite aget_lookup, lookup_app_r, Nat.sub_diag by lia.
Qed.

(** The statics change, the driver does not. *)
Lemma machine_statics n n' p p' inbox out t :
  machine n p inbox out t -> n_uart n' = n_uart n -> sync_tries n' = sync_tries n ->
  net_state n' = pe_state p' -> net_idx n' = pe_idx p' -> net_player n' = pe_player p' ->
  machine n' p' inbox out t.
Proof. intros [? ? ? ? ? ? ?] Hu Ht ? ? ?. split; rewrite ?Hu, ?Ht; done. Qed.

(** What a phase function promises for the byte at the head of the inbox. *)
Definition phase_post (b : Z) (p : peer) (inbox out : list Z) (t : Z) n (err : Z) n' : Prop :=
  sync_tries n' = sync_tries n /\
  match peer_byte b p with
  | Some (p', o) => err = OK /\ machine n' p' inbox (out ++ o) t
  | None => err = 2 /\ machine n' p inbox out t
  end.

Lemma password_letter i : 0 <= i <= 5 -> aget UART_SYNC_PASSWORD i = Some (default 0 (aget START i)).
Proof. change UART_SYNC_PASSWORD with (START ++ [0]). apply (letter_in START). Qed.
Lemma response_letter i : 0 <= i <= 5 -> aget UART_SYNC_RESPONSE i = Some (default 0 (aget BEGIN i)).
Proof. change UART_SYNC_RESPONSE with (BEGIN ++ [0]). apply (letter_in BEGIN). Qed.

Ltac machine_at H :=
  let Hs := fresh in let Hx := fresh in let Hp := fresh in let Ht := fresh in
  pose proof (mc_state _ _ _ _ _ H) as Hs; pose proof (mc_idx _ _ _ _ _ H) as Hx;
  pose proof (mc_player _ _ _ _ _ H) as Hp;
  eapply machine_statics; [exact H|cbn; rewrite ?(wrap_small 8) by lia; (congruence || lia)..].
(** Sends [c] in state [p'], then names the machine [H]. *)
Ltac transmit p' H0 n' H :=
  eapply (machine_transmit _ p'); [machine_at H0|]; intros n' H ?; wp_steps.

Lemma link_refines n p b inbox out t :
  machine n p (b :: inbox) out t -> pe_state p = WAITING -> peer_ok p -> 0 < b < 256 ->
  wp uart_sync_link (phase_post b p inbox out t n) n.
Proof.
  intros Hm Hs Hi Hb. unfold uart_sync_link, phase_post, peer_byte. rewrite Hs. unfold peer_ok in Hi.
  wp_step. eapply machine_front; [done|]. intros n1 H1 Ht1. pose proof (mc_idx _ _ _ _ _ H1) as Hx.
  destruct (Z.eqb_spec b UART_ERROR_CODE) as [E|_]; [unfold UART_ERROR_CODE in E; lia|]. wp_steps. rewrite Hx.
  pose proof (password_letter _ Hi) as Hc.
  destruct (Z.eqb_spec b UART_ACK) as [->|Hack].
  { destruct (Z.eqb_spec (pe_idx p) UART_PASSWORD_SIZE) as [E|E].
    - wp_steps. transmit (mk_peer LINKED 0 (pe_player p)) H1 n2 H2. split; [cbn in *; congruence|]. by rewrite E.
    - unfold UART_PASSWORD_SIZE in E. destruct (proj2 (aget_is_Some START (pe_idx p))) as [c Ec]; [unfold alen; cbn; lia|].
      rewrite Hc, Ec. cbn [default defined]. wp_steps. transmit p H1 n2 H2. unfold next_idx. wp_steps.
      split; [cbn in *; congruence|]. split; [done|].
      machine_at H2. }
  destruct (Z.eqb_spec b UART_JOIN_REQUEST) as [->|Hjoin].
  { wp_steps. eapply machine_clear; [exact H1|]. intros n2 H2 Ht2. wp_steps. transmit p H2 n3 H3.
    split; [cbn; congruence|]. split; [done|]. machine_at H3. }
  rewrite Hc. cbn [defined]. wp_steps.
  destruct (decide (aget START (pe_idx p) = Some b)) as [E|E].
  - rewrite E. cbn [default]. rewrite Z.eqb_refl. wp_steps. transmit p H1 n2 H2. unfold next_idx. wp_steps.
    apply aget_Some_range in E. unfold alen in E. cbn in E.
    change (net_idx (n2 <| net_idx ::= _ |>)) with (u8 (net_idx n2 + 1)).
    rewrite (mc_idx _ _ _ _ _ H2), (wrap_small 8) by lia.
    destruct (Z.eqb_spec (pe_idx p) 4) as [E4|E4].
    + rewrite E4. wp_steps. split; [cbn; congruence|]. split; [done|]. machine_at H2.
    + destruct (Z.eqb_spec (pe_idx p + 1) UART_PASSWORD_SIZE) as [E5|_]; [unfold UART_PASSWORD_SIZE in E5; lia|].
      wp_steps. split; [cbn; congruence|]. split; [done|]. machine_at H2.
  - destruct (Z.eqb_spec b (default 0 (aget START (pe_idx p)))) as [E'|_].
    { destruct (aget START (pe_idx p)); cbn in E'; [by destruct E; f_equal|lia]. }
    wp_step. done.
Qed.

Lemma connect_refines n p b inbox out t :
  machine n p (b :: inbox) out t -> pe_state p = LINKED -> peer_ok p -> 0 < b < 256 ->
  wp uart_sync_connect (phase_post b p inbox out t n) n.
Proof.
  intros Hm Hs Hi Hb. unfold uart_sync_connect, phase_post, peer_byte. rewrite Hs. unfold peer_ok in Hi.
  wp_step. eapply machine_front; [done|]. intros n1 H1 Ht1. pose proof (mc_idx _ _ _ _ _ H1) as Hx.
  destruct (Z.eqb_spec b UART_ERROR_CODE) as [E|_]; [unfold UART_ERROR_CODE in E; lia|]. wp_steps. rewrite Hx.
  pose proof (response_letter _ Hi) as Hc.
  destruct (Z.eqb_spec b UART_ACK) as [->|Hack].
  { destruct (Z.eqb_spec (pe_idx p) UART_PASSWORD_SIZE) as [E|E].
    - wp_steps. eapply (machine_clear _ (mk_peer CONNECTED (pe_idx p) 1)); [machine_at H1|].
      intros n2 H2 Ht2. wp_steps. split; [cbn in *; congruence|]. rewrite E.
      change (aget BEGIN UART_PASSWORD_SIZE) with (@None Z). cbn iota. rewrite app_nil_r.
      by rewrite E in H2.
    - unfold UART_PASSWORD_SIZE in E. destruct (proj2 (aget_is_Some BEGIN (pe_idx p))) as [c Ec]; [unfold alen; cbn; lia|].
      rewrite Hc, Ec. cbn [default defined]. wp_steps. transmit p H1 n2 H2. unfold next_idx. wp_steps.
      split; [cbn in *; congruence|]. split; [done|].
      machine_at H2. }
  destruct (Z.eqb_spec b UART_GET_RESPONSE) as [->|Hjoin].
  { wp_steps. eapply machine_clear; [exact H1|]. intros n2 H2 Ht2. wp_steps.
    change (aget UART_SYNC_RESPONSE 0) with (Some 66). cbn [defined]. wp_steps. transmit p H2 n3 H3.
    split; [cbn; congruence|]. split; [done|]. machine_at H3. }
  rewrite Hc. cbn [defined]. wp_steps.
  destruct (decide (aget BEGIN (pe_idx p) = Some b)) as [E|E].
  - rewrite E. cbn [default]. rewrite Z.eqb_refl. wp_steps. transmit p H1 n2 H2. unfold next_idx. wp_steps.
    apply aget_Some_range in E. unfold alen in E. cbn in E.
    change (net_idx (n2 <| net_idx ::= _ |>)) with (u8 (net_idx n2 + 1)).
    rewrite (mc_idx _ _ _ _ _ H2), (wrap_small 8) by lia.
    destruct (Z.eqb_spec (pe_idx p) 4) as [E4|E4].
    + rewrite E4. change (4 + 1 =? UART_PASSWORD_SIZE) with true. cbn iota. wp_steps. eapply (machine_clear _ (mk_peer CONNECTED 5 2)); [machine_at H2|].
      intros n3 H3 Ht3. wp_steps. split; [cbn in *; congruence|]. split; [done|exact H3].
    + destruct (Z.eqb_spec (pe_idx p + 1) UART_PASSWORD_SIZE) as [E5|_]; [unfold UART_PASSWORD_SIZE in E5; lia|].
      wp_steps. split; [cbn; congruence|]. split; [done|]. machine_at H2.
  - destruct (Z.eqb_spec b (default 0 (aget BEGIN (pe_idx p)))) as [E'|_].
    { destruct (aget BEGIN (pe_idx p)); cbn in E'; [by destruct E; f_equal|lia]. }
    wp_step. done.
Qed.

(** A phase with its account of failures; below the limit no failure gives
    up. *)
Definition take_post (s : network_state_t) (p : peer) (inbox out : list Z) (t : Z) n (_ : unit) n' : Prop :=
  let '(p', inbox', o) := peer_take p inbox in
  machine n' p' inbox' (out ++ o) (t + 1) /\ (pe_state p' <> s -> sync_tries n' = sync_tries n).

Lemma machine_more n p inbox out t t' : machine n p inbox out t -> t <= t' -> machine n p inbox out t'.
Proof. intros [? ? ? ? ? ? ?] ?. split; try done. lia. Qed.

Lemma sync_failed_twice n p inbox out t (Q : unit -> network wire S -> Prop) :
  machine n p inbox out t -> t < UART_SYNC_TRIES ->
  (forall n', machine n' p inbox out (t + 1) -> Q tt n') -> wp (sync_failed 2) Q n.
Proof.
  intros [? ? ? ? ? ? ?] Ht HQ. unfold sync_failed. change (2 =? 1) with false. change (2 =? 2) with true.
  cbn iota. assert (u32 (sync_tries n + 1) = sync_tries n + 1) as Hu
    by (apply wrap_small; unfold UART_SYNC_TRIES in *; lia).
  wp_steps. cbn. rewrite Hu. destruct (Z.ltb_spec UART_SYNC_TRIES (sync_tries n + 1)); [lia|]. wp_step.
  apply HQ. split; cbn; try done. rewrite Hu. lia.
Qed.

Lemma take_refines (m : prog (network wire S) Z) s n p inbox out t :
  (forall b inbox, machine n p (b :: inbox) out t -> 0 < b < 256 -> wp m (phase_post b p inbox out t n) n) ->
  (machine n p [] out t -> wp m (fun err n' => err = 2 /\ n' = n) n) ->
  machine n p inbox out t -> t < UART_SYNC_TRIES -> Forall (fun b => 0 < b < 256) inbox -> pe_state p = s ->
  wp (err <- m ;; sync_failed err) (take_post s p inbox out t n) n.
Proof.
  intros Hbyte Hnil Hm Ht Hin Hs. unfold take_post, peer_take. wp_step. destruct inbox as [|b inbox].
  - eapply wp_mono; [by apply Hnil|]. intros err n' [-> ->]. eapply sync_failed_twice; [done|done|].
    intros n' Hn'. rewrite app_nil_r. by split.
  - apply Forall_cons in Hin as [Hb Hin]. eapply wp_mono; [by apply Hbyte|].
    intros err n1 [Ht1 H1]. destruct (peer_byte b p) as [[p' o]|].
    + destruct H1 as [-> H1]. unfold sync_failed. change (OK =? 1) with false. change (OK =? 2) with false.
      cbn iota. wp_step. split; [|done]. eapply machine_more; [done|lia].
    + destruct H1 as [-> H1]. eapply sync_failed_twice; [done|done|].
      intros n' Hn'. rewrite app_nil_r. by split.
Qed.

Lemma link_nil n p out t : machine n p [] out t -> wp uart_sync_link (fun err n' => err = 2 /\ n' = n) n.
Proof. intros Hm. unfold uart_sync_link. wp_step. eapply machine_front_none; [done|]. by wp_step. Qed.
Lemma connect_nil n p out t : machine n p [] out t -> wp uart_sync_connect (fun err n' => err = 2 /\ n' = n) n.
Proof. intros Hm. unfold uart_sync_connect. wp_step. eapply machine_front_none; [done|]. by wp_step. Qed.

(** The cleanup, on a line with nothing left to drain. *)
Lemma drain_refines fuel byte n p inbox out t :
  machine n p inbox out t ->
  wp (drain (Datatypes.S fuel) byte) (fun r n' => r = (true, byte) /\ machine n' p inbox out t /\
    sync_tries n' = sync_tries n) n.
Proof.
  intros [Hf Hc Hw ? ? ? ?]. apply wp_iterate_S. unfold on_uart, ua_on_hw. wp_steps.
  destruct (ua_hw (n_uart n)) as [d tr] eqn:Eh. cbn in Hw. subst d.
  destruct (wire_receive_none byte out tr) as [t' E]. eapply wp_Done_eq; [exact E|]. wp_steps.
  split; [done|]. split; [|done]. by split.
Qed.

Lemma cleanup_refines fuel byte n p inbox out t :
  machine n p inbox out t -> (5 < fuel)%nat ->
  wp (cleanup fuel byte) (fun _ n' => machine n' p inbox out (Z.max t 4)) n.
Proof.
  intros Hm Hfuel. unfold cleanup.
  apply (wp_iterate_rel _ (fun _ k n => machine n p inbox out (Z.max t 4) /\
    (k = Z.to_nat (4 - sync_tries n))) _ _ _ _ (Z.to_nat (4 - sync_tries n))).
  - clear n Hm. intros byte' k n [Hm ->]. wp_steps. change (Z.of_nat UART_MAX_TRIES) with 4.
    destruct (Z.ltb_spec (sync_tries n) 4) as [Hlt|_]; [|by wp_step].
    destruct fuel as [|fuel]; [lia|]. wp_step. eapply wp_mono; [by eapply drain_refines|].
    intros r n1 (-> & H1 & Ht1). wp_steps. pose proof (mc_tries _ _ _ _ _ Hm) as Htr.
    assert (u32 (sync_tries n + 1) = sync_tries n + 1) as Hu by (apply wrap_small; lia).
    eexists. split; [|split; [|reflexivity]].
    + cbn. rewrite Hu. lia.
    + destruct H1. split; cbn; try done. rewrite Hu. lia.
  - split; [|done]. eapply machine_more; [done|lia].
  - pose proof (mc_tries _ _ _ _ _ Hm). lia.
Qed.

(** What a phase leaves: more sent bytes, and one more try at most. *)
Definition stage_post (c : peer * list Z * list Z) (out : list Z) (t : Z) (_ : unit) n' : Prop :=
  let '(p', inbox', o) := c in machine n' p' inbox' (out ++ o) t.

Lemma forget_refines fuel n p inbox out t :
  machine n p inbox out t -> pe_state p = CLEANUP -> (5 < fuel)%nat ->
  wp (_ <- on_uart (ua_on_hw uart_init_fifo) ;;
      modify (fun n => n <| net_idx := 0 |> <| packet_idx := 0 |> <| packet_tries := 0 |>) ;;;
      on_uart empty_transmit_queue ;;;
      on_uart empty_recv_queue ;;;
      byte <- on_uart (ua_on_hw uninit_byte) ;;
      cleanup fuel byte ;;;
      modify (fun n => n <| net_state := WAITING |>) ;;;
      send_join_request ;;;
      modify (fun n => n <| sync_tries := 0 |>))
    (fun _ n' => machine n' (mk_peer WAITING 0 (pe_player p)) [] (out ++ [UART_JOIN_REQUEST]) t /\
       sync_tries n' = 0) n.
Proof.
  intros Hm Hs Hfuel. pose proof Hm as [Hf Hc Hw Hst Hx Hp Ht].
  wp_step. unfold on_uart at 1, ua_on_hw at 1. wp_steps.
  destruct (ua_hw (n_uart n)) as [d tr] eqn:Eh. cbn in Hw. subst d.
  destruct (wire_fifo [] out tr) as [t' E]. eapply wp_Done_eq; [exact E|]. cbn beta. wp_steps.
  eapply (machine_clear _ (mk_peer CLEANUP 0 (pe_player p)) inbox out t); [split; cbn; first [done|congruence]|].
  intros n1 H1 _. wp_steps. eapply machine_clear_inbox; [exact H1|]. intros n2 H2 _. wp_steps.
  unfold on_uart at 1, ua_on_hw at 1. wp_steps. apply wp_uninit_byte. intros g _. wp_step.
  eapply wp_mono; [apply (cleanup_refines _ _ _ (mk_peer CLEANUP 0 (pe_player p)) [] out t); [|done]|].
  { destruct H2. by split. }
  intros [] n3 [? ? ? ? ? ? ?]. wp_steps. unfold send_join_request.
  eapply (machine_transmit _ (mk_peer WAITING 0 (pe_player p)) [] out (Z.max t 4)); [by split|].
  intros n4 [? ? ? ? ? ? ?] _. wp_step. split; [|done]. split; cbn; try done. lia.
Qed.

Abbreviation link_part := (state <- gets net_state ;;
  if decide (state = WAITING) then err <- uart_sync_link ;; sync_failed err else ret tt).
Abbreviation connect_part := (state <- gets net_state ;;
  if decide (state = LINKED) then err <- uart_sync_connect ;; sync_failed err else ret tt).

Lemma connect_part_refines n p inbox out o t t' :
  machine n p inbox (out ++ o) t -> peer_ok p -> Forall (fun b => 0 < b < 256) inbox ->
  (pe_state p = LINKED -> t < t' /\ t < UART_SYNC_TRIES) -> t <= t' ->
  wp connect_part (stage_post (in_phase LINKED (p, inbox, o)) out t') n.
Proof.
  intros Hm Hp Hin Hlt Hle. wp_steps. rewrite (mc_state _ _ _ _ _ Hm). unfold in_phase. case_decide as Hs.
  2: { wp_step. by eapply machine_more. }
  specialize (Hlt Hs). eapply wp_mono; [eapply (take_refines _ LINKED); [| |exact Hm|lia|done|done]|].
  - intros b l Hm' Hb. by apply connect_refines.
  - apply connect_nil.
  - intros [] n' H. unfold take_post in H. destruct (peer_take p inbox) as [[p' inbox'] o']. destruct H as [H _].
    rewrite <- app_assoc in H. eapply machine_more; [exact H|lia].
Qed.

Lemma phases_refine n p inbox out o t t' :
  machine n p inbox (out ++ o) t -> peer_ok p -> Forall (fun b => 0 < b < 256) inbox ->
  t < t' -> t < UART_SYNC_TRIES ->
  wp (link_part ;;; connect_part)
    (stage_post (in_phase LINKED (in_phase WAITING (p, inbox, o))) out t') n.
Proof.
  intros Hm Hp Hin Hlt Ht. wp_steps. rewrite (mc_state _ _ _ _ _ Hm). unfold in_phase at 2. case_decide as Hs.
  2: { wp_step. eapply (connect_part_refines n p inbox); [exact Hm|done|done|done|lia]. }
  eapply wp_mono; [eapply (take_refines _ WAITING); [| |exact Hm|done|done|done]|].
  - intros b l Hm' Hb. by apply link_refines.
  - apply link_nil.
  - intros [] n' H. unfold take_post in H. pose proof (peer_take_ok p inbox Hp Hin) as Hk.
    destruct (peer_take p inbox) as [[p' inbox'] o']. destruct H as [H Hsame]. destruct Hk as [Hp' Hin'].
    rewrite <- app_assoc in H. destruct (decide (pe_state p' = WAITING)) as [Ew|Ew].
    + eapply connect_part_refines; [exact H|done|done|congruence|lia].
    + assert (machine n' p' inbox' (out ++ o ++ o') t) as H'.
      { destruct H. split; try done. rewrite (Hsame Ew). apply (mc_tries _ _ _ _ _ Hm). }
      eapply connect_part_refines; [exact H'|done|done|done|lia].
Qed.

(** [uart_sync] implements the protocol.  On a line that works, over any
    queues that keep their promises, one call of [uart_sync] does to a machine
    exactly what one tick of the protocol does: it takes the same bytes from
    the receive queue, puts the same bytes on the wire in the same order, and
    ends in the same state with the same index and the same player number, as
    long as fewer than [UART_SYNC_TRIES] ticks brought nothing.  It accesses
    no letter past its word, and the cleanup loop ends. *)
Lemma uart_sync_refines fuel n p inbox out t :
  machine n p inbox out t -> peer_ok p -> Forall (fun b => 0 < b < 256) inbox ->
  t < UART_SYNC_TRIES -> (5 < fuel)%nat ->
  wp (uart_sync fuel) (stage_post (peer_tick p inbox) out (t + 1)) n.
Proof.
  intros Hm Hp Hin Ht Hfuel. unfold uart_sync, peer_tick. do 2 wp_step. rewrite (mc_state _ _ _ _ _ Hm).
  case_decide as Hs; wp_step.
  - eapply wp_mono; [by eapply forget_refines|]. intros [] n1 [H1 _].
    eapply phases_refine; [exact H1|by unfold peer_ok|done|lia|done].
  - eapply phases_refine; [by rewrite app_nil_r|done|done|lia|done].
Qed.

(** *** The interrupt that brings a byte *)
Definition arriving (b : Z) (n : network wire S) : network wire S :=
  n <| n_uart ::= (fun u => u <| ua_hw := mk_hw (mk_wire [b] (w_out (dev (ua_hw u)))) (trace (ua_hw u)) |>) |>.

(** A driver with [out] sent and [inb] at the port. *)
Definition port_at (inb inbox out : list Z) (u : uart wire S) : Prop :=
  fifos u inbox [] /\ can_send u = true /\ dev (ua_hw u) = mk_wire inb out.

Lemma receive_all_one fuel g b inbox out u :
  port_at [b] inbox out u -> 0 < b < 256 ->
  wp (uart_receive_all (Datatypes.S (Datatypes.S fuel)) g) (fun _ u' => port_at [] (inbox ++ [b]) out u') u.
Proof.
  intros (Hf & Hc & Hw) Hb. unfold uart_receive_all. apply wp_iterate_S. unfold ua_on_hw. wp_steps.
  destruct (ua_hw u) as [d tr] eqn:Eh. cbn in Hw. subst d.
  destruct (wire_receive_some g b [] out tr) as [t1 E]. eapply wp_Done_eq; [exact E|]. cbn beta iota.
  rewrite (wrap_small 8 b) by lia. change (OK =? 1) with false. change (OK =? 2) with false. cbn iota. wp_steps.
  eapply wp_in_updates; [apply push_updates|exact Hf|]. intros s Hf'. wp_steps.
  rewrite (swrap_small 16 b) in Hf' by lia.
  apply wp_iterate_S. wp_steps. cbn [ua_hw].
  destruct (wire_receive_none b out t1) as [t2 E2]. eapply wp_Done_eq; [exact E2|]. cbn beta iota.
  change (1 =? 1) with true. cbn iota. wp_steps. by split.
Qed.

Lemma round_one fuel g i b inbox out u :
  port_at [b] inbox out u -> 0 < b < 256 ->
  wp (uart_ih_round (Datatypes.S (Datatypes.S fuel)) (g, i))
    (fun r u' => (exists a, r = inl a) /\ port_at [] (inbox ++ [b]) out u') u.
Proof.
  intros (Hf & Hc & Hw) Hb. unfold uart_ih_round, ua_on_hw. do 2 wp_step.
  destruct (ua_hw u) as [d tr] eqn:Eh. cbn in Hw. subst d.
  destruct (wire_int_id i [b] out tr) as [t1 E]. eapply wp_Done_eq; [exact E|]. cbn beta iota.
  change (negb (OK =? OK)) with false. change (has_bits 4 IIR_INT) with false. change (Z.land 4 INT_MASK) with 4.
  change (4 =? IIR_STATUS) with false. change (4 =? IIR_RECV_DATA_AVAIL) with true. cbn iota. cbn [orb]. wp_step.
  eapply wp_mono; [by apply (receive_all_one _ _ b inbox out)|]. intros a u' Hu. wp_step. split; [by eexists|done].
Qed.
Lemma round_none fuel s inbox out u :
  port_at [] inbox out u -> wp (uart_ih_round fuel s) (fun r u' => r = inr tt /\ port_at [] inbox out u') u.
Proof.
  intros (Hf & Hc & Hw). destruct s as [g i]. unfold uart_ih_round, ua_on_hw. do 2 wp_step.
  destruct (ua_hw u) as [d tr] eqn:Eh. cbn in Hw. subst d.
  destruct (wire_int_id i [] out tr) as [t1 E]. eapply wp_Done_eq; [exact E|]. cbn beta iota.
  change (negb (OK =? OK)) with false. change (has_bits 1 IIR_INT) with true. cbn iota. wp_step. done.
Qed.

Lemma byte_arrives fuel b n p inbox out t :
  machine n p inbox out t -> 0 < b < 256 -> (2 <= fuel)%nat ->
  wp (on_uart (uart_ih fuel)) (fun _ n' => machine n' p (inbox ++ [b]) out t) (arriving b n).
Proof.
  intros [Hf Hc Hw Hs Hx Hp Ht] Hb Hfuel. unfold on_uart, uart_ih. wp_steps. unfold ua_on_hw at 1. wp_steps.
  apply wp_uninit_byte. intros g _. wp_steps. unfold ua_on_hw at 1. wp_steps.
  apply wp_uninit_byte. intros g' _. destruct fuel as [|[|fuel]]; [lia|lia|].
  apply wp_iterate_S. eapply wp_mono; [apply (round_one _ _ _ b inbox out); [|done]|].
  { split; [done|]. split; [done|]. cbn. by rewrite Hw. }
  intros r u [[a ->] Hu]. apply wp_iterate_S. eapply wp_mono; [by eapply round_none|].
  intros r' u' [-> (Hf' & Hc' & Hw')]. by split.
Qed.
End Refinement.

(** ** Two ends

    A station is a machine and the bytes on their way to it.  A tick of one
    station puts bytes on the line to the other; an interrupt brings the first
    byte of the line to its machine.  A schedule is any list of these events. *)
Inductive event : Type := TickA | TickB | ByteA | ByteB.
#[global] Instance event_eq_dec : EqDecision event.
Proof. solve_decision. Defined.
Definition events : list event := [TickA; TickB; ByteA; ByteB].

Lemma all_events e : e ∈ events.
Proof. unfold events. destruct e; repeat constructor. Qed.

(** *** In terms of the protocol *)
Record aend : Type := mk_aend { ae_peer : peer; ae_inbox : list Z; ae_line : list Z }.
#[global] Instance aend_eq_dec : EqDecision aend.
Proof. solve_decision. Defined.

Definition atick (a b : aend) : aend * aend :=
  let '(p, inbox, o) := peer_tick (ae_peer a) (ae_inbox a) in
  (mk_aend p inbox (ae_line a), mk_aend (ae_peer b) (ae_inbox b) (ae_line b ++ o)).
Definition aarrive (a : aend) : aend :=
  match ae_line a with [] => a | x :: l => mk_aend (ae_peer a) (ae_inbox a ++ [x]) l end.
Definition astep (e : event) (s : aend * aend) : aend * aend :=
  let '(a, b) := s in
  match e with
  | TickA => atick a b
  | TickB => let '(b, a) := atick b a in (a, b)
  | ByteA => (aarrive a, b)
  | ByteB => (a, aarrive b)
  end.
Definition arun (evs : list event) (s : aend * aend) : aend * aend := foldl (fun s e => astep e s) s evs.

(** A fair schedule of [n] rounds: each of them has every event, in any order
    and any number of times. *)
Inductive rounds : nat -> list event -> Prop :=
| rounds_O evs : rounds 0 evs
| rounds_S n r evs : (forall e, e ∈ r) -> rounds n evs -> rounds (S n) (r ++ evs).

(** [settles goal n s]: at most [n] changes lead from [s] to a state where
    [goal] holds and nothing happens any more, whichever event comes first. *)
Definition moves_on (s : aend * aend) (e : event) : bool := bool_decide (astep e s <> s).
Definition settled (goal : aend * aend -> bool) (s : aend * aend) : bool :=
  goal s && negb (existsb (moves_on s) events).
Fixpoint settles (goal : aend * aend -> bool) (n : nat) (s : aend * aend) : bool :=
  if settled goal s then true else
  match n with
  | O => false
  | S n => existsb (moves_on s) events &&
           forallb (fun e => if moves_on s e then settles goal n (astep e s) else true) events
  end.

Lemma moves_on_false s e : moves_on s e = false -> astep e s = s.
Proof. unfold moves_on. rewrite bool_decide_eq_false. apply dec_stable. Qed.

Lemma settles_S goal n s : settles goal (S n) s = true <->
  settled goal s = true \/ (existsb (moves_on s) events = true /\
    forall e, moves_on s e = true -> settles goal n (astep e s) = true).
Proof.
  cbn [settles]. destruct (settled goal s); [by split; [left|]|]. rewrite andb_true_iff, forallb_forall. split.
  - intros [He Ha]. right. split; [done|]. intros e Em. specialize (Ha e). rewrite Em in Ha.
    by apply Ha, list_elem_of_In, all_events.
  - intros [H|[He Ha]]; [done|]. split; [done|]. intros e _. destruct (moves_on s e) eqn:Em; [by apply Ha|done].
Qed.
Lemma settles_O goal s : settles goal 0 s = settled goal s.
Proof. cbn [settles]. by destruct (settled goal s). Qed.
Lemma settled_fixed goal s e : settled goal s = true -> moves_on s e = false.
Proof.
  unfold settled. rewrite andb_true_iff, negb_true_iff. intros [_ H]. destruct (moves_on s e) eqn:E; [|done].
  rewrite <- H. symmetry. apply existsb_exists. exists e. split; [apply list_elem_of_In, all_events|done].
Qed.

Lemma settles_more goal n s : settles goal n s = true -> settles goal (S n) s = true.
Proof.
  revert s. induction n as [|n IH]; intros s H; apply settles_S.
  - rewrite settles_O in H. by left.
  - apply settles_S in H as [H|[H1 H2]]; [by left|]. right. split; [done|]. intros e He. by apply IH, H2.
Qed.

Lemma settles_step goal n s e : settles goal n s = true -> moves_on s e = true ->
  exists m, n = S m /\ settles goal m (astep e s) = true.
Proof.
  intros H Em. destruct n as [|m].
  - rewrite settles_O in H. by rewrite (settled_fixed _ _ _ H) in Em.
  - exists m. split; [done|]. apply settles_S in H as [H|[_ H]]; [by rewrite (settled_fixed _ _ _ H) in Em|by apply H].
Qed.

Lemma settles_run goal n s evs : settles goal n s = true -> settles goal n (arun evs s) = true.
Proof.
  revert s. induction evs as [|e evs IH]; intros s H; [done|]. cbn. apply IH.
  destruct (moves_on s e) eqn:Em; [|by rewrite (moves_on_false _ _ Em)].
  destruct (settles_step _ _ _ _ H Em) as (m & -> & Hm). by apply settles_more.
Qed.

(** A round that has every event makes a change, or there is none to make. *)
Lemma settles_round goal n s r : settles goal (S n) s = true -> (forall e, e ∈ r) ->
  settles goal n (arun r s) = true.
Proof.
  intros H Hall. pose proof H as H'. apply settles_S in H' as [Hs|[Em _]].
  - apply settles_run. destruct n; cbn [settles]; by rewrite Hs.
  - apply existsb_exists in Em as (e & _ & Em). specialize (Hall e).
    induction r as [|e' r IH]; [by apply not_elem_of_nil in Hall|]. cbn.
    destruct (moves_on s e') eqn:Em'.
    + apply settles_run. destruct (settles_step _ _ _ _ H Em') as (m & [= <-] & Hm). done.
    + rewrite (moves_on_false _ _ Em'). apply IH. apply elem_of_cons in Hall as [->|Hr]; [congruence|done].
Qed.

Lemma settles_goal goal n k s evs : settles goal n s = true -> rounds k evs -> (n <= k)%nat ->
  goal (arun evs s) = true.
Proof.
  intros H Hr. revert n s H. induction Hr as [evs|k r evs Hall Hr IH]; intros n s H Hle.
  - assert (n = 0)%nat as -> by lia. apply (settles_run _ _ _ evs) in H. rewrite settles_O in H.
    by apply andb_true_iff in H as [H _].
  - unfold arun. rewrite foldl_app. destruct n as [|n].
    + apply (IH 0%nat); [by apply settles_run|lia].
    + apply (IH n); [by apply settles_round|lia].
Qed.

(** [stays P n s]: [P] holds in [s] and, however many events follow, after
    each of them; [n] bounds the changes. *)
Fixpoint stays (P : aend * aend -> bool) (n : nat) (s : aend * aend) : bool :=
  if P s then
    match n with
    | O => negb (existsb (moves_on s) events)
    | S n => forallb (fun e => if moves_on s e then stays P n (astep e s) else true) events
    end
  else false.

Lemma stays_now P n s : stays P n s = true -> P s = true.
Proof. destruct n; cbn [stays]; by destruct (P s). Qed.
Lemma stays_step P n s e : stays P n s = true -> moves_on s e = true ->
  exists m, n = S m /\ stays P m (astep e s) = true.
Proof.
  pose proof (all_events e) as He%list_elem_of_In.
  destruct n as [|m]; cbn [stays]; (destruct (P s); [|done]); intros H Em.
  - apply negb_true_iff in H. assert (existsb (moves_on s) events = true); [|congruence].
    apply existsb_exists. by exists e.
  - exists m. split; [done|]. rewrite forallb_forall in H. specialize (H e He). by rewrite Em in H.
Qed.
Lemma stays_run P n s evs : stays P n s = true -> P (arun evs s) = true.
Proof.
  revert n s. induction evs as [|e evs IH]; intros n s H; [by eapply stays_now|]. cbn.
  destruct (moves_on s e) eqn:Em; [|rewrite (moves_on_false _ _ Em); by eapply IH].
  destruct (stays_step _ _ _ _ H Em) as (m & -> & Hm). by eapply IH.
Qed.

(** *** Letters

    The protocol only sends letters. *)
Definition letters (l : list Z) : Prop := Forall (fun b => 0 < b < 256) l.
Record aend_ok (a : aend) : Prop := mk_aend_ok {
  ao_peer : peer_ok (ae_peer a);
  ao_inbox : letters (ae_inbox a);
  ao_line : letters (ae_line a);
}.

Lemma word_letter (word : list Z) i c : letters word -> aget word i = Some c -> 0 < c < 256.
Proof.
  unfold aget. destruct (i <? 0); [done|]. intros Hw H. exact (proj1 (Forall_lookup _ _) Hw _ _ H).
Qed.
Lemma peer_byte_letters b p p' out : peer_byte b p = Some (p', out) -> letters out.
Proof.
  assert (letters START /\ letters BEGIN) as [HS HB] by (split; repeat constructor; lia).
  unfold peer_byte. intros H. destruct (pe_state p); try discriminate H;
  repeat match type of H with
  | context [aget ?l ?i] => let E := fresh in destruct (aget l i) eqn:E; [apply word_letter in E; [|done]|]
  | context [if ?b then _ else _] => destruct b eqn:?
  end; try discriminate H; injection H as <- <-; repeat constructor;
  unfold UART_ACK, UART_GET_RESPONSE in *; lia.
Qed.
Lemma in_phase_ok s p inbox out : peer_ok p -> letters inbox -> letters out ->
  let '(p', inbox', out') := in_phase s (p, inbox, out) in peer_ok p' /\ letters inbox' /\ letters out'.
Proof.
  intros Hp Hi Ho. unfold in_phase. case_decide; [|done]. pose proof (peer_take_ok p inbox Hp Hi) as Hk.
  assert (let '(_, _, o) := peer_take p inbox in letters o) as Hl.
  { unfold peer_take. destruct inbox as [|b inbox]; [constructor|].
    destruct (peer_byte b p) as [[p' o]|] eqn:E; [|constructor]. by eapply peer_byte_letters. }
  destruct (peer_take p inbox) as [[p' inbox'] o]. destruct Hk. split_and!; try done. by apply Forall_app.
Qed.
Lemma peer_tick_ok p inbox : peer_ok p -> letters inbox ->
  let '(p', inbox', out') := peer_tick p inbox in peer_ok p' /\ letters inbox' /\ letters out'.
Proof.
  intros Hp Hi. unfold peer_tick.
  assert (let '(p0, inbox0, o0) := (if decide (pe_state p = CLEANUP)
     then (mk_peer WAITING 0 (pe_player p), [], [UART_JOIN_REQUEST]) else (p, inbox, [])) in
     peer_ok p0 /\ letters inbox0 /\ letters o0) as H0.
  { case_decide; split_and!; try done; try constructor; try constructor; cbn; unfold UART_JOIN_REQUEST; lia. }
  destruct (if decide _ then _ else _) as [[p0 inbox0] o0]. destruct H0 as (H1 & H2 & H3).
  pose proof (in_phase_ok WAITING p0 inbox0 o0 H1 H2 H3) as Hw.
  destruct (in_phase WAITING _) as [[p1 inbox1] o1]. destruct Hw as (H4 & H5 & H6).
  by apply in_phase_ok.
Qed.

Lemma atick_ok a b : aend_ok a -> aend_ok b -> let '(a', b') := atick a b in aend_ok a' /\ aend_ok b'.
Proof.
  intros [Hp Hi Hl] [Hpb Hib Hlb]. unfold atick. pose proof (peer_tick_ok _ _ Hp Hi) as H.
  destruct (peer_tick _ _) as [[p inbox] o]. destruct H as (? & ? & ?).
  split; split; try done. by apply Forall_app.
Qed.
Lemma aarrive_ok a : aend_ok a -> aend_ok (aarrive a).
Proof.
  intros [Hp Hi Hl]. unfold aarrive. destruct (ae_line a) as [|x l] eqn:E; [split; by rewrite ?E|].
  apply Forall_cons in Hl as [Hx Hl]. split; cbn; [done| |done]. apply Forall_app. split; [done|by constructor].
Qed.

(** *** With the program at each end *)
Section Stations.
Context {S : Type} {QS : QueueStore S} {QL : QueueLaws S}.
Variable fuel : nat.
Hypothesis enough : (5 < fuel)%nat.

Record station : Type := mk_station { st_net : network wire S; st_line : list Z }.

(** The bytes a machine put on the wire, which leave it. *)
Definition sent_by (n : network wire S) : list Z := w_out (dev (ua_hw (n_uart n))).
Definition unload (n : network wire S) : network wire S :=
  n <| n_uart ::= (fun u => u <| ua_hw := mk_hw (mk_wire (w_in (dev (ua_hw u))) []) (trace (ua_hw u)) |>) |>.

Definition tick (a b : station) : outcome (station * station) :=
  match uart_sync fuel (st_net a) with
  | Done (_, n) => Done (mk_station (unload n) (st_line a), mk_station (st_net b) (st_line b ++ sent_by n))
  | Undef => Undef
  | OutOfFuel => OutOfFuel
  end.
Definition arrive (a : station) : outcome station :=
  match st_line a with
  | [] => Done a
  | x :: l =>
      match on_uart (uart_ih fuel) (arriving x (st_net a)) with
      | Done (_, n) => Done (mk_station n l)
      | Undef => Undef
      | OutOfFuel => OutOfFuel
      end
  end.
Definition step (e : event) (a b : station) : outcome (station * station) :=
  let on_a o := match o with Done a => Done (a, b) | Undef => Undef | OutOfFuel => OutOfFuel end in
  let on_b o := match o with Done b => Done (a, b) | Undef => Undef | OutOfFuel => OutOfFuel end in
  match e with
  | TickA => tick a b
  | TickB => match tick b a with Done (b, a) => Done (a, b) | Undef => Undef | OutOfFuel => OutOfFuel end
  | ByteA => on_a (arrive a)
  | ByteB => on_b (arrive b)
  end.
Fixpoint run (evs : list event) (a b : station) : outcome (station * station) :=
  match evs with
  | [] => Done (a, b)
  | e :: evs =>
      match step e a b with
      | Done (a, b) => run evs a b
      | Undef => Undef
      | OutOfFuel => OutOfFuel
      end
  end.

(** A station in the abstract state [ae], after at most [t] ticks. *)
Definition station_at (a : station) (ae : aend) (t : Z) : Prop :=
  machine (st_net a) (ae_peer ae) (ae_inbox ae) [] t /\ st_line a = ae_line ae.

Lemma tick_refines a b ea eb ta tb :
  station_at a ea ta -> station_at b eb tb -> aend_ok ea -> ta < UART_SYNC_TRIES ->
  exists a' b', tick a b = Done (a', b') /\
    station_at a' (fst (atick ea eb)) (ta + 1) /\ station_at b' (snd (atick ea eb)) tb.
Proof.
  intros [Ha Hla] [Hb Hlb] [Hp Hi Hl] Ht.
  pose proof (uart_sync_refines fuel _ _ _ _ _ Ha Hp Hi Ht enough) as H.
  apply (proj1 (wp_Done _ _ _)) in H as ([] & n & E & H). unfold tick, atick, stage_post in *. rewrite E.
  destruct (peer_tick _ _) as [[p inbox] o]. cbn [app] in H. eexists _, _. split; [reflexivity|].
  pose proof (mc_wire _ _ _ _ _ H) as Hw. split; split; cbn; try done.
  - destruct H. split; try done. cbn. by rewrite Hw.
  - unfold sent_by. rewrite Hw. cbn. congruence.
Qed.

Lemma arrive_refines a ea t : station_at a ea t -> aend_ok ea ->
  exists a', arrive a = Done a' /\ station_at a' (aarrive ea) t.
Proof.
  intros [Ha Hla] [Hp Hi Hl]. unfold arrive, aarrive. rewrite Hla. destruct (ae_line ea) as [|x l] eqn:El.
  { exists a. split; [done|]. split; [done|]. congruence. }
  apply Forall_cons in Hl as [Hx Hl].
  pose proof (byte_arrives fuel x _ _ _ _ _ Ha Hx ltac:(lia)) as H.
  apply (proj1 (wp_Done _ _ _)) in H as ([] & n & E & H). rewrite E. eexists. split; [reflexivity|]. by split.
Qed.

Lemma step_refines e a b ea eb ta tb :
  station_at a ea ta -> station_at b eb tb -> aend_ok ea -> aend_ok eb ->
  ta + b2z (bool_decide (e = TickA)) <= UART_SYNC_TRIES ->
  tb + b2z (bool_decide (e = TickB)) <= UART_SYNC_TRIES ->
  exists a' b', step e a b = Done (a', b') /\
    station_at a' (fst (astep e (ea, eb))) (ta + b2z (bool_decide (e = TickA))) /\
    station_at b' (snd (astep e (ea, eb))) (tb + b2z (bool_decide (e = TickB))) /\
    aend_ok (fst (astep e (ea, eb))) /\ aend_ok (snd (astep e (ea, eb))).
Proof.
  intros Ha Hb Hoa Hob Hta Htb. destruct e; cbn -[atick bool_decide] in *;
    rewrite ?bool_decide_true, ?bool_decide_false in * by done; cbn [b2z] in *; rewrite ?Z.add_0_r in *.
  - pose proof (atick_ok _ _ Hoa Hob) as Hok.
    destruct (tick_refines a b _ _ _ _ Ha Hb Hoa) as (a' & b' & -> & Ha' & Hb'); [lia|].
    exists a', b'. destruct (atick ea eb), Hok. do 3 (split; [done|]). by split.
  - pose proof (atick_ok _ _ Hob Hoa) as Hok.
    destruct (tick_refines b a _ _ _ _ Hb Ha Hob) as (b' & a' & -> & Hb' & Ha'); [lia|].
    exists a', b'. destruct (atick eb ea), Hok. do 3 (split; [done|]). by split.
  - destruct (arrive_refines a _ _ Ha Hoa) as (a' & -> & Ha'). exists a', b.
    do 3 (split; [done|]). split; [by apply aarrive_ok|done].
  - destruct (arrive_refines b _ _ Hb Hob) as (b' & -> & Hb'). exists a, b'.
    do 3 (split; [done|]). split; [done|by apply aarrive_ok].
Qed.

(** How often an event occurs. *)
Fixpoint count (e : event) (evs : list event) : Z :=
  match evs with [] => 0 | e' :: evs => b2z (bool_decide (e' = e)) + count e evs end.
Lemma count_cons e e' evs :
  count e (e' :: evs) = (if event_eq_dec e' e then 1 else 0) + count e evs.
Proof. cbn [count]. unfold bool_decide, decide, decide_rel. by destruct (event_eq_dec e' e). Qed.
Lemma count_pos e evs : 0 <= count e evs.
Proof. induction evs as [|e' evs IH]; cbn; [done|]. destruct (bool_decide _); cbn; lia. Qed.

Lemma run_refines evs a b ea eb ta tb :
  station_at a ea ta -> station_at b eb tb -> aend_ok ea -> aend_ok eb ->
  ta + count TickA evs <= UART_SYNC_TRIES -> tb + count TickB evs <= UART_SYNC_TRIES ->
  exists a' b', run evs a b = Done (a', b') /\
    station_at a' (fst (arun evs (ea, eb))) (ta + count TickA evs) /\
    station_at b' (snd (arun evs (ea, eb))) (tb + count TickB evs).
Proof.
  revert a b ea eb ta tb. induction evs as [|e evs IH]; intros a b ea eb ta tb Ha Hb Hoa Hob Hta Htb.
  { exists a, b. cbn. by rewrite !Z.add_0_r. }
  cbn [count run] in *. pose proof (count_pos TickA evs). pose proof (count_pos TickB evs).
  destruct (step_refines e a b _ _ _ _ Ha Hb Hoa Hob) as (a1 & b1 & -> & Ha1 & Hb1 & Hoa1 & Hob1); [lia|lia|].
  cbn [arun foldl]. destruct (astep e (ea, eb)) as [ea1 eb1].
  destruct (IH a1 b1 ea1 eb1 _ _ Ha1 Hb1 Hoa1 Hob1) as (a' & b' & E & Ha' & Hb'); [lia|lia|].
  rewrite !Z.add_assoc. exists a', b'. done.
Qed.

End Stations.

Section Openings.
Context {S : Type} {QS : QueueStore S} {QL : QueueLaws S}.

(** A station whose game has just opened the multiplayer menu: whatever its
    receive queue holds, nothing is on its way, nothing waits to be sent, and
    the transmitter is known to be free. *)
Record opening (a : station (S:=S)) : Prop := mk_opening {
  op_idx : 0 <= net_idx (st_net a) <= 5;
  op_player : 0 <= net_player (st_net a) <= 2;
  op_state : net_state (st_net a) = CLEANUP;
  op_tries : sync_tries (st_net a) = 0;
  op_line : st_line a = [];
  op_wire : dev (ua_hw (n_uart (st_net a))) = mk_wire [] [];
  op_send : can_send (n_uart (st_net a)) = true;
  op_fifos : exists inbox, letters inbox /\ fifos (n_uart (st_net a)) inbox [];
}.

Lemma opening_at a : opening a -> exists i inbox,
  station_at a (mk_aend (mk_peer CLEANUP i (net_player (st_net a))) inbox []) 0 /\
  aend_ok (mk_aend (mk_peer CLEANUP i (net_player (st_net a))) inbox []).
Proof.
  intros [Hi Hp Hs Ht Hl Hw Hc (inbox & Hin & Hf)]. exists (net_idx (st_net a)), inbox. split.
  - split; [|done]. split; cbn; try done. lia.
  - split; cbn; [done|done|constructor].
Qed.
End Openings.

(** The two ends after their first ticks: [x] and [y] are the player numbers
    of an earlier game. *)
Definition joined (x y : Z) : aend * aend :=
  (mk_aend (mk_peer WAITING 0 x) [] [UART_JOIN_REQUEST], mk_aend (mk_peer WAITING 0 y) [] []).
Definition both_joined (x y : Z) : aend * aend :=
  (mk_aend (mk_peer WAITING 0 x) [] [UART_JOIN_REQUEST], mk_aend (mk_peer WAITING 0 y) [] [UART_JOIN_REQUEST]).

Definition agreed (s : aend * aend) : bool :=
  bool_decide (ae_peer (fst s) = mk_peer CONNECTED 5 1 /\ ae_peer (snd s) = mk_peer CONNECTED 5 2).
Definition waiting (s : aend * aend) : bool :=
  bool_decide (pe_state (ae_peer (fst s)) = WAITING /\ pe_state (ae_peer (snd s)) = WAITING).

Lemma for_players (P : Z -> Z -> bool) :
  forallb (fun x => forallb (P x) (seqZ 0 3)) (seqZ 0 3) = true ->
  forall x y, 0 <= x <= 2 -> 0 <= y <= 2 -> P x y = true.
Proof.
  intros H x y Hx Hy. apply (forall_below 3 (P x)); [|lia].
  apply (forall_below 3 (fun x => forallb (P x) (seqZ 0 3))); [done|lia].
Qed.
Lemma joined_settles x y : 0 <= x <= 2 -> 0 <= y <= 2 -> settles agreed 46 (joined x y) = true.
Proof. apply (for_players (fun x y => settles agreed 46 (joined x y))). vm_compute. reflexivity. Qed.
Lemma both_joined_stays x y : 0 <= x <= 2 -> 0 <= y <= 2 -> stays waiting 12 (both_joined x y) = true.
Proof. apply (for_players (fun x y => stays waiting 12 (both_joined x y))). vm_compute. reflexivity. Qed.

Section Agreement.
Context {S : Type} {QS : QueueStore S} {QL : QueueLaws S}.

(** C8: two machines that join one after the other agree, on a line without
    errors whose transmitters are always free, over queues that keep their
    promises.  Both start from [opening]: the state [CLEANUP], no try counted,
    nothing on the line, nothing waiting in the transmit queue and the flag
    that lets a byte bypass it up; the receive queue may hold letters of an
    earlier game (from 1 to 255), and the index and the player number may be
    old ones.  Machine A asks to join while B is not listening yet, then B
    asks; from there, whatever the order in which ticks and interrupts come,
    once each of the four events has come in each of 46 rounds, and before a
    machine has waited through 30 seconds of ticks, both are connected, A as
    player 1 and B as player 2; no call runs into an undefined access or
    fails to return. *)
Theorem handshake_connects fuel (a b : station) evs :
  (5 < fuel)%nat -> opening a -> opening b -> rounds 46 evs ->
  count TickA evs < UART_SYNC_TRIES -> count TickB evs < UART_SYNC_TRIES ->
  exists a' b', run fuel (TickA :: ByteB :: TickB :: evs) a b = Done (a', b') /\
    net_state (st_net a') = CONNECTED /\ net_player (st_net a') = 1 /\
    net_state (st_net b') = CONNECTED /\ net_player (st_net b') = 2.
Proof.
  intros Hfuel Ha Hb Hr Hca Hcb.
  destruct (opening_at a Ha) as (i & la & Hsa & Hoa), (opening_at b Hb) as (j & lb & Hsb & Hob).
  destruct (run_refines fuel Hfuel (TickA :: ByteB :: TickB :: evs) a b _ _ 0 0 Hsa Hsb Hoa Hob)
    as (a' & b' & E & [Ha' _] & [Hb' _]); [rewrite !count_cons; cbn [event_eq_dec]; repeat case_match; try done; lia..|].
  exists a', b'. split; [exact E|].
  pose proof (settles_goal agreed 46 46 _ evs
    (joined_settles _ _ (op_player _ Ha) (op_player _ Hb)) Hr ltac:(done)) as Hgoal.
  apply bool_decide_eq_true_1 in Hgoal as [Hga Hgb].
  change (fst (arun evs (joined _ _))) with (fst (arun (TickA :: ByteB :: TickB :: evs)
    (mk_aend (mk_peer CLEANUP i (net_player (st_net a))) la [],
     mk_aend (mk_peer CLEANUP j (net_player (st_net b))) lb []))) in Hga.
  change (snd (arun evs (joined _ _))) with (snd (arun (TickA :: ByteB :: TickB :: evs)
    (mk_aend (mk_peer CLEANUP i (net_player (st_net a))) la [],
     mk_aend (mk_peer CLEANUP j (net_player (st_net b))) lb []))) in Hgb.
  rewrite Hga in Ha'. rewrite Hgb in Hb'. destruct Ha', Hb'. by split_and!.
Qed.

(** C26: two machines that ask to join at the same time never connect.  When
    both machines start from [opening] (see C8), on the same line, and both
    first ticks come before either request has arrived, then under every
    schedule both machines stay [WAITING] through the 30 seconds after which
    they go back to the menu: each acknowledges the other's request, so each
    believes it is its turn to send the password. *)
Theorem simultaneous_join_fails fuel (a b : station) evs :
  (5 < fuel)%nat -> opening a -> opening b ->
  count TickA evs < UART_SYNC_TRIES -> count TickB evs < UART_SYNC_TRIES ->
  exists a' b', run fuel (TickA :: TickB :: evs) a b = Done (a', b') /\
    net_state (st_net a') = WAITING /\ net_state (st_net b') = WAITING.
Proof.
  intros Hfuel Ha Hb Hca Hcb.
  destruct (opening_at a Ha) as (i & la & Hsa & Hoa), (opening_at b Hb) as (j & lb & Hsb & Hob).
  destruct (run_refines fuel Hfuel (TickA :: TickB :: evs) a b _ _ 0 0 Hsa Hsb Hoa Hob)
    as (a' & b' & E & [Ha' _] & [Hb' _]); [rewrite !count_cons; cbn [event_eq_dec]; repeat case_match; try done; lia..|].
  exists a', b'. split; [exact E|].
  pose proof (stays_run waiting _ _ evs (both_joined_stays _ _ (op_player _ Ha) (op_player _ Hb))) as Hgoal.
  apply bool_decide_eq_true_1 in Hgoal as [Hga Hgb].
  split; [rewrite (mc_state _ _ _ _ _ Ha')|rewrite (mc_state _ _ _ _ _ Hb')]; assumption.
Qed.
End Agreement.

(** *** Two stations over the linked queues *)
Definition wire_boot : uart wire heap := mk_uart (mk_hw (mk_wire [] []) []) ∅ COM1_UART_IRQ None None true.
Definition wire_ready : uart wire heap :=
  match init_uart_queues wire_boot with Done (_, u) => u | _ => wire_boot end.
Definition menu_station : station :=
  mk_station (mk_network wire_ready (duel 50) 0 0 0 CLEANUP 0 0 [0; 0; 0]) [].

Lemma menu_opening : opening menu_station.
Proof.
  pose proof (init_uart_queues_fifos wire_boot ∅ queues_empty) as H.
  apply (proj1 (wp_Done _ _ _)) in H as (r & u & E & _ & Hf & Hh & Hc).
  assert (wire_ready = u) as Hu by (unfold wire_ready; by rewrite E).
  split; cbn [st_net st_line menu_station net_idx net_player net_state sync_tries n_uart]; try done.
  - exists []. split; [constructor|]. by rewrite Hu.
Qed.

Definition fair46 : list event := concat (replicate 46 events).
Lemma fair46_rounds : rounds 46 fair46.
Proof.
  unfold fair46. generalize 46%nat as n. induction n as [|n IH]; [apply rounds_O|].
  cbn [replicate concat]. apply rounds_S; [exact all_events|exact IH].
Qed.

Lemma handshake_connects_witness :
  exists a' b', run 6 (TickA :: ByteB :: TickB :: fair46) menu_station menu_station = Done (a', b') /\
    net_state (st_net a') = CONNECTED /\ net_player (st_net a') = 1 /\
    net_state (st_net b') = CONNECTED /\ net_player (st_net b') = 2.
Proof.
  apply (handshake_connects 6 menu_station menu_station fair46).
  - apply Nat.ltb_lt. reflexivity.
  - exact menu_opening.
  - exact menu_opening.
  - exact fair46_rounds.
  - vm_compute. reflexivity.
  - vm_compute. reflexivity.
Defined.

Lemma simultaneous_join_fails_witness :
  exists a' b', run 6 (TickA :: TickB :: fair46) menu_station menu_station = Done (a', b') /\
    net_state (st_net a') = WAITING /\ net_state (st_net b') = WAITING.
Proof.
  apply (simultaneous_join_fails 6 menu_station menu_station fair46).
  - apply Nat.ltb_lt. reflexivity.
  - exact menu_opening.
  - exact menu_opening.
  - vm_compute. reflexivity.
  - vm_compute. reflexivity.
Defined.

(** C27: the last acknowledgement can be lost at the machine that owes it.
    When [uart_sync_connect] finds the final [N] at the front of the receive
    queue, at index 4, while the flag that lets a byte bypass the transmit
    queue is down, it queues the acknowledgement and then empties the transmit
    queue: the call reports success, the machine is connected, as player 2,
    and the acknowledgement is gone: the transmit queue is empty and the port
    was not touched by the call. *)
Theorem final_ack_lost {D S} `{!Device D} {QS : QueueStore S} {QL : QueueLaws S} (n : network D S) lin lout :
  fifos (n_uart n) (78 :: lin) lout -> can_send (n_uart n) = false -> net_idx n = 4 ->
  wp uart_sync_connect (fun err n' => err = OK /\ net_state n' = CONNECTED /\ net_player n' = 2 /\
    fifos (n_uart n') lin [] /\ trace (ua_hw (n_uart n')) = trace (ua_hw (n_uart n))) n.
Proof.
  intros Hf Hc Hi. unfold uart_sync_connect, on_uart. do 2 wp_step.
  eapply wp_mono; [by eapply recv_front_some|]. intros r u1 (-> & Hf1 & Hh1 & Hc1).
  change (78 =? UART_ERROR_CODE) with false. cbn iota. wp_steps.
  change (net_idx (n <| n_uart := u1 |>)) with (net_idx n). rewrite Hi.
  change (aget UART_SYNC_RESPONSE 4) with (Some 78). change (78 =? UART_ACK) with false.
  change (78 =? UART_GET_RESPONSE) with false. cbn iota. cbn [defined]. wp_steps. rewrite Z.eqb_refl. wp_steps.
  unfold uart_safe_transmit, transmitter_empty. wp_steps.
  change (n_uart (n <| n_uart := u1 |>)) with u1. rewrite Hc1, Hc. unfold uart_push_transmit. wp_step.
  eapply wp_out_updates; [apply push_updates|exact Hf1|]. intros s Hf2. wp_steps. unfold next_idx. wp_steps.
  match goal with |- context [net_idx ?m =? _] => change (net_idx m) with (u8 (net_idx n + 1)) end.
  rewrite Hi. change (u8 (4 + 1) =? UART_PASSWORD_SIZE) with true. cbn iota. wp_steps.
  unfold empty_transmit_queue. eapply wp_out_updates; [apply clean_updates|exact Hf2|]. intros s' Hf3. wp_steps.
  split_and!; try done. cbn. by rewrite Hh1.
Qed.

Lemma final_ack_lost_witness :
  let n := mk_network ((uart_with [78; 79]) <| can_send := false |>) (duel 50) 4 0 0 LINKED 0 0 [0; 0; 0] in
  exists n', uart_sync_connect n = Done (OK, n') /\ net_state n' = CONNECTED /\
    fifos (n_uart n') [79] [] /\ trace (ua_hw (n_uart n')) = trace (ua_hw (n_uart n)).
Proof.
  assert (fifos ((uart_with [78; 79]) <| can_send := false |>) [78; 79] []) as Hf.
  { apply (uart_with_fifos [78; 79]). repeat constructor; lia. }
  pose proof (final_ack_lost (mk_network ((uart_with [78; 79]) <| can_send := false |>) (duel 50)
    4 0 0 LINKED 0 0 [0; 0; 0]) [79] [] Hf eq_refl eq_refl) as H.
  apply (proj1 (wp_Done _ _ _)) in H as (r & n' & E & -> & Hs & _ & Hq & Ht).
  exists n'. split; [exact E|]. split; [exact Hs|]. split; [exact Hq|exact Ht].
Defined.
