(* ===== verification/Video.v ===== *)
(** * Video

    The graphics card, [src/proj/system/lib/video_graphics.c] and the inline
    functions of its header: setting the mode, the three pages and their
    rotation, and the drawing of pixels, rectangles and sprites.  The calls to
    the kernel and the BIOS are a parameter (which of them succeed); what they
    do when they do is the documented behaviour of [vm_map_phys] and of the
    VBE functions 02h and 07h. *)

From Stdlib Require Import Floats.SpecFloat.
From S2P Require Import Prelude Doubles MapFile Utils Sprites.

Definition START_DARKEN : Z := 1.

(** ** Data *)

(** [line_tex_t]; [tex] points into [walls_textures]. *)
Record line_tex_t : Type := mk_line_tex {
  l_darken : bool;
  tex_hit_x : Z;
  tex_y : double;
  step : double;
  last_tex_y : Z;
  side : Z;
  darken_factor : double;
  tex : option Z;
}.
#[global] Instance eta_line_tex : Eta line_tex_t := fun t =>
  mk_line_tex (l_darken t) (tex_hit_x t) (tex_y t) (step t) (last_tex_y t) (side t) (darken_factor t) (tex t).
Record line_t : Type := mk_line {
  draw_higher : Z;
  draw_lower : Z;
  texture : line_tex_t;
  l_color : Z;
  dist : double;
}.
#[global] Instance eta_line : Eta line_t := fun l =>
  mk_line (draw_higher l) (draw_lower l) (texture l) (l_color l) (dist l).
(** A [line_t] of zero bytes. *)
Definition zero_line : line_t := mk_line 0 0 (mk_line_tex false 0 d0 d0 0 0 d0 None) 0 d0.

(** [pair_t], of two 32-bit [long]s. *)
Record pair_t : Type := mk_pair { px : Z; py : Z }.
#[global] Instance eta_pair : Eta pair_t := fun p => mk_pair (px p) (py p).

(** What a page pointer can hold. *)
Inductive vaddr : Type := VNull | VFailed | VPage (k : Z).

(** [graphics_data], with the pages of the video memory as their 32-bit
    pixels, the first scanline the card shows, and which of the coming calls
    outside the program succeed (all, when the list ends). *)
Record graphics_data : Type := mk_graphics {
  vram : vaddr;
  h_res : Z;
  v_res : Z;
  bytes_per_px : Z;
  bits_per_px : Z;
  drawing_address : vaddr;
  page_address : vaddr;
  third_address : vaddr;
  vlines : ptr (list line_t);
  physical_drawing_scanline : Z;
  physical_page_scanline : Z;
  physical_third_scanline : Z;
  vmem : list (list Z);
  display_start : Z;
  calls : list bool;
}.
#[global] Instance eta_graphics : Eta graphics_data := fun g =>
  mk_graphics (vram g) (h_res g) (v_res g) (bytes_per_px g) (bits_per_px g) (drawing_address g)
    (page_address g) (third_address g) (vlines g) (physical_drawing_scanline g)
    (physical_page_scanline g) (physical_third_scanline g) (vmem g) (display_start g) (calls g).

(** A call outside the program. *)
Definition call : prog graphics_data bool := fun g =>
  match calls g with [] => Done (true, g) | b :: l => Done (b, g <| calls := l |>) end.

(** [memset(p, 0, size of a page)] *)
Definition blank (p : vaddr) : prog graphics_data unit :=
  match p with
  | VPage k =>
      m <- gets vmem ;;
      old <- defined (aget m k) ;;
      m <- defined (aset m k (replicate (length old) 0)) ;;
      modify (fun g => g <| vmem := m |>)
  | _ => undef
  end.

(** ** Mode *)
Definition ceil_to_bytes (bits : Z) : Z :=
  let bits := if negb (bits mod 8 =? 0) then u8 (bits + (8 - bits mod 8)) else bits in
  Z.quot bits 8.

(** The fields of [vbe_mode_info_t] the program reads. *)
Record vbe_mode_info_t : Type := mk_mode_info {
  XResolution : Z;
  YResolution : Z;
  BitsPerPixel : Z;
}.
Definition get_mem_size (info : vbe_mode_info_t) : Z :=
  u32 (XResolution info * YResolution info * ceil_to_bytes (BitsPerPixel info)).

Section Mode.
(** What the BIOS says of a mode, and what the video memory holds. *)
Variable mode_info : Z -> vbe_mode_info_t.
Variable old_memory : Z -> list Z.

Definition vbe_get_info (mode : Z) : prog graphics_data (option vbe_mode_info_t) :=
  vmem_ok <- call ;;
  if negb vmem_ok then ret None else
  bios_ok <- call ;;
  if negb bios_ok then ret None else
  ret (Some (mode_info mode)).

Inductive vg_result : Type := VgNull | VgPanic | VgOk (video_mem : vaddr).

(** One call of [vm_map_phys] for the [k]-th block. *)
Definition map_page (k : Z) : prog graphics_data vaddr :=
  ok <- call ;; ret (if (ok : bool) then VPage k else VFailed).

Definition vg_init (mode : Z) : prog graphics_data vg_result :=
  info <- vbe_get_info mode ;;
  match info with
  | None => ret VgNull
  | Some info =>
      let cells := old_memory (Z.quot (get_mem_size info) 4) in
      priv <- call ;;
      if negb priv then ret VgPanic else
      video_mem <- map_page 0 ;;
      modify (fun g => g <| vram := video_mem |> <| h_res := XResolution info |>
                         <| v_res := YResolution info |>
                         <| bytes_per_px := ceil_to_bytes (BitsPerPixel info) |>
                         <| bits_per_px := BitsPerPixel info |> <| vmem := [cells; cells; cells] |>) ;;;
      match video_mem with
      | VFailed | VNull => ret VgPanic
      | VPage _ =>
          video_mem2 <- map_page 1 ;;
          match video_mem2 with
          | VFailed | VNull => ret VgPanic
          | VPage _ =>
              (* the check that follows looks at [video_mem2] again *)
              video_mem3 <- map_page 2 ;;
              bios_ok <- call ;;
              if negb bios_ok then ret VgNull else
              modify (fun g => g <| display_start := 0 |>
                                 <| drawing_address := video_mem |> <| page_address := video_mem2 |>
                                 <| third_address := video_mem3 |>
                                 <| physical_drawing_scanline := 0 |>
                                 <| physical_page_scanline := v_res g |>
                                 <| physical_third_scanline := u32 (v_res g * 2) |>) ;;;
              blank video_mem2 ;;;
              blank video_mem ;;;
              blank video_mem3 ;;;
              first <- call ;;
              second <- (if (first : bool) then ret true else call) ;;
              if negb second then modify (fun g => g <| vlines := Null |>) ;;; ret VgNull else
              modify (fun g => g <| vlines := Live (replicate (Z.to_nat (h_res g)) zero_line) |>) ;;;
              ret (VgOk video_mem)
          end
      end
  end.
End Mode.

(** [free] of a page: only [NULL] may be passed, the pages are not blocks of
    the heap. *)
Definition free_page (p : vaddr) : prog graphics_data unit :=
  match p with VNull => ret tt | _ => undef end.
Definition reset_to_text_mode : prog graphics_data Z :=
  p <- gets page_address ;; free_page p ;;;
  p <- gets drawing_address ;; free_page p ;;;
  p <- gets third_address ;; free_page p ;;;
  l <- gets vlines ;;
  _ <- defined (free_ptr l) ;;
  modify (fun g => g <| vram := VNull |> <| h_res := 0 |> <| v_res := 0 |> <| bytes_per_px := 0 |>
                     <| bits_per_px := 0 |> <| drawing_address := VNull |> <| page_address := VNull |>
                     <| third_address := VNull |> <| vlines := Null |>
                     <| physical_drawing_scanline := 0 |> <| physical_page_scanline := 0 |>
                     <| physical_third_scanline := 0 |>) ;;;
  ok <- call ;; ret (if (ok : bool) then OK else 1).

(** ** Pages *)
Definition page_flip : prog graphics_data Z :=
  line <- gets physical_page_scanline ;;
  ok <- call ;;
  if negb ok then ret 1 else
  (* VBE 4F07h: the start of the display moves at the vertical retrace *)
  modify (fun g => g <| display_start := u16 line |>) ;;;
  modify (fun g => g <| page_address := third_address g |> <| third_address := drawing_address g |>
                     <| drawing_address := page_address g |>) ;;;
  modify (fun g => g <| physical_page_scanline := physical_third_scanline g |>
                     <| physical_third_scanline := physical_drawing_scanline g |>
                     <| physical_drawing_scanline := physical_page_scanline g |>) ;;;
  ret OK.
Definition put_buffer : prog graphics_data Z :=
  r <- page_flip ;; if negb (r =? OK) then ret 2 else ret OK.
(** [memset] returns its argument, which is not null when it returns. *)
Definition clear_screen : prog graphics_data Z :=
  p <- gets page_address ;; blank p ;;; ret OK.

(** ** Drawing *)

(** [buf_c[i]] of the page, read and written. *)
Definition page_cells : prog graphics_data (Z * list Z) :=
  p <- gets page_address ;;
  match p with
  | VPage k => m <- gets vmem ;; c <- defined (aget m k) ;; ret (k, c)
  | _ => undef
  end.
Definition set_px (x_pos y_pos color : Z) : prog graphics_data Z :=
  w <- gets h_res ;;
  '(k, cells) <- page_cells ;;
  cells <- defined (aset cells (u32 (u32 x_pos + u32 (u32 y_pos * w))) color) ;;
  m <- gets vmem ;;
  m <- defined (aset m k cells) ;;
  modify (fun g => g <| vmem := m |>) ;;;
  ret OK.

(** The bytes of a colour times the factor; the fourth stays. *)
Definition darken (color : Z) (factor : double) : option Z :=
  let rgb k := dto_u8 (dmul (dint (Z.land (Z.shiftr color (8 * k)) 255)) factor) in
  match rgb 0, rgb 1, rgb 2 with
  | Some b0, Some b1, Some b2 =>
      Some (Z.lor (Z.lor b0 (Z.shiftl b1 8)) (Z.lor (Z.shiftl b2 16) (Z.shiftl (Z.shiftr color 24) 24)))
  | _, _, _ => None
  end.

Definition vg_draw_hor_line (x y len color : Z) : prog graphics_data Z :=
  for_each (seqZ 0 len) (fun i => _ <- set_px (x + i) y color ;; ret tt) ;;; ret OK.
Definition draw_rect (x y x_end y_end color : Z) : prog graphics_data Z :=
  let len := x_end - x in
  for_each (seqZ y (y_end - y)) (fun y => _ <- vg_draw_hor_line x y (u16 len) color ;; ret tt) ;;; ret OK.

Definition line_at (i : Z) : prog graphics_data line_t :=
  l <- gets vlines ;; l <- defined (deref l) ;; defined (aget l i).
Definition draw_dists_hor_line (x y len color : Z) (d : double) : prog graphics_data Z :=
  for_each (seqZ 0 len) (fun i =>
    l <- line_at (x + i) ;;
    if dlt d (dist l) || dlt (dist l) d0 then (_ <- set_px (x + i) y color ;; ret tt) else ret tt) ;;;
  ret OK.
Definition draw_darken_rect (x y x_end y_end color : Z) (factor d : double) : prog graphics_data Z :=
  color <- defined (darken color factor) ;;
  let len := x_end - x in
  for_each (seqZ y (y_end - y)) (fun y => _ <- draw_dists_hor_line x y (u16 len) color d ;; ret tt) ;;;
  ret OK.

Definition darken_pix (x y : Z) (factor : double) : prog graphics_data Z :=
  w <- gets h_res ;;
  h <- gets v_res ;;
  if (w <=? x) || (h <=? y) then ret 1 else
  let real_bit := u32 (x + u32 (y * w)) in
  '(_, cells) <- page_cells ;;
  c <- defined (aget cells real_bit) ;;
  c <- defined (darken c factor) ;;
  set_px x y c.
(** The column is a [uint16_t] argument. *)
Definition darken_hor_line (x y len : Z) (factor : double) : prog graphics_data Z :=
  for_each (seqZ 0 len) (fun i => _ <- darken_pix (u16 (x + i)) y factor ;; ret tt) ;;; ret OK.
Definition darken_rect (x y x_end y_end : Z) (factor : double) : prog graphics_data Z :=
  let len := x_end - x in
  for_each (seqZ y (y_end - y)) (fun y => _ <- darken_hor_line x y (u16 len) factor ;; ret tt) ;;; ret OK.

(** *** Sprites on the screen *)

(** The loops of [draw_sprite] and [draw_sprite_color_mask], which differ in
    the colour they write for a texel that is visible. *)
Section Blit.
Variable sprite : sprite_t.
Variable paint : Z -> Z.
Variable x_start y_start : Z.

Definition blit_pixel (y tex_y : Z) (s : Z * Z) : prog graphics_data ((Z * Z) + unit) :=
  let '(x, tex_x) := s in
  if negb (tex_x <? cx (texture_size sprite)) then ret (inr tt) else
  w <- gets h_res ;;
  if w <=? x then ret (inr tt) else
  color <- defined (aget (pixels sprite) (u32 (tex_y + tex_x))) ;;
  (if negb (color =? invis_color sprite) then (_ <- set_px x y (paint color) ;; ret tt) else ret tt) ;;;
  ret (inl (u32 (x + 1), u32 (tex_x + 1))).
Definition blit_row (s : Z * Z) : prog graphics_data ((Z * Z) + unit) :=
  let '(y, tex_y) := s in
  if negb (y <? u32 (y_start + cy (texture_size sprite) - 1)) then ret (inr tt) else
  h <- gets v_res ;;
  if h <=? y then ret (inr tt) else
  w <- gets h_res ;;
  iterate (S (Z.to_nat w)) (blit_pixel y tex_y) (x_start, 0) ;;;
  ret (inl (u32 (y + 1), u32 (tex_y + cx (texture_size sprite)))).
Definition blit : prog graphics_data Z :=
  h <- gets v_res ;;
  iterate (S (Z.to_nat h)) blit_row (y_start, 0) ;;;
  ret OK.
End Blit.

Definition draw_sprite (start_pos : pair_t) (sprite : sprite_t) : prog graphics_data Z :=
  blit sprite (fun c => c) (u32 (px start_pos)) (u32 (py start_pos)).
Definition draw_sprite_color_mask (start_pos : pair_t) (sprite : sprite_t) (color : Z) :
    prog graphics_data Z :=
  blit sprite (fun _ => color) (u32 (px start_pos)) (u32 (py start_pos)).

(** *** Scaled sprites

    [draw_rect_sprite]: [long] arithmetic wraps at 32 bits. *)
Definition clamp_end (res e : Z) : Z :=
  let e := if res <=? e then res - 1 else e in if e <? 0 then 0 else e.
Definition clamp_start (res s : Z) : Z :=
  let s := if s <? 0 then 0 else s in if res <=? s then res - 1 else s.

(** The state of the loops: the column's texture coordinate, the last texture
    column and the colours kept for it. *)
Record scan : Type := mk_scan {
  count_x : double;
  old_texture_x : Z;
  sc_color : Z;
  d_color : Z;
}.
#[global] Instance eta_scan : Eta scan := fun s =>
  mk_scan (count_x s) (old_texture_x s) (sc_color s) (d_color s).

Section Scaled.
Variable sprite : sprite_t.
Variable sprite_dist factor step_x : double.

(** The colour of a texel that has not just been drawn. *)
Definition shade (color : Z) : option Z :=
  if dge sprite_dist (dint START_DARKEN) then darken color factor else Some color.

(** One column of a line: [None] for the break. *)
Definition scaled_pixel (line real_texture_y i : Z) (s : scan) : prog graphics_data (option scan) :=
  texture_x <- defined (dto_int (count_x s)) ;;
  if cx (texture_size sprite) <=? texture_x then ret None else
  l <- line_at i ;;
  s <- (if dlt (dist l) d0 || dge (dist l) sprite_dist then
          if negb (old_texture_x s =? texture_x) then
            color <- defined (aget (pixels sprite) (u32 (texture_x + real_texture_y))) ;;
            let s := s <| old_texture_x := texture_x |> <| sc_color := color |> in
            if negb (color =? invis_color sprite) then
              d <- defined (shade color) ;;
              _ <- set_px i line d ;; ret (s <| d_color := d |>)
            else ret s
          else if negb (sc_color s =? invis_color sprite) then (_ <- set_px i line (d_color s) ;; ret s)
          else ret s
        else ret s) ;;
  ret (Some (s <| count_x := dadd (count_x s) step_x |>)).

Fixpoint scaled_columns (line real_texture_y : Z) (cols : list Z) (s : scan) : prog graphics_data scan :=
  match cols with
  | [] => ret s
  | i :: cols =>
      r <- scaled_pixel line real_texture_y i s ;;
      match r with
      | None => ret s
      | Some s => scaled_columns line real_texture_y cols s
      end
  end.

Fixpoint scaled_lines (cols ls : list Z) (start_tex_x count_y step_y : double) (s : scan) :
    prog graphics_data unit :=
  match ls with
  | [] => ret tt
  | line :: ls =>
      texture_y <- defined (dto_int count_y) ;;
      if cy (texture_size sprite) <=? texture_y then ret tt else
      s <- scaled_columns line (u32 (texture_y * cx (texture_size sprite))) cols s ;;
      scaled_lines cols ls start_tex_x (dadd count_y step_y) step_y (s <| count_x := start_tex_x |>)
  end.
End Scaled.

(** Where a sprite starts on one axis of the screen, and the texture
    coordinate there. *)
Definition scaled_start (res bounding_box sprite_offset max offset : Z) : Z :=
  clamp_start res (Z.quot (i32 (i32 (i32 (512 * bounding_box) * sprite_offset) + i32 (max * offset))) (512 * max)).
Definition start_tex (start bounding_box sprite_offset max offset : Z) : double :=
  let t := dsub (ddiv (dmul (dsub (dint start) (ddiv (dint offset) (dint 512))) (dint max)) (dint bounding_box))
                (dint sprite_offset) in
  if dlt t d0 then d0 else t.

(** The end position it leaves clamped, the result. *)
Definition draw_rect_sprite (end_pos offset bounding_box : pair_t) (sprite : sprite_t)
    (sprite_dist factor : double) : prog graphics_data (pair_t * Z) :=
  w <- gets h_res ;;
  h <- gets v_res ;;
  let end_pos := mk_pair (clamp_end w (px end_pos)) (clamp_end h (py end_pos)) in
  let start_line := scaled_start h (py bounding_box) (y_offset sprite) MAX_SPRITE_HEIGHT (py offset) in
  let start_col := scaled_start w (px bounding_box) (x_offset sprite) MAX_SPRITE_WIDTH (px offset) in
  let start_tex_x := start_tex start_col (px bounding_box) (x_offset sprite) MAX_SPRITE_WIDTH (px offset) in
  let start_tex_y := start_tex start_line (py bounding_box) (y_offset sprite) MAX_SPRITE_HEIGHT (py offset) in
  let step_y := ddiv (dint MAX_SPRITE_HEIGHT) (dint (py bounding_box)) in
  let step_x := ddiv (dint MAX_SPRITE_WIDTH) (dint (px bounding_box)) in
  scaled_lines sprite sprite_dist factor step_x
    (seqZ start_col (px end_pos - start_col + 1)) (seqZ start_line (py end_pos - start_line + 1))
    start_tex_x start_tex_y step_y (mk_scan start_tex_x (-1) 0 0) ;;;
  ret (end_pos, OK).

(** ** Pages and pixels *)

(** The page the program draws on, what the card shows, and a pixel of the
    former. *)
Definition drawn (g : graphics_data) : option (list Z) :=
  match page_address g with VPage k => aget (vmem g) k | _ => None end.
Definition displayed (g : graphics_data) : option (list Z) :=
  if display_start g mod v_res g =? 0 then aget (vmem g) (display_start g / v_res g) else None.
Definition pixel (g : graphics_data) (x y : Z) : option Z :=
  match drawn g with Some c => aget c (y * h_res g + x) | None => None end.
Definition on_screen (g : graphics_data) (x y : Z) : Prop := 0 <= x < h_res g /\ 0 <= y < v_res g.

(** A usable screen: three pages in rotation, the displayed one being the
    drawing page. *)
Record video_ok (g : graphics_data) : Prop := mk_video_ok {
  vo_res : 0 < h_res g < 65536 /\ 0 < v_res g /\ 3 * v_res g < 65536 /\ h_res g * v_res g < 2 ^ 31;
  vo_rotation : exists k, 0 <= k < 3 /\
    drawing_address g = VPage k /\ page_address g = VPage ((k + 1) mod 3) /\
    third_address g = VPage ((k + 2) mod 3) /\
    physical_drawing_scanline g = k * v_res g /\
    physical_page_scanline g = (k + 1) mod 3 * v_res g /\
    physical_third_scanline g = (k + 2) mod 3 * v_res g;
  vo_shown : display_start g = physical_drawing_scanline g;
  vo_vmem : alen (vmem g) = 3 /\ Forall (fun c => alen c = h_res g * v_res g) (vmem g);
  vo_lines : exists l, vlines g = Live l /\ alen l = h_res g;
}.

(** Only the page that is being drawn changes. *)
Record draws (g g' : graphics_data) : Prop := mk_draws {
  dr_same : exists m, g' = g <| vmem := m |>;
  dr_len : alen (vmem g') = alen (vmem g);
  dr_page : forall k c', aget (vmem g') k = Some c' -> exists c, aget (vmem g) k = Some c /\ alen c' = alen c /\
    (page_address g <> VPage k -> c' = c);
}.

(** ... and each of its pixels takes the colour [f] gives it, if any. *)
Definition paints (f : Z -> Z -> option Z) (g g' : graphics_data) : Prop :=
  draws g g' /\ forall x y, on_screen g x y ->
    pixel g' x y = match f x y with Some c => Some c | None => pixel g x y end.

Lemma draws_refl g : draws g g.
Proof. split; [exists (vmem g); by destruct g|done|]. intros k c H. by exists c. Qed.
Lemma draws_trans g1 g2 g3 : draws g1 g2 -> draws g2 g3 -> draws g1 g3.
Proof.
  intros [[m1 E1] Hl1 Hp1] [[m2 E2] Hl2 Hp2]. split.
  - exists m2. by rewrite E2, E1.
  - lia.
  - intros k c3 H3. destruct (Hp2 k c3 H3) as (c2 & H2 & Hc2 & Hs2). destruct (Hp1 k c2 H2) as (c1 & H1 & Hc1 & Hs1).
    exists c1. split; [done|]. split; [lia|]. intros Hne. rewrite Hs2; [by apply Hs1|]. by rewrite E1.
Qed.
Lemma draws_screen g g' x y : draws g g' -> on_screen g' x y <-> on_screen g x y.
Proof. by intros [[m ->] _ _]. Qed.
Lemma draws_ok g g' : video_ok g -> draws g g' -> video_ok g'.
Proof.
  intros [Hr Hk Hs [Hv Hf] Hl] [[m ->] Hlen Hp]. split; try done. split; [by rewrite Hlen|].
  apply Forall_lookup. intros i c' Hi. rewrite <- aget_lookup in Hi.
  destruct (Hp _ _ Hi) as (c & Hc & -> & _). rewrite aget_lookup in Hc. by eapply Forall_lookup in Hf.
Qed.

Lemma paints_trans f1 f2 g1 g2 g3 : paints f1 g1 g2 -> paints f2 g2 g3 ->
  paints (fun x y => match f2 x y with Some c => Some c | None => f1 x y end) g1 g3.
Proof.
  intros [Hd1 Hp1] [Hd2 Hp2]. split; [by eapply draws_trans|]. intros x y Hxy.
  rewrite Hp2 by by apply (draws_screen _ _ _ _ Hd1). destruct (f2 x y); [done|]. by apply Hp1.
Qed.
Lemma paints_none g : paints (fun _ _ => None) g g.
Proof. split; [apply draws_refl|done]. Qed.
Lemma paints_ext f f' g g' : (forall x y, on_screen g x y -> f x y = f' x y) -> paints f g g' -> paints f' g g'.
Proof. intros Hf [Hd Hp]. split; [done|]. intros x y Hxy. rewrite Hp, Hf by done. done. Qed.

Lemma video_page g : video_ok g -> exists k c, page_address g = VPage k /\ 0 <= k < 3 /\
  aget (vmem g) k = Some c /\ alen c = h_res g * v_res g.
Proof.
  intros [_ (k & Hk & _ & Hp & _) _ [Hv Hf] _].
  pose proof (Z.mod_pos_bound (k + 1) 3 ltac:(lia)).
  destruct (proj2 (aget_is_Some (vmem g) ((k + 1) mod 3))) as [c Hc]; [lia|].
  exists ((k + 1) mod 3), c. split; [done|]. split; [done|]. split; [done|].
  rewrite <- (Z2Nat.id ((k + 1) mod 3)), aget_lookup in Hc by lia. exact (Forall_lookup_1 _ _ _ _ Hf Hc).
Qed.

(** The cell of a pixel. *)
Lemma cell_bounds (w h x y : Z) : 0 <= x < w -> 0 <= y < h -> 0 <= y * w + x < w * h.
Proof. nia. Qed.
Lemma cell_inj (w x y x' y' : Z) : 0 <= x < w -> 0 <= x' < w -> y * w + x = y' * w + x' -> x = x' /\ y = y'.
Proof. intros Hx Hx' E. assert (y = y') by nia. subst. lia. Qed.

Lemma wp_page_cells g (Q : Z * list Z -> graphics_data -> Prop) k c :
  page_address g = VPage k -> aget (vmem g) k = Some c -> Q (k, c) g -> wp page_cells Q g.
Proof. intros Hp Hc HQ. unfold page_cells. do 2 wp_step. rewrite Hp. do 2 wp_step. rewrite Hc. cbn [defined]. by wp_steps. Qed.

Lemma set_px_spec x y c g : video_ok g -> on_screen g x y ->
  wp (set_px x y c) (fun r => paints (fun x' y' => if decide (x' = x /\ y' = y) then Some c else None) g) g.
Proof.
  intros Hok [Hx Hy]. destruct (video_page g Hok) as (k & cells & Hp & Hk & Hc & Hlen).
  destruct (vo_res g Hok) as (Hw & Hh & Hh3 & Hwh). pose proof (cell_bounds _ _ _ _ Hx Hy) as Hb.
  unfold set_px. do 3 wp_step. eapply wp_page_cells; [done..|]. wp_step.
  rewrite (wrap_small 32 x), (wrap_small 32 y) by lia. rewrite (wrap_small 32 (y * _)) by nia.
  rewrite (wrap_small 32) by lia. rewrite (Z.add_comm x).
  rewrite aset_Some by lia. cbn [defined]. do 3 wp_step.
  destruct (vo_vmem g Hok) as [Hv _]. rewrite aset_Some by lia. cbn [defined]. do 4 wp_step.
  set (cells' := <[Z.to_nat (y * h_res g + x) := c]> cells).
  assert (alen cells' = alen cells) as Hlen' by (unfold alen, cells'; by rewrite length_insert).
  assert (forall j c', aget (<[Z.to_nat k := cells']> (vmem g)) j = Some c' ->
    (j = k /\ c' = cells') \/ (j <> k /\ aget (vmem g) j = Some c')) as Hj.
  { intros j c' Hj. unfold aget in Hj. unfold alen in Hv. destruct (Z.ltb_spec j 0); [done|]. destruct (decide (j = k)) as [->|Hne].
    - left. rewrite list_lookup_insert_eq in Hj by lia. by injection Hj as <-.
    - right. rewrite list_lookup_insert_ne in Hj by lia. split; [done|]. unfold aget. by destruct (Z.ltb_spec j 0); [lia|]. }
  split.
  - split; [by eexists|unfold alen; cbn; by rewrite length_insert|]. cbn [vmem]. intros j c' H.
    apply Hj in H as [[-> ->]|[Hne H]]; [exists cells; by rewrite Hp|by exists c'].
  - intros x' y' [Hx' Hy']. unfold pixel, drawn. cbn [page_address vmem h_res]. cbn. rewrite Hp, Hc.
    unfold aget at 1. destruct (Z.ltb_spec k 0); [lia|]. unfold alen in Hv. rewrite list_lookup_insert_eq by lia.
    pose proof (cell_bounds _ _ _ _ Hx' Hy') as Hb'. unfold aget. destruct (Z.ltb_spec (y' * h_res g + x') 0); [lia|].
    unfold cells'. case_decide as E.
    + destruct E as [-> ->]. rewrite list_lookup_insert_eq; [done|]. unfold alen in Hlen. lia.
    + rewrite list_lookup_insert_ne; [done|]. intros E'. apply E.
      destruct (cell_inj (h_res g) x y x' y'); [done|done|lia|done].
Qed.

(** A loop of drawings: [F i] is what has been painted before round [i]. *)
Lemma paint_loop (a n : Z) (body : Z -> prog graphics_data unit) (F : Z -> Z -> Z -> option Z) g :
  video_ok g -> 0 <= n -> (forall x y, on_screen g x y -> F a x y = None) ->
  (forall i g1, a <= i < a + n -> paints (F i) g g1 -> video_ok g1 ->
    wp (body i) (fun _ g2 => exists f, paints f g1 g2 /\
      forall x y, on_screen g x y -> F (i + 1) x y = match f x y with Some c => Some c | None => F i x y end) g1) ->
  wp (for_each (seqZ a n) body) (fun _ => paints (F (a + n)) g) g.
Proof.
  intros Hok Hn H0 Hbody.
  apply (wp_for_each _ _ (fun l g1 => exists i, l = seqZ i (a + n - i) /\ a <= i <= a + n /\ paints (F i) g g1)).
  - intros j l g1 (i & El & Hi & Hp).
    destruct (Z.eq_dec i (a + n)) as [->|Hne]; [by rewrite Z.sub_diag in El|].
    rewrite seqZ_cons in El by lia. injection El as -> ->.
    eapply wp_mono; [apply (Hbody i g1); [lia|done|by eapply draws_ok; [exact Hok|apply Hp]]|].
    intros _ g2 (f & Hf & HF). exists (i + 1). split; [f_equal; lia|]. split; [lia|].
    eapply paints_ext; [|exact (paints_trans _ _ _ _ _ Hp Hf)]. intros x y Hxy. by rewrite HF.
  - intros g1 (i & El & Hi & Hp). assert (i = a + n) as ->; [|exact Hp].
    apply (f_equal length) in El. rewrite length_seqZ in El. cbn in El. lia.
  - exists a. split; [f_equal; lia|]. split; [lia|]. eapply paints_ext; [|apply paints_none].
    intros x y Hxy. by rewrite H0.
Qed.

(** ** Rectangles *)

(** One drawing of a loop: its colours are those it adds to the loop's. *)
Lemma paint_round {A} (m : prog graphics_data A) f (F F' : Z -> Z -> option Z) g g1 :
  wp m (fun _ => paints f g1) g1 ->
  (forall x y, on_screen g x y -> F' x y = match f x y with Some c => Some c | None => F x y end) ->
  wp (_ <- m ;; ret tt) (fun _ g2 => exists f, paints f g1 g2 /\
    forall x y, on_screen g x y -> F' x y = match f x y with Some c => Some c | None => F x y end) g1.
Proof.
  intros Hm HF. wp_step. eapply wp_mono; [exact Hm|]. intros a g2 Hp. wp_step. by exists f.
Qed.

Definition in_rect (x y x_end y_end x' y' : Z) : Prop := x <= x' < x_end /\ y <= y' < y_end.
#[global] Instance in_rect_dec x y x_end y_end x' y' : Decision (in_rect x y x_end y_end x' y').
Proof. unfold in_rect. apply _. Defined.

Ltac decide_lia :=
  unfold in_rect, on_screen in *; repeat case_decide; try done; try (exfalso; lia); try (repeat f_equal; lia).

Lemma vg_draw_hor_line_spec x y len c g : video_ok g -> 0 <= x -> 0 <= len -> x + len <= h_res g -> 0 <= y < v_res g ->
  wp (vg_draw_hor_line x y len c)
    (fun _ => paints (fun x' y' => if decide (in_rect x y (x + len) (y + 1) x' y') then Some c else None) g) g.
Proof.
  intros Hok Hx Hlen Hxl Hy. unfold vg_draw_hor_line. wp_step.
  eapply wp_mono; [apply (paint_loop 0 len _ (fun i x' y' => if decide (in_rect x y (x + i) (y + 1) x' y') then Some c else None));
    [done|done| |]|].
  - intros x' y' _. decide_lia.
  - intros i g1 Hi Hp Hok1. destruct Hp as [Hd Hp]. eapply paint_round; [apply (set_px_spec (x + i) y c g1 Hok1)|].
    + apply (draws_screen _ _ _ _ Hd). split; lia.
    + intros x' y' Hxy. decide_lia.
  - intros ? g' Hp. wp_step. eapply paints_ext; [|exact Hp]. done.
Qed.

Lemma draw_rect_spec x y x_end y_end c g : video_ok g ->
  0 <= x <= x_end -> x_end <= h_res g -> 0 <= y <= y_end -> y_end <= v_res g ->
  wp (draw_rect x y x_end y_end c)
    (fun _ => paints (fun x' y' => if decide (in_rect x y x_end y_end x' y') then Some c else None) g) g.
Proof.
  intros Hok Hx Hxe Hy Hye. destruct (vo_res g Hok) as (Hw & Hh & Hh3 & _).
  unfold draw_rect. wp_step. rewrite (wrap_small 16) by lia.
  eapply wp_mono; [apply (paint_loop y (y_end - y) _ (fun i x' y' => if decide (in_rect x y x_end i x' y') then Some c else None));
    [done|lia| |]|].
  - intros x' y' _. decide_lia.
  - intros i g1 Hi [Hd Hp] Hok1. assert (h_res g1 = h_res g /\ v_res g1 = v_res g) as [Ew Eh] by by destruct Hd as [[m ->] _ _].
    eapply paint_round; [apply (vg_draw_hor_line_spec x i (x_end - x) c g1 Hok1); lia|].
    intros x' y' Hxy. decide_lia.
  - intros ? g' Hp. wp_step. replace (y + (y_end - y)) with y_end in Hp by lia. exact Hp.
Qed.

(** A factor whose products with a byte are bytes. *)
Definition darkens (factor : double) : bool :=
  forallb (fun b => match dto_u8 (dmul (dint b) factor) with Some _ => true | None => false end) (seqZ 0 256).
Lemma darken_defined c factor : darkens factor = true -> is_Some (darken c factor).
Proof.
  intros Hf. pose proof (forall_byte _ Hf) as H. cbn beta in H. unfold darken.
  assert (forall k, exists b, dto_u8 (dmul (dint (Z.land (Z.shiftr c (8 * k)) 255)) factor) = Some b) as Hb.
  { intros k. specialize (H (Z.land (Z.shiftr c (8 * k)) 255)). destruct (dto_u8 _) as [b|]; [by exists b|].
    discriminate H. change 255 with (Z.ones 8). rewrite Z.land_ones by lia. by apply Z.mod_pos_bound. }
  destruct (Hb 0) as [b0 ->], (Hb 1) as [b1 ->], (Hb 2) as [b2 ->]. done.
Qed.

Lemma pixel_defined g x y : video_ok g -> on_screen g x y -> is_Some (pixel g x y).
Proof.
  intros Hok [Hx Hy]. destruct (video_page g Hok) as (k & c & Hp & _ & Hc & Hl). unfold pixel, drawn.
  rewrite Hp, Hc. apply aget_is_Some. rewrite Hl. by apply cell_bounds.
Qed.

(** The pixels of a set, darkened. *)
Definition darkened (g : graphics_data) (factor : double) (P : Z -> Z -> Prop) `{!forall x y, Decision (P x y)}
    (x y : Z) : option Z :=
  if decide (P x y) then pixel g x y ≫= (fun c => darken c factor) else None.

Lemma darken_pix_spec x y factor g : video_ok g -> darkens factor = true -> 0 <= x < 65536 -> 0 <= y < 65536 ->
  wp (darken_pix x y factor)
    (fun _ => paints (darkened g factor (fun x' y' => x' = x /\ y' = y)) g) g.
Proof.
  intros Hok Hf Hx Hy. unfold darken_pix. do 4 wp_step. destruct ((h_res g <=? x) || (v_res g <=? y)) eqn:E.
  - wp_step. eapply paints_ext; [|apply paints_none]. intros x' y' [Hx' Hy'].
    unfold darkened. destruct (Z.leb_spec (h_res g) x), (Z.leb_spec (v_res g) y); try done; decide_lia.
  - bool_lia. assert (on_screen g x y) as Hxy by (split; lia). destruct (video_page g Hok) as (k & cells & Hp & _ & Hc & Hl).
    destruct (vo_res g Hok) as (Hw & Hh & Hh3 & Hwh). pose proof (cell_bounds _ _ _ _ (proj1 Hxy) (proj2 Hxy)).
    wp_step. eapply wp_page_cells; [done..|]. wp_step. rewrite (wrap_small 32 (y * _)) by nia.
    rewrite (wrap_small 32) by lia. rewrite (Z.add_comm x). destruct (pixel_defined g x y Hok Hxy) as [c Hpx].
    pose proof Hpx as Hpx'. unfold pixel, drawn in Hpx'. rewrite Hp, Hc in Hpx'. rewrite Hpx'. cbn [defined].
    do 2 wp_step. destruct (darken_defined c factor Hf) as [d Hd]. rewrite Hd. cbn [defined]. wp_step.
    eapply wp_mono; [by apply set_px_spec|]. intros ? g'. apply paints_ext. intros x' y' _.
    unfold darkened. case_decide as E; [|done]. destruct E as [-> ->]. rewrite Hpx. cbn. by rewrite Hd.
Qed.

(** A drawing that darkens the pixels of [Q], after those of [P]. *)
Lemma darken_round {A} (m : prog graphics_data A) g g1 factor (P P' Q : Z -> Z -> Prop)
    `{!forall x y, Decision (P x y), !forall x y, Decision (P' x y), !forall x y, Decision (Q x y)} :
  wp m (fun _ => paints (darkened g1 factor Q) g1) g1 ->
  paints (darkened g factor P) g g1 ->
  (forall x y, on_screen g x y -> (P' x y <-> P x y \/ Q x y) /\ ~ (P x y /\ Q x y)) ->
  wp (_ <- m ;; ret tt) (fun _ g2 => exists f, paints f g1 g2 /\ forall x y, on_screen g x y ->
    darkened g factor P' x y = match f x y with Some c => Some c | None => darkened g factor P x y end) g1.
Proof.
  intros Hm [Hd Hp] HP. eapply paint_round; [exact Hm|]. intros x y Hxy. specialize (HP x y Hxy) as [HP Hno].
  specialize (Hp x y Hxy). unfold darkened in *.
  destruct (decide (Q x y)).
  - rewrite decide_True by tauto. rewrite (decide_False (P := P x y)) in * by tauto. rewrite Hp.
    by destruct (pixel g x y ≫= _).
  - destruct (decide (P' x y)), (decide (P x y)); first [done|tauto].
Qed.

Lemma darken_hor_line_spec x y len factor g : video_ok g -> darkens factor = true ->
  0 <= x -> 0 <= len -> x + len < 65536 -> 0 <= y < 65536 ->
  wp (darken_hor_line x y len factor)
    (fun _ => paints (darkened g factor (in_rect x y (x + len) (y + 1))) g) g.
Proof.
  intros Hok Hf Hx Hlen Hxl Hy. unfold darken_hor_line. wp_step.
  eapply wp_mono; [apply (paint_loop 0 len _ (fun i => darkened g factor (in_rect x y (x + i) (y + 1))));
    [done|done| |]|].
  - intros x' y' _. unfold darkened. decide_lia.
  - intros i g1 Hi Hp Hok1. rewrite (wrap_small 16) by lia.
    apply (darken_round _ g g1 factor (in_rect x y (x + i) (y + 1)) _ (fun x' y' => x' = x + i /\ y' = y));
      [by apply darken_pix_spec; [| |lia|]|exact Hp|].
    intros x' y' _. unfold in_rect. lia.
  - intros ? g' Hp. wp_step. exact Hp.
Qed.

Lemma darken_rect_spec x y x_end y_end factor g : video_ok g -> darkens factor = true ->
  0 <= x <= x_end -> x_end < 65536 -> 0 <= y <= y_end -> y_end < 65536 ->
  wp (darken_rect x y x_end y_end factor)
    (fun _ => paints (darkened g factor (in_rect x y x_end y_end)) g) g.
Proof.
  intros Hok Hf Hx Hxe Hy Hye. unfold darken_rect. wp_step. rewrite (wrap_small 16) by lia.
  eapply wp_mono; [apply (paint_loop y (y_end - y) _ (fun i => darkened g factor (in_rect x y x_end i)));
    [done|lia| |]|].
  - intros x' y' _. unfold darkened. decide_lia.
  - intros i g1 Hi Hp Hok1.
    apply (darken_round _ g g1 factor (in_rect x y x_end i) _ (in_rect x i (x + (x_end - x)) (i + 1)));
      [by apply darken_hor_line_spec; [| |lia|lia|lia|lia]|exact Hp|].
    intros x' y' _. unfold in_rect. lia.
  - intros ? g' Hp. wp_step. by replace (y + (y_end - y)) with y_end in Hp by lia.
Qed.

(** *** Bars, hidden behind the walls *)

(** Whether something at distance [d] is in front of the wall of a column. *)
Definition in_front (g : graphics_data) (d : double) (x : Z) : bool :=
  match deref (vlines g) ≫= (fun l => aget l x) with
  | Some l => dlt d (dist l) || dlt (dist l) d0
  | None => false
  end.

Lemma wp_line_at g x (Q : line_t -> graphics_data -> Prop) : video_ok g -> 0 <= x < h_res g ->
  (forall l, deref (vlines g) ≫= (fun l => aget l x) = Some l -> Q l g) -> wp (line_at x) Q g.
Proof.
  intros Hok Hx HQ. destruct (vo_lines g Hok) as (ls & El & Hl). unfold line_at. do 2 wp_step.
  destruct (proj2 (aget_is_Some ls x)) as [l Hlx]; [lia|]. rewrite El in *. cbn [deref defined]. do 2 wp_step.
  rewrite Hlx. apply HQ. exact Hlx.
Qed.

Lemma draw_dists_hor_line_spec x y len c d g : video_ok g ->
  0 <= x -> 0 <= len -> x + len <= h_res g -> 0 <= y < v_res g ->
  wp (draw_dists_hor_line x y len c d) (fun _ => paints (fun x' y' =>
    if decide (in_rect x y (x + len) (y + 1) x' y') then if in_front g d x' then Some c else None else None) g) g.
Proof.
  intros Hok Hx Hlen Hxl Hy. unfold draw_dists_hor_line. wp_step.
  eapply wp_mono; [apply (paint_loop 0 len _ (fun i x' y' =>
      if decide (in_rect x y (x + i) (y + 1) x' y') then if in_front g d x' then Some c else None else None));
    [done|done| |]|].
  - intros x' y' _. decide_lia.
  - intros i g1 Hi [Hd Hp] Hok1.
    assert (h_res g1 = h_res g /\ vlines g1 = vlines g) as [Ew El] by by destruct Hd as [[m ->] _ _].
    wp_step. apply wp_line_at; [done|lia|]. intros l Hl. rewrite El in Hl.
    assert (in_front g d (x + i) = dlt d (dist l) || dlt (dist l) d0) as Hfront by (unfold in_front; by rewrite Hl).
    rewrite <- Hfront. destruct (in_front g d (x + i)) eqn:Ef.
    + eapply paint_round; [apply (set_px_spec (x + i) y c g1 Hok1); apply (draws_screen _ _ _ _ Hd); split; lia|].
      intros x' y' Hxy. destruct (decide (x' = x + i /\ y' = y)) as [[-> ->]|Hne]; [|decide_lia].
      rewrite Ef. decide_lia.
    + wp_step. eexists. split; [apply paints_none|]. intros x' y' Hxy.
      destruct (decide (x' = x + i)) as [->|Hne]; [rewrite Ef|]; decide_lia.
  - intros ? g' Hp. wp_step. exact Hp.
Qed.

Lemma draw_darken_rect_spec x y x_end y_end c factor d c' g : video_ok g -> darken c factor = Some c' ->
  0 <= x <= x_end -> x_end <= h_res g -> 0 <= y <= y_end -> y_end <= v_res g ->
  wp (draw_darken_rect x y x_end y_end c factor d) (fun _ => paints (fun x' y' =>
    if decide (in_rect x y x_end y_end x' y') then if in_front g d x' then Some c' else None else None) g) g.
Proof.
  intros Hok Hc Hx Hxe Hy Hye. destruct (vo_res g Hok) as (Hw & Hh & Hh3 & _).
  unfold draw_darken_rect. wp_step. rewrite Hc. cbn [defined]. do 2 wp_step. rewrite (wrap_small 16) by lia.
  eapply wp_mono; [apply (paint_loop y (y_end - y) _ (fun i x' y' =>
      if decide (in_rect x y x_end i x' y') then if in_front g d x' then Some c' else None else None)); [done|lia| |]|].
  - intros x' y' _. decide_lia.
  - intros i g1 Hi [Hd Hp] Hok1.
    assert (h_res g1 = h_res g /\ v_res g1 = v_res g /\ forall x, in_front g1 d x = in_front g d x) as (Ew & Eh & Ef)
      by by destruct Hd as [[m ->] _ _].
    eapply paint_round; [apply (draw_dists_hor_line_spec x i (x_end - x) c' d g1 Hok1); lia|].
    intros x' y' Hxy. cbn beta. rewrite Ef. destruct (in_front g d x'); decide_lia.
  - intros ? g' Hp. wp_step. by replace (y + (y_end - y)) with y_end in Hp by lia.
Qed.

(** ** Sprites *)
Record sprite_ok (sp : sprite_t) : Prop := mk_sprite_ok {
  so_width : 0 <= cx (texture_size sp) < 65536;
  so_height : 1 <= cy (texture_size sp) < 65536;
  so_pixels : cx (texture_size sp) * cy (texture_size sp) <= alen (pixels sp);
}.

(** What a sprite put at [(x0, y0)] leaves at [(x, y)]: its texel, unless it
    is invisible, in all its rows but the last. *)
Definition blitted (sp : sprite_t) (paint : Z -> Z) (x0 y0 x y : Z) : option Z :=
  if decide (in_rect x0 y0 (x0 + cx (texture_size sp)) (y0 + cy (texture_size sp) - 1) x y) then
    match aget (pixels sp) ((y - y0) * cx (texture_size sp) + (x - x0)) with
    | Some c => if c =? invis_color sp then None else Some (paint c)
    | None => None
    end
  else None.

Section BlitSpec.
Context (sp : sprite_t) (paint : Z -> Z) (x0 y0 : Z) (g : graphics_data).
Context (Hok : video_ok g) (Hsp : sprite_ok sp) (Hx0 : 0 <= x0 < 2 ^ 32) (Hy0 : 0 <= y0 < 2 ^ 32).

(** Everything before column [x] of row [y]. *)
Definition blit_until (x y : Z) (x' y' : Z) : option Z :=
  if decide (y' < y \/ (y' = y /\ x' < x)) then blitted sp paint x0 y0 x' y' else None.

Lemma blit_pixel_spec y g1 tex_y x :
  paints (blit_until x y) g g1 -> 0 <= y < v_res g -> y0 <= y < y0 + cy (texture_size sp) - 1 ->
  tex_y = (y - y0) * cx (texture_size sp) -> x0 <= x -> x - x0 <= cx (texture_size sp) ->
  x = x0 \/ x <= h_res g ->
  wp (blit_pixel sp paint y tex_y (x, x - x0)) (fun r g2 =>
    match r with
    | inl (x', tex_x') => x' = x + 1 /\ tex_x' = x' - x0 /\ x < h_res g /\
        x' - x0 <= cx (texture_size sp) /\ paints (blit_until x' y) g g2
    | inr _ => paints (blit_until (h_res g) y) g g2
    end) g1.
Proof.
  intros Hp Hy Hyr -> Hx Hxw Hxh. destruct (vo_res g Hok) as (Hw & Hh & Hh3 & Hwh).
  destruct Hsp as [Hcx Hcy Hpx]. pose proof Hp as [Hd _]. pose proof (draws_ok _ _ Hok Hd) as Hok1.
  assert (h_res g1 = h_res g) as Ew by by destruct Hd as [[m ->] _ _].
  unfold blit_pixel. destruct (Z.ltb_spec (x - x0) (cx (texture_size sp))); cbn [negb].
  2: { wp_step. eapply paints_ext; [|exact Hp]. intros x' y' [Hx' Hy']. unfold blit_until, blitted. decide_lia. }
  do 2 wp_step. rewrite Ew. destruct (Z.leb_spec (h_res g) x).
  { wp_step. eapply paints_ext; [|exact Hp]. intros x' y' [Hx' Hy']. unfold blit_until, blitted. decide_lia. }
  wp_step. rewrite (wrap_small 32) by nia.
  destruct (proj2 (aget_is_Some (pixels sp) ((y - y0) * cx (texture_size sp) + (x - x0)))) as [c Hc]; [nia|].
  rewrite Hc. cbn [defined]. do 2 wp_step. rewrite !(wrap_small 32) by lia.
  assert (blitted sp paint x0 y0 x y = if c =? invis_color sp then None else Some (paint c)) as Hblit.
  { unfold blitted. rewrite decide_True by (unfold in_rect; lia). by rewrite Hc. }
  assert (forall x' y', on_screen g x' y' -> blit_until (x + 1) y x' y' =
    if decide (x' = x /\ y' = y) then blitted sp paint x0 y0 x y else blit_until x y x' y') as Hnext.
  { intros x' y' _. unfold blit_until. destruct (decide (x' = x /\ y' = y)) as [[-> ->]|Hne]; [by rewrite decide_True by lia|].
    decide_lia. }
  destruct (c =? invis_color sp); cbn [negb].
  - wp_steps. split; [done|]. split; [lia|]. split; [lia|]. split; [lia|]. eapply paints_ext; [|exact Hp]. intros x' y' Hxy. rewrite Hnext by done.
    case_decide as E; [|done]. destruct E as [-> ->]. rewrite Hblit. unfold blit_until. by rewrite decide_False by lia.
  - wp_step. eapply wp_mono; [apply (set_px_spec x y (paint c) g1 Hok1); apply (draws_screen _ _ _ _ Hd); split; lia|].
    intros ? g2 Hp2. wp_steps. split; [done|]. split; [lia|]. split; [lia|]. split; [lia|].
    eapply paints_ext; [|exact (paints_trans _ _ _ _ _ Hp Hp2)]. intros x' y' Hxy. cbn beta. rewrite Hnext by done.
    by case_decide; [rewrite Hblit|].
Qed.

Lemma blit_row_spec y g1 tex_y :
  paints (blit_until 0 y) g g1 -> y0 <= y -> (y = y0 \/ y <= v_res g) -> y - y0 <= cy (texture_size sp) - 1 ->
  tex_y = (y - y0) * cx (texture_size sp) ->
  wp (blit_row sp paint x0 y0 (y, tex_y)) (fun r g2 =>
    match r with
    | inl (y', tex_y') => y' = y + 1 /\ y < v_res g /\ y' - y0 <= cy (texture_size sp) - 1 /\
        tex_y' = (y' - y0) * cx (texture_size sp) /\ paints (blit_until 0 y') g g2
    | inr _ => paints (blitted sp paint x0 y0) g g2
    end) g1.
Proof.
  intros Hp Hy Hyh Hyl ->. destruct (vo_res g Hok) as (Hw & Hh & Hh3 & Hwh).
  pose proof Hsp as [Hcx Hcy Hpx]. pose proof Hp as [Hd _].
  assert (h_res g1 = h_res g /\ v_res g1 = v_res g) as [Ew Eh] by by destruct Hd as [[m ->] _ _].
  assert (wp (ret (inr tt)) (fun (r : Z * Z + unit) g2 => paints (blit_until 0 y) g g2) g1) as Hstop by exact Hp.
  unfold blit_row. destruct (Z.ltb_spec y (u32 (y0 + cy (texture_size sp) - 1))) as [Hlt|Hge]; cbn [negb].
  2: { wp_step. eapply paints_ext; [|exact Hp]. intros x' y' [Hx' Hy']. unfold blit_until, blitted.
    destruct (Z.lt_ge_cases (y0 + cy (texture_size sp) - 1) (2 ^ 32)).
    - rewrite (wrap_small 32) in Hge by lia. decide_lia.
    - decide_lia. }
  do 2 wp_step. rewrite Eh. destruct (Z.leb_spec (v_res g) y).
  { wp_step. eapply paints_ext; [|exact Hp]. intros x' y' [Hx' Hy']. unfold blit_until, blitted. decide_lia. }
  assert (y0 + cy (texture_size sp) - 1 < 2 ^ 32) as Hnw by lia. rewrite (wrap_small 32) in Hlt by lia.
  do 3 wp_step. rewrite Ew.
  eapply wp_mono; [apply (wp_iterate _ (fun '(x, tex_x) g2 => paints (blit_until x y) g g2 /\ tex_x = x - x0 /\
      x0 <= x /\ x - x0 <= cx (texture_size sp) /\ (x = x0 \/ x <= h_res g))
      (fun '(x, _) _ => Z.to_nat (h_res g - x)) (fun _ g2 => paints (blit_until (h_res g) y) g g2))|].
  - intros [x tex_x] g2 (Hp2 & -> & Hx & Hxw & Hxh).
    eapply wp_mono; [apply (blit_pixel_spec y g2 ((y - y0) * cx (texture_size sp)) x); try done; lia|].
    intros [[x' tex_x']|[]] g3; [|done]. intros (-> & -> & Hlx & Hlw & Hp3). split; [|lia].
    split; [done|]. lia.
  - split; [|lia]. eapply paints_ext; [|exact Hp]. intros x' y' [Hx' Hy']. unfold blit_until, blitted. decide_lia.
  - lia.
  - intros ? g2 Hp2. wp_steps. rewrite !(wrap_small 32) by nia. split; [done|]. split; [lia|]. split; [lia|]. split; [lia|].
    eapply paints_ext; [|exact Hp2]. intros x' y' [Hx' Hy']. unfold blit_until. decide_lia.
Qed.

Lemma blit_spec : wp (blit sp paint x0 y0) (fun r g' => r = OK /\ paints (blitted sp paint x0 y0) g g') g.
Proof.
  destruct (vo_res g Hok) as (Hw & Hh & Hh3 & Hwh). pose proof Hsp as [Hcx Hcy Hpx].
  unfold blit. do 3 wp_step.
  eapply wp_mono; [apply (wp_iterate _ (fun '(y, tex_y) g1 => paints (blit_until 0 y) g g1 /\ y0 <= y /\
      (y = y0 \/ y <= v_res g) /\ y - y0 <= cy (texture_size sp) - 1 /\ tex_y = (y - y0) * cx (texture_size sp))
      (fun '(y, _) _ => Z.to_nat (v_res g - y)) (fun _ g2 => paints (blitted sp paint x0 y0) g g2))|].
  - intros [y tex_y] g1 (Hp & Hy & Hyh & Hyl & ->).
    eapply wp_mono; [by apply (blit_row_spec y g1 _)|].
    intros [[y' tex_y']|[]] g2; [|done]. intros (-> & Hlt & Hl & -> & Hp2). split; [|lia].
    split; [done|]. split; [lia|]. split; [lia|]. split; [lia|done].
  - split; [|split; [lia|split; [by left|split; [lia|lia]]]]. eapply paints_ext; [|apply paints_none].
    intros x' y' [Hx' Hy']. unfold blit_until, blitted. decide_lia.
  - lia.
  - intros ? g' Hp. by wp_step.
Qed.
End BlitSpec.

(** C31: what [draw_sprite] and [draw_sprite_color_mask] put on the page: from
    the given position, every visible texel (in its own colour, or in the
    mask's) of all the rows of the sprite except the last, cut at the right
    and bottom edges of the screen; at a position left of or above the screen
    nothing at all.  No other pixel and no other page changes, no texel
    outside the sprite is read, and both loops end. *)
Theorem draw_sprite_clips g pos sp color : video_ok g -> sprite_ok sp ->
  - 2 ^ 31 <= px pos < 2 ^ 31 -> - 2 ^ 31 <= py pos < 2 ^ 31 ->
  let put paint := fun x y =>
    if decide (0 <= px pos /\ 0 <= py pos) then blitted sp paint (px pos) (py pos) x y else None in
  wp (draw_sprite pos sp) (fun r g' => r = OK /\ paints (put (fun c => c)) g g') g /\
  wp (draw_sprite_color_mask pos sp color) (fun r g' => r = OK /\ paints (put (fun _ => color)) g g') g.
Proof.
  intros Hok Hsp Hx Hy put. destruct (vo_res g Hok) as (Hw & Hh & Hh3 & Hwh). pose proof Hsp as [Hcx Hcy _].
  assert (forall z, 0 <= u32 z < 2 ^ 32) as Hu by (intros; by apply wrap_range).
  assert (forall paint x y, on_screen g x y ->
    blitted sp paint (u32 (px pos)) (u32 (py pos)) x y = put paint x y) as Hput.
  { intros paint x y [Hsx Hsy]. unfold put. assert (forall z, - 2 ^ 31 <= z < 0 -> u32 z = z + 2 ^ 32) as Hneg.
    { intros z Hz. unfold wrap. rewrite <- (Z.mod_add _ 1) by lia. apply Z.mod_small. lia. }
    case_decide as E; [by rewrite !(wrap_small 32) by lia|]. unfold blitted. rewrite decide_False; [done|].
    unfold in_rect. destruct (Z.lt_ge_cases (px pos) 0); [rewrite (Hneg (px pos)) by lia; lia|].
    rewrite (Hneg (py pos)) by lia. lia. }
  split; (eapply wp_mono; [by apply blit_spec|]); intros r g' [-> Hp]; (split; [done|]);
    (eapply paints_ext; [|exact Hp]); intros x y Hxy; by apply Hput.
Qed.

Lemma clear_screen_spec g : video_ok g ->
  wp clear_screen (fun r g' => r = OK /\ paints (fun _ _ => Some 0) g g') g.
Proof.
  intros Hok. destruct (video_page g Hok) as (k & cells & Hp & Hk & Hc & Hlen). destruct (vo_vmem g Hok) as [Hv _].
  unfold clear_screen, blank. do 2 wp_step. rewrite Hp. do 3 wp_step. rewrite Hc. cbn [defined]. do 2 wp_step.
  rewrite aset_Some by lia. cbn [defined]. do 4 wp_step. split; [done|]. unfold alen in Hv.
  set (blanks := replicate (length cells) 0). split.
  - split; [by eexists|unfold alen; cbn; by rewrite length_insert|]. cbn [vmem]. intros j c' H. cbn in H.
    unfold aget in H. destruct (Z.ltb_spec j 0); [done|]. destruct (decide (j = k)) as [->|Hne].
    + rewrite list_lookup_insert_eq in H by lia. injection H as <-. exists cells. split; [done|].
      split; [unfold alen, blanks; by rewrite length_replicate|]. by rewrite Hp.
    + rewrite list_lookup_insert_ne in H by lia. exists c'. split; [|done]. unfold aget. by destruct (Z.ltb_spec j 0); [lia|].
  - intros x y [Hx Hy]. unfold pixel, drawn. cbn. rewrite Hp. unfold aget at 1. destruct (Z.ltb_spec k 0); [lia|].
    rewrite list_lookup_insert_eq by lia. pose proof (cell_bounds _ _ _ _ Hx Hy) as Hb. unfold alen in Hlen.
    unfold aget. destruct (Z.ltb_spec (y * h_res g + x) 0); [lia|]. unfold blanks. apply lookup_replicate_2. lia.
Qed.

(** ** The three pages *)
Lemma displayed_page g : video_ok g -> exists k, 0 <= k < 3 /\ drawing_address g = VPage k /\
  page_address g = VPage ((k + 1) mod 3) /\ third_address g = VPage ((k + 2) mod 3) /\
  displayed g = aget (vmem g) k /\ display_start g = k * v_res g.
Proof.
  intros [(_ & Hh & _) (k & Hk & Hd & Hp & Ht & Hsd & _) Hs _ _]. exists k.
  split; [done|]. split; [done|]. split; [done|]. split; [done|]. rewrite <- Hsd, <- Hs. split; [|done].
  unfold displayed. rewrite Hs, Hsd, Z.mod_mul, Z.div_mul by lia. done.
Qed.

(** Drawing does not change what is displayed. *)
Lemma draws_displayed g g' : video_ok g -> draws g g' -> displayed g' = displayed g.
Proof.
  intros Hok Hd. destruct (displayed_page g Hok) as (k & Hk & _ & Hp & _ & Hdisp & _).
  destruct (displayed_page g' (draws_ok _ _ Hok Hd)) as (k' & Hk' & _ & Hp' & _ & Hdisp' & _).
  destruct Hd as [[m Em] Hlen Hpg]. rewrite Hdisp', Hdisp.
  assert (k' = k) as ->.
  { rewrite Em in Hp'. cbn in Hp'. change (page_address (g <| vmem := m |>)) with (page_address g) in Hp'.
    rewrite Hp in Hp'. injection Hp' as Hp'.
    assert (k = 0 \/ k = 1 \/ k = 2) as [-> | [-> | ->]] by lia;
      assert (k' = 0 \/ k' = 1 \/ k' = 2) as [-> | [-> | ->]] by lia; first [reflexivity|discriminate Hp']. }
  destruct (aget (vmem g') k) as [c'|] eqn:E.
  - destruct (Hpg k c' E) as (c & Hc & _ & Hsame). rewrite Hc, Hsame; [done|]. rewrite Hp. intros [= E2].
    assert (k = 0 \/ k = 1 \/ k = 2) as [-> | [-> | ->]] by lia; discriminate E2.
  - symmetry. destruct (aget (vmem g) k) eqn:E2; [|done].
    apply aget_Some_range in E2. rewrite <- Hlen in E2. apply aget_is_Some in E2. rewrite E in E2. by destruct E2.
Qed.

Lemma page_not_displayed g : video_ok g ->
  exists k, page_address g = VPage k /\ display_start g <> k * v_res g.
Proof.
  intros Hok. destruct (displayed_page g Hok) as (j & Hj & _ & Hpj & _ & _ & Hsj).
  destruct (vo_res g Hok) as (_ & Hh & _). exists ((j + 1) mod 3). split; [done|]. rewrite Hsj.
  intros E. apply Z.mul_cancel_r in E; [|lia]. revert E.
  assert (j = 0 \/ j = 1 \/ j = 2) as [-> | [-> | ->]] by lia; discriminate.
Qed.

(** What a flip that succeeds does. *)
Definition flipped (g : graphics_data) : graphics_data :=
  g <| display_start := u16 (physical_page_scanline g) |>
    <| page_address := third_address g |> <| third_address := drawing_address g |>
    <| drawing_address := page_address g |>
    <| physical_page_scanline := physical_third_scanline g |>
    <| physical_third_scanline := physical_drawing_scanline g |>
    <| physical_drawing_scanline := physical_page_scanline g |>.
Lemma flipped_ok g : video_ok g -> video_ok (flipped g) /\ displayed (flipped g) = drawn g.
Proof.
  intros [(Hw & Hh & Hh3 & Hwh) (k & Hk & Hda & Hpa & Hta & Hsd & Hsp & Hst) Hs Hv Hl].
  assert (0 <= (k + 1) mod 3 < 3 /\ (((k + 1) mod 3) + 1) mod 3 = (k + 2) mod 3 /\
    (((k + 1) mod 3) + 2) mod 3 = k) as (Hb & E1 & E2).
  { assert (k = 0 \/ k = 1 \/ k = 2) as [-> | [-> | ->]] by lia; (split; [split; [discriminate|reflexivity]|split; reflexivity]). }
  assert (u16 (physical_page_scanline g) = physical_page_scanline g) as Eu by (apply wrap_small; rewrite Hsp; nia).
  split.
  - split; [by split|exists ((k + 1) mod 3); rewrite E1, E2; by split|exact Eu|done|done].
  - unfold displayed, drawn. change (display_start (flipped g)) with (u16 (physical_page_scanline g)).
    change (v_res (flipped g)) with (v_res g). change (vmem (flipped g)) with (vmem g).
    by rewrite Eu, Hsp, Z.mod_mul, Z.div_mul, Hpa by lia.
Qed.

Lemma put_buffer_run g :
  put_buffer g = match calls g with
                 | [] => Done (OK, flipped g)
                 | true :: l => Done (OK, flipped (g <| calls := l |>))
                 | false :: l => Done (2, g <| calls := l |>)
                 end.
Proof.
  unfold put_buffer, page_flip, bind, gets, call. destruct (calls g) as [|[] l]; reflexivity.
Qed.

(** C30: triple buffering.  Whatever a frame draws, the card goes on showing
    the previous one, whole; [put_buffer] then shows the page just drawn and
    hands out the page shown two frames before, never the one displayed; and
    when the BIOS refuses, the picture, the page and its content stay as they
    are and the result is 2.  The screen stays usable either way. *)
Theorem triple_buffering g (frame : prog graphics_data unit) :
  video_ok g -> wp frame (fun _ => draws g) g ->
  wp (frame ;;; put_buffer) (fun r g' => video_ok g' /\
    (exists k, page_address g' = VPage k /\ display_start g' <> k * v_res g') /\
    exists g1, frame g = Done (tt, g1) /\ displayed g1 = displayed g /\
      match calls g with
      | false :: _ => r = 2 /\ displayed g' = displayed g /\ drawn g' = drawn g1
      | _ => r = OK /\ displayed g' = drawn g1 /\ page_address g' = third_address g
      end) g.
Proof.
  intros Hok Hframe. apply wp_Done in Hframe as ([] & g1 & Hrun & Hd). wp_step. eapply wp_Done_eq; [exact Hrun|].
  pose proof (draws_ok _ _ Hok Hd) as Hok1. pose proof (draws_displayed _ _ Hok Hd) as Hdisp.
  assert (calls g1 = calls g /\ third_address g1 = third_address g) as [Ec Et] by by destruct Hd as [[m ->] _ _].
  assert (forall l, video_ok (g1 <| calls := l |>)) as Hcalls by (intros l; by destruct Hok1).
  pose proof (put_buffer_run g1) as Hput. rewrite Ec in Hput. rewrite <- Et.
  destruct (calls g) as [|[] l]; (eapply wp_Done_eq; [exact Hput|]).
  - destruct (flipped_ok g1 Hok1). split; [done|]. split; [by apply page_not_displayed|]. by exists g1.
  - destruct (flipped_ok _ (Hcalls l)). split; [done|]. split; [by apply page_not_displayed|]. by exists g1.
  - split; [apply Hcalls|]. split; [by apply page_not_displayed|]. exists g1. by rewrite <- Hdisp.
Qed.

(** ** A frame's drawings *)
Inductive draw_cmd : Type :=
| DClear
| DRect (x y x_end y_end color : Z)
| DDarken (x y x_end y_end : Z) (factor : double)
| DBar (x y x_end y_end color : Z) (factor d : double)
| DSprite (pos : pair_t) (sp : sprite_t)
| DMask (pos : pair_t) (sp : sprite_t) (color : Z).
Definition run_cmd (c : draw_cmd) : prog graphics_data unit :=
  _ <- match c with
       | DClear => clear_screen
       | DRect x y x_end y_end color => draw_rect x y x_end y_end color
       | DDarken x y x_end y_end factor => darken_rect x y x_end y_end factor
       | DBar x y x_end y_end color factor d => draw_darken_rect x y x_end y_end color factor d
       | DSprite pos sp => draw_sprite pos sp
       | DMask pos sp color => draw_sprite_color_mask pos sp color
       end ;;
  ret tt.
(** Rectangles and bars are on the screen, darkened areas anywhere. *)
Definition cmd_ok (w h : Z) (c : draw_cmd) : Prop :=
  match c with
  | DClear => True
  | DRect x y x_end y_end _ => 0 <= x <= x_end /\ x_end <= w /\ 0 <= y <= y_end /\ y_end <= h
  | DDarken x y x_end y_end factor =>
      darkens factor = true /\ 0 <= x <= x_end /\ x_end < 65536 /\ 0 <= y <= y_end /\ y_end < 65536
  | DBar x y x_end y_end _ factor _ =>
      darkens factor = true /\ 0 <= x <= x_end /\ x_end <= w /\ 0 <= y <= y_end /\ y_end <= h
  | DSprite pos sp | DMask pos sp _ =>
      sprite_ok sp /\ - 2 ^ 31 <= px pos < 2 ^ 31 /\ - 2 ^ 31 <= py pos < 2 ^ 31
  end.

Lemma run_cmd_draws g c : video_ok g -> cmd_ok (h_res g) (v_res g) c -> wp (run_cmd c) (fun _ => draws g) g.
Proof.
  intros Hok Hc. unfold run_cmd. wp_step.
  assert (forall (m : prog graphics_data Z) f, wp m (fun _ => paints f g) g ->
    wp m (fun _ => wp (ret tt) (fun _ => draws g)) g) as H.
  { intros m f Hm. eapply wp_mono; [exact Hm|]. by intros ? g' [Hd _]. }
  assert (forall sp paint x0 y0, sprite_ok sp -> 0 <= x0 < 2 ^ 32 -> 0 <= y0 < 2 ^ 32 ->
    wp (blit sp paint x0 y0) (fun _ => wp (ret tt) (fun _ => draws g)) g) as Hblit.
  { intros sp paint x0 y0 Hsp Hx0 Hy0. eapply wp_mono; [by apply blit_spec|]. by intros ? g' [_ [Hd _]]. }
  destruct c; cbn [cmd_ok] in Hc.
  - eapply wp_mono; [by apply clear_screen_spec|]. by intros ? g' [_ [Hd _]].
  - eapply H, draw_rect_spec; tauto.
  - eapply H, darken_rect_spec; tauto.
  - destruct Hc as (Hf & Hc). destruct (darken_defined color factor Hf) as [c' Hc'].
    eapply H, draw_darken_rect_spec; [done|exact Hc'|tauto..].
  - apply Hblit; [tauto|by apply wrap_range..].
  - apply Hblit; [tauto|by apply wrap_range..].
Qed.

(** C32: drawing is well typed.  Any sequence of drawings with rectangles and
    bars inside the screen, and sprites and darkened areas anywhere (the factor
    must darken: [darkens]), no scaled sprites and no walls, runs
    without an access outside the page or a texture, leaves the screen
    usable, every page of its size, and changes only the page being drawn:
    what is displayed stays. *)
Theorem drawings_stay_on_page g cmds :
  video_ok g -> Forall (cmd_ok (h_res g) (v_res g)) cmds ->
  wp (for_each cmds run_cmd) (fun _ g' => video_ok g' /\ draws g g' /\ displayed g' = displayed g) g.
Proof.
  intros Hok Hcmds. apply (wp_for_each _ _ (fun l g1 => draws g g1 /\ Forall (cmd_ok (h_res g) (v_res g)) l)).
  - intros c l g1 [Hd Hl]. apply Forall_cons in Hl as [Hc Hl]. pose proof (draws_ok _ _ Hok Hd) as Hok1.
    eapply wp_mono; [apply (run_cmd_draws g1 c Hok1); by destruct Hd as [[m ->] _ _]|].
    intros ? g2 Hd2. split; [by eapply draws_trans|done].
  - intros g' [Hd _]. split; [by eapply draws_ok|]. split; [done|]. by apply draws_displayed.
  - split; [apply draws_refl|done].
Qed.

(** ** Setting the mode *)
Section Init.
Context (mode_info : Z -> vbe_mode_info_t) (old_memory : Z -> list Z) (mode : Z).
Context (Hres : 0 < XResolution (mode_info mode) < 65536 /\ 0 < YResolution (mode_info mode) /\
                3 * YResolution (mode_info mode) < 65536 /\
                4 * (XResolution (mode_info mode) * YResolution (mode_info mode)) < 2 ^ 31).
Context (Hbpp : BitsPerPixel (mode_info mode) = 32).
Context (Hmem : forall n, 0 <= n -> alen (old_memory n) = n).
Implicit Types g : graphics_data.

(** What [vg_init] answers, when it does. *)
Definition answer (o : outcome (vg_result * graphics_data)) : option vg_result :=
  match o with Done (r, _) => Some r | _ => None end.
(** The screen [vg_init] leaves. *)
Record ready_screen (g' : graphics_data) : Prop := mk_ready {
  rs_ok : video_ok g';
  rs_res : h_res g' = XResolution (mode_info mode) /\ v_res g' = YResolution (mode_info mode);
  rs_shown : display_start g' = 0;
  rs_blank : forall c, c ∈ vmem g' -> Forall (eq 0) c;
}.

Lemma mode_cells : Z.quot (get_mem_size (mode_info mode)) 4 = XResolution (mode_info mode) * YResolution (mode_info mode).
Proof.
  destruct Hres as (Hx & Hy & Hy3 & Hxy). unfold get_mem_size. rewrite Hbpp. change (ceil_to_bytes 32) with 4.
  rewrite (wrap_small 32) by nia. by rewrite Z.quot_mul by lia.
Qed.

(** The end of [vg_init], once the three pages are mapped and the mode set. *)
Lemma ready_screen_made (cs : list bool) :
  let x := XResolution (mode_info mode) in let y := YResolution (mode_info mode) in
  let zeros := replicate (Z.to_nat (x * y)) 0 in
  ready_screen (mk_graphics (VPage 0) x y 4 32 (VPage 0) (VPage 1) (VPage 2) (Live (replicate (Z.to_nat x) zero_line))
    0 y (u32 (y * 2)) [zeros; zeros; zeros] 0 cs).
Proof.
  destruct Hres as (Hx & Hy & Hy3 & Hxy). intros x y zeros.
  assert (alen zeros = x * y) as Hz by (unfold zeros, alen; rewrite length_replicate; lia).
  split; [split; cbn|done|done|].
  - fold x y in Hx, Hy, Hy3, Hxy. lia.
  - exists 0. fold x y in Hy, Hy3. rewrite (wrap_small 32) by lia.
    change ((0 + 1) mod 3) with 1. change ((0 + 2) mod 3) with 2. repeat split; lia.
  - done.
  - split; [done|]. by repeat constructor.
  - eexists. split; [reflexivity|]. unfold alen. rewrite length_replicate. lia.
  - cbn. intros c Hc. assert (c = zeros) as -> by (rewrite !elem_of_cons, elem_of_nil in Hc; tauto).
    unfold zeros. apply Forall_replicate. done.
Qed.

Lemma vg_init_success g (b7 b8 : bool) l : b7 || b8 = true ->
  calls g = [true; true; true; true; true; true; true; b7; b8] ++ l ->
  exists g', vg_init mode_info old_memory mode g = Done (VgOk (VPage 0), g') /\ ready_screen g'.
Proof.
  intros Hb Hc. pose proof mode_cells as Hcells. destruct Hres as (Hx & Hy & _ & Hxy).
  assert (length (old_memory (Z.quot (get_mem_size (mode_info mode)) 4)) =
    Z.to_nat (XResolution (mode_info mode) * YResolution (mode_info mode))) as Hlen.
  { rewrite Hcells. pose proof (Hmem (XResolution (mode_info mode) * YResolution (mode_info mode)) ltac:(nia)) as E.
    unfold alen in E. lia. }
  set (cells := old_memory (Z.quot (get_mem_size (mode_info mode)) 4)) in *.
  set (x := XResolution (mode_info mode)) in *. set (y := YResolution (mode_info mode)) in *.
  set (zeros := replicate (length cells) 0).
  exists (mk_graphics (VPage 0) x y (ceil_to_bytes (BitsPerPixel (mode_info mode))) (BitsPerPixel (mode_info mode))
    (VPage 0) (VPage 1) (VPage 2) (Live (replicate (Z.to_nat x) zero_line)) 0 y (u32 (y * 2)) [zeros; zeros; zeros] 0
    (if b7 then b8 :: l else l)). split.
  - destruct g as [g1 g2 g3 g4 g5 g6 g7 g8 g9 g10 g11 g12 g13 g14 cs]. cbn in Hc. subst cs.
    destruct b7; [reflexivity|]. destruct b8; [reflexivity|discriminate].
  - unfold zeros. rewrite Hlen, Hbpp. apply ready_screen_made.
Qed.

(** Setting the mode, for every pattern of failures outside the program.
    Without the mode's information, the BIOS call or (twice) the memory for
    the columns, [vg_init] returns [NULL]; without the privilege or one of
    the first two mappings it panics; when everything succeeds the screen is
    black and ready, with the first page displayed.  The third mapping is not
    checked (the test names [video_mem2] again): when it fails, [vg_init]
    clears a page at [MAP_FAILED]. *)
Lemma vg_init_outcome g b0 b1 b2 b3 b4 b5 b6 b7 b8 l :
  calls g = [b0; b1; b2; b3; b4; b5; b6; b7; b8] ++ l ->
  let run := vg_init mode_info old_memory mode g in
  if negb (b0 && b1) then answer run = Some VgNull
  else if negb (b2 && b3 && b4) then answer run = Some VgPanic
  else if negb b6 then answer run = Some VgNull
  else if negb b5 then run = Undef
  else if negb (b7 || b8) then answer run = Some VgNull
  else exists g', run = Done (VgOk (VPage 0), g') /\ ready_screen g'.
Proof.
  intros Hc run. destruct (b0 && b1 && (b2 && b3 && b4) && b5 && b6 && (b7 || b8)) eqn:Eall.
  - destruct b0, b1, b2, b3, b4, b5, b6; try discriminate Eall. cbn [negb andb] in *. rewrite Eall. cbn [negb].
    by eapply vg_init_success.
  - destruct g as [g1 g2 g3 g4 g5 g6 g7 g8 g9 g10 g11 g12 g13 g14 cs]. cbn in Hc. subst cs. unfold run. clear run.
    destruct b0; [|reflexivity]. destruct b1; [|reflexivity]. destruct b2; [|reflexivity]. destruct b3; [|reflexivity].
    destruct b4; [|reflexivity]. destruct b6; [|by destruct b5]. destruct b5; [|reflexivity].
    destruct b7; [discriminate Eall|]. destruct b8; [discriminate Eall|]. reflexivity.
Qed.
End Init.

(** *** A small screen *)
Definition small_mode (mode : Z) : vbe_mode_info_t := mk_mode_info 4 3 32.
Definition no_screen (calls : list bool) : graphics_data :=
  mk_graphics VNull 0 0 0 0 VNull VNull VNull Null 0 0 0 [] 0 calls.
Definition noise (n : Z) : list Z := replicate (Z.to_nat n) 7.
Definition zeros12 : list Z := replicate 12 0.
Definition small_screen (calls : list bool) : graphics_data :=
  mk_graphics (VPage 0) 4 3 4 32 (VPage 0) (VPage 1) (VPage 2) (Live (replicate 4 zero_line))
    0 3 6 [zeros12; zeros12; zeros12] 0 calls.
Definition dot : sprite_t := mk_sprite (mk_coord 0 0) (mk_coord 2 2) 9 0 0 [5; 9; 6; 6].

Lemma small_ok cs : video_ok (small_screen cs).
Proof.
  split; cbn.
  - lia.
  - exists 0. repeat split; lia.
  - done.
  - split; [done|]. by repeat constructor.
  - by eexists.
Qed.
Lemma dot_ok : sprite_ok dot.
Proof. split; cbn; unfold alen; cbn; lia. Qed.

Lemma draw_sprite_clips_witness :
  exists g', draw_sprite (mk_pair 3 1) dot (small_screen []) = Done (OK, g') /\ pixel g' 3 1 = Some 5 /\ pixel g' 3 2 = Some 0.
Proof.
  destruct (draw_sprite_clips (small_screen []) (mk_pair 3 1) dot 1 (small_ok []) dot_ok) as [H _]; [cbn; lia..|].
  apply (proj1 (wp_Done _ _ _)) in H as (r & g' & E & -> & [_ Hp]). exists g'. split; [exact E|]. split.
  - rewrite Hp by (split; cbn; lia). reflexivity.
  - rewrite Hp by (split; cbn; lia). reflexivity.
Defined.

Lemma triple_buffering_witness :
  exists g', (run_cmd (DRect 0 0 1 1 8) ;;; put_buffer) (small_screen []) = Done (OK, g') /\
    displayed g' = Some (8 :: replicate 11 0) /\ page_address g' = VPage 2.
Proof.
  pose proof (triple_buffering (small_screen []) (run_cmd (DRect 0 0 1 1 8)) (small_ok [])
    (run_cmd_draws (small_screen []) (DRect 0 0 1 1 8) (small_ok []) ltac:(cbn; lia))) as H.
  apply (proj1 (wp_Done _ _ _)) in H as (r & g' & E & _ & _ & g1 & E1 & _ & -> & Hd & Hp).
  exists g'. split; [exact E|]. split; [|exact Hp]. rewrite Hd. vm_compute in E1. injection E1 as <-. reflexivity.
Defined.

Lemma drawings_stay_on_page_witness :
  exists g', for_each [DClear; DRect 1 1 4 3 5; DSprite (mk_pair (-1) 0) dot; DDarken 0 0 9 9 (dlit 1 2)] run_cmd
    (small_screen []) = Done (tt, g') /\ displayed g' = Some zeros12.
Proof.
  pose proof (drawings_stay_on_page (small_screen [])
    [DClear; DRect 1 1 4 3 5; DSprite (mk_pair (-1) 0) dot; DDarken 0 0 9 9 (dlit 1 2)] (small_ok [])) as H.
  assert (Forall (cmd_ok (h_res (small_screen [])) (v_res (small_screen [])))
    [DClear; DRect 1 1 4 3 5; DSprite (mk_pair (-1) 0) dot; DDarken 0 0 9 9 (dlit 1 2)]) as Hc.
  { constructor; [exact I|]. constructor; [cbn; lia|]. constructor; [split; [exact dot_ok|cbn; lia]|].
    constructor; [split; [vm_compute; reflexivity|lia]|constructor]. }
  apply H, (proj1 (wp_Done _ _ _)) in Hc as ([] & g' & E & _ & _ & Hd). exists g'. split; [exact E|exact Hd].
Defined.

Lemma vg_init_outcome_at :
  vg_init small_mode noise 332 (no_screen [true; true; true; true; true; false; true; true; true]) = Undef /\
  exists g', vg_init small_mode noise 332 (no_screen [true; true; true; true; true; true; true; false; true]) =
    Done (VgOk (VPage 0), g') /\ displayed g' = Some zeros12.
Proof.
  assert (forall n, 0 <= n -> alen (noise n) = n) as Hn by (intros n Hn; unfold alen, noise; rewrite length_replicate; lia).
  assert (0 < XResolution (small_mode 332) < 65536 /\ 0 < YResolution (small_mode 332) /\
    3 * YResolution (small_mode 332) < 65536 /\
    4 * (XResolution (small_mode 332) * YResolution (small_mode 332)) < 2 ^ 31) as Hr by (cbn; lia).
  split.
  - exact (vg_init_outcome small_mode noise 332 Hr eq_refl Hn
      (no_screen [true; true; true; true; true; false; true; true; true])
      true true true true true false true true true [] eq_refl).
  - destruct (vg_init_outcome small_mode noise 332 Hr eq_refl Hn
      (no_screen [true; true; true; true; true; true; true; false; true])
      true true true true true true true false true [] eq_refl) as (g' & E & _).
    exists g'. split; [exact E|]. vm_compute in E. injection E as <-. reflexivity.
Defined.
