(* ===== verification/Enemies.v ===== *)
(** * Enemies

    The controllers that move the bots,
    [src/proj/system/ai/enemy_controller.c]: what a bot sees, the destination
    it walks to, and the table of controllers with its allocation. *)

From Stdlib Require Import Floats.SpecFloat.
From S2P Require Import Prelude Doubles MapFile Utils Guns Controls Players Pickups Battle.

(** ** Data of [enemy_controller.h]

    [positions] is the number of the block behind the pointer, [None] when it
    was never assigned; [curr_dest] is [None] until it is first assigned. *)
Record enemy_ctrl_t : Type := mk_ctrl {
  random : bool;
  positions : option nat;
  curr_idx : Z;
  curr_dest : option vector_t;
  num_positions : Z;
  last_op : Z;
  timeout_movm : Z;
  e_range : double;
  fov : double;
  c_player : who;
}.
#[global] Instance eta_ctrl : Eta enemy_ctrl_t := fun c =>
  mk_ctrl (random c) (positions c) (curr_idx c) (curr_dest c) (num_positions c) (last_op c)
    (timeout_movm c) (e_range c) (fov c) (c_player c).

(** The statics of the file, the world, and the state of [rand]; [pos_blocks]
    are the blocks of positions allocated so far, freed or not, and [allocs]
    says which of the coming calls of [malloc] and [realloc] succeed. *)
Record ai (R : Type) : Type := mk_ai {
  ai_world : world;
  controllers : ptr (list enemy_ctrl_t);
  num_controllers : Z;
  pos_blocks : list (ptr (list vector_t));
  seed : R;
  allocs : list bool;
}.
Arguments mk_ai {R}.
Arguments ai_world {R}.
Arguments controllers {R}.
Arguments num_controllers {R}.
Arguments pos_blocks {R}.
Arguments seed {R}.
Arguments allocs {R}.
#[global] Instance eta_ai {R} : Eta (ai R) := fun a =>
  mk_ai (ai_world a) (controllers a) (num_controllers a) (pos_blocks a) (seed a) (allocs a).

(** [controllers[i].positions] as an array: reading a freed one is undefined. *)
Definition patrol_of (blocks : list (ptr (list vector_t))) (c : enemy_ctrl_t) : option (list vector_t) :=
  i ← positions c; b ← blocks !! i; deref b.

(** [rand] of the C library. *)
Class Rand (R : Type) : Type := { next_rand : R -> Z * R }.

Section Enemies.
Context {R : Type} `{!Rand R} {LM : Libm}.

Definition in_world {A} (m : prog world A) : prog (ai R) A :=
  zoom ai_world (fun w a => a <| ai_world := w |>) m.
Definition rand : prog (ai R) Z := fun a =>
  let '(z, r) := next_rand (seed a) in Done (z, a <| seed := r |>).
Definition alloc : prog (ai R) bool := fun a =>
  match allocs a with [] => Done (true, a) | b :: l => Done (b, a <| allocs := l |>) end.

(** ** The table of controllers *)

(** The first [n] of [pos]; reading past them is undefined. *)
Definition copy_positions (n : Z) (pos : list vector_t) : option (list vector_t) :=
  if alen pos <? n then None else Some (take (Z.to_nat n) pos).

(** A new block, filled with them. *)
Definition new_positions (n : Z) (pos : list vector_t) : prog (ai R) (option nat) :=
  l <- defined (copy_positions n pos) ;;
  i <- gets (fun a => length (pos_blocks a)) ;;
  modify (fun a => a <| pos_blocks ::= (fun bs => bs ++ [Live l]) |>) ;;;
  ret (Some i).

Definition init_enemy (enemy : who) (rnd : bool) (timeout_move : Z) (e_fov range : double)
    (num : Z) (pos : list vector_t) : prog (ai R) unit :=
  n <- gets num_controllers ;;
  ok <- alloc ;;
  old <- (if n =? 0 then ret [] else (p <- gets controllers ;; defined (deref p))) ;;
  in_world (update_player enemy (fun e => Some (e <| p_movm ::= (fun c => c <| lb_single_tap := false |>) |>))) ;;;
  block <- (if negb (num =? 0) then
              ok <- alloc ;;
              if (ok : bool) then new_positions num pos else undef
            else ret None) ;;
  if negb ok then undef else
  (modify (fun a => a <| controllers := Live (old ++ [mk_ctrl rnd block (-1) None (u8 num) 0 timeout_move
                                                       range e_fov enemy]) |>
                      <| num_controllers := i32 (n + 1) |>)).

(** [free(controllers[i].positions)] *)
Definition free_positions (c : enemy_ctrl_t) : prog (ai R) unit :=
  i <- defined (positions c) ;;
  bs <- gets pos_blocks ;;
  b <- defined (bs !! i) ;;
  b <- defined (free_ptr b) ;;
  modify (fun a => a <| pos_blocks := <[i := b]> bs |>).

(** Every block of positions is freed, then the table. *)
Definition free_controllers : prog (ai R) unit :=
  n <- gets num_controllers ;;
  p <- gets controllers ;;
  (if 0 <? n then
     cs <- defined (deref p) ;;
     cs <- defined (if alen cs <? n then None else Some (take (Z.to_nat n) cs)) ;;
     for_each cs (fun c => if negb (num_positions c =? 0) then free_positions c else ret tt)
   else ret tt) ;;;
  _ <- defined (free_ptr p) ;;
  modify (fun a => a <| controllers := Null |> <| num_controllers := 0 |>).

(** ** A bot's tick *)

(** What a bot sees: whether it follows the player, the angle to the player
    (0 when the player is out of range) and the distance. *)
Definition look (m : map_t) (c : enemy_ctrl_t) (e ply : player_info_t) : outcome (bool * double * double) :=
  let dir_to_player := mk_vec (dsub (vx (position ply)) (vx (position e)))
                              (dsub (vy (position ply)) (vy (position e))) in
  let dists := vec_mag dir_to_player in
  if dle dists (e_range c) then
    let player_ang := degree dir_to_player (direction e) in
    match shoot_ray m (position e) (direction e) zero_ray_hit (e_range c) with
    | Done h =>
        let in_sight := (negb (hit h =? 0) && dgt (dmul (distance h) (vec_mag (direction e))) dists) ||
                        (hit h =? 0) in
        Done (in_sight && dle (abs_double player_ang) (fov c), player_ang, dists)
    | Undef => Undef
    | OutOfFuel => OutOfFuel
    end
  else Done (false, d0, dists).

(** [abs(x) < 0.5]: the argument of [abs] is converted to [int]. *)
Definition int_abs_below_half (x : double) : option bool :=
  match dto_int x with
  | Some i => if i =? INT_MIN then None else Some (dlt (dint (Z.abs i)) (dlit 5 10))
  | None => None
  end.
Definition reached (c : enemy_ctrl_t) (e : player_info_t) : option bool :=
  if curr_idx c =? -1 then Some true else
  match curr_dest c with
  | None => None
  | Some d =>
      match int_abs_below_half (dsub (vx (position e)) (vx d)) with
      | Some true => int_abs_below_half (dsub (vy (position e)) (vy d))
      | o => o
      end
  end.

(** [x % n], undefined for 0. *)
Definition c_rem (x n : Z) : option Z := if n =? 0 then None else Some (Z.rem x n).

(** The next destination. *)
Definition retarget (m : map_t) (t : Z) (follow due : bool) (ply : player_info_t) (c : enemy_ctrl_t) :
    prog (ai R) enemy_ctrl_t :=
  if negb follow && due then
    let c := c <| last_op := t |> in
    if random c then
      r <- rand ;;
      x <- defined (c_rem r (columns m)) ;;
      r <- rand ;;
      y <- defined (c_rem r (lines m)) ;;
      ret (c <| curr_dest := Some (mk_vec (dint x) (dint y)) |> <| curr_idx := 0 |>)
    else
      idx <- defined (c_rem (i32 (curr_idx c + 1)) (num_positions c)) ;;
      bs <- gets pos_blocks ;;
      block <- defined (patrol_of bs c) ;;
      d <- defined (aget block idx) ;;
      ret (c <| curr_idx := idx |> <| curr_dest := Some d |>)
  else if follow then ret (c <| curr_dest := Some (position ply) |> <| curr_idx := -1 |>)
  else ret c.

(** [mov_x] and [mov_y] of the bot's controls. *)
Definition set_movement_x (x : double) (e : player_info_t) : player_info_t :=
  e <| p_movm ::= (fun c => c <| movement ::= (fun v => v <| vx := x |>) |>) |>.
Definition set_movement_y (y : double) (e : player_info_t) : player_info_t :=
  e <| p_movm ::= (fun c => c <| movement ::= (fun v => v <| vy := y |>) |>) |>.
Definition set_trigger (b : bool) (e : player_info_t) : player_info_t :=
  e <| p_movm ::= (fun c => c <| lb_held_down := b |>) |>.

(** Where the bot turns when it does not shoot. *)
Definition steer (ang_diff : double) (new_dir dir : vector_t) : vector_t :=
  normalize (if dle (abs_double ang_diff) (dint 10) then new_dir
             else if dgt ang_diff d0 then rotate_vec dir (dint (-5))
             else rotate_vec dir (dint 5)).

(** Turning, walking, shooting. *)
Definition act (follow : bool) (player_ang dists : double) (dest : vector_t) (e : player_info_t) :
    prog (ai R) player_info_t :=
  let new_dir := normalize (mk_vec (dsub (vx dest) (vx (position e))) (dsub (vy dest) (vy (position e)))) in
  let ang_diff := degree new_dir (direction e) in
  close <- defined (if dle player_ang (dint 5) then
                      match gun_in_hand e with
                      | Some gi => Some (dlt dists (dsub (g_range (gi_gun gi)) (dlit 5 10)) && follow)
                      | None => None
                      end
                    else Some false) ;;
  if (close : bool) then
    r <- rand ;;
    ret (set_trigger (Z.rem r 2 =? 0) (set_movement_x d0 (e <| direction := new_dir |>)))
  else
    let e := e <| direction ::= steer ang_diff new_dir |> in
    r <- rand ;;
    ret (set_trigger false (set_movement_y d0 (set_movement_x (if 0 <? Z.rem r 25 then dint 1 else d0) e))).

(** [handle_enemy(enm)]: the result and the controller it leaves. *)
Definition handle_enemy (c : enemy_ctrl_t) : prog (ai R) (Z * enemy_ctrl_t) :=
  e <- in_world (load_player (c_player c)) ;;
  if health e <=? 0 then
    (in_world (update_player (c_player c) (fun e => Some (set_movement_x d0 (set_trigger false e)))) ;;;
     ret (1, c))
  else
    (w <- gets ai_world ;;
     seen <- (match look (w_map w) c e (w_player w) with
              | Done s => ret s
              | Undef => undef
              | OutOfFuel => fun _ => OutOfFuel
              end) ;;
     let '(follow, player_ang, dists) := seen in
     arrived <- defined (reached c e) ;;
     let t := time_counter w in
     c <- retarget (w_map w) t follow ((i64 (last_op c + timeout_movm c) <=? t) || arrived) (w_player w) c ;;
     dest <- defined (curr_dest c) ;;
     e <- act follow player_ang dists dest e ;;
     in_world (store_player (c_player c) e) ;;;
     ret (OK, c)).

(** [for(i < num_controllers) handle_enemy(&controllers[i])] *)
Definition handle_enemies : prog (ai R) unit :=
  n <- gets num_controllers ;;
  for_each (seqZ 0 n) (fun i =>
    p <- gets controllers ;;
    cs <- defined (deref p) ;;
    c <- defined (aget cs i) ;;
    '(_, c) <- handle_enemy c ;;
    p <- gets controllers ;;
    cs <- defined (deref p) ;;
    cs <- defined (aset cs i c) ;;
    modify (fun a => a <| controllers := Live cs |>)).
End Enemies.

(** ** What a bot does *)

(** A controller whose destination, once it has one, is there, and whose
    patrol, if it has one, is a block of [num_positions] positions. *)
Record ctrl_ok (blocks : list (ptr (list vector_t))) (c : enemy_ctrl_t) : Prop := mk_ctrl_ok {
  co_patrol : random c = false ->
    exists l, patrol_of blocks c = Some l /\ alen l = num_positions c /\ 0 < num_positions c < 256;
  co_dest : curr_idx c = -1 \/ (0 <= curr_idx c < INT_MAX /\ is_Some (curr_dest c));
}.

(** The whole part of [x], where [abs] is defined on it. *)
Definition whole (x : double) (i : Z) : Prop := dto_int x = Some i /\ INT_MIN < i.

(** The destination is within an [int] of the bot, on both axes. *)
Definition near (e : player_info_t) (c : enemy_ctrl_t) : Prop :=
  curr_idx c <> -1 -> forall d, curr_dest c = Some d ->
    (exists i, whole (dsub (vx (position e)) (vx d)) i) /\
    (exists j, whole (dsub (vy (position e)) (vy d)) j).

(** The bot has no destination of its own, or is less than a whole cell from it
    on both axes. *)
Definition arrived_at (e : player_info_t) (c : enemy_ctrl_t) : Prop :=
  curr_idx c = -1 \/ exists d, curr_dest c = Some d /\
    whole (dsub (vx (position e)) (vx d)) 0 /\ whole (dsub (vy (position e)) (vy d)) 0.

Lemma int_abs_whole x i : whole x i -> int_abs_below_half x = Some (i =? 0).
Proof.
  intros [E Hi]. pose proof (dto_int_range _ _ E) as Hr. unfold int_abs_below_half. rewrite E.
  destruct (Z.eqb_spec i INT_MIN); [lia|]. by rewrite dint_below_half by (unfold INT_MIN, INT_MAX in *; lia).
Qed.

Lemma reached_defined blocks e c : ctrl_ok blocks c -> near e c ->
  exists arrived, reached c e = Some arrived /\ (arrived = true <-> arrived_at e c).
Proof.
  intros [_ Hd] Hn. unfold reached, arrived_at. destruct (Z.eqb_spec (curr_idx c) (-1)) as [|Hne].
  { exists true. split; [done|]. by split; [left|]. }
  destruct Hd as [?|[_ [d Hd]]]; [done|]. rewrite Hd. destruct (Hn Hne d Hd) as [[i Hi] [j Hj]].
  rewrite (int_abs_whole _ _ Hi), (int_abs_whole _ _ Hj).
  assert (forall x i k, whole x i -> whole x k -> i = k) as Huniq.
  { intros x k l [E1 _] [E2 _]. congruence. }
  destruct (Z.eqb_spec i 0) as [->|Hi0].
  - eexists. split; [reflexivity|]. split.
    + intros ->%Z.eqb_eq. right. by exists d.
    + intros [?|(d' & [= <-] & _ & Hj0)]; [done|]. apply Z.eqb_eq. by eapply Huniq.
  - exists false. split; [done|]. split; [done|]. intros [?|(d' & [= <-] & Hi' & _)]; [done|].
    by destruct Hi0; eapply Huniq.
Qed.

(** ** What a bot sees *)
Definition to_player (e ply : player_info_t) : vector_t :=
  mk_vec (dsub (vx (position ply)) (vx (position e))) (dsub (vy (position ply)) (vy (position e))).
(** The player is within the bot's range; the first wall ahead of the bot, if
    there is one within its range, is farther away than the player; the player
    is within the bot's field of view. *)
Definition sees {LM : Libm} (m : map_t) (c : enemy_ctrl_t) (e ply : player_info_t) : Prop :=
  dle (vec_mag (to_player e ply)) (e_range c) = true /\
  (exists wall, shoot_ray m (position e) (direction e) zero_ray_hit (e_range c) = Done wall /\
     (hit wall <> 0 -> dlt (vec_mag (to_player e ply)) (dmul (distance wall) (vec_mag (direction e))) = true)) /\
  dle (abs_double (degree (to_player e ply) (direction e))) (fov c) = true.

Lemma look_sees {LM : Libm} m c e ply wall :
  shoot_ray m (position e) (direction e) zero_ray_hit (e_range c) = Done wall ->
  exists follow ang, look m c e ply = Done (follow, ang, vec_mag (to_player e ply)) /\
    (follow = true <-> sees m c e ply).
Proof.
  intros Hw. unfold look, sees. fold (to_player e ply). destruct (dle (vec_mag (to_player e ply)) (e_range c)) eqn:Er.
  2: { eexists _, _. split; [reflexivity|]. split; [done|]. by intros [? _]. }
  rewrite Hw. eexists _, _. split; [reflexivity|]. rewrite andb_true_iff. unfold dgt.
  assert (negb (hit wall =? 0) && dlt (vec_mag (to_player e ply)) (dmul (distance wall) (vec_mag (direction e)))
    || (hit wall =? 0) = true <->
    (exists wall', Done wall = Done wall' /\ (hit wall' <> 0 ->
       dlt (vec_mag (to_player e ply)) (dmul (distance wall') (vec_mag (direction e))) = true))) as ->.
  { destruct (Z.eqb_spec (hit wall) 0) as [E|E]; cbn.
    - split; [|done]. intros _. by exists wall.
    - rewrite orb_false_r. split; [intros H; by exists wall|]. intros (w' & [= <-] & H). by apply H. }
  tauto.
Qed.

Lemma c_rem_some x n : n <> 0 -> c_rem x n = Some (Z.rem x n).
Proof. intros Hn. unfold c_rem. by destruct (Z.eqb_spec n 0). Qed.

(** What [act] may change: the direction, the walk and the trigger. *)
Record acted (follow : bool) (e e' : player_info_t) : Prop := mk_acted {
  at_same : exists dir mov trig, e' = e <| direction := dir |>
    <| p_movm ::= (fun c => c <| movement := mov |> <| lb_held_down := trig |>) |>;
  at_walk : vx (movement (p_movm e')) = d0 \/ vx (movement (p_movm e')) = dint 1;
  at_trigger : lb_held_down (p_movm e') = true -> follow = true;
}.

Section Decisions.
Context {R : Type} `{!Rand R} {LM : Libm}.
Hypothesis rand_range : forall r, 0 <= fst (next_rand r) <= INT_MAX.
Implicit Types s : ai R.

(** [rand] only moves its state. *)
Lemma wp_rand (Q : Z -> ai R -> Prop) s :
  (forall z r, 0 <= z <= INT_MAX -> Q z (s <| seed := r |>)) -> wp rand Q s.
Proof.
  intros HQ. pose proof (rand_range (seed s)) as H. unfold wp, rand.
  destruct (next_rand (seed s)) as [z r]. by apply HQ.
Qed.

(** Where the bot walks next. *)
Definition next_target (blocks : list (ptr (list vector_t))) (m : map_t) (t : Z) (follow due : bool)
    (ply : player_info_t) (c c' : enemy_ctrl_t) : Prop :=
  if follow then c' = c <| curr_dest := Some (position ply) |> <| curr_idx := -1 |>
  else if due then
    last_op c' = t /\ c' = c <| last_op := t |> <| curr_dest := curr_dest c' |> <| curr_idx := curr_idx c' |> /\
    if random c then curr_idx c' = 0 /\ exists x y, curr_dest c' = Some (mk_vec (dint x) (dint y)) /\
      0 <= x < columns m /\ 0 <= y < lines m
    else curr_idx c' = (curr_idx c + 1) mod num_positions c /\
      exists l, patrol_of blocks c = Some l /\ curr_dest c' = aget l (curr_idx c') /\ is_Some (curr_dest c')
  else c' = c.

Lemma retarget_spec m t follow due ply c s :
  ctrl_ok (pos_blocks s) c -> 0 < lines m < 65536 -> 0 < columns m < 65536 -> (curr_idx c = -1 -> due = true) ->
  wp (retarget m t follow due ply c) (fun c' s' =>
    (exists r, s' = s <| seed := r |>) /\ next_target (pos_blocks s) m t follow due ply c c' /\
    ctrl_ok (pos_blocks s) c' /\
    is_Some (curr_dest c')) s.
Proof.
  intros [Hpat Hdest] Hl Hc Hdue. unfold retarget, next_target.
  assert (exists r, s = s <| seed := r |>) as Hs by (exists (seed s); by destruct s).
  destruct follow; cbn [negb andb].
  { wp_step. split; [done|]. split; [done|]. split; [|done]. split; [exact Hpat|by left]. }
  destruct due.
  2: { wp_step. split; [done|]. split; [done|]. split; [by split|]. destruct Hdest as [H|[_ H]]; [by apply Hdue in H|done]. }
  cbn [random]. change (random (c <| last_op := t |>)) with (random c). destruct (random c) eqn:Er.
  - wp_step. apply wp_rand. intros x r Hx. wp_step. rewrite c_rem_some by lia. cbn [defined]. wp_steps.
    apply wp_rand. intros y r' Hy. rewrite c_rem_some by lia. cbn [defined]. wp_steps.
    split; [exists r'; by destruct s|]. cbn.
    pose proof (Z.rem_bound_pos x (columns m)). pose proof (Z.rem_bound_pos y (lines m)).
    split; [|split; [|done]].
    + split; [done|]. split; [by destruct c|]. split; [done|]. eexists _, _. split; [done|]. lia.
    + split; cbn; [congruence|]. right. split; [unfold INT_MAX; lia|done].
  - destruct (Hpat eq_refl) as (l & El & Hlen & Hn).
    assert (-1 <= curr_idx c < INT_MAX) as Hi by (destruct Hdest as [H|[H _]]; unfold INT_MAX in *; lia).
    rewrite (swrap_small 32) by (unfold INT_MAX in *; cbn; lia). rewrite c_rem_some by (cbn; lia). cbn [defined].
    wp_steps. cbn [num_positions].
    change (patrol_of (pos_blocks s) (c <| last_op := t |>)) with (patrol_of (pos_blocks s) c).
    change (num_positions (c <| last_op := t |>)) with (num_positions c).
    change (curr_idx (c <| last_op := t |>)) with (curr_idx c).
    rewrite El. cbn [defined]. wp_steps.
    rewrite Z.rem_mod_nonneg by lia. pose proof (Z.mod_pos_bound (curr_idx c + 1) (num_positions c)).
    destruct (proj2 (aget_is_Some l ((curr_idx c + 1) mod num_positions c))) as [d Hd]; [lia|].
    rewrite Hd. cbn [defined]. wp_steps. split; [done|]. cbn. split; [|split; [|done]].
    + split; [done|]. split; [by destruct c|]. split; [done|]. exists l. by rewrite Hd.
    + split; cbn; [intros _; by exists l|]. right. split; [unfold INT_MAX; lia|done].
Qed.

Lemma act_spec follow player_ang dists dest e s : is_Some (gun_in_hand e) ->
  wp (act follow player_ang dists dest e) (fun e' s' =>
    (exists r, s' = s <| seed := r |>) /\ acted follow e e') s.
Proof.
  intros [gi Hgi]. unfold act. rewrite Hgi. wp_step.
  assert (forall b, wp (if b : bool then
      r <- rand ;; ret (set_trigger (Z.rem r 2 =? 0) (set_movement_x d0 (e <| direction := normalize
        (mk_vec (dsub (vx dest) (vx (position e))) (dsub (vy dest) (vy (position e)))) |>)))
    else
      r <- rand ;; ret (set_trigger false (set_movement_y d0 (set_movement_x (if 0 <? Z.rem r 25 then dint 1 else d0)
        (e <| direction ::= steer (degree (normalize
        (mk_vec (dsub (vx dest) (vx (position e))) (dsub (vy dest) (vy (position e))))) (direction e)) (normalize
        (mk_vec (dsub (vx dest) (vx (position e))) (dsub (vy dest) (vy (position e))))) |>)))))
    (fun e' s' => (exists r, s' = s <| seed := r |>) /\ acted b e e') s) as H.
  { intros []; wp_step; apply wp_rand; intros z r Hz; wp_step; (split; [by exists r|]).
    - split; [eexists _, _, _; destruct e as [[]]; reflexivity|by left|done].
    - split; [eexists _, _, _; destruct e as [[]]; reflexivity| |done]. cbn. break_if; auto. }
  destruct (dle player_ang (dint 5)); cbn [defined]; wp_step.
  - eapply wp_mono; [exact (H (dlt dists (dsub (g_range (gi_gun gi)) (dlit 5 10)) && follow))|].
    intros e' s' [Hs [? ? Ht]]. split; [done|]. split; try done. intros Htr. specialize (Ht Htr). by destruct follow, (dlt _ _).
  - eapply wp_mono; [exact (H false)|]. intros e' s' [Hs [? ? Ht]]. split; [done|]. split; try done.
    intros Htr. by specialize (Ht Htr).
Qed.

(** A dead bot. *)
Lemma handle_dead c e s : find_player (c_player c) (ai_world s) = Some e -> health e <= 0 ->
  wp (handle_enemy c) (fun r s' => r = (1, c) /\ exists w', s' = s <| ai_world := w' |> /\
    replaced (c_player c) (set_movement_x d0 (set_trigger false e)) (ai_world s) w') s.
Proof.
  intros He Hh. unfold handle_enemy, in_world. do 2 wp_step. apply (wp_load_player _ _ _ _ He). cbn beta.
  destruct (Z.leb_spec (health e) 0); [|lia].
  do 2 wp_step. eapply wp_update_player; [exact He|reflexivity|]. intros w' Hrep. wp_step.
  split; [done|]. by exists w'.
Qed.

(** A living one. *)
Record decided (c : enemy_ctrl_t) (e : player_info_t) (s : ai R) (c' : enemy_ctrl_t) (s' : ai R) : Prop := mk_decided {
  dc_ctrl : ctrl_ok (pos_blocks s) c';
  dc_state : exists w' r, s' = s <| ai_world := w' |> <| seed := r |>;
  dc_bot : exists e' follow arrived,
    replaced (c_player c) e' (ai_world s) (ai_world s') /\ acted follow e e' /\
    (follow = true <-> sees (w_map (ai_world s)) c e (w_player (ai_world s))) /\
    (arrived = true <-> arrived_at e c) /\
    next_target (pos_blocks s) (w_map (ai_world s)) (time_counter (ai_world s)) follow
      ((i64 (last_op c + timeout_movm c) <=? time_counter (ai_world s)) || arrived) (w_player (ai_world s)) c c';
}.
Lemma handle_alive i c e s (w := ai_world s) : world_ok w -> 0 < lines (w_map w) -> 0 < columns (w_map w) ->
  c_player c = Enemy i -> find_player (c_player c) w = Some e -> ctrl_ok (pos_blocks s) c -> near e c -> 0 < health e ->
  wp (handle_enemy c) (fun '(r, c') s' => r = OK /\ decided c e s c' s') s.
Proof.
  intros Hok Hl Hc Hi He Hco Hnear Hh. pose proof (wo_fighters _ Hok _ _ He) as Hf. unfold handle_enemy, in_world.
  do 2 wp_step. apply (wp_load_player _ _ _ _ He). cbn beta.
  destruct (Z.leb_spec (health e) 0); [lia|].
  do 2 wp_step. change (ai_world (s <| ai_world := _ |>)) with w.
  destruct (shoot_ray_defined (w_map w) (position e) (direction e) zero_ray_hit (e_range c)) as [wall Hwall];
    [apply Hok|apply Hf|apply Hf|].
  destruct (look_sees _ c e (w_player w) _ Hwall) as (follow & ang & Hlook & Hsees).
  rewrite Hlook. do 3 wp_step. destruct (reached_defined _ e c Hco Hnear) as (arrived & Harr & Hat). rewrite Harr.
  cbn [defined]. do 2 wp_step. pose proof (wo_map _ Hok) as (Hlm & Hcm & _).
  eapply wp_mono; [apply (retarget_spec (w_map w)); [done|fold w in Hl; lia|fold w in Hc; lia|]|].
  { intros E. unfold reached in Harr. rewrite E in Harr. injection Harr as <-. apply orb_true_r. }
  intros c' s1 ((r1 & ->) & Hnext & Hco' & [d Hd]). rewrite Hd.
  assert (c_player c' = c_player c) as Hcp.
  { unfold next_target in Hnext. destruct follow; [by subst c'|].
    destruct (_ || arrived); [destruct Hnext as (_ & -> & _); done|by subst c']. }
  cbn [defined]. do 3 wp_step.
  eapply wp_mono; [apply act_spec|].
  { unfold gun_in_hand. apply aget_is_Some. apply Hf. }
  intros e' s2 ((r2 & ->) & Hact). do 2 wp_step.
  rewrite Hcp. destruct (store_player_spec (c_player c) e e' w He) as (w' & E & Hrep). eapply wp_Done_eq; [exact E|].
  wp_step. split; [done|]. split; [done|by exists w', r2|]. by exists e', follow, arrived.
Qed.

(** C28: a bot's decision, in a sound world with a map, for a controller whose
    patrol is there and whose destination, once it has one, is within an [int]
    of the bot on both axes, with [rand] from 0 to [INT_MAX].  A dead bot stops and releases the trigger.  A
    living one that [sees] the player (in range, no wall nearer straight
    ahead, within the field of view) goes for the player's position; one that
    does not, and has arrived (less than a whole cell away on both axes, or no
    destination of its own) or run out of time, takes its next destination: a
    cell of the map if it wanders, else the next position of its patrol, round
    and round; otherwise it keeps its destination.  Only its direction, walk
    and trigger change, it walks at 0 or 1, it pulls the trigger only when it
    sees the player, nobody else is touched, and no destination is used before
    it is set, no position past the patrol is read, nothing is divided by
    zero. *)
Theorem handle_enemy_decides i c e s :
  let w := ai_world s in
  world_ok w -> 0 < lines (w_map w) -> 0 < columns (w_map w) ->
  c_player c = Enemy i -> find_player (c_player c) w = Some e -> ctrl_ok (pos_blocks s) c -> near e c ->
  wp (handle_enemy c) (fun '(r, c') s' =>
    controllers s' = controllers s /\ pos_blocks s' = pos_blocks s /\ ctrl_ok (pos_blocks s') c' /\
    exists e', replaced (c_player c) e' w (ai_world s') /\
      if health e <=? 0 then r = 1 /\ c' = c /\ e' = set_movement_x d0 (set_trigger false e)
      else r = OK /\ exists follow arrived,
        (follow = true <-> sees (w_map w) c e (w_player w)) /\ (arrived = true <-> arrived_at e c) /\
        acted follow e e' /\
        next_target (pos_blocks s) (w_map w) (time_counter w) follow
          ((i64 (last_op c + timeout_movm c) <=? time_counter w) || arrived) (w_player w) c c') s.
Proof.
  intros w Hok Hl Hc Hi He Hco Hnear. destruct (Z.leb_spec (health e) 0) as [Hh|Hh].
  - eapply wp_mono; [by apply (handle_dead c e)|]. intros r s' (-> & w' & -> & Hrep). do 3 (split; [done|]).
    eexists. split; [exact Hrep|]. done.
  - eapply wp_mono; [by apply (handle_alive i c e)|].
    intros [r c'] s' [-> [Hco' (w' & r' & ->) (e' & follow & arr & Hrep & Hact & Hlk & Hre & Hnx)]].
    do 3 (split; [done|]). exists e'. split; [exact Hrep|]. split; [done|]. by exists follow, arr.
Qed.
End Decisions.

(** *** The table of controllers *)
Section Table.
Context {R : Type} `{!Rand R}.
Implicit Types s : ai R.

(** The blocks of positions the controllers own. *)
Definition owned (cs : list enemy_ctrl_t) : list nat :=
  omap (fun c => if num_positions c =? 0 then None else positions c) cs.
Definition posted (blocks : list (ptr (list vector_t))) (c : enemy_ctrl_t) : Prop :=
  ctrl_ok blocks c /\ (num_positions c <> 0 -> is_Some (patrol_of blocks c)).

(** [n] controllers, all in order, each with a block of positions of its own
    that was not freed. *)
Definition table_ok s (n : Z) : Prop :=
  num_controllers s = n /\ 0 <= n /\ allocs s = [] /\
  if n =? 0 then controllers s = Null
  else exists cs, controllers s = Live cs /\ alen cs = n /\ Forall (posted (pos_blocks s)) cs /\ NoDup (owned cs).

Lemma patrol_of_app blocks bs c l : patrol_of blocks c = Some l -> patrol_of (blocks ++ bs) c = Some l.
Proof.
  unfold patrol_of. destruct (positions c) as [i|]; [|done]. cbn.
  destruct (blocks !! i) as [b|] eqn:E; [|done]. by rewrite (lookup_app_l_Some _ _ _ _ E).
Qed.
Lemma posted_app blocks bs c : posted blocks c -> posted (blocks ++ bs) c.
Proof.
  intros [[Hp Hd] Hn]. split.
  - split; [|done]. intros Hr. destruct (Hp Hr) as (l & E & ?). exists l. split; [by apply patrol_of_app|done].
  - intros Hne. destruct (Hn Hne) as [l E]. exists l. by apply patrol_of_app.
Qed.
Lemma owned_range blocks cs : Forall (posted blocks) cs -> Forall (fun i => (i < length blocks)%nat) (owned cs).
Proof.
  intros Hcs. apply Forall_forall. intros i (c & Hc & Hi)%list_elem_of_omap.
  destruct (Z.eqb_spec (num_positions c) 0) as [|Hne]; [done|].
  destruct (proj1 (Forall_forall _ _) Hcs c Hc) as [_ Hn]. destruct (Hn Hne) as [l E].
  unfold patrol_of in E. rewrite Hi in E. cbn in E. destruct (blocks !! i) eqn:El; [|done].
  by eapply lookup_lt_Some.
Qed.

(** The table as a list. *)
Definition table_list s : list enemy_ctrl_t := default [] (deref (controllers s)).
Lemma table_ok_list s n : table_ok s n ->
  alen (table_list s) = n /\ Forall (posted (pos_blocks s)) (table_list s) /\ NoDup (owned (table_list s)) /\
  (n <> 0 -> deref (controllers s) = Some (table_list s)).
Proof.
  intros (Hn & Hp & Ha & H). unfold table_list. clear Hn Hp Ha. destruct (Z.eqb_spec n 0) as [E|Hne].
  - rewrite H. cbn. split_and!; [done|constructor|constructor|done].
  - by destruct H as (cs & -> & ? & ? & ?).
Qed.

(** The arguments of a call of [init_enemy]. *)
Record bot_spec : Type := mk_bot_spec {
  bs_enemy : Z; bs_random : bool; bs_timeout : Z; bs_fov : double; bs_range : double; bs_num : Z;
  bs_pos : list vector_t;
}.
Definition start_bot (b : bot_spec) : prog (ai R) unit :=
  init_enemy (Enemy (bs_enemy b)) (bs_random b) (bs_timeout b) (bs_fov b) (bs_range b) (bs_num b) (bs_pos b).
Record bot_ok s (b : bot_spec) : Prop := mk_bot_ok {
  bk_enemy : 0 <= bs_enemy b < alen (w_enemies (ai_world s));
  bk_num : 0 <= bs_num b < 256 /\ bs_num b <= alen (bs_pos b);
  bk_patrol : bs_random b = false -> 0 < bs_num b;
}.

(** The controller of a bot that has just been started. *)
Definition starts (blocks : list (ptr (list vector_t))) (b : bot_spec) (c : enemy_ctrl_t) : Prop :=
  c = mk_ctrl (bs_random b) (positions c) (-1) None (bs_num b) 0 (bs_timeout b) (bs_range b) (bs_fov b)
        (Enemy (bs_enemy b)) /\
  (bs_num b <> 0 -> patrol_of blocks c = Some (take (Z.to_nat (bs_num b)) (bs_pos b))).
(** The positions a start copies. *)
Definition copied (b : bot_spec) : option (list vector_t) :=
  if bs_num b =? 0 then None else Some (take (Z.to_nat (bs_num b)) (bs_pos b)).

Lemma start_bot_spec b s n : table_ok s n -> n < INT_MAX -> bot_ok s b ->
  wp (start_bot b) (fun _ s' => table_ok s' (n + 1) /\
    pos_blocks s' = pos_blocks s ++ (Live <$> option_list (copied b)) /\
    (exists c, table_list s' = table_list s ++ [c] /\ starts (pos_blocks s') b c /\
       owned [c] = (if bs_num b =? 0 then [] else [length (pos_blocks s)])) /\
    alen (w_enemies (ai_world s')) = alen (w_enemies (ai_world s)) /\
    exists e, aget (w_enemies (ai_world s)) (bs_enemy b) = Some e /\
      replaced (Enemy (bs_enemy b)) (e <| p_movm ::= (fun c => c <| lb_single_tap := false |>) |>)
        (ai_world s) (ai_world s')) s.
Proof.
  intros Htab Hmax [He [Hnum Hlen] Hpat]. pose proof Htab as (Hn & Hpos & Hal & _).
  destruct (table_ok_list s n Htab) as (Hlold & Hall & Hnd & Hder). set (old := table_list s) in *.
  unfold start_bot, init_enemy. do 3 wp_step. unfold wp at 1, alloc. rewrite Hal, Hn. wp_step.
  assert (forall Q : list enemy_ctrl_t -> ai R -> Prop, Q old s ->
    wp (if n =? 0 then ret [] else p <- gets controllers ;; defined (deref p)) Q s) as Hread.
  { intros Q HQ. destruct (Z.eqb_spec n 0) as [E|Hne].
    - destruct old; [done|]. rewrite alen_cons in Hlold. pose proof (alen_nonneg old). lia.
    - wp_steps. rewrite (Hder Hne). exact HQ. }
  apply Hread. clear Hread. unfold in_world. do 2 wp_step.
  destruct (proj2 (aget_is_Some (w_enemies (ai_world s)) (bs_enemy b)) He) as [e Hen].
  eapply (wp_update_player (Enemy (bs_enemy b)) _ e); [exact Hen|reflexivity|]. intros w' Hrep. cbn beta.
  assert (alen (w_enemies w') = alen (w_enemies (ai_world s))) as Hlw by (by eapply replaced_len).
  wp_step. rewrite (swrap_small 32) by (unfold INT_MAX in *; cbn; lia). rewrite (wrap_small 8) by lia.
  assert (forall c bs, posted (pos_blocks s ++ bs) c -> (forall i, i ∈ owned [c] -> i = length (pos_blocks s)) ->
    table_ok (mk_ai w' (Live (old ++ [c])) (n + 1) (pos_blocks s ++ bs) (seed s) []) (n + 1)) as Htable.
  { intros c bs Hc Hfresh. split; [done|]. split; [lia|]. split; [done|]. destruct (Z.eqb_spec (n + 1) 0); [lia|].
    eexists. split; [reflexivity|]. split; [unfold alen in *; rewrite length_app; cbn; lia|]. split.
    - apply Forall_app. split; [|by constructor]. eapply Forall_impl; [exact Hall|]. intros c'. apply posted_app.
    - unfold owned. rewrite omap_app. apply NoDup_app. split; [exact Hnd|]. split.
      + intros i Hi ->%Hfresh. pose proof (proj1 (Forall_forall _ _) (owned_range _ _ Hall) _ Hi). cbn in *. lia.
      + cbn. destruct (if _ : bool then _ else _); [apply NoDup_singleton|constructor]. }
  assert (s <| ai_world := w' |> = mk_ai w' (controllers s) (num_controllers s) (pos_blocks s) (seed s) []) as ->
    by (by rewrite <- Hal).
  unfold copied. destruct (Z.eqb_spec (bs_num b) 0) as [E0|Hne]; cbn [negb].
  - wp_step. wp_step. set (c := mk_ctrl _ _ _ _ _ _ _ _ _ _).
    assert (owned [c] = []) as Ho by (unfold owned; cbn; by rewrite E0).
    split; [|split; [cbn; by rewrite app_nil_r|split; [|split; [exact Hlw|by exists e]]]].
    + specialize (Htable c []). rewrite app_nil_r in Htable. apply Htable; [|rewrite Ho; by intros i ?%elem_of_nil].
      split; [|done]. split; [|by left]. intros Hr. specialize (Hpat Hr). lia.
    + exists c. split; [done|]. split; [|done]. by split.
  - wp_step. unfold wp at 1. cbn [allocs]. unfold new_positions, copy_positions. wp_step.
    destruct (Z.ltb_spec (alen (bs_pos b)) (bs_num b)); [lia|].
    cbn [defined]. wp_steps. set (c := mk_ctrl _ _ _ _ _ _ _ _ _ _). cbn [pos_blocks option_list fmap list_fmap].
    set (l := take (Z.to_nat (bs_num b)) (bs_pos b)).
    assert (owned [c] = [length (pos_blocks s)]) as Ho by (unfold owned; cbn; by destruct (Z.eqb_spec (bs_num b) 0)).
    assert (patrol_of (pos_blocks s ++ [Live l]) c = Some l) as Hl.
    { unfold patrol_of. cbn. by rewrite lookup_app_r, Nat.sub_diag by lia. }
    split; [|split; [done|split; [|split; [exact Hlw|by exists e]]]].
    + apply (Htable c [Live l]); [|rewrite Ho; by intros i ->%list_elem_of_singleton].
      split; [|by intros _; eexists]. split; [|by left]. intros Hr. exists l. split; [exact Hl|].
      split; [unfold l, alen in *; rewrite length_take; cbn; lia|cbn; lia].
    + exists c. split; [done|]. split; [|done]. by split.
Qed.

(** Every controller is of one of the first [m] enemies. *)
Definition guards (m : Z) s : Prop := forall cs c, controllers s = Live cs -> c ∈ cs ->
  exists i, c_player c = Enemy i /\ 0 <= i < m.
Lemma wlp_alloc (Q : bool -> ai R -> Prop) s : (forall b l, Q b (s <| allocs := l |>)) -> wlp alloc Q s.
Proof.
  intros H. unfold wlp, alloc. destruct (allocs s) as [|b l] eqn:E; [|apply H]. specialize (H true []). by destruct s; cbn in E; subst.
Qed.
Lemma wlp_in_world {A} (m : prog world A) (Q : A -> ai R -> Prop) s :
  (forall r w, Q r (s <| ai_world := w |>)) -> wlp (in_world m) Q s.
Proof. intros H. unfold wlp, in_world, zoom. by destruct (m (ai_world s)) as [[r w]| |]. Qed.

Lemma start_bot_guards b s m : guards m s -> 0 <= bs_enemy b < m -> wlp (start_bot b) (fun _ => guards m) s.
Proof.
  intros Hg Hb. unfold start_bot, init_enemy. wlp_steps. apply wlp_alloc. intros ok l. wlp_steps.
  assert (forall old s1, (forall c, c ∈ old -> exists i, c_player c = Enemy i /\ 0 <= i < m) ->
    wlp (in_world (update_player (Enemy (bs_enemy b)) (fun e => Some (e <| p_movm ::= (fun c => c <| lb_single_tap := false |>) |>))) ;;;
      block <- (if negb (bs_num b =? 0) then
              ok <- alloc ;;
              if (ok : bool) then new_positions (bs_num b) (bs_pos b) else undef
            else ret None) ;;
      if negb ok then undef else
      (modify (fun a => a <| controllers := Live (old ++ [mk_ctrl (bs_random b) block (-1) None (u8 (bs_num b)) 0 (bs_timeout b)
                                                       (bs_range b) (bs_fov b) (Enemy (bs_enemy b))]) |>
                      <| num_controllers := i32 (num_controllers s + 1) |>))) (fun _ => guards m) s1) as Hrest.
  { intros old s1 Hold. wlp_steps. apply wlp_in_world. intros [] w. wlp_steps.
    assert (forall blk s2, guards m (s2 <| controllers := Live (old ++ [mk_ctrl (bs_random b) blk (-1) None (u8 (bs_num b)) 0
      (bs_timeout b) (bs_range b) (bs_fov b) (Enemy (bs_enemy b))]) |> <| num_controllers := i32 (num_controllers s + 1) |>)) as Hnew.
    { intros blk s2 cs c [= <-] [Hc| ->%list_elem_of_singleton]%elem_of_app; [by apply Hold|]. by exists (bs_enemy b). }
    destruct (negb (bs_num b =? 0)); wlp_steps.
    - apply wlp_alloc. intros ok2 l2. destruct ok2; unfold new_positions; wlp_steps; destruct ok; cbn [negb]; wlp_steps; apply Hnew.
    - destruct ok; cbn [negb]; wlp_steps; apply Hnew. }
  destruct (num_controllers s =? 0).
  - wlp_step. apply Hrest. intros c Hc. by apply elem_of_nil in Hc.
  - do 3 wlp_step. apply Hrest. intros c Hc. eapply Hg; [|exact Hc].
    match goal with H : deref _ = Some _ |- _ => change (deref (controllers s) = Some a) in H; rename H into Hd end.
    destruct (controllers s); [done|by injection Hd as ->|done].
Qed.

(** The blocks [ids] are freed. *)
Definition release (ids : list nat) (blocks : list (ptr (list vector_t))) : list (ptr (list vector_t)) :=
  foldl (fun bs i => <[i := Freed]> bs) blocks ids.
Lemma release_app ids1 ids2 blocks : release (ids1 ++ ids2) blocks = release ids2 (release ids1 blocks).
Proof. apply foldl_app. Qed.
Lemma release_lookup ids blocks i : i ∉ ids -> release ids blocks !! i = blocks !! i.
Proof.
  unfold release. revert blocks. induction ids as [|j ids IH]; intros blocks; cbn; [done|].
  rewrite not_elem_of_cons. intros [Hne Hi]. rewrite IH by done. by apply list_lookup_insert_ne.
Qed.
(** The last blocks. *)
Lemma release_tail (ls : list (list vector_t)) blocks :
  release (seq (length blocks) (length ls)) (blocks ++ (Live <$> ls)) = blocks ++ replicate (length ls) Freed.
Proof.
  revert blocks. induction ls as [|l ls IH]; intros blocks; [by cbn; rewrite app_nil_r|].
  unfold release. cbn [length seq foldl fmap list_fmap replicate].
  rewrite insert_app_r_alt, Nat.sub_diag by lia. cbn.
  specialize (IH (blocks ++ [Freed])). rewrite length_app, Nat.add_1_r, <- !app_assoc in IH. exact IH.
Qed.

Lemma free_positions_spec c cs ids0 s s0 : posted (pos_blocks s0) c -> num_positions c <> 0 ->
  NoDup (ids0 ++ owned (c :: cs)) -> s = s0 <| pos_blocks := release ids0 (pos_blocks s0) |> ->
  wp (free_positions c) (fun _ s' =>
    s' = s0 <| pos_blocks := release (ids0 ++ owned [c]) (pos_blocks s0) |>) s.
Proof.
  intros [_ Hn] Hne Hnd ->. destruct (Hn Hne) as [l El]. unfold free_positions.
  unfold patrol_of in El. destruct (positions c) as [i|] eqn:Ei; [|done]. cbn in El.
  assert (owned [c] = [i]) as Ho by (unfold owned; cbn; rewrite Ei; by destruct (Z.eqb_spec (num_positions c) 0)).
  change (c :: cs) with ([c] ++ cs) in Hnd. unfold owned in Hnd. rewrite omap_app in Hnd. fold (owned [c]) in Hnd.
  rewrite Ho in Hnd |- *. apply NoDup_app in Hnd as (_ & Hd & _).
  assert (i ∉ ids0) as Hi by (intros Hi; apply (Hd i Hi); by left).
  cbn [defined]. wp_steps. cbn [pos_blocks].
  change (pos_blocks (s0 <| pos_blocks := release ids0 (pos_blocks s0) |>)) with (release ids0 (pos_blocks s0)).
  rewrite release_lookup by done. destruct (pos_blocks s0 !! i) as [b|]; [|done]. cbn [defined]. wp_steps.
  destruct b; try discriminate El. cbn [free_ptr defined]. wp_steps. by rewrite release_app.
Qed.

Lemma free_controllers_spec s n : table_ok s n -> wp free_controllers (fun _ s' => table_ok s' 0 /\
  ai_world s' = ai_world s /\ pos_blocks s' = release (owned (table_list s)) (pos_blocks s)) s.
Proof.
  intros Htab. destruct (table_ok_list s n Htab) as (Hlen & Hall & Hnd & Hder).
  pose proof Htab as (Hn & Hpos & Hal & Hcs). set (cs := table_list s) in *.
  unfold free_controllers. do 4 wp_step. rewrite Hn.
  assert (forall s', s' = s <| pos_blocks := release (owned cs) (pos_blocks s) |> ->
    table_ok (s' <| controllers := Null |> <| num_controllers := 0 |>) 0 /\
    ai_world (s' <| controllers := Null |> <| num_controllers := 0 |>) = ai_world s /\
    pos_blocks (s' <| controllers := Null |> <| num_controllers := 0 |>) = release (owned cs) (pos_blocks s)) as Hend.
  { intros s' ->. split; [|done]. split; [done|]. split; [lia|]. split; [exact Hal|done]. }
  destruct (Z.ltb_spec 0 n) as [Hlt|Hge].
  - destruct (Z.eqb_spec n 0); [lia|]. destruct Hcs as (cs' & Hcs & _).
    assert (cs' = cs) as -> by (specialize (Hder ltac:(lia)); rewrite Hcs in Hder; by injection Hder).
    rewrite Hcs. cbn [deref defined free_ptr]. wp_steps. destruct (Z.ltb_spec (alen cs) n); [lia|]. cbn [defined]. wp_steps.
    rewrite take_ge by (unfold alen in *; lia).
    apply (wp_for_each _ _ (fun l s1 => exists done, cs = done ++ l /\
      s1 = s <| pos_blocks := release (owned done) (pos_blocks s) |>)).
    + intros c l s1 (dn & Ecs & Es). pose proof Hall as Hall'. rewrite Ecs in Hall', Hnd.
      apply Forall_app in Hall' as [_ Hall']. apply Forall_cons in Hall' as [Hc _].
      assert (owned (dn ++ [c]) = owned dn ++ owned [c]) as Eo by (unfold owned; apply omap_app).
      assert (cs = (dn ++ [c]) ++ l) as Ecs' by (by rewrite <- app_assoc).
      destruct (Z.eqb_spec (num_positions c) 0) as [E0|Hne]; cbn [negb].
      * wp_step. exists (dn ++ [c]). split; [done|].
        assert (owned [c] = []) as E1 by (unfold owned; cbn; by rewrite E0). by rewrite Eo, E1, app_nil_r.
      * eapply wp_mono; [eapply (free_positions_spec c l (owned dn)); [exact Hc|exact Hne| |exact Es]|].
        { unfold owned in *. by rewrite omap_app in Hnd. }
        intros _ s2 ->. exists (dn ++ [c]). split; [done|]. by rewrite Eo.
    + intros s1 (dn & Ecs & ->). rewrite app_nil_r in Ecs. subst dn. wp_steps. by apply Hend.
    + exists []. split; [done|]. by destruct s.
  - assert (n = 0) as -> by lia. cbn [Z.eqb] in Hcs. rewrite Hcs. cbn [free_ptr defined]. wp_steps.
    apply Hend. assert (cs = []) as -> by (destruct cs; [done|]; rewrite alen_cons in Hlen; pose proof (alen_nonneg cs); lia).
    by destruct s.
Qed.

(** The table when the bots [dn] have been started on the blocks [bs]. *)
Record started (bs : list (ptr (list vector_t))) (dn : list bot_spec) s : Prop := mk_started {
  sd_table : table_ok s (alen dn);
  sd_blocks : pos_blocks s = bs ++ (Live <$> omap copied dn);
  sd_bots : Forall2 (starts (pos_blocks s)) dn (table_list s);
  sd_owned : owned (table_list s) = seq (length bs) (length (omap copied dn));
}.
Lemma started_next bs dn b s : started bs dn s -> alen dn < INT_MAX -> bot_ok s b ->
  wp (start_bot b) (fun _ s' => started bs (dn ++ [b]) s' /\
    alen (w_enemies (ai_world s')) = alen (w_enemies (ai_world s))) s.
Proof.
  intros [Ht Hb Hd Ho] Hmax Hok. eapply wp_mono; [by apply (start_bot_spec b s (alen dn))|].
  intros _ s' (Ht' & Hb' & (c & El & Hc & Hoc) & Hlen & _). split; [|done].
  assert (omap copied (dn ++ [b]) = omap copied dn ++ option_list (copied b)) as Eo.
  { rewrite omap_app. cbn. by destruct (copied b). }
  split.
  - unfold alen in *. rewrite length_app. cbn [length]. by replace (Z.of_nat (length dn + 1)) with (Z.of_nat (length dn) + 1) by lia.
  - by rewrite Hb', Hb, Eo, fmap_app, app_assoc.
  - rewrite El. apply Forall2_app; [|by constructor]. eapply Forall2_impl; [exact Hd|].
    intros b0 c0 [Ec Hp]. split; [done|]. intros Hne. rewrite Hb'. by apply patrol_of_app, Hp.
  - rewrite El. unfold owned in *. rewrite omap_app, Ho, Eo, length_app, seq_app. f_equal. rewrite Hoc. unfold copied.
    destruct (bs_num b =? 0); [done|]. cbn. by rewrite Hb, length_app, length_fmap.
Qed.

End Table.

(** *** A bot in the corridor

    The duel's bot patrols; [rand] counts. *)
#[local] Instance counting_rand : Rand Z := {| next_rand := fun z => (z mod 32768, z + 1) |}.
Definition patrol : list vector_t := [mk_vec (dlit 1 2) (dlit 1 2); mk_vec (dlit 5 2) (dlit 1 2)].
Definition corridor_ctrl : enemy_ctrl_t :=
  mk_ctrl false (Some 0%nat) (-1) None 2 0 120 (dint 10) (dint 45) (Enemy 0).
Definition corridor_ai (hp : Z) : ai Z := mk_ai (duel hp) Null 0 [Live patrol] 0 [].

Lemma counting_rand_range r : 0 <= fst (next_rand r) <= INT_MAX.
Proof. change (0 <= r mod 32768 <= INT_MAX). pose proof (Z.mod_pos_bound r 32768). unfold INT_MAX. lia. Qed.

Lemma corridor_ctrl_ok : ctrl_ok [Live patrol] corridor_ctrl.
Proof. split; [intros _; exists patrol; split; [done|split; [done|cbn; lia]]|by left]. Qed.

(** The bot in the corridor sees the player behind the wall's end or not: it
    keeps to its patrol or goes for the player. *)
Lemma handle_enemy_decides_witness :
  exists c' s', handle_enemy corridor_ctrl (corridor_ai 50) = Done (OK, c', s') /\ ctrl_ok (pos_blocks s') c' /\
    health <$> w_enemies (ai_world s') = [50].
Proof.
  pose proof (handle_enemy_decides counting_rand_range 0 corridor_ctrl (duel_bot 50) (corridor_ai 50)
    (duel_ok 50 ltac:(lia)) ltac:(reflexivity) ltac:(reflexivity) eq_refl eq_refl corridor_ctrl_ok
    ltac:(intros H; exfalso; apply H; reflexivity)) as H.
  apply (proj1 (wp_Done _ _ _)) in H as ([r c'] & s' & E & _ & _ & Hco & _).
  assert (r = OK) as -> by (vm_compute in E; injection E as <- _ _; reflexivity).
  exists c', s'. split; [exact E|]. split; [exact Hco|].
  vm_compute in E. injection E as _ <-. vm_compute. reflexivity.
Defined.

