(* ===== verification/Render.v ===== *)
(** * Render

    The 3D view and the numbers on the screen,
    [src/proj/system/graphics/render.c] and [hud.c]: the walls column by
    column, the sprites and bars of players and pickups sorted from far to
    near, the gun, the crosshair and the HUD.  The drawings go to [Video]; the
    world is only read. *)

From Stdlib Require Import Floats.SpecFloat Sorting.Sorted.
From S2P Require Import Prelude Doubles MapFile Utils Sprites Guns Controls Players Pickups Battle Video.

Definition CROSSHAIR_SIZE : Z := 50.
Definition CROSSHAIR_SIDE : Z := 5.
Definition CROSSHAIR_SPACE : Z := 5.
Definition CROSSHAIR_COLOR : Z := 0xFF0000.

(** ** Rounding functions of [math.h] followed by a conversion to [int] *)
Definition finite_quot (m : positive) (e : Z) : Z * bool * bool :=
  (* the integral part of m * 2^e, whether anything is left, and whether what is left is at least 1/2 *)
  if 0 <=? e then (Z.shiftl (Zpos m) e, false, false)
  else (Zpos m / 2 ^ (- e), negb (Zpos m mod 2 ^ (- e) =? 0), 2 ^ (- e) <=? 2 * (Zpos m mod 2 ^ (- e))).
Definition as_int (z : Z) : option Z := if (INT_MIN <=? z) && (z <=? INT_MAX) then Some z else None.
(** [(int)round(x)], halves away from zero. *)
Definition int_round (x : double) : option Z :=
  match x with
  | S754_zero _ => Some 0
  | S754_finite s m e =>
      let '(q, _, half) := finite_quot m e in
      let q := if half then q + 1 else q in as_int (if s then - q else q)
  | _ => None
  end.
(** [ceil(x)] and [floor(x)] as integers. *)
Definition int_ceil (x : double) : option Z :=
  match x with
  | S754_zero _ => Some 0
  | S754_finite s m e =>
      let '(q, rest, _) := finite_quot m e in
      Some (if s then - q else if rest then q + 1 else q)
  | _ => None
  end.
Definition int_floor (x : double) : option Z :=
  match x with
  | S754_zero _ => Some 0
  | S754_finite s m e =>
      let '(q, rest, _) := finite_quot m e in
      Some (if s then (if rest then - (q + 1) else - q) else q)
  | _ => None
  end.
(** [floor(x)] as a double: an integer below 2^53, or [x] itself. *)
Definition dfloor (x : double) : double :=
  match x with
  | S754_finite _ _ e =>
      if 0 <=? e then x else match int_floor x with Some z => dint z | None => x end
  | _ => x
  end.
(** [abs((int) x)] *)
Definition abs_int (x : double) : option Z :=
  match dto_int x with
  | Some i => if i =? INT_MIN then None else Some (Z.abs i)
  | None => None
  end.

Definition lift {S A} (o : outcome A) : prog S A := fun s =>
  match o with Done a => Done (a, s) | Undef => Undef | OutOfFuel => OutOfFuel end.

(** ** Data of [render.h] *)
Record render_t : Type := mk_render {
  has_sprite : bool;
  r_sprite : option slot;
  r_color : Z;
  end_pos : pair_t;
  offset : pair_t;
  bounding_box : pair_t;
  r_distance : double;
  factor : double;
}.
#[global] Instance eta_render : Eta render_t := fun r =>
  mk_render (has_sprite r) (r_sprite r) (r_color r) (end_pos r) (offset r) (bounding_box r)
    (r_distance r) (factor r).
(** [memset(render, 0, sizeof(render_t))] *)
Definition zero_render : render_t :=
  mk_render false None 0 (mk_pair 0 0) (mk_pair 0 0) (mk_pair 0 0) d0 d0.

(** ** The list of objects, far to near *)

(** The inner loop from index [j]: the element is put there, and what was
    there moves on. *)
Fixpoint shift_loop (js : list Z) (v : render_t) (arr : list render_t) : option (list render_t) :=
  match js with
  | [] => Some arr
  | j :: js =>
      match aget arr j, aset arr j v with
      | Some temp, Some arr =>
          if dle (r_distance temp) d0 then Some arr else shift_loop js temp arr
      | _, _ => None
      end
  end.
(** The outer loop. *)
Fixpoint insert_loop (ix : list Z) (size : Z) (value : render_t) (arr : list render_t) :
    option (list render_t) :=
  match ix with
  | [] => Some arr
  | i :: ix =>
      if i =? size - 1 then
        match aset arr i value with Some arr => insert_loop ix size value arr | None => None end
      else
        match aget arr i with
        | Some r =>
            if dlt (r_distance r) (r_distance value)
            then shift_loop (seqZ i (size - i)) value arr
            else insert_loop ix size value arr
        | None => None
        end
  end.
(** [renders_insert_sorted(renders, value, &size)], on the whole array. *)
Definition renders_insert_sorted (value : render_t) (s : list render_t * Z) : option (list render_t * Z) :=
  let '(arr, size) := s in
  if dle (r_distance value) d0 then Some (arr, size) else
  let size := size + 1 in
  match insert_loop (seqZ 0 size) size value arr with
  | Some arr => Some (arr, size)
  | None => None
  end.

Section Render.
Context {LM : Libm}.
(** The sprites behind the global pointers, and the settings. *)
Variables (sprite_of : slot -> sprite_t) (settings : settings_t).

(** ** Numbers *)
Fixpoint number_loop (digits : Z) (idxs nums : list Z) (got_num : bool) (pos : pair_t) :
    prog graphics_data pair_t :=
  match idxs with
  | [] => ret pos
  | i :: idxs =>
      val <- defined (aget nums i) ;;
      let got_num := got_num || negb (val =? 0) in
      let ptr := sprite_of (number val) in
      if got_num || (i =? digits - 1) then
        _ <- draw_sprite pos ptr ;;
        number_loop digits idxs nums got_num (pos <| px ::= (fun x => i32 (x + (cx (texture_size ptr) + 2))) |>)
      else number_loop digits idxs nums got_num pos
  end.
(** Both leave [*pos] after the last digit. *)
Definition render_number (value : Z) (pos : pair_t) (max_digits : Z) : prog graphics_data pair_t :=
  '(digits, nums) <- lift (digitize value max_digits (replicate (Z.to_nat max_digits) 0)) ;;
  number_loop digits (seqZ 0 digits) nums false pos.

Fixpoint time_number_loop (idxs nums : list Z) (pos : pair_t) : prog graphics_data pair_t :=
  match idxs with
  | [] => ret pos
  | i :: idxs =>
      val <- defined (aget nums i) ;;
      let ptr := sprite_of (number val) in
      _ <- draw_sprite pos ptr ;;
      time_number_loop idxs nums (pos <| px ::= (fun x => i32 (x + (cx (texture_size ptr) + 2))) |>)
  end.
Definition render_time_number (value : Z) (pos : pair_t) (max_digits : Z) : prog graphics_data pair_t :=
  '(digits, nums) <- lift (digitize value max_digits (replicate (Z.to_nat max_digits) 0)) ;;
  time_number_loop (seqZ 0 digits) nums pos.

(** ** Crosshair, gun, timer *)
Definition render_crosshair : prog graphics_data Z :=
  screen_width <- gets h_res ;;
  screen_height <- gets v_res ;;
  let half_x := Z.quot screen_width 2 in
  let half_y := Z.quot screen_height 2 in
  let rect x y x_end y_end := draw_rect (u16 x) (u16 y) (u16 x_end) (u16 y_end) CROSSHAIR_COLOR in
  let min_y := half_y - Z.quot CROSSHAIR_SIDE 2 in
  let max_y := half_y + Z.quot CROSSHAIR_SIDE 2 in
  let min_x := half_x - Z.quot CROSSHAIR_SIDE 2 in
  let max_x := half_x + Z.quot CROSSHAIR_SIDE 2 in
  _ <- rect (half_x - Z.quot CROSSHAIR_SIZE 2) min_y (half_x - CROSSHAIR_SPACE) max_y ;;
  _ <- rect (half_x + CROSSHAIR_SPACE) min_y (half_x + Z.quot CROSSHAIR_SIZE 2) (half_y + Z.quot CROSSHAIR_SIDE 2) ;;
  _ <- rect min_x (half_y - Z.quot CROSSHAIR_SIZE 2) max_x (half_y - CROSSHAIR_SPACE) ;;
  _ <- rect min_x (half_y + CROSSHAIR_SPACE) max_x (half_y + Z.quot CROSSHAIR_SIZE 2) ;;
  ret OK.

(** Positions computed in [unsigned] and stored in a [long]. *)
Definition long (z : Z) : Z := i32 z.
Definition render_gun (w : world) : prog graphics_data Z :=
  let player := w_player w in
  gun_inst <- defined (gun_in_hand player) ;;
  arr <- defined (w_anims w !! animations (gi_gun gun_inst)) ;;
  anim <- defined (aget arr (curr_anim gun_inst)) ;;
  let sprite := sprite_of (an_sprite anim) in
  width <- gets h_res ;;
  height <- gets v_res ;;
  draw_sprite (mk_pair (long (Z.quot width 2 - Z.quot (cx (texture_size sprite)) 2 + 10))
                 (long (height - Z.quot (cy (texture_size (sprite_of hud_sprite))) 2 - cy (texture_size sprite) - 1)))
    sprite.

(** [x + 0.01*res + 10] and the like: a double converted to a 32-bit
    [long]. *)
Definition dto_long (x : double) : option Z := dto_int x.
Definition render_timer (timer : Z) : prog graphics_data Z :=
  let min := u8 (Z.quot timer 60) in
  let sec := u8 (Z.rem timer 60) in
  width <- gets h_res ;;
  height <- gets v_res ;;
  y <- defined (dto_long (dadd (dadd (dint 0) (dmul (dlit 1 100) (dint height))) (dint 10))) ;;
  let pos := mk_pair (long (width - cx (texture_size (sprite_of exit_menu_button)) - 10)) y in
  _ <- draw_sprite pos (sprite_of background_button) ;;
  let pos := pos <| px ::= (fun x => i32 (x + 60)) |> <| py ::= (fun y => i32 (y + 25)) |> in
  pos <- render_number min pos 1 ;;
  _ <- draw_sprite pos (sprite_of (number 10)) ;;
  let pos := pos <| px ::= (fun x => i32 (x + 53)) |> in
  _ <- render_time_number sec pos 2 ;;
  ret OK.

(** ** Objects *)

(** [render_object]: [None] when it returns 1. *)
Definition render_object (player : player_info_t) (render : render_t) (rel_position : vector_t) (range : double) :
    prog graphics_data (option render_t) :=
  screen_width <- gets h_res ;;
  screen_height <- gets v_res ;;
  let dist := vec_mag rel_position in
  if dgt range d0 && dgt dist range then ret None else
  let look_dir := normalize (direction player) in
  let rel_norm := normalize rel_position in
  let angle := ddiv (dmul (dint (Z.quot (180 - fov settings) 2)) M_PI) (dint 180) in
  let prod_comp := dcos angle in
  if dle (prod_int rel_norm look_dir) prod_comp then ret None else
  let cam_plane := camera_plane player in
  let inv_det := ddiv (dint 1) (determinant cam_plane look_dir) in
  let inv_x := dmul inv_det (dsub (dmul (vy look_dir) (vx rel_position)) (dmul (vx look_dir) (vy rel_position))) in
  let inv_y := dmul inv_det (dsub (dmul (vx cam_plane) (vy rel_position)) (dmul (vy cam_plane) (vx rel_position))) in
  sprite_screen_x <- defined (dto_int (dmul (ddiv (dint screen_width) (dint 2)) (dadd (dint 1) (ddiv inv_x inv_y)))) ;;
  sprite_height <- defined (abs_int (ddiv (dint screen_height) inv_y)) ;;
  let offset_y := i32 (i32 (screen_height * 256) - i32 (sprite_height * 256)) in
  let start_y := Z.quot offset_y 512 in
  let end_y := i32 (start_y + sprite_height) in
  let sprite_width := sprite_height in
  let offset_x := i32 (i32 (sprite_screen_x * 512) - i32 (sprite_width * 256)) in
  let start_x := Z.quot offset_x 512 in
  let end_x := i32 (start_x + sprite_width) in
  if end_x <=? start_x then ret None else
  ret (Some (render <| end_pos := mk_pair end_x end_y |> <| offset := mk_pair offset_x offset_y |>
               <| bounding_box := mk_pair sprite_width sprite_height |> <| r_distance := dist |>
               <| factor := dsub (dint 1) (ddiv dist range) |>)).

Definition render_pickup (p1 : player_info_t) (pickup : pickup_t) (range : double) :
    prog graphics_data (option render_t) :=
  let c := center (collider pickup) in
  let rel_position := mk_vec (dsub (vx c) (vx (position p1))) (dsub (vy c) (vy (position p1))) in
  r <- render_object p1 zero_render rel_position range ;;
  match r with
  | None => ret None
  | Some r =>
      anim <- defined (animation pickup) ;;
      ret (Some (r <| r_sprite := Some (an_sprite anim) |> <| has_sprite := true |>))
  end.

Definition health_colors : list Z := [0xff0d0d; 0xff4e11; 0xff8e15; 0xfab733; 0xacb334; 0x69b34c].
(** [ceil(6*health/max_health) - 1], at least 0. *)
Definition health_idx (hp max_hp : Z) : option Z :=
  match int_ceil (ddiv (dmul (dint 6) (dint hp)) (dint max_hp)) with
  | Some c => match as_int (c - 1) with Some i => Some (if i <? 0 then 0 else i) | None => None end
  | None => None
  end.

(** The view of [p2] that faces [p1]. *)
Definition facing (p1 p2 : player_info_t) (rel_position : vector_t) : option Z :=
  let ang := dadd (degree rel_position (direction p2)) (dint 180) in
  match int_round (ddiv ang (dint 45)) with
  | Some i =>
      let idx := Z.rem i 8 in
      Some (if (p_curr_anim p2 =? 4) && ((idx =? 7) || (idx <? 2)) then 0 else idx)
  | None => None
  end.

(** [(int)(init + rem * width)], cut to the screen. *)
Definition cut (res z : Z) : Z := let z := if z <? 0 then 0 else z in if res <=? z then res - 1 else z.
Definition bar_end (init width hp max_hp : Z) : option Z :=
  dto_int (dadd (dint init) (dmul (ddiv (dint hp) (dint max_hp)) (dint width))).

(** [render_player]: the player, the health bar and the armour bar. *)
Definition render_player (p1 p2 : player_info_t) (range : double) :
    prog graphics_data (option (render_t * render_t * render_t)) :=
  let rel_position := mk_vec (dsub (vx (position p2)) (vx (position p1)))
                             (dsub (vy (position p2)) (vy (position p1))) in
  idx <- defined (facing p1 p2 rel_position) ;;
  screen_width <- gets h_res ;;
  screen_height <- gets v_res ;;
  r <- render_object p1 zero_render rel_position range ;;
  match r with
  | None => ret None
  | Some r =>
      views <- defined (aget (sprites p2) (p_curr_anim p2)) ;;
      view <- defined (aget views idx) ;;
      let player_render := r <| r_sprite := Some (an_sprite view) |> <| has_sprite := true |> in
      let sprite_height := py (bounding_box r) in
      let sprite_width := px (bounding_box r) in
      bar_width <- defined (dto_int (dmul (dlit 1 2) (dint sprite_width))) ;;
      let init := i32 (px (end_pos r) - Z.quot sprite_width 2 - Z.quot bar_width 2) in
      max_draw <- defined (bar_end init bar_width (health p2) (max_health p2)) ;;
      max_draw_arm <- defined (bar_end init bar_width (armor p2) (max_armor p2)) ;;
      let init_draw := cut screen_width init in
      let max_draw := cut screen_width max_draw in
      let max_draw_arm := cut screen_width max_draw_arm in
      let y_draw := cut screen_height (i32 (py (end_pos r) - sprite_height)) in
      y_end <- defined (dto_int (dsub (dint (py (end_pos r))) (dmul (dint sprite_height) (dlit 9 10)))) ;;
      let y_draw_end := cut screen_height y_end in
      bar_height <- defined (dto_long (dmul (dlit 1 10) (dint sprite_height))) ;;
      i <- defined (health_idx (health p2) (max_health p2)) ;;
      color <- defined (aget health_colors i) ;;
      let bar := zero_render <| offset := mk_pair init_draw y_draw |>
                   <| bounding_box := mk_pair bar_width bar_height |> <| factor := factor r |> in
      ret (Some (player_render,
        bar <| end_pos := mk_pair max_draw y_draw_end |> <| r_distance := r_distance r |> <| r_color := color |>,
        bar <| end_pos := mk_pair max_draw_arm y_draw_end |>
            <| r_distance := dsub (r_distance r) (dlit 390625 100000000) |> <| r_color := 0x0e80ea |>))
  end.

(** *** The scene's objects *)

(** [w_pickups] is only read. *)
Definition pickup_at (w : world) (i : Z) : outcome (option pickup_t) :=
  match get_pickup i (w_pickups w) with
  | Done (p, _) => Done p
  | Undef => Undef
  | OutOfFuel => OutOfFuel
  end.

Fixpoint insert_all (vs : list render_t) (s : list render_t * Z) : option (list render_t * Z) :=
  match vs with
  | [] => Some s
  | v :: vs => match renders_insert_sorted v s with Some s => insert_all vs s | None => None end
  end.

Fixpoint player_renders (player : player_info_t) (enemies : list player_info_t) (range : double)
    (s : list render_t * Z) : prog graphics_data (list render_t * Z) :=
  match enemies with
  | [] => ret s
  | e :: enemies =>
      if negb (should_render e) then player_renders player enemies range s else
      r <- render_player player e range ;;
      match r with
      | None => player_renders player enemies range s
      | Some (player_render, health_render, armor_render) =>
          s <- defined (insert_all [player_render; health_render; armor_render] s) ;;
          player_renders player enemies range s
      end
  end.
Fixpoint pickup_renders (w : world) (idxs : list Z) (range : double) (s : list render_t * Z) :
    prog graphics_data (list render_t * Z) :=
  match idxs with
  | [] => ret s
  | i :: idxs =>
      p <- lift (pickup_at w i) ;;
      match p with
      | None => pickup_renders w idxs range s
      | Some pickup =>
          if picked_up pickup then pickup_renders w idxs range s else
          r <- render_pickup (w_player w) pickup range ;;
          match r with
          | None => pickup_renders w idxs range s
          | Some r => s <- defined (renders_insert_sorted r s) ;; pickup_renders w idxs range s
          end
      end
  end.
(** [setup_renders(renders, range)]: the array and how much of it is used. *)
Definition setup_renders (w : world) (renders : list render_t) (range : double) :
    prog graphics_data (list render_t * Z) :=
  s <- player_renders (w_player w) (w_enemies w) range (renders, 0) ;;
  pickup_renders w (seqZ 1 (pickups_size (w_pickups w) - 1)) range s.

Definition render_object_renders (renders : list render_t) (num_renders : Z) : prog graphics_data unit :=
  for_each (seqZ 0 num_renders) (fun i =>
    r <- defined (aget renders i) ;;
    let distance := dsub (r_distance r) (dlit 2 10) in
    if has_sprite r then
      sprite <- defined (r_sprite r) ;;
      _ <- draw_rect_sprite (end_pos r) (offset r) (bounding_box r) (sprite_of sprite) distance (factor r) ;;
      ret tt
    else
      _ <- draw_darken_rect (u16 (px (offset r))) (u16 (py (offset r))) (u16 (px (end_pos r))) (u16 (py (end_pos r)))
             (r_color r) (factor r) distance ;;
      ret tt).

(** ** Walls *)

(** [walls_textures[tex]]: there are six. *)
Definition wall_texture (tex : option Z) : option sprite_t :=
  match tex with
  | Some i => if (0 <=? i) && (i <? 6) then Some (sprite_of (walls_textures i)) else None
  | None => None
  end.

Definition set_line (x : Z) (l : line_t) : prog graphics_data unit :=
  ls <- gets vlines ;;
  ls <- defined (deref ls) ;;
  ls <- defined (aset ls x l) ;;
  modify (fun g => g <| vlines := Live ls |>).

(** The locals of [draw_walls] that outlive a column. *)
Record wall_scan : Type := mk_wall_scan {
  last_tex : option Z;
  last_x_idx : Z;
  last_y_idx : Z;
  w_color : option Z;
}.
#[global] Instance eta_wall_scan : Eta wall_scan := fun s =>
  mk_wall_scan (last_tex s) (last_x_idx s) (last_y_idx s) (w_color s).

(** The texel of a wall, darkened as its column says. *)
Definition texel (tex : line_tex_t) (y_idx : Z) : option Z :=
  match wall_texture (Video.tex tex) with
  | Some t =>
      match aget (pixels t) (MAX_SPRITE_WIDTH * y_idx + tex_hit_x tex) with
      | Some c => if l_darken tex then darken c (darken_factor tex) else Some c
      | None => None
      end
  | None => None
  end.

(** The colour of column [col] at [line], and the column's new state. *)
Definition wall_color (l : line_t) (s : wall_scan) : option (Z * line_t * wall_scan) :=
  let t := texture l in
  match dto_int (tex_y t) with
  | None => None
  | Some y_idx =>
      let x_idx := tex_hit_x t in
      let fresh :=
        if negb (last_tex_y t =? y_idx) then
          let again := bool_decide (Video.tex t = last_tex s) && (last_x_idx s =? x_idx) && (last_y_idx s =? y_idx) in
          match (if again then w_color s else texel t y_idx) with
          | Some c => Some (c, l <| texture ::= (fun t => t <| last_tex_y := y_idx |>) |> <| l_color := c |>)
          | None => None
          end
        else Some (l_color l, l) in
      match fresh with
      | Some (c, l) =>
          Some (c, l <| texture ::= (fun t => t <| tex_y := dadd (tex_y t) (step t) |>) |>,
                mk_wall_scan (Video.tex t) x_idx y_idx (Some c))
      | None => None
      end
  end.
Definition wall_pixel (line col : Z) (s : wall_scan) : prog graphics_data wall_scan :=
  l <- line_at col ;;
  if (draw_higher l <=? line) && (line <=? draw_lower l) then
    '(c, l, s) <- defined (wall_color l s) ;;
    _ <- set_px col line c ;;
    set_line col l ;;;
    ret s
  else ret s.
Fixpoint wall_row (line : Z) (cols : list Z) (s : wall_scan) : prog graphics_data wall_scan :=
  match cols with
  | [] => ret s
  | col :: cols => s <- wall_pixel line col s ;; wall_row line cols s
  end.
Fixpoint wall_rows (width : Z) (ls : list Z) (s : wall_scan) : prog graphics_data unit :=
  match ls with
  | [] => ret tt
  | line :: ls => s <- wall_row line (seqZ 0 width) s ;; wall_rows width ls s
  end.
Definition draw_walls (highest_wall lowest_wall : Z) : prog graphics_data Z :=
  width <- gets h_res ;;
  wall_rows width (seqZ highest_wall (lowest_wall - highest_wall)) (mk_wall_scan None (-1) (-1) None) ;;;
  ret OK.

(** *** Casting the columns *)

(** A column that hits a wall: everything but the bookkeeping of the highest
    and lowest row. *)
Definition wall_line (m : map_t) (pos ray_dir : vector_t) (height : Z) (range : double) (h : ray_hit_t)
    (l : line_t) : option line_t :=
  let map_pos := rh_map_pos h in
  let perpendicular :=
    if Utils.side h =? 0 then
      ddiv (dsub (dint (cx map_pos + (if dlt (vx ray_dir) d0 then 1 else 0))) (vx pos)) (vx ray_dir)
    else ddiv (dsub (dint (cy map_pos + (if dlt (vy ray_dir) d0 then 1 else 0))) (vy pos)) (vy ray_dir) in
  match dto_int (ddiv (dint height) perpendicular), map_at m (cy map_pos) (cx map_pos) with
  | Some lh, Some cell =>
      let line_height := u32 lh in
      let higher := i32 (u32 (Z.quot height 2 - Z.quot line_height 2)) in
      let higher := if higher <? 0 then 0 else higher in
      let lower := i32 (u32 (higher + line_height)) in
      let lower := if height <=? lower then height - 1 else lower in
      let x_hit := if Utils.side h =? 0 then dadd (vy pos) (dmul perpendicular (vy ray_dir))
                   else dadd (vx pos) (dmul perpendicular (vx ray_dir)) in
      let x_hit := dsub x_hit (dfloor x_hit) in
      match dto_int (dmul x_hit (dint MAX_SPRITE_WIDTH)), wall_texture (Some (Z.rem cell 7 - 1)) with
      | Some hit_x, Some _ =>
          let flip := ((Utils.side h =? 0) && dgt (vx ray_dir) d0) || ((Utils.side h =? 1) && dlt (vy ray_dir) d0) in
          let hit_x := if flip then MAX_SPRITE_WIDTH - hit_x - 1 else hit_x in
          let step := ddiv (dint MAX_SPRITE_HEIGHT) (dint line_height) in
          let tex_y := dmul (dint (u32 (higher - Z.quot height 2 + Z.quot line_height 2))) step in
          let darken_factor :=
            if dgt range d0
            then dsub (dint 1) (ddiv (dmul (dsub (distance h) (dint START_DARKEN)) (dint 1)) (dsub range (dint START_DARKEN)))
            else dint 0 in
          Some (l <| dist := perpendicular |> <| draw_higher := higher |> <| draw_lower := lower |>
                  <| texture := mk_line_tex (dge perpendicular (dint START_DARKEN)) hit_x tex_y step (-1)
                       (Utils.side h) darken_factor (Some (Z.rem cell 7 - 1)) |>)
      | _, _ => None
      end
  | _, _ => None
  end.

(** The columns [xs]: each line, the highest and the lowest row. *)
Fixpoint cast_columns (m : map_t) (player : player_info_t) (width height : Z) (range : double) (xs : list Z)
    (highest lowest : Z) : prog graphics_data (Z * Z) :=
  match xs with
  | [] => ret (highest, lowest)
  | x :: xs =>
      let it := dsub (ddiv (dmul (dint 2) (dint x)) (dint width)) (dint 1) in
      let ray_dir := mk_vec (dadd (vx (direction player)) (dmul (vx (camera_plane player)) it))
                            (dadd (vy (direction player)) (dmul (vy (camera_plane player)) it)) in
      h <- lift (shoot_ray m (position player) ray_dir zero_ray_hit range) ;;
      l <- line_at x ;;
      if negb (hit h =? 0) then
        l <- defined (wall_line m (position player) ray_dir height range h l) ;;
        set_line x l ;;;
        cast_columns m player width height range xs
          (if u32 (draw_higher l) <? highest then draw_higher l else highest)
          (if lowest <? u32 (draw_lower l) then draw_lower l else lowest)
      else
        set_line x (l <| dist := dint (-1) |> <| draw_higher := i32 height |>) ;;;
        cast_columns m player width height range xs highest lowest
  end.

Definition display_map (w : world) (range : double) : prog graphics_data Z :=
  height <- gets v_res ;;
  width <- gets h_res ;;
  ls <- gets vlines ;;
  ls <- defined (deref ls) ;;
  modify (fun g => g <| vlines := Live (replicate (length ls) zero_line) |>) ;;;
  let range := dadd range (dint START_DARKEN) in
  '(highest_wall, lowest_wall) <- cast_columns (w_map w) (w_player w) width height range (seqZ 0 width) height 0 ;;
  err <- clear_screen ;;
  if err =? 2 then ret 1 else draw_walls (i32 highest_wall) (i32 lowest_wall).

(** ** The HUD *)
Definition render_hud (ply : player_info_t) : prog graphics_data unit :=
  width <- gets h_res ;;
  height <- gets v_res ;;
  _ <- draw_sprite (mk_pair 0 (long (height - cy (texture_size (sprite_of hud_sprite))))) (sprite_of hud_sprite) ;;
  let hp := if health ply <? 0 then 0 else health ply in
  let y := long (height - 125) in
  _ <- render_number hp (mk_pair 175 y) 3 ;;
  gi <- defined (gun_in_hand ply) ;;
  pos <- render_number (curr_ammo gi) (mk_pair 15 y) 2 ;;
  pos <- render_number (curr_packets gi) (pos <| px := 410 |>) 1 ;;
  pos <- render_number (armor ply) (pos <| px := 650 |>) 3 ;;
  let gun_sprite := sprite_of (menu_sprite (gi_gun gi)) in
  _ <- draw_sprite (mk_pair (long (Z.quot width 2 - Z.quot (cx (texture_size gun_sprite)) 2))
                      (long (height - 60 - Z.quot (cy (texture_size gun_sprite)) 2))) gun_sprite ;;
  ret tt.
End Render.

(** ** Far to near *)

(** [a] is drawn before [b]: it is not nearer. *)
Definition far (a b : render_t) : Prop := dlt (r_distance a) (r_distance b) = false.
Definition in_view (r : render_t) : Prop := dle (r_distance r) d0 = false.

Lemma dlt_asym x y : dlt x y = true -> dlt y x = false.
Proof. intros H. destruct (dlt y x) eqn:E; [|done]. pose proof (dlt_trans _ _ _ H E) as Hx. by rewrite dlt_irrefl in Hx. Qed.

(** Where a new object goes. *)
Fixpoint insert_far (v : render_t) (l : list render_t) : list render_t :=
  match l with
  | [] => [v]
  | r :: l => if dlt (r_distance r) (r_distance v) then v :: r :: l else r :: insert_far v l
  end.

Lemma insert_far_perm v l : insert_far v l ≡ₚ v :: l.
Proof.
  induction l as [|r l IH]; [done|]. cbn [insert_far]. destruct (dlt _ _); [done|].
  rewrite IH. apply Permutation_swap.
Qed.
Lemma insert_far_sorted v l : StronglySorted far l -> StronglySorted far (insert_far v l).
Proof.
  induction 1 as [|r l Hl IH Hr]; [by repeat constructor|]. cbn [insert_far]. destruct (dlt _ _) eqn:E.
  - constructor; [by constructor|]. constructor; [by apply dlt_asym|].
    eapply Forall_impl; [exact Hr|]. intros y Hy. unfold far in *. destruct (dlt (r_distance v) (r_distance y)) eqn:E2; [|done].
    by rewrite (dlt_trans _ _ _ E E2) in Hy.
  - constructor; [done|]. rewrite insert_far_perm. by constructor.
Qed.
Lemma insert_far_length v l : length (insert_far v l) = S (length l).
Proof. by rewrite insert_far_perm. Qed.

(** The element between two parts of an array. *)
Lemma aget_middle {A} (pre : list A) x l : aget (pre ++ x :: l) (alen pre) = Some x.
Proof. unfold alen. rewrite aget_lookup. by apply list_lookup_middle. Qed.
Lemma aset_middle {A} (pre : list A) x y l : aset (pre ++ x :: l) (alen pre) y = Some (pre ++ y :: l).
Proof.
  unfold aset. rewrite aget_middle. f_equal. unfold alen. rewrite Nat2Z.id.
  by rewrite (insert_app_r_alt _ _ _ _ (Nat.le_refl _)), Nat.sub_diag.
Qed.
Lemma seqZ_from {A} (pre l : list A) (i n : Z) : i = alen pre -> n = alen l + 1 -> 
  seqZ i n = i :: seqZ (i + 1) (alen l).
Proof. intros -> ->. unfold alen. rewrite seqZ_cons by lia. f_equal. f_equal; lia. Qed.

Lemma shift_loop_spec v pre l j tail : Forall in_view l ->
  shift_loop (seqZ (alen pre) (alen l + 1)) v (pre ++ l ++ j :: tail) = Some (pre ++ v :: l ++ tail).
Proof.
  intros Hl. revert v pre. induction Hl as [|r l Hr Hl IH]; intros v pre;
    rewrite (seqZ_from pre _ _ _ eq_refl eq_refl); cbn [shift_loop app].
  - rewrite aget_middle, aset_middle. by destruct (dle _ _).
  - rewrite aget_middle, aset_middle. rewrite Hr.
    specialize (IH r (pre ++ [v])). rewrite <- !app_assoc in IH. cbn [app] in IH.
    replace (alen (pre ++ [v])) with (alen pre + 1) in IH by (unfold alen; rewrite length_app; cbn; lia).
    replace (alen (r :: l)) with (alen l + 1) by (unfold alen; cbn [length]; lia). exact IH.
Qed.

Lemma insert_loop_spec v pre l j tail : Forall in_view l ->
  insert_loop (seqZ (alen pre) (alen l + 1)) (alen pre + alen l + 1) v (pre ++ l ++ j :: tail) =
  Some (pre ++ insert_far v l ++ tail).
Proof.
  intros Hl. revert pre. induction Hl as [|r l Hr Hl IH]; intros pre.
  - rewrite (seqZ_from pre _ _ _ eq_refl eq_refl). cbn [insert_loop app].
    change (alen ([] : list render_t)) with 0.
    destruct (Z.eqb_spec (alen pre) (alen pre + 0 + 1 - 1)); [|lia]. by rewrite aset_middle.
  - assert (alen (r :: l) = alen l + 1) as El by (unfold alen; cbn [length]; lia). assert (0 <= alen l) by (unfold alen; lia).
    rewrite (seqZ_from pre _ _ _ eq_refl eq_refl). cbn [insert_loop app]. rewrite El.
    destruct (Z.eqb_spec (alen pre) (alen pre + (alen l + 1) + 1 - 1)); [lia|].
    rewrite aget_middle. cbn [insert_far]. destruct (dlt _ _) eqn:E.
    + pose proof (shift_loop_spec v pre (r :: l) j tail ltac:(by constructor)) as Hs. rewrite El in Hs.
      replace (alen pre + (alen l + 1) + 1 - alen pre) with (alen l + 1 + 1) by lia. exact Hs.
    + specialize (IH (pre ++ [r])). rewrite <- !app_assoc in IH. cbn [app] in IH.
      replace (alen (pre ++ [r])) with (alen pre + 1) in IH by (unfold alen; rewrite length_app; cbn; lia).
      replace (alen pre + (alen l + 1) + 1) with (alen pre + 1 + alen l + 1) by lia. exact IH.
Qed.

(** An array whose first part holds the objects so far. *)
Definition holds (s : list render_t * Z) (l : list render_t) : Prop :=
  s.2 = alen l /\ Forall in_view l /\ exists free, s.1 = l ++ free.

(** Inserting keeps the objects in order, as long as there is room. *)
Lemma renders_insert_spec v s l : holds s l -> alen l < alen s.1 -> StronglySorted far l ->
  exists s' l', renders_insert_sorted v s = Some s' /\ holds s' l' /\ alen s'.1 = alen s.1 /\ StronglySorted far l' /\
    l' ≡ₚ (if dle (r_distance v) d0 then l else v :: l).
Proof.
  destruct s as [arr size]. intros (Hsize & Hl & [free Harr]) Hroom Hs. cbn in *. subst arr size.
  unfold renders_insert_sorted. destruct (dle (r_distance v) d0) eqn:Ev.
  { exists (l ++ free, alen l), l. split; [done|]. split; [by split; [|split; [|exists free]]|]. done. }
  destruct free as [|j tail]; [rewrite app_nil_r in Hroom; lia|].
  pose proof (insert_loop_spec v [] l j tail Hl) as Hi. change (alen ([] : list render_t)) with 0 in Hi.
  rewrite Z.add_0_l in Hi. cbn [app] in Hi. rewrite Hi.
  eexists _, (insert_far v l). split; [reflexivity|]. split; [split; [|split]|split; [|split]].
  - cbn. unfold alen. rewrite insert_far_length. lia.
  - rewrite insert_far_perm. by constructor.
  - by exists tail.
  - cbn. unfold alen. rewrite !length_app, insert_far_length. cbn. lia.
  - by apply insert_far_sorted.
  - apply insert_far_perm.
Qed.

Section Scene.
Context {LM : Libm} (settings : settings_t).

Lemma render_object_reads player r rel range : keeps id (render_object settings player r rel range).
Proof. unfold render_object. keeps_tac. Qed.
#[local] Hint Resolve render_object_reads : framing.
Lemma render_player_reads p1 p2 range : keeps id (render_player settings p1 p2 range).
Proof. unfold render_player. keeps_tac. Qed.
Lemma render_pickup_reads p1 pk range : keeps id (render_pickup settings p1 pk range).
Proof. unfold render_pickup. keeps_tac. Qed.

(** The objects in front of the player, from the players and from the
    pickups; [None] if the projection of one is undefined. *)
Fixpoint player_objects (player : player_info_t) (enemies : list player_info_t) (range : double)
    (g : graphics_data) : option (list render_t) :=
  match enemies with
  | [] => Some []
  | e :: enemies =>
      match player_objects player enemies range g with
      | None => None
      | Some l =>
          if negb (should_render e) then Some l else
          match render_player settings player e range g with
          | Done (Some (a, b, c), _) => Some (a :: b :: c :: l)
          | Done (None, _) => Some l
          | _ => None
          end
      end
  end.
Fixpoint pickup_objects (w : world) (idxs : list Z) (range : double) (g : graphics_data) : option (list render_t) :=
  match idxs with
  | [] => Some []
  | i :: idxs =>
      match pickup_objects w idxs range g, pickup_at w i with
      | Some l, Done None => Some l
      | Some l, Done (Some pickup) =>
          if picked_up pickup then Some l else
          match render_pickup settings (w_player w) pickup range g with
          | Done (Some r, _) => Some (r :: l)
          | Done (None, _) => Some l
          | _ => None
          end
      | _, _ => None
      end
  end.

(** The objects that are not dropped for being at no distance. *)
Definition kept (l : list render_t) : list render_t := filter (fun r => dle (r_distance r) d0 = false) l.

Lemma kept_perm v l l0 : l ≡ₚ kept l0 -> (if dle (r_distance v) d0 then l else v :: l) ≡ₚ kept (v :: l0).
Proof. intros H. unfold kept. rewrite filter_cons. destruct (dle (r_distance v) d0); by rewrite H. Qed.

(** The state of the array: which objects it holds, with room for [n] more. *)
Record scene_ok (s : list render_t * Z) (cap n : Z) (seen : list render_t) : Prop := mk_scene_ok {
  sc_holds : exists l, holds s l /\ StronglySorted far l /\ l ≡ₚ kept seen /\ alen l + n <= cap;
  sc_cap : alen s.1 = cap;
}.

Lemma scene_insert v s cap n seen : scene_ok s cap n seen -> 1 <= n ->
  exists s', renders_insert_sorted v s = Some s' /\ scene_ok s' cap (n - 1) (v :: seen).
Proof.
  intros [(l & Hh & Hs & Hp & Hn) Hc] H1.
  destruct (renders_insert_spec v s l Hh) as (s' & l' & E & Hh' & Hl' & Hs' & Hp'); [lia|done|].
  exists s'. split; [done|]. split; [|lia]. exists l'. split; [done|]. split; [done|].
  split; [rewrite Hp'; by apply kept_perm|].
  assert (alen l' <= alen l + 1) as Hlen.
  { unfold alen. rewrite Hp'. destruct (dle _ _); cbn [length]; lia. }
  lia.
Qed.
Lemma scene_drop s cap n m seen : scene_ok s cap n seen -> m <= n -> scene_ok s cap m seen.
Proof. intros [(l & Hh & Hs & Hp & Hn) Hc] Hm. split; [|done]. exists l. split_and!; [done..|lia]. Qed.

Lemma player_renders_spec player enemies range s cap n seen g l :
  scene_ok s cap n seen -> 3 * alen enemies <= n -> player_objects player enemies range g = Some l ->
  exists s' seen', player_renders settings player enemies range s g = Done (s', g) /\
    scene_ok s' cap (n - 3 * alen enemies) seen' /\ seen' ≡ₚ l ++ seen.
Proof.
  revert s n seen l. induction enemies as [|e enemies IH]; intros s n seen l Hs Hn Hl; cbn [player_objects player_renders] in *.
  { injection Hl as <-. exists s, seen. split; [done|]. by rewrite Z.sub_0_r. }
  assert (alen (e :: enemies) = alen enemies + 1) as Ea by (unfold alen; cbn [length]; lia). rewrite Ea in *.
  destruct (player_objects player enemies range g) as [l0|] eqn:El; [|done].
  destruct (should_render e); cbn [negb] in *.
  2: { injection Hl as <-. destruct (IH s (n - 3) seen l0) as (s' & seen' & E & Hs' & Hp); [eapply scene_drop; [exact Hs|lia]|lia|done|].
    exists s', seen'. split; [done|]. split; [|done]. by replace (n - 3 * (alen enemies + 1)) with (n - 3 - 3 * alen enemies) by lia. }
  unfold bind. destruct (render_player settings player e range g) as [[o g']| |] eqn:Er; [|done..].
  assert (g' = g) as -> by exact (render_player_reads _ _ _ _ _ _ Er). destruct o as [[[a b] c]|]; injection Hl as <-.
  - destruct (scene_insert a s cap n seen Hs) as (s1 & E1 & Hs1); [unfold alen in *; lia|].
    destruct (scene_insert b s1 cap _ _ Hs1) as (s2 & E2 & Hs2); [unfold alen in *; lia|].
    destruct (scene_insert c s2 cap _ _ Hs2) as (s3 & E3 & Hs3); [unfold alen in *; lia|].
    cbn [insert_all]. rewrite E1, E2, E3. cbn [defined]. unfold ret.
    destruct (IH s3 (n - 3) (c :: b :: a :: seen) l0) as (s' & seen' & E & Hs' & Hp); [|lia|done|].
    { by replace (n - 3) with (n - 1 - 1 - 1) by lia. }
    exists s', seen'. split; [done|]. split; [by replace (n - 3 * (alen enemies + 1)) with (n - 3 - 3 * alen enemies) by lia|].
    rewrite Hp. cbn. solve_Permutation.
  - destruct (IH s (n - 3) seen l0) as (s' & seen' & E & Hs' & Hp); [eapply scene_drop; [exact Hs|lia]|lia|done|].
    exists s', seen'. split; [done|]. split; [|done]. by replace (n - 3 * (alen enemies + 1)) with (n - 3 - 3 * alen enemies) by lia.
Qed.

Lemma pickup_renders_spec w idxs range s cap n seen g l :
  scene_ok s cap n seen -> alen idxs <= n -> pickup_objects w idxs range g = Some l ->
  exists s' seen', pickup_renders settings w idxs range s g = Done (s', g) /\
    scene_ok s' cap (n - alen idxs) seen' /\ seen' ≡ₚ l ++ seen.
Proof.
  revert s n seen l. induction idxs as [|i idxs IH]; intros s n seen l Hs Hn Hl; cbn [pickup_objects pickup_renders] in *.
  { injection Hl as <-. exists s, seen. split; [done|]. by rewrite Z.sub_0_r. }
  assert (alen (i :: idxs) = alen idxs + 1) as Ea by (unfold alen; cbn [length]; lia). rewrite Ea in *.
  destruct (pickup_objects w idxs range g) as [l0|] eqn:El; [|done].
  assert (forall s1 seen1, scene_ok s1 cap (n - 1) seen1 -> exists s' seen',
    pickup_renders settings w idxs range s1 g = Done (s', g) /\ scene_ok s' cap (n - (alen idxs + 1)) seen' /\
    seen' ≡ₚ l0 ++ seen1) as Hnext.
  { intros s1 seen1 H1. destruct (IH s1 (n - 1) seen1 l0 H1) as (s' & seen' & E & Hs' & Hp); [lia|done|].
    exists s', seen'. split; [done|]. split; [|done]. by replace (n - (alen idxs + 1)) with (n - 1 - alen idxs) by lia. }
  unfold bind, lift. destruct (pickup_at w i) as [[pk|]| |]; [| |done..].
  2: { injection Hl as <-. apply Hnext. eapply scene_drop; [exact Hs|lia]. }
  destruct (picked_up pk); [injection Hl as <-; apply Hnext; eapply scene_drop; [exact Hs|lia]|].
  destruct (render_pickup settings (w_player w) pk range g) as [[o g']| |] eqn:Er; [|done..].
  assert (g' = g) as -> by exact (render_pickup_reads _ _ _ _ _ _ Er). destruct o as [r|]; injection Hl as <-.
  - destruct (scene_insert r s cap n seen Hs) as (s1 & E1 & Hs1); [unfold alen in *; lia|]. rewrite E1. cbn [defined].
    destruct (Hnext s1 (r :: seen) Hs1) as (s' & seen' & E & Hs' & Hp). exists s', seen'. split; [done|]. split; [done|].
    rewrite Hp. cbn. solve_Permutation.
  - apply Hnext. eapply scene_drop; [exact Hs|lia].
Qed.
End Scene.

(** C33: the painter's order.  When the projection of every player and pickup
    to be shown is defined, [setup_renders] fills its array, sized as
    [render_game] sizes it (three entries for every enemy, one for every
    pickup), without leaving it: the entries are exactly the players, bars
    and pickups in view, from the farthest to the nearest, so that drawing
    them in order never hides a near object behind a far one. *)
Theorem setup_renders_painter {LM : Libm} (settings : settings_t) w arr range g l1 l2 :
  let size := pickups_size (w_pickups w) in
  player_objects settings (w_player w) (w_enemies w) range g = Some l1 ->
  pickup_objects settings w (seqZ 1 (size - 1)) range g = Some l2 ->
  0 <= size -> 3 * alen (w_enemies w) + size <= alen arr ->
  exists arr' n, setup_renders settings w arr range g = Done ((arr', n), g) /\
    0 <= n <= alen arr' /\ alen arr' = alen arr /\
    StronglySorted far (take (Z.to_nat n) arr') /\ take (Z.to_nat n) arr' ≡ₚ kept (l1 ++ l2).
Proof.
  intros size H1 H2 Hsize Hcap. unfold setup_renders, bind.
  assert (scene_ok (arr, 0) (alen arr) (alen arr) []) as H0.
  { split; [|done]. exists []. split; [by split; [|split; [|exists arr]]|]. split; [constructor|]. split; [done|].
    unfold alen. cbn. lia. }
  destruct (player_renders_spec settings (w_player w) (w_enemies w) range (arr, 0) _ _ _ g l1 H0) as
    (s1 & seen1 & E1 & Hs1 & Hp1); [lia|done|]. rewrite E1.
  destruct (pickup_renders_spec settings w (seqZ 1 (size - 1)) range s1 _ _ _ g l2 Hs1) as
    ([arr' n] & seen2 & E2 & [(l & (Hn & Hl & [free Harr]) & Hsort & Hp & Hroom) Hlen] & Hp2); [|done|].
  { unfold alen. rewrite length_seqZ. unfold alen in Hcap. lia. }
  cbn in Hn, Harr, Hlen. exists arr', n. split; [exact E2|]. subst arr' n.
  assert (take (Z.to_nat (alen l)) (l ++ free) = l) as ->.
  { unfold alen. rewrite Nat2Z.id. apply take_app_length. }
  split; [unfold alen; rewrite length_app; lia|]. split; [done|]. split; [done|].
  rewrite Hp. unfold kept. rewrite Hp2, Hp1, app_nil_r. by rewrite Permutation_app_comm.
Qed.

(** ** Numbers *)
Section Numbers.
Variable sprite_of : slot -> sprite_t.

(** Sprites in a row, two pixels apart. *)
Fixpoint draw_row (ds : list Z) (pos : pair_t) : prog graphics_data pair_t :=
  match ds with
  | [] => ret pos
  | d :: ds =>
      _ <- draw_sprite pos (sprite_of (number d)) ;;
      draw_row ds (pos <| px ::= (fun x => i32 (x + (cx (texture_size (sprite_of (number d))) + 2))) |>)
  end.
(** The digits without the zeros in front, but at least the last one. *)
Fixpoint significant (ds : list Z) : list Z :=
  match ds with
  | [] => []
  | [d] => [d]
  | d :: ds => if d =? 0 then significant ds else d :: ds
  end.

Lemma number_loop_row digits pre ds g pos : digits = alen (pre ++ ds) ->
  number_loop sprite_of digits (seqZ (alen pre) (alen ds)) (pre ++ ds) true pos g = draw_row ds pos g.
Proof.
  intros ->. revert pre pos g. induction ds as [|d ds IH]; intros pre pos g; [done|].
  assert (alen (d :: ds) = alen ds + 1) as El by (unfold alen; cbn [length]; lia).
  rewrite El, (seqZ_from pre _ _ _ eq_refl eq_refl). cbn [number_loop draw_row]. unfold bind. rewrite aget_middle. cbn [defined ret orb].
  change (ret d g) with (Done (d, g)). cbn beta iota. destruct (draw_sprite _ _ g) as [[r g']| |]; [|done..].
  specialize (IH (pre ++ [d])). rewrite <- !app_assoc in IH. cbn [app] in IH.
  replace (alen (pre ++ [d])) with (alen pre + 1) in IH by (unfold alen; rewrite length_app; cbn; lia). apply IH.
Qed.

Lemma number_loop_significant pre ds g pos :
  number_loop sprite_of (alen (pre ++ ds)) (seqZ (alen pre) (alen ds)) (pre ++ ds) false pos g =
  draw_row (significant ds) pos g.
Proof.
  revert pre pos g. induction ds as [|d ds IH]; intros pre pos g; [done|].
  assert (alen (d :: ds) = alen ds + 1) as El by (unfold alen; cbn [length]; lia).
  assert (alen (pre ++ d :: ds) = alen pre + alen ds + 1) as Ea by (unfold alen; rewrite length_app; cbn [length]; lia).
  assert (alen (pre ++ [d]) = alen pre + 1) as Ep by (unfold alen; rewrite length_app; cbn; lia).
  destruct (d =? 0) eqn:Ed; [destruct ds as [|d' ds]|].
  - rewrite Ea, El. change (alen ([] : list Z)) with 0.
    rewrite (seqZ_from pre ([] : list Z) (alen pre) (0 + 1) eq_refl eq_refl).
    cbn [number_loop significant draw_row]. unfold bind. rewrite aget_middle. change (defined (Some d) g) with (Done (d, g)).
    cbn beta iota. rewrite Ed. cbn [orb negb]. by replace (alen pre =? alen pre + 0 + 1 - 1) with true by lia.
  - assert (0 < alen (d' :: ds)) as Hpos by (unfold alen; cbn [length]; lia). clear El.
    rewrite (seqZ_from pre (d' :: ds) (alen pre) (alen (d :: d' :: ds))) by (unfold alen; cbn [length]; lia).
    cbn [number_loop]. unfold bind. rewrite aget_middle. change (defined (Some d) g) with (Done (d, g)).
    cbn beta iota. rewrite Ed. cbn [orb negb]. rewrite Ea. destruct (Z.eqb_spec (alen pre) (alen pre + alen (d' :: ds) + 1 - 1)); [lia|].
    specialize (IH (pre ++ [d])). rewrite <- !app_assoc in IH. cbn [app] in IH. rewrite Ep, Ea in IH. rewrite IH.
    cbn [significant]. by rewrite Ed.
  - assert (significant (d :: ds) = d :: ds) as -> by (cbn; rewrite Ed; by destruct ds).
    rewrite <- (number_loop_row (alen (pre ++ d :: ds)) pre (d :: ds) g pos eq_refl). rewrite El.
    rewrite (seqZ_from pre _ _ _ eq_refl eq_refl). cbn [number_loop]. unfold bind. rewrite aget_middle.
    change (defined (Some d) g) with (Done (d, g)). cbn beta iota. by rewrite Ed.
Qed.

Lemma time_loop_row pre suf g pos :
  time_number_loop sprite_of (seqZ (alen pre) (alen suf)) (pre ++ suf) pos g = draw_row suf pos g.
Proof.
  revert pre pos g. induction suf as [|d suf IH]; intros pre pos g; [done|].
  assert (alen (d :: suf) = alen suf + 1) as El by (unfold alen; cbn [length]; lia).
  rewrite El, (seqZ_from pre _ _ _ eq_refl eq_refl). cbn [time_number_loop draw_row]. unfold bind. rewrite aget_middle.
  change (defined (Some d) g) with (Done (d, g)). cbn beta iota. destruct (draw_sprite _ _ g) as [[r g']| |]; [|done..].
  specialize (IH (pre ++ [d])). rewrite <- !app_assoc in IH. cbn [app] in IH.
  replace (alen (pre ++ [d])) with (alen pre + 1) in IH by (unfold alen; rewrite length_app; cbn; lia). apply IH.
Qed.

(** C34: a number on the screen.  A value that fits the digits asked for is
    drawn as its decimal digits without leading zeros (0 as a single 0), each
    where the one before ends, two pixels apart, and the position is left
    after the last; [render_time_number] keeps the zeros and draws all the
    digits.  A value with more digits writes in front of the array of
    digits. *)
Theorem numbers_drawn value max_digits pos g : 0 <= value <= INT_MAX -> 0 <= max_digits < 2 ^ 32 ->
  (value < 10 ^ max_digits -> exists ds, alen ds = max_digits /\ Forall (fun d => 0 <= d <= 9) ds /\
     digits_value ds = value /\
     render_number sprite_of value pos max_digits g = draw_row (significant ds) pos g /\
     render_time_number sprite_of value pos max_digits g = draw_row ds pos g) /\
  (10 ^ max_digits <= value -> render_number sprite_of value pos max_digits g = Undef /\
     render_time_number sprite_of value pos max_digits g = Undef).
Proof.
  intros Hv Hm. set (zeros := replicate (Z.to_nat max_digits) 0).
  assert (alen zeros = max_digits) as Hz by (unfold alen, zeros; rewrite length_replicate; lia).
  assert (0 <= value < 10 ^ Z.of_nat 10) as Hfuel by (unfold INT_MAX in *; lia).
  unfold render_number, render_time_number, bind, lift, digitize. fold zeros. rewrite <- Hz.
  split; intros H.
  - destruct (digitize_loop_ok 10 value zeros []) as (ds & Hds & Hl & Hf & Hval); [done|done|rewrite app_nil_r; lia|].
    rewrite !app_nil_r in Hds. change (alen []) with 0 in Hds. rewrite Hds.
    set (all := take (length zeros - length ds) zeros ++ ds). exists all.
    assert (take (length zeros - length ds) zeros = replicate (length zeros - length ds) 0) as Et.
    { unfold zeros. rewrite take_replicate, length_replicate. f_equal. lia. }
    assert (alen all = alen zeros) as Ha.
    { unfold alen, all. rewrite length_app, Et, length_replicate. lia. }
    split; [done|]. split; [|split; [|split]].
    + unfold all. rewrite Et. apply Forall_app. split; [by apply Forall_replicate; lia|done].
    + unfold all. rewrite Et, <- Hval. unfold digits_value. rewrite foldl_app. f_equal.
      generalize (length zeros - length ds)%nat. clear. intros k. by induction k.
    + rewrite <- Ha. apply (number_loop_significant [] all).
    + rewrite <- Ha. apply (time_loop_row [] all).
  - pose proof (digitize_loop_overflow 10 value zeros []) as Ho. rewrite !app_nil_r in Ho. change (alen []) with 0 in Ho.
    rewrite Ho; [done..|lia].
Qed.
End Numbers.


(** ** The colour of the health bar *)

(** For every health up to a maximum of at most 100, the index computed
    in doubles is the sixth of the maximum the health is in, rounded up, less
    one: always one of the six colours, the first only in the last sixth. *)
Lemma health_color_exact hp max_hp : 0 <= hp <= max_hp -> 0 < max_hp <= 100 ->
  let i := Z.max 0 ((6 * hp + max_hp - 1) / max_hp - 1) in
  health_idx hp max_hp = Some i /\ 0 <= i < alen health_colors.
Proof.
  intros Hh Hm i.
  assert (forallb (fun h => forallb (fun m => if (h <=? m) && (0 <? m) then
    bool_decide (health_idx h m = Some (Z.max 0 ((6 * h + m - 1) / m - 1))) else true) (seqZ 0 101)) (seqZ 0 101) = true)
    as Hall by (vm_compute; reflexivity).
  pose proof (forall_below 101 _ Hall hp ltac:(lia)) as Hrow. cbn beta in Hrow.
  pose proof (forall_below 101 _ Hrow max_hp ltac:(lia)) as Hcell. cbn beta in Hcell.
  destruct (Z.leb_spec hp max_hp), (Z.ltb_spec 0 max_hp); try lia. cbn [andb] in Hcell.
  apply bool_decide_eq_true_1 in Hcell. split; [exact Hcell|]. change (alen health_colors) with 6. unfold i.
  assert ((6 * hp + max_hp - 1) / max_hp < 7) by (apply Z.div_lt_upper_bound; lia). lia.
Qed.

(** ** Examples *)
Definition img (sl : slot) : sprite_t := dot.
Definition watcher : world :=
  (duel 50) <| w_player ::= (fun p => p <| camera_plane := mk_vec d0 (dlit 2 3) |>) |>
    <| w_enemies ::= fmap (fun e => e <| should_render := true |>) |>.
Definition room (n : nat) : list render_t := replicate n zero_render.

Lemma numbers_drawn_witness :
  exists ds, digits_value ds = 50 /\
    render_number img 50 (mk_pair 0 0) 3 (small_screen []) = draw_row img (significant ds) (mk_pair 0 0) (small_screen []) /\
    exists g', render_number img 50 (mk_pair 0 0) 3 (small_screen []) = Done (mk_pair 8 0, g').
Proof.
  destruct (proj1 (numbers_drawn img 50 3 (mk_pair 0 0) (small_screen []) ltac:(unfold INT_MAX; lia) ltac:(lia)))
    as (ds & Hl & Hf & Hv & E & _); [lia|].
  exists ds. split; [exact Hv|]. split; [exact E|]. eexists. vm_compute. reflexivity.
Defined.

Lemma health_color_exact_at : health_idx 50 100 = Some 2 /\ aget health_colors 2 = Some 0xff8e15.
Proof.
  destruct (health_color_exact 50 100 ltac:(lia) ltac:(lia)) as [E _]. split; [exact E|reflexivity].
Defined.

Lemma setup_renders_painter_witness :
  exists arr', setup_renders init_settings watcher (room 3) (dint 10) (small_screen []) = Done ((arr', 3), small_screen []) /\
    StronglySorted far arr'.
Proof.
  destruct (setup_renders_painter init_settings watcher (room 3) (dint 10) (small_screen [])
    (match player_objects init_settings (w_player watcher) (w_enemies watcher) (dint 10) (small_screen []) with Some l => l | None => [] end)
    []) as (arr' & n & E & Hn & Hl & Hs & _).
  - vm_compute. reflexivity.
  - reflexivity.
  - vm_compute. discriminate.
  - vm_compute. discriminate.
  - assert (n = 3) as -> by (vm_compute in E; injection E as _ <-; reflexivity).
    exists arr'. split; [exact E|]. rewrite <- (take_ge arr' 3); [exact Hs|].
    unfold alen in Hl. cbn in Hl. lia.
Defined.

(** *** A wall drawn past its texture

    A corridor two cells long, a nearer wall on its left. *)
Definition two_walls : map_t := mk_map [Some [1; 1; 1; 1]; Some [1; 1; 1; 1]; Some [0; 0; 0; 1]] 3 4.
Definition two_columns : graphics_data :=
  (small_screen []) <| h_res := 2 |> <| v_res := 128 |> <| vlines := Live (replicate 2 zero_line) |>
    <| vmem := replicate 3 (replicate 256 0) |>.
Definition visitor_at (m : map_t) : world :=
  watcher <| w_map := m |>
    <| w_player ::= (fun p => p <| position := mk_vec (dint 1) (dlit 11 4) |> <| direction := mk_vec (dint 1) d0 |>
                                <| camera_plane := mk_vec d0 (dlit 1 2) |>) |>.
Definition bricks (rows : nat) (sl : slot) : sprite_t :=
  mk_sprite (mk_coord 0 0) (mk_coord 80 (Z.of_nat rows)) 9 0 0 (replicate (80 * rows) 5).

(** A column of the wall is drawn on both its first and its last row, one
    row more than its height, so the last row reads texture row 80 of a
    texture of 80 rows: two columns of different height are enough for
    [draw_walls] to read behind the texture.  With one row more of texels the
    same view is drawn. *)
Lemma draw_walls_overruns :
  display_map (bricks 80) (visitor_at two_walls) (dint 10) two_columns = Undef /\
  exists g', display_map (bricks 81) (visitor_at two_walls) (dint 10) two_columns = Done (OK, g').
Proof. split; [vm_compute; reflexivity|]. eexists. vm_compute. reflexivity. Qed.
