(* ===== verification/Game.v ===== *)
(** * Game

    The state of the whole program: the drivers, the world, the screen and the
    statics of [src/proj/system/game/game_manager.c], [level_manager.c] and
    [inventory/menu.c] in one record, and how each component's program runs on
    its part of it.  The drivers share one machine, the controls belong to the
    player of the world and the clock to the world, so a component's record is
    filled with the shared parts before it runs and they are taken back
    afterwards. *)

From stdpp Require Import strings.
From S2P Require Import Prelude Hardware Timer Kbc Rtc Queue Uart Doubles MapFile Utils Sprites Guns Controls.
From S2P Require Import Players Pickups Battle Network Enemies Video.

(** [game_state_t] of [game_manager.h] and [enum menu_state] of [menu.h]. *)
Inductive game_state_t : Type :=
| MAIN_MENU | MP_MENU | GAME | MP_GAME | DEAD_MENU | NEXT_LVL_MENU | END_S_GAME | END_M_GAME
| WIN_GAME | LOSE_GAME | DISCONNECT | EXIT.
#[global] Instance game_state_eq_dec : EqDecision game_state_t.
Proof. solve_decision. Defined.
Inductive menu_state : Type := CLOSED | DISPLAYING.
#[global] Instance menu_state_eq_dec : EqDecision menu_state.
Proof. solve_decision. Defined.

(** What the program meets that is not in its code: the map files, the
    screen's modes and old contents, the sprites behind the global pointers
    once loaded and whether their pixel blocks could be allocated, what
    uninitialised objects hold, how much larger than asked a block is,
    whether a freed block can still be read, and the fuel of the loops that
    wait for the machine. *)
Class Outside : Type := {
  map_files : string -> option (list Z);
  row_junk : Z;
  row_slack : nat;
  mode_info : Z -> vbe_mode_info_t;
  old_memory : Z -> list Z;
  pixels_ok : positive -> bool;
  sprite_of : slot -> sprite_t;
  junk_pickup : pickup_t;
  junk_index : Z;
  junk_hit : bool;
  junk_position : vector_t;
  stale : bool;
  fuel : nat;
}.

(** The copies of the shared parts inside the components' records are
    overwritten at every entry.  [map_block] is the block of rows of the map,
    [guns_block] the block behind [player.guns], [freed_anims] the animation
    arrays of guns that were freed. *)
Record game (D S R : Type) : Type := mk_game {
  g_hw : hw D;
  g_world : world;
  g_timer : timer D;
  g_input : input D;
  g_rtc : rtc D;
  g_net : network D S;
  g_ai : ai R;
  g_video : graphics_data;
  g_sprites : sprite_store;
  g_settings : settings_t;
  g_guns : list gun_t;
  g_state : game_state_t;
  gun_menu_state : menu_state;
  curr_lvl : Z;
  map_block : ptr unit;
  guns_block : ptr unit;
  freed_anims : list nat;
}.
Arguments mk_game {D S R}.
Arguments g_hw {D S R}.
Arguments g_world {D S R}.
Arguments g_timer {D S R}.
Arguments g_input {D S R}.
Arguments g_rtc {D S R}.
Arguments g_net {D S R}.
Arguments g_ai {D S R}.
Arguments g_video {D S R}.
Arguments g_sprites {D S R}.
Arguments g_settings {D S R}.
Arguments g_guns {D S R}.
Arguments g_state {D S R}.
Arguments gun_menu_state {D S R}.
Arguments curr_lvl {D S R}.
Arguments map_block {D S R}.
Arguments guns_block {D S R}.
Arguments freed_anims {D S R}.
#[global] Instance eta_game {D S R} : Eta (game D S R) := fun g =>
  mk_game (g_hw g) (g_world g) (g_timer g) (g_input g) (g_rtc g) (g_net g) (g_ai g) (g_video g) (g_sprites g)
    (g_settings g) (g_guns g) (g_state g) (gun_menu_state g) (curr_lvl g) (map_block g) (guns_block g)
    (freed_anims g).

Section Game.
Context {D : Type} `{!Device D} {S : Type} {QS : QueueStore S} {R : Type} `{!Rand R} {LM : Libm} {OU : Outside}.
Abbreviation G := (game D S R).

(** ** The components' parts *)
Definition on_hw {A} (m : prog (hw D) A) : prog G A := zoom g_hw (fun h g => g <| g_hw := h |>) m.
Definition on_world {A} (m : prog world A) : prog G A := zoom g_world (fun w g => g <| g_world := w |>) m.
Definition on_video {A} (m : prog graphics_data A) : prog G A := zoom g_video (fun v g => g <| g_video := v |>) m.
Definition on_sprites {A} (m : prog sprite_store A) : prog G A :=
  zoom g_sprites (fun s g => g <| g_sprites := s |>) m.

Definition get_timer (g : G) : timer D :=
  (g_timer g) <| tm_hw := g_hw g |> <| Timer.time_counter := time_counter (g_world g) |>.
Definition put_timer (t : timer D) (g : G) : G :=
  g <| g_hw := tm_hw t |> <| g_timer := t |>
    <| g_world ::= (fun w => w <| time_counter := Timer.time_counter t |>) |>.
Definition on_timer {A} (m : prog (timer D) A) : prog G A := zoom get_timer put_timer m.

Definition get_rtc (g : G) : rtc D := (g_rtc g) <| rtc_hw := g_hw g |>.
Definition put_rtc (r : rtc D) (g : G) : G := g <| g_hw := rtc_hw r |> <| g_rtc := r |>.
Definition on_rtc {A} (m : prog (rtc D) A) : prog G A := zoom get_rtc put_rtc m.

(** [player.movm] *)
Definition set_movm (c : controls_t) (g : G) : G :=
  g <| g_world ::= (fun w => w <| w_player ::= (fun p => p <| p_movm := c |>) |>) |>.
Definition get_input (g : G) : input D :=
  (g_input g) <| in_kbc ::= (fun k => k <| kbc_hw := g_hw g |>) |> <| movm := p_movm (w_player (g_world g)) |>.
Definition put_input (i : input D) (g : G) : G :=
  set_movm (movm i) (g <| g_hw := kbc_hw (in_kbc i) |> <| g_input := i |>).
Definition on_input {A} (m : prog (input D) A) : prog G A := zoom get_input put_input m.
Definition on_kbc {A} (m : prog (kbc D) A) : prog G A := on_input (Controls.on_kbc m).

Definition get_net (g : G) : network D S :=
  (g_net g) <| n_uart ::= (fun u => u <| ua_hw := g_hw g |>) |> <| n_world := g_world g |>.
Definition put_net (n : network D S) (g : G) : G :=
  g <| g_hw := ua_hw (n_uart n) |> <| g_net := n |> <| g_world := n_world n |>.
Definition on_net {A} (m : prog (network D S) A) : prog G A := zoom get_net put_net m.
Definition on_uart {A} (m : prog (uart D S) A) : prog G A := on_net (Network.on_uart m).

Definition get_ai (g : G) : ai R := (g_ai g) <| ai_world := g_world g |>.
Definition put_ai (a : ai R) (g : G) : G := g <| g_ai := a |> <| g_world := ai_world a |>.
Definition on_ai {A} (m : prog (ai R) A) : prog G A := zoom get_ai put_ai m.

(** ** Shared by the managers *)
Definition get_state : prog G game_state_t := gets g_state.

(** [set_state]: the update interrupts are switched on when the main menu is
    left. *)
Definition set_state (t_state : game_state_t) : prog G unit :=
  state <- get_state ;;
  (if decide (state = MAIN_MENU) then _ <- on_hw enable_uie_int ;; ret tt else ret tt) ;;;
  modify (fun g => g <| g_state := t_state |>).

(** [(st == GAME || st == MP_GAME) && gun_menu_state == CLOSED] *)
Definition playing (g : G) : bool :=
  (bool_decide (g_state g = GAME) || bool_decide (g_state g = MP_GAME)) && bool_decide (gun_menu_state g = CLOSED).

Definition init_player_ctrls : prog G unit := modify (set_movm zero_controls).
End Game.
