(* ===== verification/Level.v ===== *)
(** * Level

    [src/proj/system/game/level_manager.c]: what is loaded and freed for a
    level, the two single-player levels and the multiplayer arena, and the
    blocks of memory a level owns. *)

From S2P Require Import Prelude Hardware Timer Kbc Rtc Queue Uart Doubles MapFile Utils Sprites Guns Controls.
From S2P Require Import Players Pickups Battle Network Enemies Video Game.

Definition LAST_LVL : Z := 2.

Section Level.
Context {D : Type} `{!Device D} {S : Type} {QS : QueueStore S} {R : Type} `{!Rand R} {LM : Libm} {OU : Outside}.
Abbreviation G := (game D S R).

(** ** Players *)

(** [init_player(...)] of [player.c], which reallocates [enemies] for anybody
    but the player; the direction is left normalised. *)
Definition init_player (type : player_type_t) (pos dir : vector_t) (radius : double)
    (hp max_hp arm max_arm : Z) (instances : list gun_instance_t) (num_guns : Z) : prog G vector_t :=
  room <- (if decide (type = PLAYER) then ret true else on_ai alloc) ;;
  if negb room then undef else
  block <- on_ai alloc ;;
  settings <- gets g_settings ;;
  '(p, dir, counted) <- defined (Players.init_player (Controls.fov settings) block type pos dir radius
                                   hp max_hp arm max_arm instances num_guns) ;;
  (if decide (type = PLAYER) then
     modify (fun g => g <| g_world ::= (fun w => w <| w_player := p |>) |>
                        <| guns_block := if (block : bool) then Live tt else Null |>)
   else if (counted : bool) then modify (fun g => g <| g_world ::= (fun w => w <| w_enemies ::= (fun es => es ++ [p]) |>) |>)
   else ret tt) ;;;
  ret dir.

(** Frees the guns of everybody and the array of enemies: every counted enemy
    has a block of guns of its own. *)
Definition free_players : prog G unit :=
  b <- gets guns_block ;;
  b <- defined (free_ptr b) ;;
  modify (fun g => g <| guns_block := b |> <| g_world ::= (fun w => w <| w_enemies := [] |>) |>).

(** [free(g->animations)] *)
Definition free_gun_anims (animations : nat) : prog G unit :=
  freed <- gets freed_anims ;;
  if decide (animations ∈ freed) then undef else modify (fun g => g <| freed_anims ::= cons animations |>).

(** [close_map(&map)]: what is left of the rows is leaked. *)
Definition close_map : prog G unit :=
  b <- gets map_block ;;
  m <- gets (fun g => w_map (g_world g)) ;;
  match b with
  | Live _ =>
      match MapFile.close_map m with
      | Done _ => modify (fun g => g <| map_block := Freed |>)
      | _ => undef
      end
  | Null => if 0 <? lines m then undef else ret tt
  | Freed => undef
  end.

(** ** The levels *)
Definition add_ammo (pos : vector_t) (ammo_index packets : Z) : prog G Z :=
  on_world (on_pickups (Pickups.add_ammo junk_pickup junk_index pos (dlit 5 10) ammo_index packets)).
Definition add_medkit (pos : vector_t) (health : Z) : prog G Z :=
  on_world (on_pickups (Pickups.add_medkit junk_pickup junk_index pos (dlit 5 10) health)).
Definition add_armor (pos : vector_t) (radius : double) (armor : Z) : prog G Z :=
  on_world (on_pickups (Pickups.add_armor junk_pickup junk_index pos radius armor)).
Definition create_gun_instance (gun_index start_ammo start_packets : Z) : prog G gun_instance_t :=
  guns <- gets g_guns ;; defined (Guns.create_gun_instance guns gun_index start_ammo start_packets).
Definition init_enemy (i : Z) (random : bool) (timeout : Z) (fov range : double) (num : Z) (pos : list vector_t) :
    prog G unit :=
  on_ai (Enemies.init_enemy (Enemy i) random timeout fov range num pos).
(** A point whose coordinates are given in tenths. *)
Definition at_ (x y : Z) : vector_t := mk_vec (dlit x 10) (dlit y 10).

Definition setup_game_1 : prog G unit :=
  set_state GAME ;;;
  i0 <- create_gun_instance 0 0 0 ;;
  i1 <- create_gun_instance 1 0 0 ;;
  i2 <- create_gun_instance 2 0 0 ;;
  _ <- init_player PLAYER (at_ 20 20) (at_ 10 20) (dlit 2 10) 50 100 0 100 [i0; i1; i2] 3 ;;
  _ <- add_ammo (at_ 40 30) 1 1 ;;
  _ <- add_medkit (at_ 40 35) 30 ;;
  _ <- add_armor (at_ 40 25) (dlit 5 10) 20 ;;
  _ <- init_player BOT (at_ 160 20) (at_ (-10) 0) (dlit 2 10) 50 50 0 1 [i0; i1; i2] 1 ;;
  _ <- add_ammo (at_ 200 25) 2 1 ;;
  i0 <- create_gun_instance 3 30 2 ;;
  _ <- init_player BOT (at_ 160 60) (at_ (-10) 0) (dlit 2 10) 50 50 0 1 [i0; i1; i2] 1 ;;
  _ <- init_player BOT (at_ 160 80) (at_ (-10) 0) (dlit 2 10) 50 50 0 1 [i0; i1; i2] 1 ;;
  (* the positions of the first are not assigned yet *)
  init_enemy 1 true 120 (dint 45) (dint 10) 2 [junk_position; junk_position] ;;;
  init_enemy 2 false 120 (dint 45) (dint 10) 2 [at_ 160 70; at_ 160 90].

(** The bots of the second level: position, health and its maximum, armor and
    its maximum; the direction is the one the last bot was left with, unless
    one is given. *)
Definition bot_data : Type := option vector_t * vector_t * Z * Z * Z * Z.
Definition level_2_bots : list bot_data :=
  [(Some (at_ 10 0), at_ 20 60, 50, 50, 0, 1);
   (Some (at_ (-10) 0), at_ 170 60, 50, 50, 0, 1);
   (Some (at_ 10 0), at_ 130 10, 50, 50, 0, 10);
   (Some (at_ (-10) 0), at_ 130 20, 50, 50, 0, 10);
   (Some (at_ 0 (-10)), at_ 160 110, 50, 50, 0, 100);
   (Some (at_ 0 20), at_ 240 80, 50, 50, 25, 100);
   (None, at_ 280 30, 50, 50, 25, 100);
   (None, at_ 320 110, 50, 50, 25, 100);
   (None, at_ 190 210, 50, 50, 50, 100);
   (None, at_ 30 200, 50, 50, 50, 100);
   (None, at_ 110 160, 50, 50, 50, 100);
   (None, at_ 70 305, 100, 100, 100, 100);
   (None, at_ 110 310, 100, 100, 100, 100)].
Definition level_2_strong_bots : list bot_data :=
  [(None, at_ 325 275, 20, 20, 150, 150);
   (None, at_ 370 90, 10, 10, 10, 10)].
Fixpoint init_bots (bots : list bot_data) (dir : vector_t) (instances : list gun_instance_t) : prog G vector_t :=
  match bots with
  | [] => ret dir
  | (d, pos, hp, max_hp, arm, max_arm) :: bots =>
      dir <- init_player BOT pos (default dir d) (dlit 2 10) hp max_hp arm max_arm instances 1 ;;
      init_bots bots dir instances
  end.

(** The controllers: enemy, timeout, field of view, range and positions. *)
Definition guard_data : Type := Z * Z * double * double * list vector_t.
Definition level_2_controllers : list guard_data :=
  [(0, 120, dint 45, dint 10, [at_ 80 60; at_ 20 60]);
   (1, 120, dint 45, dint 10, [at_ 80 60; at_ 170 60]);
   (2, 120, dint 45, dint 10, [at_ 160 10; at_ 130 10]);
   (3, 120, dint 45, dint 10, [at_ 100 20; at_ 130 20]);
   (4, 15, dint 45, dint 6, [at_ 160 110]);
   (5, 15, dint 45, dint 6, [at_ 240 80]);
   (6, 15, dint 45, dint 6, [at_ 280 30]);
   (7, 15, dint 45, dint 6, [at_ 320 110]);
   (8, 15, dint 45, dint 6, [at_ 190 210]);
   (9, 15, dint 45, dint 6, [at_ 30 200]);
   (10, 15, dint 45, dint 6, [at_ 110 160]);
   (11, 15, dint 45, dint 6, [at_ 70 305]);
   (12, 15, dint 45, dint 6, [at_ 70 305]);
   (13, 260, dint 5, dint 15, [at_ 325 205; at_ 325 275]);
   (14, 5, dint 45, dint 6, [at_ 370 90])].
Definition init_enemies (l : list guard_data) : prog G unit :=
  for_each l (fun '(i, timeout, fov, range, pos) => init_enemy i false timeout fov range (alen pos) pos).

Definition level_2_ammo : list (vector_t * Z) :=
  [(at_ 45 125, 1); (at_ 35 125, 1); (at_ 85 25, 0); (at_ 385 65, 2); (at_ 385 125, 1); (at_ 385 115, 0);
   (at_ 195 185, 0); (at_ 105 205, 0); (at_ 105 195, 1); (at_ 345 215, 2); (at_ 265 295, 0); (at_ 215 275, 0)].
Definition level_2_medkits : list vector_t := [at_ 15 95; at_ 75 115; at_ 365 25; at_ 45 165; at_ 265 315].
Definition level_2_armors : list (vector_t * Z) :=
  [(at_ 75 25, 30); (at_ 345 15, 30); (at_ 375 55, 30); (at_ 25 165, 30); (at_ 265 325, 50)].

Definition setup_game_2 : prog G unit :=
  set_state GAME ;;;
  i0 <- create_gun_instance 0 0 0 ;;
  i1 <- create_gun_instance 1 11 1 ;;
  i2 <- create_gun_instance 2 0 0 ;;
  dir <- init_player PLAYER (at_ 20 20) (at_ 10 20) (dlit 2 10) 50 100 0 100 [i0; i1; i2] 3 ;;
  on_world (update_player ThePlayer (switch_gun 1)) ;;;
  i0 <- create_gun_instance 3 30 2 ;;
  dir <- init_bots level_2_bots dir [i0; i1; i2] ;;
  i0 <- create_gun_instance 4 30 2 ;;
  _ <- init_bots level_2_strong_bots dir [i0; i1; i2] ;;
  init_enemies level_2_controllers ;;;
  for_each level_2_ammo (fun '(pos, k) => _ <- add_ammo pos k 1 ;; ret tt) ;;;
  for_each level_2_medkits (fun pos => _ <- add_medkit pos 30 ;; ret tt) ;;;
  for_each level_2_armors (fun '(pos, a) => _ <- add_armor pos (dlit 5 10) a ;; ret tt).

Definition arena_ammo : list (vector_t * Z) :=
  [(at_ 175 185, 0); (at_ 95 145, 1); (at_ 95 35, 2); (at_ 145 135, 0); (at_ 215 135, 0); (at_ 295 35, 0);
   (at_ 265 95, 1); (at_ 255 145, 2)].
Definition arena_armors : list vector_t := [at_ 165 85; at_ 165 75; at_ 285 165; at_ 215 125].

Definition setup_multiplayer (player : Z) : prog G Z :=
  set_state MP_GAME ;;;
  let '(p1_pos, p2_pos) := if player =? 2 then (at_ 390 170, at_ 20 20) else (at_ 20 20, at_ 390 170) in
  let '(p1_dir, p2_dir) := if player =? 2 then (at_ (-10) 0, at_ 10 0) else (at_ 10 0, at_ (-10) 0) in
  i0 <- create_gun_instance 0 0 0 ;;
  i1 <- create_gun_instance 1 0 0 ;;
  i2 <- create_gun_instance 2 0 0 ;;
  _ <- init_player PLAYER p1_pos p1_dir (dlit 2 10) 100 100 0 100 [i0; i1; i2] 3 ;;
  _ <- init_player NETWORK_PLAYER p2_pos p2_dir (dlit 2 10) 100 100 0 100 [i0; i1; i2] 3 ;;
  for_each arena_ammo (fun '(pos, k) => _ <- add_ammo pos k 2 ;; ret tt) ;;;
  for_each arena_armors (fun pos => _ <- add_armor pos (dlit 6 10) 30 ;; ret tt) ;;;
  ret OK.

(** [load_map(num_map, &map)] and [init_guns()] on the globals; the outcomes of
    the allocations are the ones the pickups draw from too. *)
Definition get_map (w : world) : map_t * list bool := (w_map w, mallocs (w_pickups w)).
Definition put_map (s : map_t * list bool) (w : world) : world :=
  w <| w_map := fst s |> <| w_pickups ::= (fun t => t <| mallocs := snd s |>) |>.
Definition load_map (num_map : Z) : prog G Z :=
  err <- on_world (zoom get_map put_map (MapFile.load_map row_junk row_slack map_files (u16 num_map))) ;;
  (if err =? OK then modify (fun g => g <| map_block := Live tt |>) else ret tt) ;;;
  ret err.
Definition init_guns : prog G Z :=
  gs <- on_world (on_anims Guns.init_guns) ;;
  modify (fun g => g <| g_guns := gs |>) ;;;
  ret OK.

Definition load_level (num_map mode player : Z) : prog G Z :=
  err <- load_map num_map ;;
  if negb (err =? OK) then ret err else
  m <- gets (fun g => w_map (g_world g)) ;;
  err <- on_world (on_pickups (init_collision_table (columns m) (lines m))) ;;
  if negb (err =? OK) then ret err else
  err <- init_guns ;;
  if negb (err =? OK) then ret err else
  (if mode =? 1 then
     if num_map =? 1 then modify (fun g => g <| curr_lvl := 1 |>) ;;; setup_game_1
     else if num_map =? 2 then modify (fun g => g <| curr_lvl := 2 |>) ;;; setup_game_2
     else ret tt
   else if mode =? 2 then
     _ <- setup_multiplayer player ;;
     modify (fun g => g <| curr_lvl := -1 |>)
   else ret tt) ;;;
  ret OK.

(** [free_level]: the animations of the player's guns are looked up in the
    block that [free_players] has freed. *)
Definition free_level : prog G Z :=
  gs <- gets (fun g => guns (w_player (g_world g))) ;;
  close_map ;;;
  free_players ;;;
  on_ai free_controllers ;;;
  on_world (on_pickups free_collision_table) ;;;
  on_world (on_pickups free_pickups) ;;;
  for_each (seqZ 0 3) (fun i =>
    if stale then gi <- defined (aget gs i) ;; free_gun_anims (animations (gi_gun gi)) else undef) ;;;
  _ <- on_hw disable_pie_int ;;
  _ <- on_hw rtc_reset_pie ;;
  ret OK.
End Level.
