(* ===== verification/Menu.v ===== *)
(** * Menu

    What is drawn for every state of the game and what its buttons do:
    [src/proj/system/game/main_menu.c], [src/proj/system/inventory/menu.c],
    the rest of [src/proj/system/graphics/render.c], and [gm_init_game] of
    [game_manager.c], which the buttons call. *)

From S2P Require Import Prelude Hardware Timer Kbc Rtc Queue Uart Doubles MapFile Utils Sprites Guns Controls.
From S2P Require Import Players Pickups Battle Network Enemies Video Render Game Level.

Definition ROUND_TIMER : Z := 160.

Section Menu.
Context {D : Type} `{!Device D} {S : Type} {QS : QueueStore S} {R : Type} `{!Rand R} {LM : Libm} {OU : Outside}.
Abbreviation G := (game D S R).

Definition gm_init_game (map_num game_mode player : Z) : prog G Z :=
  _ <- on_hw disable_uie_int ;;
  err <- load_level map_num game_mode player ;;
  if negb (err =? OK) then ret err else
  (set_state GAME ;;;
   on_rtc (modify (fun r => r <| game_timer := ROUND_TIMER |>)) ;;;
   on_rtc reset_pie_state ;;;
   _ <- on_hw rtc_set_periodic_500ms ;;
   _ <- on_hw enable_pie_int ;;
   ret OK).

(** ** The mouse *)
Definition player_movm : prog G controls_t := gets (fun g => p_movm (w_player (g_world g))).
Definition draw_mouse : prog G unit :=
  c <- player_movm ;;
  let sp := sprite_of cursor_sprite in
  x <- defined (dto_long (dsub (vx (mouse_pos c)) (dint (Z.quot (cx (texture_size sp)) 2)))) ;;
  y <- defined (dto_long (dsub (vy (mouse_pos c)) (dint (Z.quot (cy (texture_size sp)) 2)))) ;;
  settings <- gets g_settings ;;
  _ <- on_video (draw_sprite_color_mask (mk_pair x y) sp (mouse_color settings)) ;;
  ret tt.
Definition draw_slot (pos : pair_t) (x : slot) : prog G unit := _ <- on_video (draw_sprite pos (sprite_of x)) ;; ret tt.
Definition number_at (value : Z) (pos : pair_t) : prog G pair_t := on_video (render_number sprite_of value pos 2).
Definition time_number_at (value : Z) (pos : pair_t) : prog G pair_t :=
  on_video (render_time_number sprite_of value pos 2).
(** Whether the mouse is on a button drawn at [pos]. *)
Definition mouse_on (pos : pair_t) (x : slot) (c : controls_t) : bool :=
  ms_detect_collision (mouse_pos c) (px pos) (py pos) (texture_size (sprite_of x)).
(** [if(player.movm.lb_held_down) { player.movm.lb_held_down = false; ... }] *)
Definition on_click (k : controls_t -> prog G unit) : prog G unit :=
  c <- player_movm ;;
  if lb_held_down c then
    modify (set_movm (c <| lb_held_down := false |>)) ;;;
    k (c <| lb_held_down := false |>)
  else ret tt.

(** [g_data.h_res/2 - x->texture_size.x/2] *)
Definition centred (x : slot) : prog G Z :=
  width <- gets (fun g => h_res (g_video g)) ;;
  ret (long (Z.quot width 2 - Z.quot (cx (texture_size (sprite_of x))) 2)).
(** [0.01*g_data.h_res] and the like. *)
Definition part_of_width (percent : Z) : prog G Z :=
  width <- gets (fun g => h_res (g_video g)) ;; defined (dto_long (dmul (dlit percent 100) (dint width))).

(** ** The screens *)

(** The date and the time of the main menu, at [x], [y] and [y2]. *)
Definition render_date (x y y2 : Z) : prog G unit :=
  date <- gets (fun g => curr_date (g_rtc g)) ;;
  pos <- number_at (dt_day date) (mk_pair x y) ;;
  draw_slot pos (number 11) ;;;
  pos <- number_at (dt_month date) (pos <| px ::= (fun x => long (x + 75)) |>) ;;
  draw_slot pos (number 11) ;;;
  _ <- number_at (dt_year date) (pos <| px ::= (fun x => long (x + 75)) |>) ;;
  pos <- time_number_at (dt_hour date) (mk_pair x y2) ;;
  draw_slot pos (number 10) ;;;
  pos <- time_number_at (dt_min date) (pos <| px ::= (fun x => long (x + 55)) |>) ;;
  draw_slot pos (number 10) ;;;
  _ <- time_number_at (dt_sec date) (pos <| px ::= (fun x => long (x + 55)) |>) ;;
  ret tt.

Definition render_menu : prog G unit :=
  draw_slot (mk_pair 0 0) menu_background ;;;
  x <- centred single_menu_button ;;
  let spos := mk_pair x 200 in
  draw_slot spos single_menu_button ;;;
  x <- centred multi_menu_button ;;
  let mpos := mk_pair x (py spos + 200) in
  draw_slot mpos multi_menu_button ;;;
  let y_pos := py mpos + 350 in
  width <- gets (fun g => h_res (g_video g)) ;;
  let exit_size := texture_size (sprite_of exit_menu_button) in
  x <- defined (dto_long (dsub (dint (u32 (width - cx exit_size))) (dmul (dlit 1 100) (dint width)))) ;;
  let epos := mk_pair x (long (y_pos - Z.quot (cy exit_size) 2)) in
  draw_slot epos exit_menu_button ;;;
  x <- part_of_width 1 ;;
  draw_slot (mk_pair x (long (y_pos - Z.quot (cy (texture_size (sprite_of date_bg))) 2))) date_bg ;;;
  x <- part_of_width 8 ;;
  render_date x (y_pos - Z.quot (75 + 70) 2) (long (py epos + 75)) ;;;
  draw_mouse ;;;
  on_click (fun c =>
    if mouse_on spos single_menu_button c then _ <- gm_init_game 1 1 1 ;; ret tt
    else if mouse_on mpos multi_menu_button c then set_state MP_MENU
    else if mouse_on epos exit_menu_button c then set_state EXIT
    else ret tt).

(** The exit button of the other screens. *)
Definition exit_at : prog G pair_t := x <- centred exit_menu_button ;; ret (mk_pair x 700).

Definition render_mp_menu : prog G unit :=
  draw_slot (mk_pair 0 0) multiplayer_background ;;;
  pos <- exit_at ;;
  draw_slot pos exit_menu_button ;;;
  draw_mouse ;;;
  on_click (fun c =>
    if mouse_on pos exit_menu_button c then
      set_state MAIN_MENU ;;;
      on_net (set_network_state INIT)
    else ret tt).

Definition render_win_lose_screen : prog G unit :=
  lvl <- gets curr_lvl ;;
  st <- get_state ;;
  draw_slot (mk_pair 0 0) (if decide (st = WIN_GAME) then win_background else lose_background) ;;;
  bpos <- (if (lvl =? -1) || bool_decide (st = LOSE_GAME) then
             x <- centred restart_menu_button ;;
             draw_slot (mk_pair x 450) restart_menu_button ;;;
             ret (mk_pair x 450)
           else if negb (lvl =? LAST_LVL) && bool_decide (st = WIN_GAME) then
             x <- centred next_menu_button ;;
             draw_slot (mk_pair x 450) next_menu_button ;;;
             ret (mk_pair x 450)
           else ret (mk_pair 0 0)) ;;
  pos <- exit_at ;;
  draw_slot pos exit_menu_button ;;;
  draw_mouse ;;;
  on_click (fun c =>
    if mouse_on pos exit_menu_button c then set_state MAIN_MENU
    else if (lvl =? -1) && mouse_on bpos restart_menu_button c then set_state MP_MENU
    else if negb (lvl =? LAST_LVL) && bool_decide (st = WIN_GAME) && mouse_on bpos restart_menu_button c
    then _ <- gm_init_game (lvl + 1) 1 1 ;; ret tt
    else if bool_decide (st = LOSE_GAME) && mouse_on bpos restart_menu_button c
    then _ <- gm_init_game lvl 1 1 ;; ret tt
    else ret tt).

Definition render_disconnect_screen : prog G unit :=
  draw_slot (mk_pair 0 0) disconnect_background ;;;
  pos <- exit_at ;;
  draw_slot pos exit_menu_button ;;;
  draw_mouse ;;;
  on_click (fun c => if mouse_on pos exit_menu_button c then set_state MAIN_MENU else ret tt).

(** ** The inventory *)

(** The position of the [i]-th gun of the player's three. *)
Definition gun_pos (width height i : Z) (sp : sprite_t) : pair_t :=
  let x := if i =? 0 then Z.quot width 3 else if i =? 1 then Z.quot (i32 (2 * width)) 3 else Z.quot width 2 in
  let y := if i =? 2 then Z.quot (i32 (2 * height)) 3 else Z.quot height 3 in
  mk_pair (long (x - Z.quot (cx (texture_size sp)) 2)) (long (y - Z.quot (cy (texture_size sp)) 2)).

(** The gun under the mouse, the last of them. *)
Definition gun_under (frames : list (pair_t * slot)) (c : controls_t) : Z :=
  snd (fold_left (fun '(i, idx) f => (i + 1, if mouse_on f.1 f.2 c then i else idx)) frames (0, -1)).

(** [display_menu(player.guns, 3)] *)
Definition display_menu : prog G unit :=
  width <- gets (fun g => i32 (h_res (g_video g))) ;;
  height <- gets (fun g => i32 (v_res (g_video g))) ;;
  menu <- gets gun_menu_state ;;
  (if decide (menu = CLOSED) then
     c <- player_movm ;;
     modify (set_movm (c <| mouse_pos := mk_vec (dint (Z.quot width 2)) (dint (Z.quot height 2)) |>)) ;;;
     modify (fun g => g <| gun_menu_state := DISPLAYING |>)
   else ret tt) ;;;
  ply <- gets (fun g => w_player (g_world g)) ;;
  '(m0, m1, m2) <- defined (match guns ply with
                            | g0 :: g1 :: g2 :: _ =>
                                Some (menu_sprite (gi_gun g0), menu_sprite (gi_gun g1), menu_sprite (gi_gun g2))
                            | _ => None
                            end) ;;
  let gun1 := gun_pos width height 0 (sprite_of m0) in
  let gun2 := gun_pos width height 1 (sprite_of m1) in
  let gun3 := gun_pos width height 2 (sprite_of m2) in
  h <- gets (fun g => h_res (g_video g)) ;;
  v <- gets (fun g => v_res (g_video g)) ;;
  y <- defined (dto_long (dadd (dadd (dint 0) (dmul (dlit 1 100) (dint v))) (dint 10))) ;;
  let epos := mk_pair (long (h - cx (texture_size (sprite_of exit_menu_button)) - 10)) y in
  c <- player_movm ;;
  (if lb_single_tap c then
     modify (set_movm (c <| lb_single_tap := false |>)) ;;;
     (if mouse_on epos exit_menu_button c then
        state <- get_state ;;
        set_state (if decide (state = MP_GAME) then END_M_GAME else END_S_GAME)
      else ret tt) ;;;
     let idx := gun_under [(gun1, m0); (gun2, m1); (gun3, m2)] c in
     if negb (idx =? -1) then on_world (update_player ThePlayer (switch_gun idx)) else ret tt
   else ret tt) ;;;
  selected <- gets (fun g => gun_index (w_player (g_world g))) ;;
  for_each [(0, gun1, m0); (1, gun2, m1); (2, gun3, m2)] (fun '(i, frame, sp) =>
    let size := texture_size (sprite_of sp) in
    _ <- on_video (draw_rect (u16 (px frame - 5)) (u16 (py frame - 5)) (u16 (px frame + cx size + 5))
                     (u16 (py frame + cy size + 5)) (if selected =? i then 0x0066cc else 0xb3b3b3)) ;;
    ret tt) ;;;
  draw_slot gun1 m0 ;;;
  draw_slot gun2 m1 ;;;
  draw_slot gun3 m2 ;;;
  draw_slot epos exit_menu_button ;;;
  draw_mouse.

(** ** The game *)
Definition render_game (range : double) : prog G unit :=
  w <- gets g_world ;;
  _ <- on_video (display_map sprite_of w range) ;;
  settings <- gets g_settings ;;
  (* nothing is read of the array before it is written *)
  let num_items := 3 * alen (w_enemies w) + pickups_size (w_pickups w) in
  '(renders, size) <- on_video (setup_renders settings w (replicate (Z.to_nat num_items) zero_render) range) ;;
  on_video (render_object_renders sprite_of renders size) ;;;
  _ <- on_video render_crosshair ;;
  _ <- on_video (render_gun sprite_of w) ;;
  st <- get_state ;;
  (if decide (st = GAME) then
     timer <- gets (fun g => game_timer (g_rtc g)) ;;
     _ <- on_video (render_timer sprite_of timer) ;; ret tt
   else ret tt) ;;;
  let key_down := gun_menu (kbd_state (p_movm (w_player w))) in
  menu <- gets gun_menu_state ;;
  (if bool_decide (menu = DISPLAYING) && negb key_down then modify (fun g => g <| gun_menu_state := CLOSED |>)
   else if key_down then
     display_menu ;;;
     modify (fun g => g <| gun_menu_state := DISPLAYING |>)
   else ret tt) ;;;
  ply <- gets (fun g => w_player (g_world g)) ;;
  on_video (render_hud sprite_of ply).

Definition display (range : double) : prog G unit :=
  st <- get_state ;;
  match st with
  | GAME | MP_GAME => render_game range
  | MAIN_MENU => render_menu
  | MP_MENU => render_mp_menu
  | WIN_GAME | LOSE_GAME => render_win_lose_screen
  | DISCONNECT => render_disconnect_screen
  | _ => ret tt
  end ;;;
  _ <- on_video put_buffer ;;
  ret tt.
End Menu.
