(* ===== verification/Main.v ===== *)
(** * Main

    The rest of [src/proj/system/game/game_manager.c] (the end of a round, the
    tick of the game and the interrupt loop), [init_game] and [free_game] of
    [level_manager.c], and [proj_main_loop] of [main.c]. *)

From S2P Require Import Prelude Hardware Timer Kbc Rtc Queue Uart Doubles MapFile Utils Sprites Guns Controls.
From S2P Require Import Players Pickups Battle Network Enemies Video Render Game Level Menu.

Definition MODE : Z := 0x14C.
Definition BREAKCODE_ESC : Z := 0x81.
Definition SET_SAMPLE_RATE : Z := 0xF3.
Definition SET_RESOLUTION : Z := 0xE8.
Definition ENABLE_RECEIVE : Z := BIT 0.
Definition ENABLE_TRANSMIT : Z := BIT 1.
Definition ENABLE_LINE_STATUS : Z := BIT 2.
Definition BITS_PER_CHAR (n : Z) : Z := n - 5.
Definition ODD_PARITY : Z := BIT 3.
Definition BAUD_115200 : Z := 0x0001.

Section Main.
Context {D : Type} `{!Device D} {S : Type} {QS : QueueStore S} {R : Type} `{!Rand R} {LM : Libm} {OU : Outside}.
Abbreviation G := (game D S R).

(** ** The state of the game *)
Definition gm_reset_mp_game : prog G unit :=
  on_net (set_network_state CLEANUP) ;;;
  _ <- free_level ;;
  init_player_ctrls.

(** [uart_send_string(UART_WIN_GAME, 3)] and the like. *)
Definition send_result (word : list Z) : prog G unit := _ <- on_net (uart_send_string word 3) ;; ret tt.

Definition update_game_state : prog G unit :=
  st <- get_state ;;
  match st with
  | GAME =>
      ply <- gets (fun g => w_player (g_world g)) ;;
      timer <- gets (fun g => game_timer (g_rtc g)) ;;
      if (health ply <=? 0) || (timer =? 0) then
        set_state LOSE_GAME ;;;
        _ <- free_level ;;
        init_player_ctrls
      else
        (y <- defined (dto_int (vy (position ply))) ;;
         x <- defined (dto_int (vx (position ply))) ;;
         m <- gets (fun g => w_map (g_world g)) ;;
         tex <- defined (map_at m y x) ;;
         if tex =? -3 then
           set_state WIN_GAME ;;;
           _ <- free_level ;;
           init_player_ctrls
         else ret tt)
  | MP_GAME =>
      ply <- gets (fun g => w_player (g_world g)) ;;
      over <- (if health ply <=? 0 then ret true
               else e <- on_world (load_player (Enemy 0)) ;; ret (health e <=? 0)) ;;
      if (over : bool) then
        gm_reset_mp_game ;;;
        ply <- gets (fun g => w_player (g_world g)) ;;
        if health ply <=? 0 then
          set_state LOSE_GAME ;;;
          gm_reset_mp_game ;;;
          send_result UART_WIN_GAME
        else
          (set_state WIN_GAME ;;;
           gm_reset_mp_game ;;;
           send_result UART_LOSE_GAME)
      else ret tt
  | END_S_GAME =>
      set_state MAIN_MENU ;;;
      _ <- free_level ;;
      init_player_ctrls
  | END_M_GAME =>
      set_state LOSE_GAME ;;;
      gm_reset_mp_game ;;;
      send_result UART_WIN_GAME
  | _ => ret tt
  end.

(** ** The tick *)

(** [if(state == MP_GAME) { out = uart_receive_data(&enemies[0]); ... }] *)
Definition receive_opponent : prog G unit :=
  p <- gets playing ;;
  out <- on_net (uart_receive_data junk_hit p fuel (Enemy 0)) ;;
  (if out =? LOSE_GAME_ERR then set_state LOSE_GAME ;;; gm_reset_mp_game
   else if out =? WIN_GAME_ERR then set_state WIN_GAME ;;; gm_reset_mp_game
   else ret tt) ;;;
  ns <- on_net get_network_state ;;
  if decide (ns = DISCONNECTED) then set_state DISCONNECT else ret tt.

(** The players, the bots and the pickups. *)
Definition play_tick : prog G unit :=
  on_ai handle_enemies ;;;
  p <- gets playing ;;
  on_world (player_int_ih junk_hit p ThePlayer) ;;;
  st <- get_state ;;
  (if decide (st = GAME) then on_world (bot_int_ih junk_hit p) else ret tt) ;;;
  t <- gets (fun g => time_counter (g_world g)) ;;
  on_world (on_pickups (update_pickups t)).

(** The waiting for the other machine. *)
Definition connect_tick : prog G unit :=
  on_net (uart_sync fuel) ;;;
  network_state <- on_net get_network_state ;;
  if decide (network_state = CONNECTED) then
    n <- on_net get_network_player ;;
    _ <- load_level 3 2 n ;;
    modify (fun g => g <| g_world ::= (fun w => w <| time_counter := 0 |>) |>)
  else if decide (network_state = INIT) then
    set_state MAIN_MENU ;;;
    on_net (set_network_state CLEANUP)
  else ret tt.

Definition game_handler : prog G unit :=
  state <- get_state ;;
  (if decide (state = MP_GAME) then receive_opponent else ret tt) ;;;
  state <- get_state ;;
  (if decide (state = GAME) then play_tick
   else if decide (state = MP_GAME) then play_tick
   else if decide (state = MP_MENU) then connect_tick
   else ret tt) ;;;
  state <- get_state ;;
  (if decide (state = MP_GAME) then _ <- on_net (uart_send_data ThePlayer) ;; ret tt else ret tt) ;;;
  display (dint 10) ;;;
  modify (fun g => g <| g_world ::= (fun w => w <| w_player ::= reset_player_mouse_movm |>) |>) ;;;
  update_game_state.

(** ** Interrupts *)

(** The bit numbers of the notifications; [None] while not assigned. *)
Record bits : Type := mk_bits {
  timer_bit_no : option Z; mouse_bit_no : option Z; kb_bit_no : option Z; uart_bit_no : option Z;
  rtc_bit_no : option Z;
}.
Definition no_bits : bits := mk_bits None None None None None.
#[local] Instance eta_bits : Eta bits := fun b =>
  mk_bits (timer_bit_no b) (mouse_bit_no b) (kb_bit_no b) (uart_bit_no b) (rtc_bit_no b).

(** What [driver_receive] delivers: an error, a message that is no
    notification or not from the hardware, or the interrupts. *)
Inductive message : Type := NotReceived | Other | Interrupts (mask : Z).

Definition mouse_event : prog G unit :=
  settings <- gets g_settings ;;
  v <- gets g_video ;;
  p <- gets playing ;;
  on_input (handle_mouse_evt (h_res v) (v_res v) settings p).

(** [if(msg.m_notify.interrupts & BIT(bit)) { ... }] *)
Definition on_bit (mask : Z) (bit : option Z) (k : prog G unit) : prog G unit :=
  n <- defined bit ;; if has_bits mask (BIT n) then k else ret tt.

(** The devices but the timer. *)
Definition device_events (b : bits) (mask : Z) : prog G unit :=
  on_bit mask (mouse_bit_no b) mouse_event ;;;
  on_bit mask (kb_bit_no b) (on_input handle_kbd_evt) ;;;
  on_bit mask (uart_bit_no b) (on_uart (uart_ih fuel)) ;;;
  on_bit mask (rtc_bit_no b) (on_rtc rtc_ih).

Definition handle_message (b : bits) (m : message) : prog G unit :=
  match m with
  | NotReceived | Other => ret tt
  | Interrupts mask =>
      device_events b mask ;;;
      on_bit mask (timer_bit_no b) (on_timer timer_int_handler ;;; game_handler)
  end.

(** [last_kb_byte != BREAKCODE_ESC && get_state() != EXIT] *)
Definition running (g : G) : bool :=
  negb (last_kb_byte (in_kbc (g_input g)) =? BREAKCODE_ESC) && negb (bool_decide (g_state g = EXIT)).

(** The loop on the messages that arrive: [true] when it is left, [false] when
    it waits for another message. *)
Fixpoint interrupt_handler (b : bits) (msgs : list message) : prog G bool :=
  go <- gets running ;;
  if negb go then ret true else
  match msgs with
  | [] => ret false
  | m :: msgs => handle_message b m ;;; interrupt_handler b msgs
  end.

(** ** Start and end *)

(** A call whose error code ends the function. *)
Definition until_ok (m : prog G Z) : prog G unit :=
  iterate fuel (fun _ => err <- m ;; ret (if err =? OK then inr tt else inl tt)) tt.

(** The serial port, then the other devices. *)
Definition init_uart (b : bits) : prog G (Z * bits) :=
  err <- on_hw (uart_set_interrupt_reg (Z.lor (Z.lor ENABLE_LINE_STATUS ENABLE_RECEIVE) ENABLE_TRANSMIT)) ;;
  if negb (err =? OK) then ret (err, b) else
  '(err, bit) <- on_uart uart_subscribe_int ;;
  let b := b <| uart_bit_no := Some bit |> in
  if negb (err =? OK) then ret (err, b) else
  (_ <- on_hw (uart_set_line_ctrl (Z.lor (BITS_PER_CHAR 8) ODD_PARITY)) ;;
   _ <- on_hw (uart_set_baud_rate BAUD_115200) ;;
   _ <- on_uart init_uart_queues ;;
   _ <- on_hw uart_init_fifo ;;
   on_uart (uart_ih fuel) ;;;
   ret (OK, b)).
Definition init_devices (b : bits) : prog G (Z * bits) :=
  '(err, bit) <- on_kbc mouse_subscribe_int ;;
  let b := b <| mouse_bit_no := Some bit |> in
  if negb (err =? OK) then ret (err, b) else
  '(err, bit) <- on_kbc kb_subscribe_int ;;
  let b := b <| kb_bit_no := Some bit |> in
  if negb (err =? OK) then ret (err, b) else
  '(err, bit) <- on_timer timer_subscribe_int ;;
  let b := b <| timer_bit_no := Some bit |> in
  if negb (err =? OK) then ret (err, b) else
  _ <- on_kbc kbc_disable_int ;;
  err <- on_hw enable_stream ;;
  if negb (err =? OK) then ret (err, b) else
  err <- on_hw enable_ms ;;
  if negb (err =? OK) then ret (err, b) else
  _ <- on_hw (write_ms_cmd [SET_SAMPLE_RATE; 60]) ;;
  _ <- on_hw (write_ms_cmd [SET_RESOLUTION; 0]) ;;
  until_ok (on_rtc init_rtc_vars) ;;;
  _ <- on_hw enable_uie_int ;;
  '(err, bit) <- on_rtc rtc_subscribe_int ;;
  let b := b <| rtc_bit_no := Some bit |> in
  if negb (err =? OK) then ret (err, b) else
  on_rtc rtc_ih ;;;
  err <- on_kbc kbc_enable_int ;;
  ret (err, b).

(** [init_game], with the seed [time(NULL)] gives; the code is [None] when the
    graphics library panics, which ends the process. *)
Definition init_game (now : R) : prog G (option Z * bits) :=
  on_ai (modify (fun a => a <| seed := now |>)) ;;;
  on_kbc kbc_ih ;;;
  init_player_ctrls ;;;
  modify (fun g => g <| g_settings := init_settings |>) ;;;
  set_state MAIN_MENU ;;;
  screen <- on_video (vg_init mode_info old_memory MODE) ;;
  screen <- (match screen with
             | VgNull =>
                 _ <- on_video reset_to_text_mode ;;
                 screen <- on_video (vg_init mode_info old_memory MODE) ;;
                 match screen with
                 | VgNull => _ <- on_video reset_to_text_mode ;; ret VgNull
                 | _ => ret screen
                 end
             | _ => ret screen
             end) ;;
  match screen with
  | VgPanic => ret (None, no_bits)
  | VgNull => ret (Some 1, no_bits)
  | VgOk _ =>
      err <- on_sprites (load_sprites pixels_ok) ;;
      if negb (err =? OK) then ret (Some 1, no_bits) else
      '(err, b) <- init_uart no_bits ;;
      if negb (err =? OK) then ret (Some err, b) else
      '(err, b) <- init_devices b ;;
      ret (Some err, b)
  end.

Definition free_game : prog G Z :=
  _ <- on_kbc kbc_disable_int ;;
  _ <- on_hw ms_set_default ;;
  _ <- on_hw reset_cmd_byte ;;
  _ <- on_video reset_to_text_mode ;;
  _ <- on_kbc kbc_enable_int ;;
  _ <- on_kbc mouse_unsubscribe_int ;;
  _ <- on_kbc kb_unsubscribe_int ;;
  _ <- on_timer timer_unsubscribe_int ;;
  until_ok (on_rtc reset_rtc) ;;;
  _ <- on_rtc rtc_unsubscribe_int ;;
  _ <- on_sprites free_sprites ;;
  _ <- on_uart free_uart_queues ;;
  ret OK.

(** [proj_main_loop]: the result of [init_game] is not looked at. *)
Definition proj_main_loop (now : R) (msgs : list message) : prog G bool :=
  '(code, b) <- init_game now ;;
  match code with
  | None => ret true
  | Some _ =>
      left <- interrupt_handler b msgs ;;
      if negb left then ret false else
      _ <- free_game ;;
      ret true
  end.
End Main.
