(* ===== verification/Lifecycle.v ===== *)
(** * Lifecycle

    The life of a level across the states of the game: which blocks are
    allocated in which state, however the interrupts arrive, and what happens
    when a round ends. *)

From stdpp Require Import strings.
From S2P Require Import Prelude Hardware Timer Kbc Rtc Queue Uart Doubles MapFile Utils Sprites Guns Controls.
From S2P Require Import Players Pickups Battle Network Enemies Video Render Game Level Menu Main.

(** ** Allocation

    No coming call of [malloc] fails, and whatever the game does it stays
    so. *)
Definition pickups_fine (s : pickups_t) : Prop := mallocs s = [].
Definition world_fine (w : world) : Prop := pickups_fine (w_pickups w).
Definition ai_fine {R} (a : ai R) : Prop := allocs a = [] /\ world_fine (ai_world a).
Definition net_fine {D S} (n : network D S) : Prop := world_fine (n_world n).

Section PickupsFrames.
Context {LM : Libm}.
Context (junk_pickup : pickup_t) (junk_index : Z).

Lemma malloc_ok_fine : respects (stays pickups_fine) malloc_ok.
Proof. intros s a s'. unfold malloc_ok, stays, pickups_fine. destruct (mallocs s) eqn:E; [|done]. by intros [= _ <-]. Qed.
Lemma set_table_at_fine x y l : respects (stays pickups_fine) (set_table_at x y l).
Proof. intros s a s'. unfold set_table_at. repeat case_match; try done. intros [= <- <-] H'. exact H'. Qed.
#[local] Hint Resolve malloc_ok_fine set_table_at_fine : framing.
Lemma delete_pickup_fine i : respects (stays pickups_fine) (delete_pickup i).
Proof. unfold delete_pickup, pickup_array, remove_collision. keeps_tac. Qed.
#[local] Hint Resolve delete_pickup_fine : framing.
Lemma pickup_index_fine p i : respects (stays pickups_fine) (pickup_index p i).
Proof. unfold pickup_index, pickup_array. keeps_tac. Qed.
Lemma check_collision_fine p : respects (stays pickups_fine) (check_player_pickup_collision p).
Proof. unfold check_player_pickup_collision, pickup_array. keeps_tac. Qed.
Lemma update_pickups_fine t : respects (stays pickups_fine) (update_pickups t).
Proof. unfold update_pickups, pickup_array. keeps_tac. Qed.
Lemma add_collision_fine p i : respects (stays pickups_fine) (add_collision junk_index p i).
Proof.
  unfold add_collision. keeps_tac. match goal with |- respects _ (add_to_cells _ ?l _ _) => induction l as [|[x y] l IH] end;
    cbn [add_to_cells]; unfold add_to_list; keeps_tac.
Qed.
#[local] Hint Resolve add_collision_fine : framing.
Lemma add_details_fine d anims pos r : respects (stays pickups_fine) anims ->
  respects (stays pickups_fine) (add_details junk_pickup junk_index d anims pos r).
Proof. intros H. unfold add_details, add_pickup, pickup_array. keeps_tac. Qed.
Lemma init_collision_table_fine w h : respects (stays pickups_fine) (init_collision_table w h).
Proof.
  unfold init_collision_table. keeps_tac.
  match goal with |- respects ?Q (?rows ?n ?l) => enough (forall k done, respects Q (rows k done)) by done end.
  intros k. induction k as [|n IH]; intros rows; cbn fix match; keeps_tac.
Qed.
Lemma free_pickups_fine : respects (stays pickups_fine) free_pickups.
Proof. unfold free_pickups, pickup_array. keeps_tac. Qed.
Lemma free_collision_table_fine : respects (stays pickups_fine) free_collision_table.
Proof. unfold free_collision_table. keeps_tac. Qed.
End PickupsFrames.

Section WorldFrames.
Context {LM : Libm}.

Lemma on_pickups_fine {A} (m : prog pickups_t A) : respects (stays pickups_fine) m ->
  respects (stays world_fine) (on_pickups m).
Proof. intros Hm. by apply (keeps_zoom_part _ (stays pickups_fine)). Qed.
Lemma store_player_fine p x : respects (stays world_fine) (store_player p x).
Proof. destruct p; cbn [store_player]; keeps_tac. Qed.
Lemma load_player_fine p : respects (stays world_fine) (load_player p).
Proof. unfold load_player. keeps_tac. Qed.
#[local] Hint Resolve store_player_fine load_player_fine : framing.
Lemma update_player_fine p f : respects (stays world_fine) (update_player p f).
Proof. unfold update_player. keeps_tac. Qed.
Lemma on_anims_fine {A} (m : prog anim_heap A) : respects (stays world_fine) (on_anims m).
Proof. apply keeps_zoom. intros t s H. exact H. Qed.
#[local] Hint Resolve update_player_fine on_anims_fine : framing.
Lemma take_pickup_fine p : respects (stays world_fine) (take_pickup p).
Proof.
  unfold take_pickup. keeps_tac; apply on_pickups_fine; [apply check_collision_fine|apply pickup_index_fine].
Qed.
Lemma aim_loop_fine ply range ts a : respects (stays world_fine) (aim_loop ply range ts a).
Proof. revert a. induction ts; intros; cbn [aim_loop]; keeps_tac. Qed.
#[local] Hint Resolve take_pickup_fine aim_loop_fine : framing.
Lemma bullet_fine junk p : respects (stays world_fine) (bullet junk p).
Proof. unfold bullet, targets_of. keeps_tac. Qed.
#[local] Hint Resolve bullet_fine : framing.
Lemma bullets_fine junk n p : respects (stays world_fine) (bullets junk n p).
Proof. induction n; cbn [bullets]; unfold change_gun; keeps_tac. Qed.
#[local] Hint Resolve bullets_fine : framing.
Lemma player_int_ih_fine junk playing p : respects (stays world_fine) (player_int_ih junk playing p).
Proof. unfold player_int_ih, shoot_step, fire, change_gun, update_gun. keeps_tac. Qed.
#[local] Hint Resolve player_int_ih_fine : framing.
Lemma bot_int_ih_fine junk playing : respects (stays world_fine) (bot_int_ih junk playing).
Proof. unfold bot_int_ih. keeps_tac. Qed.
End WorldFrames.
#[export] Hint Resolve player_int_ih_fine bot_int_ih_fine update_player_fine load_player_fine
  store_player_fine on_anims_fine : framing.

Section AiFrames.
Context {R : Type} `{!Rand R} {LM : Libm}.

Lemma in_world_fine {A} (m : prog world A) : respects (stays world_fine) m ->
  respects (stays ai_fine) (in_world (R := R) m).
Proof.
  intros Hm. apply (keeps_zoom_part _ (stays world_fine)); [|done]. intros t s H [Ha Hw]. by split; [|apply H].
Qed.
Lemma rand_fine : respects (stays ai_fine) (Enemies.rand (R := R)).
Proof. intros a z a'. unfold Enemies.rand. destruct (next_rand (seed a)). intros [= _ <-] H. exact H. Qed.
Lemma alloc_fine : respects (stays ai_fine) (alloc (R := R)).
Proof.
  intros a b a'. unfold alloc, stays, ai_fine. destruct (allocs a) eqn:E; [|by intros ? []].
  intros [= _ <-] [_ Hw]. by split.
Qed.
#[local] Hint Resolve rand_fine alloc_fine : framing.
#[local] Hint Extern 1 (respects _ (in_world _)) => apply in_world_fine : framing.
Lemma handle_enemies_fine : respects (stays ai_fine) (handle_enemies (R := R)).
Proof. unfold handle_enemies, handle_enemy, retarget, act. keeps_tac. Qed.
Lemma init_enemy_fine e rnd t fov range num pos : respects (stays ai_fine) (Enemies.init_enemy (R := R) e rnd t fov range num pos).
Proof. unfold Enemies.init_enemy, new_positions. keeps_tac. Qed.
Lemma free_controllers_fine : respects (stays ai_fine) (free_controllers (R := R)).
Proof. unfold free_controllers, free_positions. keeps_tac. Qed.
End AiFrames.

Section NetFrames.
Context {D : Type} `{!Device D} {S : Type} {QS : QueueStore S} {LM : Libm}.

Lemma net_uart_fine {A} (m : prog (uart D S) A) : respects (stays net_fine) (Network.on_uart m).
Proof. apply keeps_zoom. intros t s H. exact H. Qed.
Lemma net_world_fine {A} (m : prog world A) : respects (stays world_fine) m ->
  respects (stays net_fine) (Network.on_world (D := D) (S := S) m).
Proof. intros Hm. by apply (keeps_zoom_part _ (stays world_fine)). Qed.
#[local] Hint Resolve net_uart_fine : framing.
#[local] Hint Extern 1 (respects _ (Network.on_world _)) => apply net_world_fine : framing.
Lemma apply_packet_fine junk playing p pkt : respects (stays world_fine) (apply_packet junk playing p pkt).
Proof. unfold apply_packet. keeps_tac. Qed.
#[local] Hint Resolve apply_packet_fine : framing.
Lemma uart_receive_data_fine junk playing fuel p :
  respects (stays net_fine) (uart_receive_data (D := D) (S := S) junk playing fuel p).
Proof. unfold uart_receive_data, receive_round, set_network_state. keeps_tac. Qed.
Lemma uart_sync_fine fuel : respects (stays net_fine) (uart_sync (D := D) (S := S) fuel).
Proof.
  unfold uart_sync, cleanup, drain, send_join_request, uart_sync_link, uart_sync_connect, sync_failed, reset_sync, next_idx.
  keeps_tac.
Qed.
Lemma uart_send_string_fine word size : respects (stays net_fine) (uart_send_string (D := D) (S := S) word size).
Proof. unfold uart_send_string. keeps_tac. Qed.
#[local] Hint Resolve uart_send_string_fine : framing.
Lemma uart_send_data_fine p : respects (stays net_fine) (uart_send_data (D := D) (S := S) p).
Proof. unfold uart_send_data. keeps_tac. Qed.
End NetFrames.

(** ** The life of a level *)
Section Owned.
Context {D : Type} `{!Device D} {S : Type} {QS : QueueStore S} {R : Type} `{!Rand R} {LM : Libm} {OU : Outside}.
Abbreviation G := (game D S R).
Implicit Types g : G.

Definition fine g : Prop := allocs (g_ai g) = [] /\ world_fine (g_world g).
Definition life g : game_state_t * Z * ptr unit * ptr unit := (g_state g, curr_lvl g, map_block g, guns_block g).
(** Nothing of it changes. *)
Definition calm g g' : Prop := life g' = life g /\ (fine g -> fine g').
#[local] Instance calm_preorder : PreOrder calm.
Proof.
  split; [by intros g|]. intros g1 g2 g3 [E1 F1] [E2 F2]. split; [congruence|]. by intros ?%F1%F2.
Qed.

Lemma on_hw_calm {A} (m : prog (hw D) A) : respects calm (on_hw m).
Proof. apply keeps_zoom. intros t s. split; [done|]. intros H. exact H. Qed.
Lemma on_video_calm {A} (m : prog graphics_data A) : respects calm (on_video m).
Proof. apply keeps_zoom. intros t s. split; [done|]. intros H. exact H. Qed.
Lemma on_sprites_calm {A} (m : prog sprite_store A) : respects calm (on_sprites m).
Proof. apply keeps_zoom. intros t s. split; [done|]. intros H. exact H. Qed.
Lemma on_timer_calm {A} (m : prog (timer D) A) : respects calm (on_timer m).
Proof. apply keeps_zoom. intros t s. split; [done|]. intros H. exact H. Qed.
Lemma on_rtc_calm {A} (m : prog (rtc D) A) : respects calm (on_rtc m).
Proof. apply keeps_zoom. intros t s. split; [done|]. intros H. exact H. Qed.
Lemma on_input_calm {A} (m : prog (input D) A) : respects calm (on_input m).
Proof. apply keeps_zoom. intros t s. split; [done|]. intros H. exact H. Qed.
Lemma on_world_calm {A} (m : prog world A) : respects (stays world_fine) m -> respects calm (on_world m).
Proof.
  apply keeps_zoom_part. intros t s H. split; [done|]. intros [Ha Hw]. split; [exact Ha|]. by apply H.
Qed.
Lemma on_ai_calm {A} (m : prog (ai R) A) : respects (stays ai_fine) m -> respects calm (on_ai m).
Proof. apply keeps_zoom_part. intros t s H. split; [done|]. intros Hf. apply H, Hf. Qed.
Lemma on_net_calm {A} (m : prog (network D S) A) : respects (stays net_fine) m -> respects calm (on_net m).
Proof.
  apply keeps_zoom_part. intros t s H. split; [done|]. intros [Ha Hw]. split; [exact Ha|]. by apply H.
Qed.
Lemma on_uart_calm {A} (m : prog (uart D S) A) : respects calm (on_uart m).
Proof. apply on_net_calm, net_uart_fine. Qed.
#[local] Hint Resolve on_hw_calm on_video_calm on_sprites_calm on_timer_calm on_rtc_calm on_input_calm on_uart_calm
  handle_enemies_fine alloc_fine init_enemy_fine free_controllers_fine uart_receive_data_fine uart_sync_fine
  uart_send_string_fine uart_send_data_fine : framing.
#[local] Hint Extern 1 (respects calm (modify _)) =>
  apply keeps_modify; intros ?; split; [reflexivity|let H := fresh in intros H; exact H] : framing.
#[local] Hint Extern 1 (respects calm (on_world _)) => apply on_world_calm : framing.
#[local] Hint Extern 1 (respects calm (on_ai _)) => apply on_ai_calm : framing.
#[local] Hint Extern 1 (respects calm (on_net _)) => apply on_net_calm : framing.
#[local] Hint Extern 1 (respects _ (on_pickups _)) => apply on_pickups_fine : framing.
#[local] Hint Resolve update_pickups_fine free_pickups_fine free_collision_table_fine init_collision_table_fine : framing.

(** *** Loading *)
Lemma set_state_life st g :
  wlp (set_state st) (fun _ g' => life g' = (st, curr_lvl g, map_block g, guns_block g) /\ (fine g -> fine g')) g.
Proof.
  unfold set_state, get_state. wlp_steps.
  eapply (wlp_respects calm); [keeps_tac|]. intros [] g1 [E F]. wlp_step. split; [|exact F].
  unfold life in *. cbn. congruence.
Qed.

Lemma alloc_life g (Q : bool -> G -> Prop) : fine g -> (forall g', calm g g' -> Q true g') -> wlp (on_ai alloc) Q g.
Proof.
  intros Hf HQ. unfold on_ai. apply wlp_zoom. unfold wlp, alloc. cbn. rewrite (proj1 Hf). apply HQ.
  split; [done|]. intros _. by destruct Hf.
Qed.

Lemma init_player_life type pos dir radius hp max_hp arm max_arm gs n g : fine g ->
  wlp (init_player type pos dir radius hp max_hp arm max_arm gs n) (fun _ g' =>
    life g' = (g_state g, curr_lvl g, map_block g, if decide (type = PLAYER) then Live tt else guns_block g) /\ fine g') g.
Proof.
  intros Hf. unfold init_player. wlp_step.
  assert (forall Q : bool -> G -> Prop, (forall g', calm g g' -> Q true g') ->
    wlp (if decide (type = PLAYER) then ret true else on_ai alloc) Q g) as Hroom.
  { intros Q HQ. case_decide; [apply wlp_ret, HQ; reflexivity|by apply alloc_life]. }
  apply Hroom. intros g1 [E1 F1]. cbn [negb]. wlp_step. apply alloc_life; [by apply F1|]. intros g2 [E2 F2].
  wlp_steps. destruct a as [[p d] counted]. injection E2 as Es El Em Eg. injection E1 as Es1 El1 Em1 Eg1.
  wlp_step. case_decide; [|destruct counted]; wlp_steps; (split; [|by apply F2, F1]); unfold life; cbn; congruence.
Qed.

Lemma init_other_calm type pos dir radius hp max_hp arm max_arm gs n : type <> PLAYER ->
  respects calm (init_player type pos dir radius hp max_hp arm max_arm gs n).
Proof. intros Ht. unfold init_player. keeps_tac; done. Qed.
Lemma create_gun_instance_calm i a p : respects calm (create_gun_instance i a p).
Proof. unfold create_gun_instance. keeps_tac. Qed.
Lemma add_ammo_calm pos k n : respects calm (add_ammo pos k n).
Proof. apply on_world_calm, on_pickups_fine, add_details_fine. unfold init_ammo_anims. keeps_tac; apply malloc_ok_fine. Qed.
Lemma add_medkit_calm pos h : respects calm (add_medkit pos h).
Proof. apply on_world_calm, on_pickups_fine, add_details_fine. unfold init_medi_anims. keeps_tac; apply malloc_ok_fine. Qed.
Lemma add_armor_calm pos r a : respects calm (add_armor pos r a).
Proof. apply on_world_calm, on_pickups_fine, add_details_fine. unfold init_armor_anims. keeps_tac; apply malloc_ok_fine. Qed.
Lemma init_enemy_calm i rnd t f r n pos : respects calm (Level.init_enemy i rnd t f r n pos).
Proof. apply on_ai_calm, init_enemy_fine. Qed.
#[local] Hint Resolve create_gun_instance_calm add_ammo_calm add_medkit_calm add_armor_calm init_enemy_calm : framing.
#[local] Hint Extern 1 (respects calm (init_player _ _ _ _ _ _ _ _ _ _)) => apply init_other_calm; discriminate : framing.
Lemma init_bots_calm bots dir gs : respects calm (init_bots bots dir gs).
Proof. revert dir. induction bots as [|[[[[[d pos] hp] mhp] a] ma] bots IH]; intros dir; cbn [init_bots]; keeps_tac. Qed.
#[local] Hint Resolve init_bots_calm : framing.

(** A program that starts with [set_state], reads the guns, sets up the
    player, and goes on calmly. *)
Ltac calm_step := wlp_step; eapply (wlp_respects calm); [solve [keeps_tac]|]; intros ? ? [? ?].
Ltac setup_tac :=
  intros Hf; wlp_step; eapply wlp_mono; [apply set_state_life|]; intros [] ? [? ?]; cbv zeta; repeat case_match;
  do 3 calm_step; wlp_step;
  (eapply wlp_mono; [apply init_player_life; solve [auto]|]); intros ? ? [? ?];
  (eapply (wlp_respects calm); [solve [keeps_tac]|]); intros ? ? [? ?]; unfold life in *;
  (split; [repeat case_decide; congruence|solve [auto]]).

Lemma setup_game_1_life g : fine g ->
  wlp setup_game_1 (fun _ g' => life g' = (GAME, curr_lvl g, map_block g, Live tt) /\ fine g') g.
Proof. unfold setup_game_1. setup_tac. Qed.
Lemma setup_game_2_life g : fine g ->
  wlp setup_game_2 (fun _ g' => life g' = (GAME, curr_lvl g, map_block g, Live tt) /\ fine g') g.
Proof. unfold setup_game_2, init_enemies. setup_tac. Qed.
Lemma setup_multiplayer_life n g : fine g ->
  wlp (setup_multiplayer n) (fun _ g' => life g' = (MP_GAME, curr_lvl g, map_block g, Live tt) /\ fine g') g.
Proof. unfold setup_multiplayer. setup_tac. Qed.

Lemma set_row_fine y row : respects (stays (fun r => rd_mallocs r = [])) (set_row y row).
Proof. intros r a r'. unfold set_row. case_match; [|done]. intros [= _ <-] H'. exact H'. Qed.
Lemma set_cell_fine y x v : respects (stays (fun r => rd_mallocs r = [])) (set_cell y x v).
Proof. intros r a r'. unfold set_cell. repeat case_match; try done. apply set_row_fine. Qed.
Lemma fscanf_fine conv old : respects (stays (fun r => rd_mallocs r = [])) (fscanf conv old).
Proof. intros r a r'. unfold fscanf. case_match; intros [= _ <-] H'; exact H'. Qed.
Lemma map_malloc_fine : respects (stays (fun r => rd_mallocs r = [])) map_malloc.
Proof. intros r a r'. unfold map_malloc, stays. destruct (rd_mallocs r) eqn:E; intros [= _ <-]; [done|discriminate]. Qed.
Lemma load_map_fine junk slack fs n :
  respects (stays (fun s : map_t * list bool => snd s = [])) (MapFile.load_map junk slack fs n).
Proof.
  assert (respects (stays (fun r => rd_mallocs r = [])) (load_map_body junk slack)) as Hb.
  { pose proof set_row_fine. pose proof set_cell_fine. pose proof fscanf_fine. pose proof map_malloc_fine.
    unfold load_map_body, load_round, malloc_row. keeps_tac. }
  intros [m ms] a s'. unfold MapFile.load_map. destruct (fs _); [|by intros [= _ <-]].
  destruct (load_map_body _ _ _) as [[[] r]| |] eqn:E; [|done..]. intros [= _ <-]. exact (Hb _ _ _ E).
Qed.

Lemma load_map_life n g : wlp (Level.load_map n) (fun err g' => (fine g -> fine g') /\
  life g' = (g_state g, curr_lvl g, if err =? OK then Live tt else map_block g, guns_block g)) g.
Proof.
  unfold Level.load_map. wlp_step.
  eapply (wlp_respects calm).
  { apply on_world_calm. apply (keeps_zoom_part _ (stays (fun s => snd s = []))); [|apply load_map_fine].
    intros s w H. exact H. }
  intros err g1 [E1 F1]. wlp_step. unfold life in *.
  destruct (err =? OK) eqn:Ee; wlp_steps; (split; [intros Hf; apply F1 in Hf; exact Hf|]); rewrite Ee; cbn; congruence.
Qed.
Lemma init_collision_table_OK w h s : pickups_fine s -> wlp (init_collision_table w h) (fun r _ => r = OK) s.
Proof.
  intros Hf. unfold init_collision_table. wlp_step. wlp_step. wlp_step.
  assert (forall (Q : bool -> pickups_t -> Prop) s, pickups_fine s -> Q true s -> wlp malloc_ok Q s) as Hm.
  { intros Q s1 H1 HQ. unfold wlp, malloc_ok. by rewrite H1. }
  apply Hm; [exact Hf|]. cbn [negb].
  match goal with |- wlp (?rows _ _) _ _ =>
    enough (forall k done s, pickups_fine s -> wlp (rows k done) (fun r _ => r = OK) s) as H by (apply H; exact Hf) end.
  intros k. induction k as [|k IH]; intros l s1 H1; cbn fix match; wlp_step; wlp_step; [by wlp_step|].
  wlp_step. apply Hm; [exact H1|]. by apply IH.
Qed.

Lemma load_level_life n mode player g : fine g ->
  wlp (load_level n mode player) (fun err g' => fine g' /\
    if err =? OK
    then map_block g' = Live tt /\
      (mode = 1 -> n = 1 \/ n = 2 -> life g' = (GAME, n, Live tt, Live tt)) /\
      (mode = 2 -> life g' = (MP_GAME, -1, Live tt, Live tt))
    else life g' = life g) g.
Proof.
  intros Hf. unfold load_level. wlp_step. eapply wlp_mono; [apply load_map_life|]. intros err g1 [F1 E1].
  destruct (err =? OK) eqn:Ee; cbn [negb].
  2: { wlp_step. rewrite Ee. split; [by apply F1|]. exact E1. }
  do 2 wlp_step. wlp_step.
  apply (wlp_mono _ (fun e g' => e = OK /\ calm g1 g')).
  { apply wlp_and; [|eapply (wlp_respects calm); [keeps_tac|by intros]].
    unfold on_world, on_pickups. apply wlp_zoom, wlp_zoom. eapply wlp_mono; [apply init_collision_table_OK, F1, Hf|]. done. }
  intros e g2 (-> & E2 & F2). cbn [negb Z.eqb OK]. wlp_step. 
  assert (respects calm (init_guns (D := D) (S := S) (R := R))) as Hg by (unfold init_guns; keeps_tac).
  apply (wlp_mono _ (fun e g' => e = OK /\ calm g2 g')).
  { apply wlp_and; [|eapply (wlp_respects calm); [exact Hg|by intros]].
    unfold init_guns. wlp_step. unfold wlp at 1. destruct (on_world _ _) as [[a s']| |]; [|done..]. by wlp_steps. }
  intros e g3 (-> & E3 & F3). cbn [negb Z.eqb OK].
  assert (fine g3) as Hf3 by (by apply F3, F2, F1).
  assert (life g3 = (g_state g, curr_lvl g, Live tt, guns_block g)) as E0 by congruence. clear E1 E2 E3.
  unfold life in *. injection E0 as E01 E02 E03 E04. wlp_step.
  assert (forall m, (if mode =? 1 then
       if n =? 1 then modify (fun g => g <| curr_lvl := 1 |>) ;;; setup_game_1
       else if n =? 2 then modify (fun g => g <| curr_lvl := 2 |>) ;;; setup_game_2
       else ret tt
     else if mode =? 2 then
       _ <- setup_multiplayer player ;;
       modify (fun g => g <| curr_lvl := -1 |>)
     else ret tt) = m ->
    wlp m (fun _ g' => fine g' /\ map_block g' = Live tt /\
      (mode = 1 -> n = 1 \/ n = 2 -> life g' = (GAME, n, Live tt, Live tt)) /\
      (mode = 2 -> life g' = (MP_GAME, -1, Live tt, Live tt))) g3) as H.
  { intros m <-. destruct (Z.eqb_spec mode 1) as [->|Hm1].
    - destruct (Z.eqb_spec n 1) as [->|]; [|destruct (Z.eqb_spec n 2) as [->|]].
      + wlp_steps. eapply wlp_mono; [by apply setup_game_1_life|]. cbn. intros _ g4 [E4 F4].
        pose proof E4 as E5. unfold life in E5. split; [done|]. split; [congruence|]. split; [|done]. intros _ _. congruence.
      + wlp_steps. eapply wlp_mono; [by apply setup_game_2_life|]. cbn. intros _ g4 [E4 F4].
        pose proof E4 as E5. unfold life in E5. split; [done|]. split; [congruence|]. split; [|done]. intros _ _. congruence.
      + wlp_step. split; [done|]. split; [done|]. split; [|done]. intros _ [|]; lia.
    - destruct (Z.eqb_spec mode 2) as [->|Hm2].
      + wlp_step. eapply wlp_mono; [by apply setup_multiplayer_life|]. cbn. intros _ g4 [E4 F4]. wlp_step.
        unfold life in *. split; [done|]. split; [cbn; congruence|]. split; [done|]. intros _. cbn. congruence.
      + wlp_step. split; [done|]. split; [done|]. by split. }
  eapply wlp_mono; [by apply H|]. intros ? g4 H4. wlp_step. exact H4.
Qed.

(** *** Freeing *)
Definition freed {A} (b : ptr A) : ptr A := match b with Live _ => Freed | b => b end.

Lemma free_level_life g :
  wlp free_level (fun _ g' => life g' = (g_state g, curr_lvl g, freed (map_block g), freed (guns_block g)) /\
    (fine g -> fine g') /\ map_block g <> Freed) g.
Proof.
  unfold free_level. do 2 wlp_step. wlp_step.
  apply (wlp_mono _ (fun _ g' => life g' = (g_state g, curr_lvl g, freed (map_block g), guns_block g) /\
    (fine g -> fine g') /\ map_block g <> Freed)).
  { unfold close_map. wlp_steps. unfold life. destruct (map_block g) eqn:Eb.
    - destruct (0 <? lines _); wlp_steps. rewrite Eb. by split; [|split].
    - destruct (MapFile.close_map _); wlp_steps. split; [done|]. split; [|done]. intros H. exact H.
    - by wlp_steps. }
  intros _ g1 (E1 & F1 & Hne). wlp_step.
  apply (wlp_mono _ (fun _ g' => life g' = (g_state g, curr_lvl g, freed (map_block g), freed (guns_block g)) /\
    (fine g -> fine g'))).
  { unfold free_players. wlp_steps. split; [|intros Hf; apply F1 in Hf; exact Hf]. unfold life in *. cbn.
    assert (a = freed (guns_block g)) as ->; [|congruence]. injection E1 as _ _ _ Eg. rewrite Eg in H.
    destruct (guns_block g); cbn in *; congruence. }
  intros _ g2 [E2 F2]. eapply (wlp_respects calm).
  { unfold free_gun_anims. keeps_tac. }
  intros _ g3 [E3 F3]. split; [|split; [by intros ?%F2%F3|exact Hne]]. unfold life in *. congruence.
Qed.
Lemma free_level_again g : map_block g = Freed -> free_level g = Undef.
Proof. intros Hb. unfold free_level, close_map, bind, gets. cbn. by rewrite Hb. Qed.

Lemma init_player_ctrls_calm : respects calm init_player_ctrls.
Proof. unfold init_player_ctrls. keeps_tac. Qed.
Lemma set_network_state_calm s : respects calm (on_net (set_network_state s)).
Proof. apply on_net_calm. unfold set_network_state. keeps_tac. Qed.
#[local] Hint Resolve init_player_ctrls_calm set_network_state_calm : framing.

(** The end of a level, in state [st]. *)
Definition ended st g g' : Prop :=
  life g' = (st, curr_lvl g, freed (map_block g), freed (guns_block g)) /\ (fine g -> fine g').

Lemma end_level_life st (reset : bool) g :
  wlp (set_state st ;;; if reset then gm_reset_mp_game else _ <- free_level ;; init_player_ctrls)
    (fun _ g' => ended st g g') g.
Proof.
  wlp_step. eapply wlp_mono; [apply set_state_life|]. intros [] g1 [E1 F1].
  assert (wlp (_ <- free_level ;; init_player_ctrls) (fun _ g' => ended st g g') g1) as H.
  { wlp_step. eapply wlp_mono; [apply free_level_life|]. intros r g2 (E2 & F2 & _).
    apply (wlp_respects calm); [keeps_tac|]. intros [] g3 [E3 F3]. split; [|by intros ?%F1%F2%F3].
    unfold life in *. congruence. }
  destruct reset; [|exact H]. unfold gm_reset_mp_game. wlp_step.
  eapply (wlp_respects calm); [keeps_tac|]. intros [] g1' [E1' F1'].
  wlp_step. eapply wlp_mono; [apply free_level_life|]. intros r g2 (E2 & F2 & _).
  apply (wlp_respects calm); [keeps_tac|]. intros [] g3 [E3 F3]. split; [|by intros ?%F1%F1'%F2%F3].
  unfold life in *. congruence.
Qed.

(** *** Owning the blocks *)
Definition in_level (st : game_state_t) : bool :=
  match st with GAME | MP_GAME | END_S_GAME | END_M_GAME => true | _ => false end.
Definition played (st : game_state_t) : bool :=
  in_level st || match st with WIN_GAME | LOSE_GAME => true | _ => false end.

(** In a level the map and the player's guns are allocated, elsewhere they are
    not; once a level was played, [curr_lvl] tells which. *)
Record owned g : Prop := mk_owned {
  ow_fine : fine g;
  ow_blocks : if in_level (g_state g) then map_block g = Live tt /\ guns_block g = Live tt
              else map_block g <> Live tt /\ guns_block g <> Live tt;
  ow_level : played (g_state g) = true -> curr_lvl g = 1 \/ curr_lvl g = 2 \/ curr_lvl g = -1;
  ow_connected : g_state g <> DISCONNECT;
}.

Lemma owned_calm g g' : owned g -> calm g g' -> owned g'.
Proof.
  intros [Hf Hb Hl Hc] [E F]. unfold life in E. injection E as Es El Em Eg.
  split; [by apply F|..]; by rewrite ?Es, ?El, ?Em, ?Eg.
Qed.
Lemma owned_ended st g g' : owned g -> played (g_state g) = true -> ended st g g' ->
  st = MAIN_MENU \/ st = WIN_GAME \/ st = LOSE_GAME -> owned g'.
Proof.
  intros [Hf Hb Hl Hc] Hp [E F] Hst. unfold life in E. injection E as Es El Em Eg.
  split; [by apply F|..]; rewrite Es.
  - assert (in_level st = false) as -> by (by destruct Hst as [->|[->| ->]]). rewrite Em, Eg.
    split; [by destruct (map_block g)|by destruct (guns_block g)].
  - intros _. rewrite El. by apply Hl.
  - by destruct Hst as [->|[->| ->]].
Qed.

Lemma gm_init_game_owned n p g : n = 1 \/ n = 2 -> owned g -> in_level (g_state g) = false ->
  wlp (gm_init_game n 1 p) (fun _ => owned) g.
Proof.
  intros Hn Ho Hs. unfold gm_init_game. calm_step.
  assert (owned s') as Ho' by (eapply owned_calm; [exact Ho|by split]).
  wlp_step. eapply wlp_mono; [apply load_level_life, Ho'|]. intros err g2 [F2 H2].
  destruct (err =? OK) eqn:Ee; cbn [negb].
  2: { wlp_step. eapply owned_calm; [exact Ho'|]. by split. }
  destruct H2 as (_ & H2 & _). specialize (H2 eq_refl Hn). unfold life in H2. injection H2 as Es El Em Eg.
  wlp_step. eapply wlp_mono; [apply set_state_life|]. intros [] g3 [E3 F3].
  apply (wlp_respects calm); [keeps_tac|]. intros r g4 Hc. eapply owned_calm; [|exact Hc].
  unfold life in E3. injection E3 as Es3 El3 Em3 Eg3.
  split; [by apply F3|rewrite Es3|intros _|by rewrite Es3]; cbn [in_level]; rewrite ?Em3, ?Eg3, ?El3, ?El; [done|].
  destruct Hn; auto.
Qed.

Lemma set_state_owned st g : owned g -> in_level st = in_level (g_state g) ->
  (played st = true -> played (g_state g) = true) -> st <> DISCONNECT -> wlp (set_state st) (fun _ => owned) g.
Proof.
  intros [Hf Hb Hl Hc] Hin Hp Hd. eapply wlp_mono; [apply set_state_life|]. intros _ g' [E F].
  unfold life in E. injection E as Es El Em Eg. split; [by apply F|rewrite Es, Hin, Em, Eg; exact Hb| |by rewrite Es].
  rewrite Es, El. auto.
Qed.

(** *** The screens *)
Lemma draw_slot_calm pos x : respects calm (draw_slot pos x).
Proof. unfold draw_slot. keeps_tac. Qed.
Lemma draw_mouse_calm : respects calm draw_mouse.
Proof. unfold draw_mouse, player_movm. keeps_tac. Qed.
Lemma centred_calm x : respects calm (centred x).
Proof. unfold centred. keeps_tac. Qed.
Lemma part_of_width_calm x : respects calm (part_of_width x).
Proof. unfold part_of_width. keeps_tac. Qed.
#[local] Hint Resolve draw_slot_calm draw_mouse_calm centred_calm part_of_width_calm : framing.
Lemma render_date_calm x y y2 : respects calm (render_date x y y2).
Proof. unfold render_date, number_at, time_number_at. keeps_tac. Qed.
Lemma exit_at_calm : respects calm exit_at.
Proof. unfold exit_at. keeps_tac. Qed.
#[local] Hint Resolve render_date_calm exit_at_calm : framing.

(** Runs a calm call, from a state reached calmly. *)
Ltac draw_step H :=
  wlp_step; eapply (wlp_respects calm); [solve [keeps_tac]|];
  let g' := fresh "g'" in let H' := fresh in
  intros ? g' H'; apply (transitivity H) in H'; clear H; rename H' into H; cbv zeta.

Lemma on_click_calm k g g0 (Q : unit -> G -> Prop) : calm g0 g ->
  (forall c g', calm g0 g' -> wlp (k c) Q g') -> (forall g', calm g0 g' -> Q tt g') -> wlp (on_click k) Q g.
Proof.
  intros Hc Hk HQ. unfold on_click, player_movm. do 2 wlp_step. destruct (lb_held_down _); [|by wlp_step; apply HQ].
  wlp_steps. apply Hk. transitivity g; [done|]. split; [done|]. intros H. exact H.
Qed.

Lemma calm_state g g' : calm g g' -> g_state g' = g_state g /\ curr_lvl g' = curr_lvl g.
Proof. intros [E _]. unfold life in E. by injection E as -> -> _ _. Qed.

Lemma render_menu_owned g : owned g -> g_state g = MAIN_MENU -> wlp render_menu (fun _ => owned) g.
Proof.
  intros Ho Hs. unfold render_menu. assert (calm g g) as Hc by reflexivity. repeat draw_step Hc.
  apply (on_click_calm _ _ _ _ Hc); [|intros; by eapply owned_calm]. intros c g1 Hc1.
  destruct (calm_state _ _ Hc1) as [Es _]. assert (owned g1) by (by eapply owned_calm). rewrite Hs in Es.
  repeat break_if; [|apply set_state_owned; by rewrite ?Es..|by wlp_step].
  wlp_step. eapply wlp_mono; [apply gm_init_game_owned; [by left|done|by rewrite Es]|]. intros. by wlp_step.
Qed.
Lemma render_mp_menu_owned g : owned g -> g_state g = MP_MENU -> wlp render_mp_menu (fun _ => owned) g.
Proof.
  intros Ho Hs. unfold render_mp_menu. assert (calm g g) as Hc by reflexivity. repeat draw_step Hc.
  apply (on_click_calm _ _ _ _ Hc); [|intros; by eapply owned_calm]. intros c g1 Hc1.
  destruct (calm_state _ _ Hc1) as [Es _]. assert (owned g1) by (by eapply owned_calm). rewrite Hs in Es.
  break_if; [|by wlp_step]. wlp_step. eapply wlp_mono; [apply set_state_owned; by rewrite ?Es|]. intros [] g2 Ho2.
  apply (wlp_respects calm); [keeps_tac|]. intros. by eapply owned_calm.
Qed.
Lemma render_win_lose_owned g : owned g -> g_state g = WIN_GAME \/ g_state g = LOSE_GAME ->
  wlp render_win_lose_screen (fun _ => owned) g.
Proof.
  intros Ho Hs. unfold render_win_lose_screen, get_state. assert (calm g g) as Hc by reflexivity.
  do 4 wlp_step. repeat draw_step Hc.
  apply (on_click_calm _ _ _ _ Hc); [|intros; by eapply owned_calm]. intros c g1 Hc1.
  destruct (calm_state _ _ Hc1) as [Es El]. assert (owned g1) as Ho1 by (by eapply owned_calm).
  assert (curr_lvl g = 1 \/ curr_lvl g = 2 \/ curr_lvl g = -1) as Hl.
  { apply Ho. by destruct Hs as [-> | ->]. }
  assert (in_level (g_state g1) = false /\ played (g_state g1) = true) as [Hin Hp].
  { rewrite Es. by destruct Hs as [-> | ->]. }
  assert (forall n, n = 1 \/ n = 2 -> wlp (_ <- gm_init_game n 1 1 ;; ret tt) (fun _ => owned) g1) as Hgo.
  { intros n Hn. wlp_step. eapply wlp_mono; [by apply gm_init_game_owned|]. intros. by wlp_step. }
  destruct (mouse_on _ exit_menu_button c); [by apply set_state_owned|].
  destruct (mouse_on _ restart_menu_button c); rewrite ?andb_false_r; [|by wlp_step]. rewrite !andb_true_r.
  destruct (Z.eqb_spec (curr_lvl g) (-1)); [by apply set_state_owned|].
  destruct (Z.eqb_spec (curr_lvl g) LAST_LVL) as [E2|E2]; unfold LAST_LVL in E2; cbn [negb andb].
  - case_bool_decide; [apply Hgo; lia|by wlp_step].
  - case_bool_decide; [apply Hgo; lia|]. case_bool_decide; [apply Hgo; lia|by wlp_step].
Qed.
Lemma display_menu_owned g : owned g -> g_state g = GAME \/ g_state g = MP_GAME ->
  wlp display_menu (fun _ => owned) g.
Proof.
  intros Ho Hs. unfold display_menu, player_movm, get_state. assert (calm g g) as Hc by reflexivity. repeat draw_step Hc.
  match goal with x : slot * slot * slot |- _ => destruct x as [[m0 m1] m2] end. repeat draw_step Hc. wlp_step.
  apply (wlp_mono _ (fun _ => owned)).
  2: { intros _ g1 Ho1. assert (calm g1 g1) as Hc1 by reflexivity. repeat draw_step Hc1.
       apply (wlp_respects calm); [keeps_tac|]. intros. eapply owned_calm; [exact Ho1|]. by etransitivity. }
  destruct (lb_single_tap _); [|wlp_step; exact (owned_calm _ _ Ho Hc)]. draw_step Hc. wlp_step.
  apply (wlp_mono _ (fun _ => owned)).
  2: { intros _ g1 Ho1. eapply (wlp_respects calm); [keeps_tac|]. intros ? g2. by apply owned_calm. }
  destruct (calm_state _ _ Hc) as [Es _]. pose proof (owned_calm _ _ Ho Hc) as Ho1.
  break_if; [|by wlp_step]. do 2 wlp_step.
  apply set_state_owned; [done|..]; rewrite Es; destruct Hs as [-> | ->]; by case_decide.
Qed.

Lemma render_game_owned range g : owned g -> g_state g = GAME \/ g_state g = MP_GAME ->
  wlp (render_game range) (fun _ => owned) g.
Proof.
  intros Ho Hs. unfold render_game, get_state. assert (calm g g) as Hc by reflexivity. repeat draw_step Hc.
  match goal with x : list render_t * Z |- _ => destruct x as [renders size] end. repeat draw_step Hc. wlp_step.
  apply (wlp_mono _ (fun _ => owned)).
  2: { intros _ g1 Ho1. eapply (wlp_respects calm); [keeps_tac|]. intros ? g2. by apply owned_calm. }
  destruct (calm_state _ _ Hc) as [Es _]. pose proof (owned_calm _ _ Ho Hc) as Ho1.
  assert (forall ms g, owned g -> wlp (modify (fun g => g <| gun_menu_state := ms |>)) (fun _ : unit => owned) g) as Hm.
  { intros ms g1 H1. wlp_step. eapply owned_calm; [exact H1|]. split; [done|]. intros H. exact H. }
  break_if; [by apply Hm|]. break_if; [|by wlp_step]. wlp_step.
  eapply wlp_mono; [apply display_menu_owned; [exact Ho1|by rewrite Es]|]. intros [] g1. apply Hm.
Qed.

(** [display] shows the screen of the state, and a click may change it. *)
Lemma display_owned range g : owned g -> wlp (display range) (fun _ => owned) g.
Proof.
  intros Ho. unfold display, get_state. do 2 wlp_step. wlp_step. apply (wlp_mono _ (fun _ => owned)).
  2: { intros _ g1 Ho1. eapply (wlp_respects calm); [keeps_tac|]. intros ? g2. by apply owned_calm. }
  destruct (g_state g) eqn:Es; try by wlp_step.
  - by apply render_menu_owned.
  - by apply render_mp_menu_owned.
  - apply render_game_owned; auto.
  - apply render_game_owned; auto.
  - apply render_win_lose_owned; auto.
  - apply render_win_lose_owned; auto.
  - by destruct (ow_connected _ Ho).
Qed.

(** *** The tick *)

(** The connection was lost: the level stays loaded, whatever the state
    becomes. *)
Definition lost g : Prop := net_state (g_net g) = DISCONNECTED /\ (g_state g = DISCONNECT \/ g_state g = MAIN_MENU).

Lemma set_state_net st : keeps (fun g => net_state (g_net g)) (set_state st : prog G unit).
Proof. unfold set_state, get_state. keeps_tac; by apply keeps_zoom. Qed.
Lemma lost_video {A} (m : prog graphics_data A) : respects (stays lost) (on_video m).
Proof. apply keeps_zoom. intros t s H. exact H. Qed.
#[local] Hint Resolve lost_video : framing.
Lemma set_main_menu_lost : respects (stays lost) (set_state MAIN_MENU).
Proof.
  unfold set_state, get_state. keeps_tac.
  - apply keeps_zoom. intros t s H. exact H.
  - apply keeps_modify. intros s [Hn _]. split; [exact Hn|by right].
Qed.
#[local] Hint Resolve set_main_menu_lost : framing.
Lemma render_disconnect_lost : respects (stays lost) render_disconnect_screen.
Proof.
  unfold render_disconnect_screen, draw_slot, exit_at, centred, draw_mouse, player_movm, on_click, player_movm. keeps_tac.
Qed.

Lemma network_state_is (Q : network_state_t -> G -> Prop) g :
  (forall g', calm g g' -> net_state (g_net g') = net_state (g_net g) -> Q (net_state (g_net g)) g') ->
  wlp (on_net get_network_state) Q g.
Proof. intros HQ. apply wlp_zoom, wlp_gets. apply HQ; [|done]. split; [done|]. intros H. exact H. Qed.

Lemma receive_opponent_owned g : owned g -> g_state g = MP_GAME ->
  wlp receive_opponent (fun _ g' => owned g' \/ lost g' /\ g_state g' = DISCONNECT) g.
Proof.
  intros Ho Hs. unfold receive_opponent. assert (calm g g) as Hc by reflexivity. repeat draw_step Hc. wlp_step.
  destruct (calm_state _ _ Hc) as [Es _]. pose proof (owned_calm _ _ Ho Hc) as Ho1.
  assert (played (g_state g'0) = true) as Hp by (by rewrite Es, Hs).
  apply (wlp_mono _ (fun _ => owned)).
  { repeat break_if; [| |by wlp_step].
    - eapply wlp_mono; [apply (end_level_life LOSE_GAME true)|]. intros ? g2 He. exact (owned_ended _ _ _ Ho1 Hp He ltac:(auto)).
    - eapply wlp_mono; [apply (end_level_life WIN_GAME true)|]. intros ? g2 He. exact (owned_ended _ _ _ Ho1 Hp He ltac:(auto)). }
  intros [] g2 Ho2. wlp_step. apply network_state_is. intros g3 Hc3 Hn.
  destruct (decide (net_state (g_net g2) = DISCONNECTED)) as [E|].
  - apply (wlp_mono _ (fun _ g' => net_state (g_net g') = net_state (g_net g3) /\ g_state g' = DISCONNECT)).
    + apply wlp_and; [eapply wlp_respects; [apply set_state_net|by intros]|].
      eapply wlp_mono; [apply set_state_life|]. intros ? g4 [E4 _]. unfold life in E4. by injection E4.
    + intros ? g4 [En Es4]. right. split; [|done]. split; [congruence|by left].
  - wlp_step. left. by eapply owned_calm.
Qed.

Lemma connect_tick_owned g : owned g -> g_state g = MP_MENU -> wlp connect_tick (fun _ => owned) g.
Proof.
  intros Ho Hs. unfold connect_tick. assert (calm g g) as Hc by reflexivity. repeat draw_step Hc. wlp_step.
  apply network_state_is. intros g1 Hc1 _. apply (transitivity Hc) in Hc1. clear Hc.
  pose proof (owned_calm _ _ Ho Hc1) as Ho1. destruct (calm_state _ _ Hc1) as [Es _].
  case_decide; [|case_decide; [|by wlp_step]].
  - wlp_step. eapply (wlp_respects calm).
    { apply on_net_calm. unfold get_network_player. keeps_tac. }
    intros n g2 Hc2. pose proof (owned_calm _ _ Ho1 Hc2) as Ho2. destruct (calm_state _ _ Hc2) as [Es2 _].
    wlp_step. apply (wlp_mono _ (fun _ => owned)).
    2: { intros _ g3 Ho3. eapply (wlp_respects calm); [keeps_tac|]. intros ? g4. by apply owned_calm. }
    eapply wlp_mono; [apply load_level_life, Ho2|]. intros err g3 [F3 H3].
    destruct (err =? OK); [|eapply owned_calm; [exact Ho2|by split]].
    destruct H3 as (_ & _ & H3). specialize (H3 eq_refl). unfold life in H3. injection H3 as E1 E2 E3 E4.
    split; [done|rewrite E1, E3, E4; done|rewrite E2; auto|by rewrite E1].
  - wlp_step. eapply wlp_mono; [apply set_state_owned; [exact Ho1|by rewrite Es, Hs..|done]|].
    intros [] g2 Ho2. eapply (wlp_respects calm); [keeps_tac|]. intros ? g3. by apply owned_calm.
Qed.

Lemma play_tick_calm : respects calm play_tick.
Proof. unfold play_tick, get_state. keeps_tac. Qed.

Lemma gm_reset_life g : wlp gm_reset_mp_game (fun _ g' => map_block g' = freed (map_block g) /\ map_block g <> Freed) g.
Proof.
  unfold gm_reset_mp_game. wlp_step. eapply (wlp_respects calm); [keeps_tac|]. intros [] g1 [E1 _]. wlp_step.
  eapply wlp_mono; [apply free_level_life|]. intros r g2 (E2 & _ & Hne).
  eapply (wlp_respects calm); [keeps_tac|]. intros [] g3 [E3 _]. unfold life in *.
  assert (map_block g1 = map_block g) as Eb by congruence. rewrite Eb in *. split; [congruence|done].
Qed.
(** A level that is freed cannot be freed again. *)
Lemma reset_again {A} st (k : prog G A) g : map_block g = Freed ->
  wlp (set_state st ;;; gm_reset_mp_game ;;; k) (fun _ _ => False) g.
Proof.
  intros Hb. wlp_step. eapply wlp_mono; [apply set_state_life|]. intros [] g1 [E1 _]. wlp_step.
  eapply wlp_mono; [apply gm_reset_life|]. intros [] g2 [_ Hne]. destruct Hne. unfold life in E1. congruence.
Qed.

Lemma set_state_total st g : exists g', set_state st g = Done (tt, g') /\ life g' = (st, curr_lvl g, map_block g, guns_block g).
Proof.
  pose proof (set_state_life st g) as H. assert (wp (set_state st) (fun _ _ => True) g) as Ht.
  { unfold set_state, get_state. wp_steps. case_decide; [|by wp_steps]. wp_steps. unfold on_hw. apply wp_zoom.
    apply wp_rtc_b_update. intros. by wp_steps. }
  apply (proj1 (wp_Done _ _ _)) in Ht as ([] & g' & E & _). exists g'. split; [done|].
  unfold wlp in H. rewrite E in H. apply H.
Qed.
Lemma reset_again_undef st (k : prog G unit) g : map_block g = Freed -> (set_state st ;;; gm_reset_mp_game ;;; k) g = Undef.
Proof.
  intros Hb. destruct (set_state_total st g) as (g1 & E1 & L1). unfold bind. rewrite E1.
  pose proof (set_network_state_calm CLEANUP g1) as Hc. unfold gm_reset_mp_game, bind.
  assert (exists g2, on_net (set_network_state CLEANUP) g1 = Done (tt, g2)) as [g2 E2] by (by eexists).
  rewrite E2. destruct (Hc _ _ E2) as [L2 _]. rewrite free_level_again; [done|]. unfold life in *. congruence.
Qed.

Lemma update_game_state_owned g : owned g -> wlp update_game_state (fun _ => owned) g.
Proof.
  intros Ho. unfold update_game_state, get_state. do 2 wlp_step.
  assert (forall st reset, st = MAIN_MENU \/ st = WIN_GAME \/ st = LOSE_GAME -> played (g_state g) = true ->
    wlp (set_state st ;;; if (reset : bool) then gm_reset_mp_game else _ <- free_level ;; init_player_ctrls)
      (fun _ => owned) g) as Hend.
  { intros st reset Hst Hp. eapply wlp_mono; [apply end_level_life|]. intros ? g1 He. exact (owned_ended _ _ _ Ho Hp He Hst). }
  destruct (g_state g) eqn:Es; try by wlp_step.
  - wlp_steps. break_if; [by apply (Hend LOSE_GAME false); auto|]. wlp_steps.
    break_if; [by apply (Hend WIN_GAME false); auto|by wlp_step].
  - do 2 wlp_step. wlp_step. apply (wlp_mono _ (fun _ g' => g' = g)).
    { break_if; wlp_step; [done|]. apply (wlp_mono _ (fun _ g' => g' = g)); [|by intros].
      unfold on_world, load_player. apply wlp_zoom. wlp_steps. by destruct g. }
    intros over ? ->. destruct over; [|by wlp_step]. wlp_step.
    eapply wlp_mono; [apply gm_reset_life|]. intros [] g1 [Hb _].
    pose proof (ow_blocks _ Ho) as Hl. rewrite Es in Hl. destruct Hl as [Hl _]. rewrite Hl in Hb. cbn [freed] in Hb.
    do 2 wlp_step. break_if; (eapply wlp_mono; [by apply reset_again|done]).
  - by apply (Hend MAIN_MENU false); auto.
  - pose proof (Hend LOSE_GAME true ltac:(auto) ltac:(done)) as H. apply wlp_bind in H.
    wlp_step. eapply wlp_mono; [exact H|]. intros [] g1 H1. wlp_step. eapply wlp_mono; [exact H1|]. intros [] g2 Ho2.
    eapply (wlp_respects calm); [unfold send_result; keeps_tac|]. intros ? g3. by apply owned_calm.
Qed.

Lemma game_handler_owned g : owned g ->
  wlp game_handler (fun _ g' => owned g' \/ net_state (g_net g') = DISCONNECTED) g.
Proof.
  intros Ho. unfold game_handler, get_state. do 2 wlp_step. wlp_step.
  apply (wlp_mono _ (fun _ g' => owned g' \/ lost g' /\ g_state g' = DISCONNECT)).
  { case_decide; [by apply receive_opponent_owned|]. wlp_step. by left. }
  intros [] g1 [Ho1|[Hl Hs]].
  - do 2 wlp_step. wlp_step. apply (wlp_mono _ (fun _ => owned)).
    { repeat case_decide; [| |by apply connect_tick_owned|by wlp_step];
        (eapply (wlp_respects calm); [apply play_tick_calm|intros ? g2; by apply owned_calm]). }
    intros [] g2 Ho2. assert (calm g2 g2) as Hc by reflexivity. repeat draw_step Hc. wlp_step.
    eapply wlp_mono; [apply display_owned, (owned_calm _ _ Ho2 Hc)|]. intros [] g3 Ho3.
    wlp_step. eapply (wlp_respects calm); [keeps_tac|]. intros [] g4 Hc4.
    eapply wlp_mono; [apply update_game_state_owned, (owned_calm _ _ Ho3 Hc4)|]. by left.
  - do 2 wlp_step. wlp_step. rewrite Hs, !decide_False by done. wlp_steps. rewrite Hs, decide_False by done. wlp_steps.
    unfold display, get_state. do 2 wlp_step. wlp_step. rewrite Hs.
    eapply (wlp_respects (stays lost)); [apply render_disconnect_lost|]. intros [] g2 H2. apply H2 in Hl. clear H2. wlp_step.
    eapply (wlp_respects (stays lost)); [keeps_tac|]. intros r g3 H3. apply H3 in Hl. clear H3. wlp_steps.
    unfold update_game_state, get_state. do 2 wlp_step. destruct Hl as [Hn Hl]. cbn [g_state].
    change (g_state (_ <| g_world ::= _ |>)) with (g_state g3). destruct Hl as [-> | ->]; wlp_step; by right.
Qed.

Lemma handle_message_owned b m g : owned g ->
  wlp (handle_message b m) (fun _ g' => owned g' \/ net_state (g_net g') = DISCONNECTED) g.
Proof.
  intros Ho. destruct m as [| |mask]; cbn [handle_message]; [by wlp_step; left..|].
  unfold device_events. wlp_step. eapply (wlp_respects calm); [unfold on_bit, mouse_event; keeps_tac|].
  intros [] g1 Hc1. pose proof (owned_calm _ _ Ho Hc1). unfold on_bit.
  do 2 wlp_step. break_if; [|by wlp_step; left]. wlp_step.
  eapply (wlp_respects calm); [keeps_tac|]. intros [] g2 Hc2. by eapply game_handler_owned, owned_calm.
Qed.

(** *** Runs *)
Lemma on_kbc_calm {A} (m : prog (kbc D) A) : respects calm (on_kbc m).
Proof. apply on_input_calm. Qed.
Lemma until_ok_calm m : respects calm m -> respects calm (until_ok m).
Proof. intros Hm. unfold until_ok. keeps_tac. Qed.
#[local] Hint Resolve on_kbc_calm : framing.
#[local] Hint Extern 1 (respects _ (until_ok _)) => apply until_ok_calm : framing.
Lemma init_uart_calm b : respects calm (init_uart b).
Proof. unfold init_uart. keeps_tac. Qed.
Lemma init_devices_calm b : respects calm (init_devices b).
Proof. unfold init_devices. keeps_tac. Qed.
#[local] Hint Resolve init_uart_calm init_devices_calm : framing.

(** The program starts in the main menu without a level. *)
Lemma init_game_owned now g : fine g -> map_block g <> Live tt -> guns_block g <> Live tt ->
  wlp (init_game now) (fun _ => owned) g.
Proof.
  intros Hf Hm Hg. unfold init_game. assert (calm g g) as Hc by reflexivity.
  assert (respects calm (on_ai (modify (fun a => a <| seed := now |>)) : prog G unit)) as Hseed.
  { apply on_ai_calm, keeps_modify. intros s H. exact H. }
  do 4 draw_step Hc. clear Hseed. wlp_step. eapply wlp_mono; [apply set_state_life|]. intros [] g1 [E1 F1].
  assert (owned g1) as Ho.
  { destruct Hc as [E2 F2]. unfold life in *. injection E1 as E11 E12 E13 E14. injection E2 as E21 E22 E23 E24.
    split; [by apply F1, F2|rewrite E11|by rewrite E11|by rewrite E11]. cbn [in_level]. split; congruence. }
  eapply (wlp_respects calm); [keeps_tac|]. intros ? g2. by apply owned_calm.
Qed.

Lemma interrupts_owned b msgs g r g' : owned g -> interrupt_handler b msgs g = Done (r, g') ->
  owned g' \/ exists n r1 g1, interrupt_handler b (take n msgs) g = Done (r1, g1) /\ net_state (g_net g1) = DISCONNECTED.
Proof.
  revert g. induction msgs as [|m msgs IH]; intros g Ho.
  - cbn [interrupt_handler]. unfold bind, gets, ret. destruct (negb _); intros [= <- <-]; by left.
  - intros E. pose proof E as E'. cbn [interrupt_handler] in E. unfold bind at 1, gets, ret in E.
    destruct (negb _) eqn:Er; [injection E as <- <-; by left|].
    unfold bind in E. pose proof (handle_message_owned b m g Ho) as Hm. unfold wlp in Hm.
    destruct (handle_message b m g) as [[[] g1]| |] eqn:Em; [|done..].
    assert (forall l, interrupt_handler b (m :: l) g = interrupt_handler b l g1) as Hstep.
    { intros l. cbn [interrupt_handler]. unfold bind at 1, gets, ret. rewrite Er. unfold bind. by rewrite Em. }
    destruct Hm as [Ho1|Hd].
    + destruct (IH g1 Ho1 E) as [|(n & r1 & g2 & E2 & Hd)]; [by left|]. right.
      exists (1 + n)%nat, r1, g2. split; [|done]. cbn [Nat.add take]. by rewrite Hstep.
    + right. exists 1%nat. cbn [take]. destruct (interrupt_handler b [] g1) as [[r1 g2]| |] eqn:E1.
      * exists r1, g2. rewrite Hstep. split; [exact E1|].
        cbn [interrupt_handler] in E1. unfold bind, gets, ret in E1. destruct (negb _) in E1; by injection E1 as _ <-.
      * exfalso. cbn [interrupt_handler] in E1. unfold bind, gets, ret in E1. by destruct (negb _) in E1.
      * exfalso. cbn [interrupt_handler] in E1. unfold bind, gets, ret in E1. by destruct (negb _) in E1.
Qed.

Lemma free_game_calm : respects calm free_game.
Proof. unfold free_game. keeps_tac. Qed.

(** C4: the blocks of a level over the whole life of the program.  Started
    without a level and as long as [malloc] does not fail, whatever interrupts
    arrive, whatever the devices, the other machine and the player do and
    whatever [init_game] returns: when the main loop waits for a message or
    has ended, the map and the player's guns are allocated if it is in a
    level's state (a game, or one of the two states that end it) and neither is
    in the menus and on the result screens; [curr_lvl] names a level the code
    knows once one was played.  The one exception is the loss of the
    connection, after which the level stays allocated in any state. *)
Theorem levels_are_owned now msgs g r g' : fine g -> map_block g <> Live tt -> guns_block g <> Live tt ->
  proj_main_loop now msgs g = Done (r, g') ->
  owned g' \/ exists code b g0 n r1 g1, init_game now g = Done ((code, b), g0) /\
    interrupt_handler b (take n msgs) g0 = Done (r1, g1) /\ net_state (g_net g1) = DISCONNECTED.
Proof.
  intros Hf Hm Hg E. pose proof (init_game_owned now g Hf Hm Hg) as Hi. unfold wlp in Hi.
  unfold proj_main_loop, bind, ret in E. destruct (init_game now g) as [[[code b] g0]| |] eqn:Ei; [|done..].
  destruct code as [code|]; [|injection E as _ <-; by left].
  destruct (interrupt_handler b msgs g0) as [[left g1]| |] eqn:Eh; [|done..].
  destruct (interrupts_owned b msgs g0 left g1 Hi Eh) as [Ho|(n & r1 & g2 & E2 & Hd)].
  2: { right. by exists (Some code), b, g0, n, r1, g2. }
  left. destruct (negb left); [by injection E as _ <-|].
  destruct (free_game g1) as [[c g2]| |] eqn:Ef; [|done..]. injection E as _ <-.
  exact (owned_calm _ _ Ho (free_game_calm _ _ _ Ef)).
Qed.

(** C35: the end of a multiplayer game that is seen from the tick itself (the
    health of one of the two players is gone) resets the game twice, before
    and after the result is recorded: the second [free_level] frees what the
    first one freed. *)
Theorem mp_game_over_frees_twice g g1 e : g_state g = MP_GAME -> map_block g = Live tt ->
  aget (w_enemies (g_world g)) 0 = Some e -> health (w_player (g_world g)) <= 0 \/ health e <= 0 ->
  gm_reset_mp_game g = Done (tt, g1) -> update_game_state g = Undef.
Proof.
  intros Hs Hb He Hover Er.
  pose proof (gm_reset_life g) as Hl. unfold wlp in Hl. rewrite Er in Hl. destruct Hl as [Hb1 _]. rewrite Hb in Hb1.
  unfold update_game_state, get_state. rewrite (bind_Done (g_state g) g) by done. rewrite Hs.
  rewrite (bind_Done (w_player (g_world g)) g) by done. rewrite (bind_Done true g).
  - rewrite (bind_Done tt g1) by done. rewrite (bind_Done (w_player (g_world g1)) g1) by done.
    destruct (_ <=? 0); apply reset_again_undef; by rewrite Hb1.
  - destruct (Z.leb_spec (health (w_player (g_world g))) 0) as [|Hn]; [done|]. destruct Hover as [|Hd]; [lia|].
    rewrite (bind_Done e g); [by rewrite (proj2 (Z.leb_le _ _) Hd)|].
    unfold load_player, on_world, zoom, bind, gets, defined. cbn [find_player]. rewrite He. by destruct g.
Qed.
End Owned.

(** ** From power-on to the first level

    A machine that acknowledges every byte, whose keyboard controller delivers
    the bytes [keyed], each with the status that announces it. *)
Record desk : Type := mk_desk { keyed : list (Z * Z); full : bool }.
#[local] Instance desk_device : Device desk := {|
  dev_inb port d :=
    if port =? 0x60 then
      match keyed d with [] => ((0, 0xFA), d) | (_, b) :: keys => ((0, b), mk_desk keys (full d)) end
    else if port =? 0x64 then let st := fst (default (1, 0xFA) (head (keyed d))) in
      ((0, if (if full d then true else st =? 0x21) then st else Z.land st (Z.lnot 1)), mk_desk (keyed d) (if st =? 0x21 then true else negb (full d)))
    else if port =? 0x3F8 + 5 then ((0, 0x60), d)
    else if port =? 0x3F8 + 2 then ((0, 1), d)
    else ((0, 0), d);
  dev_outb _ _ d := (0, d);
  dev_wait _ d := d;
  dev_irqsetpolicy _ _ hook d := ((0, hook), d);
  dev_irqrmpolicy _ d := (0, d);
  dev_irqenable _ d := (0, d);
  dev_irqdisable _ d := (0, d);
  dev_dflt_kbc_cmd_byte _ := 71;
  dev_garbage _ := 165;
|}.

#[local] Instance ticking_rand : Rand Z := {| next_rand := fun z => (z mod 32768, z + 1) |}.
(** [src/proj/data/maps/map001.mxmap] *)
Definition map001 : list Z := [11; 22] ++
  [6; 6; 6; 6; 6; 6; 5; 5; 5; 5; 5; 5; 5; 5; 3; 3; 3; 3; 3; 0; 0; 0;
   6; 0; 0; 0; 0; 6; 5; 5; 5; 5; 5; 0; 0; 0; 0; 0; 0; 0; 3; 5; 5; 5;
   6; 0; 0; 0; 0; 6; 5; 5; 5; 5; 5; 0; 5; 5; 0; 0; 0; 0; 0; 0; 0; 5;
   6; 0; 0; 0; 0; 0; 0; 0; 0; 0; 0; 0; 5; 5; 0; 0; 0; 0; 3; 5; 0; 5;
   6; 6; 6; 6; 6; 6; 5; 5; 5; 5; 5; 5; 5; 5; 3; 3; 3; 3; 3; 5; 0; 5;
   0; 0; 0; 0; 0; 4; 4; 4; 4; 4; 0; 3; 3; 3; 2; 2; 2; 2; 2; 2; 0; 2;
   2; 0; 0; 0; 0; 1; -3; 0; 0; 0; 3; 3; 0; 0; 0; 0; 0; 0; 0; 0; 0; 2;
   2; 0; 0; 0; 0; 1; -3; 0; 0; 0; 0; 0; 0; 3; 2; 0; 0; 0; 0; 0; 2; 2;
   2; 0; 0; 0; 0; 4; 4; 4; 4; 4; 3; 3; 3; 2; 2; 0; 0; 0; 0; 0; 2; 2;
   2; 0; 0; 0; 0; 4; 4; 4; 4; 4; 3; 3; 3; 2; 2; 0; 0; 0; 0; 0; 2; 2;
   2; 2; 2; 2; 2; 4; 4; 4; 4; 4; 3; 3; 3; 2; 2; 2; 2; 2; 2; 2; 2; 2].

#[local] Instance desk_outside : Outside := {|
  map_files f := if decide (f = map_path 1) then Some map001 else None;
  row_junk := 7; row_slack := 1; mode_info _ := mk_mode_info 4 210 32;
  old_memory n := replicate (Z.to_nat n) 0; pixels_ok _ := true;
  sprite_of := img; junk_pickup := junk_slot; junk_index := 7; junk_hit := false; junk_position := vec0;
  stale := true; fuel := 30 |}.
Definition no_world : world := mk_world zero_player [] (mk_map [] 0 0) [] no_pickups 0.
Definition at_desk (keys : list (Z * Z)) : game desk heap Z :=
  let machine := mk_hw (mk_desk keys true) [] in
  mk_game machine no_world (mk_timer machine None 0)
    (mk_input (mk_kbc machine 1 12 false false 0 0) false [0; 0; 0] 0 zero_packet zero_controls)
    (mk_rtc machine (mk_date 0 0 0 0 0 0) 0 0 0 8 0)
    (mk_network (mk_uart machine ∅ COM1_UART_IRQ None None true) no_world 0 0 0 INIT 0 0 [0; 0; 0])
    (mk_ai no_world Null 0 [] 0 []) (no_screen []) (mk_sprites 1 [] [] []) init_settings [] MAIN_MENU CLOSED 0
    Null Null [].

(** The start of the devices, two packets of the mouse and the break code of escape. *)
Definition click : list (Z * Z) :=
  replicate 8 (1, 0xFA) ++ ((0x21,.) <$> [0x28; 0; 56; 0x09; 2; 0]) ++ [(1, 0x81)].
(** Six bytes of the mouse, two messages that are no interrupts, and a tick. *)
Definition first_messages : list message := replicate 6 (Interrupts (BIT 12)) ++ [NotReceived; Other; Interrupts (BIT 0)].
Definition first_level : game desk heap Z :=
  match proj_main_loop 0 first_messages (at_desk click) with Done (_, g) => g | _ => at_desk [] end.

(** The click on the first button loads the first level. *)
Lemma levels_are_owned_witness :
  proj_main_loop 0 first_messages (at_desk click) = Done (false, first_level) /\
  g_state first_level = GAME /\ alen (w_enemies (g_world first_level)) = 3 /\
  (owned first_level \/ exists code b g0 n r1 g1, init_game 0 (at_desk click) = Done ((code, b), g0) /\
    interrupt_handler b (take n first_messages) g0 = Done (r1, g1) /\ net_state (g_net g1) = DISCONNECTED).
Proof.
  assert (proj_main_loop 0 first_messages (at_desk click) = Done (false, first_level)) as E
    by (vm_compute; reflexivity).
  split; [exact E|]. split; [vm_compute; reflexivity|]. split; [vm_compute; reflexivity|].
  apply (levels_are_owned 0 first_messages (at_desk click) false first_level); [|discriminate|discriminate|exact E].
  split; reflexivity.
Defined.

(** A multiplayer game the player has just lost. *)
Definition lost_game : game desk heap Z :=
  (at_desk []) <| g_state := MP_GAME |> <| map_block := Live tt |> <| guns_block := Live tt |>
    <| g_world := no_world <| w_enemies := [duel_bot 50] |>
         <| w_player ::= (fun p => p <| guns := (fun i => duel_gun <| gi_gun ::= (fun g => g <| animations := i |>) |>)
                                       <$> [0; 1; 2]%nat |>) |> |>.
Lemma mp_game_over_frees_twice_witness :
  health (w_player (g_world lost_game)) = 0 /\ update_game_state lost_game = Undef.
Proof.
  split; [reflexivity|].
  apply (mp_game_over_frees_twice lost_game
    (match gm_reset_mp_game lost_game with Done (_, g) => g | _ => lost_game end) (duel_bot 50)).
  - reflexivity.
  - reflexivity.
  - reflexivity.
  - left. vm_compute. discriminate.
  - vm_compute. reflexivity.
Defined.
