(* ===== verification/Tick.v ===== *)
(** * Tick

    A tick of the game in single player runs to its end and leaves the level
    in order: the bots decide, the player and then every bot move, pick up,
    shoot and are animated, and the pickups turn.  The invariant is that of
    the components together; [Setup] establishes it. *)

From S2P Require Import Prelude Hardware Timer Kbc Rtc Queue Uart Doubles MapFile Utils Sprites Guns Controls.
From S2P Require Import Players Pickups Battle Network Enemies Video Render Game Level Menu Main Lifecycle.

Section Turn.
Context {LM : Libm}.

(** ** Players that can take their turn *)

(** What a turn needs of a player besides what it takes to fight: its
    animations, a gun for every place of its inventory, room for the packets
    of a pickup and the ten number keys. *)
Record outfit (x : player_info_t) : Prop := mk_outfit {
  of_sprites : sprites_ok x;
  of_inventory : inventory_size x = alen (guns x);
  of_packets : Forall (fun gi => max_packets (gi_gun gi) < 2 ^ 15) (guns x);
  of_keys : length (nums_press (kbd_state (p_movm x))) = 10%nat;
  of_guns : p_type x <> BOT -> 3 <= alen (guns x);
}.

(** A pickup whose amount no counter overflows on. *)
Definition modest (d : details) : bool :=
  match d with AMMO n _ => (0 <=? n) && (n <? 2 ^ 15) | MEDKIT a | ARMOR a => (0 <=? a) && (a <? 2 ^ 16) end.
Definition stocked (pk : pickup_t) : Prop := animated pk /\ modest (pk_details pk) = true.

Record store_ok (s : pickups_t) : Prop := mk_store_ok {
  so_pickups : pickups_ok s;
  so_width : t_width s < 2 ^ 16;
  so_height : t_height s < 2 ^ 16;
  so_stock : all_pickups stocked s;
}.

(** The animations a bot is given. *)
Definition usable (a : animated_sprite slot) : bool :=
  (0 <? frames_per_sprite a) && (0 <=? cur_frame a) && (cur_frame a <? num_fig a) && (num_fig a <=? INT_MAX) &&
  (num_fig a =? alen (frames a)).
Lemma usable_ok a : usable a = true -> anim_ok a.
Proof. unfold usable, anim_ok. intros H. repeat (apply andb_prop in H as [H ?]). bool_lia. Qed.
Lemma usable_views (sp : list (list (animated_sprite slot))) :
  forallb (fun v => (alen v =? 8) && forallb usable v) sp = true ->
  Forall (fun v => length v = 8%nat /\ Forall anim_ok v) sp.
Proof.
  intros H. apply Forall_forall. intros v Hv. rewrite forallb_forall in H. apply list_elem_of_In in Hv. specialize (H v Hv).
  apply andb_prop in H as [Hl H]. split; [unfold alen in Hl; bool_lia|]. apply Forall_forall. intros a Ha.
  apply list_elem_of_In in Ha. apply usable_ok. rewrite forallb_forall in H. by apply H.
Qed.
Lemma init_player_anims_ok x : sprites_ok (init_player_anims x).
Proof. right. split; [reflexivity|]. apply usable_views. vm_compute. reflexivity. Qed.

(** Everybody in the world can take a turn, and the others are bots. *)
Record arena (w : world) : Prop := mk_arena {
  ar_world : world_ok w;
  ar_store : store_ok (w_pickups w);
  ar_outfit p x : find_player p w = Some x -> outfit x;
  ar_bots i e : aget (w_enemies w) i = Some e -> p_type e = BOT;
}.

(** The pickups left: some may be gone, the others are where they were. *)
Definition remaining (s s' : pickups_t) : Prop :=
  t_width s' = t_width s /\ t_height s' = t_height s /\
  forall i pk', available s' i pk' -> exists pk, available s i pk /\
    pk_details pk' = pk_details pk /\ collider pk' = collider pk.

#[export] Instance remaining_preorder : PreOrder remaining.
Proof.
  split; [by intros s; split_and!; eauto|]. intros s1 s2 s3 (Ew & Eh & H1) (Ew' & Eh' & H2).
  split_and!; [congruence..|]. intros i pk3 (pk2 & (pk1 & H & ? & ?)%H1 & ? & ?)%H2. exists pk1. split_and!; [done|congruence..].
Qed.

(** ** Where a move ends *)

(** It is a position: two numbers an [int] can hold. *)
Definition finite (c : double) : bool :=
  match c with SpecFloat.S754_nan => false | _ => dvalid c && bool_decide (is_Some (dto_int c)) end.
Definition placed (v : vector_t) : bool := finite (vx v) && finite (vy v).

Lemma finite_spec c : finite c = true -> dvalid c = true /\ c <> SpecFloat.S754_nan /\ is_Some (dto_int c).
Proof.
  intros H. assert (c <> SpecFloat.S754_nan) as Hn by (by destruct c). assert (dvalid c && bool_decide (is_Some (dto_int c)) = true) as Hb.
  { by destruct c. }
  apply andb_prop in Hb as [Hv Hi]. by apply bool_decide_eq_true in Hi.
Qed.
Lemma placed_pos v : placed v = true -> pos_ok v.
Proof. intros [Hx Hy]%andb_prop. split; by apply finite_spec. Qed.

(** The position after the move. *)
Definition lands (m : map_t) (p : player_info_t) : option vector_t :=
  match (if decide (p_type p = BOT) then Some p else rotate_player p) with
  | Some p => player_wall_collision m p (next_position p)
  | None => None
  end.

(** *** Moving *)
Lemma rotate_fit t h x x' : fighter_ok t h x -> outfit x -> rotate_player x = Some x' ->
  fighter_ok t h x' /\ outfit x' /\ p_type x' = p_type x /\ health x' = health x.
Proof.
  intros [[] ? ? ? ?] []. unfold rotate_player. destruct (quantise _) as [q|]; [|done]. intros [= <-].
  split; [split; [by split|done..]|]. by split; [split|].
Qed.

(** What the moves leave alone. *)
Lemma at_position_fit t h x pos : fighter_ok t h x -> outfit x -> placed pos = true ->
  fighter_ok t h (x <| position := pos |>) /\ outfit (x <| position := pos |>).
Proof.
  intros [[] ? ? _ _] [] Hpos. pose proof (placed_pos _ Hpos) as [(_ & _ & Hx) (_ & _ & Hy)].
  split; [split; [by split|done..]|by split].
Qed.
Lemma clear_key_fit t h x nums : fighter_ok t h x -> outfit x -> length nums = 10%nat ->
  let x' := x <| p_movm ::= (fun c => c <| kbd_state ::= (fun s => s <| nums_press := nums |>) |>) |> in
  fighter_ok t h x' /\ outfit x'.
Proof. intros [[] ? ? ? ?] [] Hn x'. split; [split; [by split|done..]|by split]. Qed.
Lemma controls_fit t h x : fighter_ok t h x -> outfit x ->
  fighter_ok t h (update_player_controls x) /\ outfit (update_player_controls x).
Proof.
  intros [[] ? ? ? ?] []. split; [split; [by split|done..]|].
  unfold update_player_controls, set. split; cbn; try done; repeat case_match; done.
Qed.
Lemma switched_outfit x i gs : outfit x -> gi_gun <$> gs = gi_gun <$> guns x ->
  outfit (x <| gun_index := i |> <| guns := gs |>).
Proof.
  intros [] Hgs. assert (alen gs = alen (guns x)) as El.
  { apply (f_equal length) in Hgs. rewrite !length_fmap in Hgs. unfold alen. by rewrite Hgs. }
  split; cbn; try done; rewrite ?El; try done.
  assert (forall l, Forall (fun gi => max_packets (gi_gun gi) < 2 ^ 15) l <->
    Forall (fun g => max_packets g < 2 ^ 15) (gi_gun <$> l)) as Hm by (intros; by rewrite Forall_fmap).
  by rewrite Hm, Hgs, <- Hm.
Qed.

(** The number keys. *)
Lemma press_number_fit t h x : fighter_ok t h x -> outfit x -> p_type x <> BOT ->
  exists x', press_number [1; 2; 3] x = Some x' /\ position x' = position x /\ p_type x' = p_type x /\
    health x' = health x /\ fighter_ok t h x' /\ outfit x'.
Proof.
  intros Hf Ho Hb. pose proof (of_keys _ Ho) as Hk. rewrite press_number_spec.
  2: { unfold alen. rewrite Hk. repeat constructor; lia. }
  destruct (first_pressed _ _) as [k|] eqn:Ef; [|by exists x].
  assert (1 <= k <= 3) as Hr.
  { unfold first_pressed in Ef. destruct (list_find _ _) as [[j k']|] eqn:El; [|done]. injection Ef as <-.
    apply list_find_Some in El as (Hj%list_elem_of_lookup_2 & _).
    rewrite !elem_of_cons, elem_of_nil in Hj. lia. }
  destruct (clear_key_fit t h x (<[Z.to_nat k := false]> (nums_press (kbd_state (p_movm x)))) Hf Ho) as [Hf2 Ho2].
  { by rewrite length_insert. }
  destruct (switch_gun_fit t h (k - 1) _ Hf2) as (gs & -> & Hgs & Hf3); [pose proof (of_guns _ Ho Hb); cbn; lia|].
  eexists. split; [reflexivity|]. split_and!; try done. by apply switched_outfit.
Qed.

(** A player whose move ends at a position is there afterwards, with the gun
    of the key pressed in hand. *)
Lemma move_player_fit t h m x pos : fighter_ok t h x -> outfit x -> p_type x <> NETWORK_PLAYER ->
  lands m x = Some pos -> placed pos = true ->
  exists x', move_player m x = Some x' /\ position x' = pos /\ p_type x' = p_type x /\ health x' = health x /\
    fighter_ok t h x' /\ outfit x'.
Proof.
  intros Hf Ho Hnet Hl Hpos. unfold move_player, lands in *. rewrite (decide_False (P := p_type x = NETWORK_PLAYER)) by done.
  destruct (decide (p_type x = BOT)) as [Eb|Eb].
  - rewrite Hl. cbv zeta. rewrite decide_True by done. destruct (at_position_fit t h x pos Hf Ho Hpos). by eexists.
  - destruct (rotate_player x) as [x1|] eqn:E; [|done]. rewrite Hl. cbv zeta.
    destruct (rotate_fit t h x x1 Hf Ho E) as (Hf0 & Ho0 & Et0 & Eh0).
    rewrite decide_False by (cbn; by rewrite Et0). change (seqZ 1 3) with [1; 2; 3].
    destruct (at_position_fit t h x1 pos Hf0 Ho0 Hpos) as [Hf1 Ho1].
    destruct (press_number_fit t h (x1 <| position := pos |>) Hf1 Ho1)
      as (x' & -> & Hp & Ht & Hh & Hf2 & Ho2); [cbn; by rewrite Et0|].
    cbn in Hp, Ht, Hh. rewrite Et0 in Ht. rewrite Eh0 in Hh.
    eexists. split; [reflexivity|]. destruct (controls_fit t h x' Hf2 Ho2). by split_and!.
Qed.

(** *** Picking up *)

(** A square is not negative: documented for [pow(x, 2)]. *)
Hypothesis pow_square_nonneg : forall x, nonneg (dpow x (dint 2)) = true.

Lemma outfit_player_ok t h x : fighter_ok t h x -> outfit x -> player_ok x.
Proof.
  intros [Hh Hi Hg _ _] Ho. split; [done| |apply Ho]. eapply Forall_impl; [exact Hg|]. by intros gi [[? _] _ _].
Qed.
Lemma modest_details x d : outfit x -> modest d = true -> details_ok x d.
Proof.
  intros Ho Hd. destruct d as [n k|a|a]; cbn in *; bool_lia. split; [done|].
  eapply Forall_impl; [apply Ho|]. cbn. lia.
Qed.

(** A player that gained is still in order, and not weaker. *)
Lemma gained_fit t h d x x' : modest d = true -> fighter_ok t h x -> outfit x -> player_ok x' -> gained d x x' ->
  fighter_ok t h x' /\ outfit x' /\ position x' = position x /\ p_type x' = p_type x /\ health x <= health x'.
Proof.
  intros Hd Hf [] Hok Hg. pose proof (po_healthy _ Hok) as Hh. destruct Hf as [Hh0 Hi Hgf Hx Hy]. destruct d as [n k|a|a]; cbn in Hd, Hg; bool_lia.
  - destruct Hg as (i & gi & (Hgi & _ & _)%list_find_Some & Hlt & ->).
    pose proof (proj1 (Forall_lookup _ _) Hgf _ _ Hgi) as [[[? ? ?] ?] [? ?] ?]. split; [|split; [|done]].
    + split; [done|cbn; unfold alen in *; by rewrite length_insert| |done|done].
      cbn. apply Forall_insert; [done|]. split; [split; [split; cbn; [done|done|lia]|done]|done|done].
    + split; cbn; try done; unfold alen in *; rewrite ?length_insert; try done.
      apply Forall_insert; [done|]. by apply (proj1 (Forall_lookup _ _) of_packets0 _ _ Hgi).
  - destruct Hg as (Hlt & ->). split; [by split|]. split; [by split|]. split; [done|]. split; [done|]. cbn. lia.
  - destruct Hg as (Hlt & ->). split; [by split|]. split; [by split|]. done.
Qed.

Lemma handler_fit t h x pk : modest (pk_details pk) = true -> fighter_ok t h x -> outfit x ->
  exists got x', pickup_handler x pk = Some (got, x') /\ fighter_ok t h x' /\ outfit x' /\
    position x' = position x /\ p_type x' = p_type x /\ health x <= health x'.
Proof.
  intros Hd Hf Ho. pose proof (outfit_player_ok _ _ _ Hf Ho) as Hok. pose proof (modest_details _ _ Ho Hd) as Hdet.
  assert (exists got x', pickup_handler x pk = Some (got, x') /\ handled (pk_details pk) x got x') as (got & x' & E & Hok' & Hg).
  { unfold pickup_handler. destruct (pk_details pk) as [n k|a|a].
    - by apply pickup_ammo_spec.
    - destruct (pickup_medkit_spec a x Hok Hdet) as (got & x' & -> & H). by exists got, x'.
    - destruct (pickup_armor_spec a x Hok Hdet) as (got & x' & -> & H). by exists got, x'. }
  exists got, x'. split; [exact E|]. destruct got; [by eapply gained_fit|]. destruct Hg as [_ ->]. by split_and!.
Qed.

(** What a part of [p]'s turn leaves of the world: [p] ends up as [x']. *)
Record part (p : who) (x' : player_info_t) (w w' : world) : Prop := mk_part {
  pt_arena : arena w';
  pt_map : w_map w' = w_map w;
  pt_time : time_counter w' = time_counter w;
  pt_count : alen (w_enemies w') = alen (w_enemies w);
  pt_self : find_player p w' = Some x';
  pt_others q x : q <> p -> find_player q w = Some x -> exists x', find_player q w' = Some x' /\
    wounded x x' /\ (opponents p q = false -> x' = x);
  pt_pickups : remaining (w_pickups w) (w_pickups w');
}.
Lemma part_trans p x1 x2 w w1 w2 : part p x1 w w1 -> part p x2 w1 w2 -> part p x2 w w2.
Proof.
  intros [Ha Hm Ht Hc Hs Ho Hp] [Ha' Hm' Ht' Hc' Hs' Ho' Hp'].
  split; [done|congruence|congruence|congruence|done| |by etransitivity].
  intros q x Hne Hx. destruct (Ho q x Hne Hx) as (y & Hy & Hw & E). destruct (Ho' q y Hne Hy) as (z & Hz & Hw' & E').
  exists z. split; [done|]. split; [by eapply wounded_trans|]. intros H. by rewrite E', E.
Qed.
Lemma replaced_part p x x' w w' : arena w -> find_player p w = Some x -> replaced p x' w w' ->
  fighter_ok (time_counter w) (w_anims w) x' -> outfit x' -> p_type x' = p_type x -> part p x' w w'.
Proof.
  intros [Hw Hs Ho Hb] Hx Hrep Hf Ho' Hty. pose proof Hrep as [[Em Ea Ep Et] Hq].
  split; [|done|done|by eapply replaced_len|by eapply replaced_same| |by rewrite Ep].
  - split; [by eapply replaced_ok|by rewrite Ep| |].
    + intros q y. rewrite Hq. case_decide; [by intros [= <-]|]. apply Ho.
    + intros i e. change (aget (w_enemies w') i) with (find_player (Enemy i) w'). rewrite Hq. case_decide as E.
      * intros [= <-]. subst p. rewrite Hty. by apply (Hb i).
      * apply Hb.
  - intros q y Hne Hy. exists y. rewrite Hq, decide_False by done. split; [done|]. split; [apply wounded_refl|done].
Qed.
Lemma part_refl p x w : arena w -> find_player p w = Some x -> part p x w w.
Proof. intros Ha Hx. split; [done..| |reflexivity]. intros q y _ Hy. exists y. split; [done|]. split; [apply wounded_refl|done]. Qed.

Lemma took_store s taken s' : store_ok s -> took s taken s' -> all_pickups stocked s' -> store_ok s' /\ remaining s s'.
Proof.
  intros [Hp Hw Hh Hs] (Hp' & Ew & Eh & _ & Hav) Hall. split; [split; [exact Hp'|lia|lia|exact Hall]|].
  split; [exact Ew|]. split; [exact Eh|]. intros i pk [H _]%Hav. by exists pk.
Qed.
Lemma stocked_taken pk : stocked pk -> stocked (pk <| picked_up := true |>).
Proof. by intros [(a & ? & ?) ?]; split; [exists a|]. Qed.
Lemma pickup_index_stock x idx : respects (stays (all_pickups stocked)) (pickup_index x idx).
Proof.
  unfold pickup_index, pickup_array. pose proof (delete_pickup_all stocked idx stocked_taken) as Hd. repeat first [exact Hd|keeps_step].
Qed.

(** Other pickups in the same world. *)
Lemma arena_store s w : arena w -> store_ok s -> arena (w <| w_pickups := s |>).
Proof.
  intros [[Hm Ht Hh Hf Hp He] Hs Ho Hb] Hs'. split; [by split|exact Hs'|exact Ho|exact Hb].
Qed.

Lemma take_pickup_fit p x w : arena w -> find_player p w = Some x -> placed (position x) = true ->
  wp (take_pickup p) (fun _ w' => exists x', part p x' w w' /\ position x' = position x /\ p_type x' = p_type x /\
    health x <= health x') w.
Proof.
  intros Ha Hx Hpos. pose proof Ha as [Hw [Hpk Hwd Hht Hst] Ho _]. unfold take_pickup. wp_step. apply (wp_load_player _ _ _ _ Hx).
  unfold on_pickups. do 2 wp_step.
  eapply wp_mono; [apply check_pickup_spec; [exact pow_square_nonneg|done|by apply placed_pos|done|done]|].
  intros idx s' [-> Hf]. assert (w <| w_pickups := w_pickups w |> = w) as -> by (by destruct w).
  destruct (Z.ltb_spec 0 idx) as [Hi|_].
  2: { wp_step. exists x. by split; [apply part_refl|]. }
  destruct (found_available _ _ _ Hf Hi) as [pk Hav]. pose proof Hav as (Hr & _ & arr & Harr & Hget).
  destruct (Hst arr idx pk Harr Hr Hget) as [_ Hmod].
  destruct (handler_fit _ _ x pk Hmod (wo_fighters _ Hw _ _ Hx) (Ho _ _ Hx)) as (got & x' & Hrun & Hf' & Ho' & Ep & Et & Hh).
  wp_step. wp_step. eapply wp_mono; [apply wp_respects; [eapply pickup_index_spec; [done|exact Hav|exact Hrun]|apply pickup_index_stock]|].
  intros r s' [[-> Htook] Hst']. destruct (took_store _ _ _ (ar_store _ Ha) Htook (Hst' Hst)) as [Hs' Hrem].
  set (w1 := w <| w_pickups := s' |>). assert (arena w1) as Ha1 by (by apply arena_store).
  assert (find_player p w1 = Some x) as Hx1 by (by destruct p).
  destruct (store_player_spec p x x' w1 Hx1) as (w2 & E & Hrep). eapply wp_Done_eq; [exact E|].
  exists x'. split; [|by split_and!]. eapply (part_trans _ x _ _ w1); [|by eapply replaced_part].
  split; try done. intros q y _ Hy. exists y. split; [by destruct q|]. split; [apply wounded_refl|done].
Qed.

(** *** Shooting *)
Lemma wounded_fit t h x x' : wounded x x' -> fighter_ok t h x' -> outfit x -> outfit x' /\ p_type x' = p_type x /\
  position x' = position x /\ should_render x' = should_render x.
Proof. intros (hp & a & -> & _) _ []. by split; [split|]. Qed.

Lemma store_player_crowd p x : keeps (fun w => alen (w_enemies w)) (store_player p x).
Proof.
  destruct p as [|i]; [by apply keeps_modify|]. intros w r w'. unfold store_player, bind, gets.
  destruct (aset (w_enemies w) i x) as [es|] eqn:E; [|done]. intros [= _ <-]. by apply (aset_len _ _ _ _ E).
Qed.
Lemma load_player_crowd p : keeps (fun w => alen (w_enemies w)) (load_player p).
Proof. unfold load_player. keeps_tac. Qed.
Lemma on_anims_crowd {A} (m : prog anim_heap A) : keeps (fun w => alen (w_enemies w)) (on_anims m).
Proof. intros w r w'. unfold on_anims, zoom. destruct (m _) as [[? ?]| |]; [|done..]. by intros [= _ <-]. Qed.
#[local] Hint Resolve store_player_crowd load_player_crowd on_anims_crowd : framing.
Lemma update_player_crowd p f : keeps (fun w => alen (w_enemies w)) (update_player p f).
Proof. unfold update_player. keeps_tac. Qed.
#[local] Hint Resolve update_player_crowd : framing.
Lemma aim_loop_crowd ply range ts a : keeps (fun w => alen (w_enemies w)) (aim_loop ply range ts a).
Proof. revert a. induction ts as [|t ts IH]; intros a; cbn [aim_loop]; keeps_tac. Qed.
#[local] Hint Resolve aim_loop_crowd : framing.
Lemma bullets_crowd junk n p : keeps (fun w => alen (w_enemies w)) (bullets junk n p).
Proof. induction n as [|n IH]; cbn [bullets]; unfold bullet, targets_of, change_gun; keeps_tac. Qed.
#[local] Hint Resolve bullets_crowd : framing.
Lemma shoot_step_crowd junk playing p : keeps (fun w => alen (w_enemies w)) (shoot_step junk playing p).
Proof. unfold shoot_step, fire, change_gun, update_gun. keeps_tac. Qed.

Lemma shoot_step_fit playing p x w : arena w -> find_player p w = Some x ->
  wp (shoot_step false playing p) (fun _ w' => exists x', part p x' w w' /\ position x' = position x /\
    p_type x' = p_type x /\ health x' = health x) w.
Proof.
  intros [Hw Hs Ho Hb] Hx. pose proof (wo_fighters _ Hw _ _ Hx) as Hf. pose proof (Ho _ _ Hx) as Hox.
  destruct (gun_in_hand_Some x (fo_index _ _ _ Hf)) as [gi Hgi].
  destruct (shoot_step_spec playing p x gi w Hw Hx Hgi (of_sprites _ Hox)) as (pulled & _ & H).
  eapply wp_mono; [apply (wp_respects (same (fun w => alen (w_enemies w))) _ _ _ H), shoot_step_crowd|].
  intros shot w' [(gi' & x' & ca & sp & r & _ & Hg & E & Hsp & [Em Ep Et Hok' Hx' Hq]) Hlen]. unfold same in Hlen.
  exists x'. split; [|by rewrite E].
  assert (outfit x') as Ho'.
  { destruct Hox. rewrite E in *. split; cbn; try done; unfold alen in *; rewrite ?length_insert; try done.
    apply Forall_insert; [done|]. rewrite Hg. unfold gun_in_hand, aget in Hgi. destruct (_ <? 0); [done|].
    by apply (proj1 (Forall_lookup _ _) of_packets0 _ _ Hgi). }
  assert (forall q y', find_player q w' = Some y' -> exists y, find_player q w = Some y /\ outfit y' /\ p_type y' = p_type y) as Hback.
  { intros q y' Hy'. destruct (decide (q = p)) as [->|Hne].
    { exists x. rewrite Hx' in Hy'. injection Hy' as <-. split; [done|]. split; [done|]. by rewrite E. }
    assert (is_Some (find_player q w)) as [y Hy].
    { destruct q as [|i]; [done|]. apply aget_is_Some. rewrite <- Hlen. apply aget_is_Some. by exists y'. }
    destruct (Hq q y Hne Hy) as (z & Hz & Hwd & _). rewrite Hy' in Hz. injection Hz as <-. exists y. split; [done|].
    destruct (wounded_fit _ _ _ _ Hwd (wo_fighters _ Hok' _ _ Hy') (Ho _ _ Hy)) as (? & ? & _). done. }
  split; [|done|done|done|done|exact Hq|by rewrite Ep].
  split; [done|by rewrite Ep| |].
  - intros q y' Hy'. by destruct (Hback q y' Hy') as (y & _ & ? & _).
  - intros i e He. destruct (Hback (Enemy i) e He) as (y & Hy & _ & ->). by apply (Hb i).
Qed.

(** *** A turn *)
Lemma turn_fit playing p x pos w : arena w -> find_player p w = Some x ->
  lands (w_map w) x = Some pos -> placed pos = true ->
  wp (player_int_ih false playing p) (fun _ w' => exists x', part p x' w w' /\ position x' = pos /\
    p_type x' = p_type x /\ health x <= health x') w.
Proof.
  intros Ha Hx Hl Hpos. pose proof Ha as [Hw _ Ho Hb]. unfold player_int_ih. wp_step. wp_step. wp_step.
  assert (p_type x <> NETWORK_PLAYER) as Hnet.
  { destruct p as [|i]; [injection Hx as <-; by rewrite (wo_player _ Hw)|]. by rewrite (Hb i x Hx). }
  destruct (move_player_fit _ _ _ x pos (wo_fighters _ Hw _ _ Hx) (Ho _ _ Hx) Hnet Hl Hpos)
    as (x1 & Hm & Hp1 & Ht1 & Hh1 & Hf1 & Ho1).
  eapply wp_update_player; [exact Hx|exact Hm|]. intros w1 Hrep.
  pose proof (replaced_part _ _ _ _ _ Ha Hx Hrep Hf1 Ho1 Ht1) as P1. wp_step.
  eapply wp_mono; [apply (take_pickup_fit p x1); [apply P1|apply P1|by rewrite Hp1]|].
  intros [] w2 (x2 & P2 & Hp2 & Ht2 & Hh2). wp_step.
  eapply wp_mono; [apply (shoot_step_fit playing p x2); apply P2|].
  intros shot w3 (x3 & P3 & Hp3 & Ht3 & Hh3). wp_step. exists x3.
  split; [by eapply part_trans, part_trans|]. split; [congruence|]. split; [congruence|lia].
Qed.

(** *** The bots, one after the other *)
Lemma lands_wounded m x x' : wounded x x' -> lands m x' = lands m x.
Proof.
  intros (h & a & -> & _). unfold lands. cbn. case_decide; [done|]. unfold rotate_player. cbn.
  by destruct (quantise _).
Qed.

(** Where a bot ends that was [x] before the turns. *)
Definition settled (m : map_t) (x x' : player_info_t) : Prop :=
  if should_render x then lands m x = Some (position x') else wounded x x'.

(** Every bot that moves can: the level's [i]-th is [es !! i]. *)
Definition bots_land (m : map_t) (es : list player_info_t) : Prop :=
  forall i x, aget es i = Some x -> should_render x = true -> exists pos, lands m x = Some pos /\ placed pos = true.

Record bots_done (k : Z) (w0 w w' : world) : Prop := mk_bots_done {
  bd_arena : arena w';
  bd_map : w_map w' = w_map w;
  bd_time : time_counter w' = time_counter w;
  bd_count : alen (w_enemies w') = alen (w_enemies w);
  bd_player : wounded (w_player w) (w_player w');
  bd_pickups : remaining (w_pickups w) (w_pickups w');
  bd_bots i x : aget (w_enemies w0) i = Some x -> exists x', aget (w_enemies w') i = Some x' /\
    if i <? k then settled (w_map w) x x' else wounded x x';
}.

Lemma bot_turn_fit playing k w0 w w1 : bots_land (w_map w) (w_enemies w0) -> alen (w_enemies w0) = alen (w_enemies w) ->
  0 <= k < alen (w_enemies w) -> bots_done k w0 w w1 ->
  wp (e <- load_player (Enemy k) ;; if should_render e then player_int_ih false playing (Enemy k) else ret tt)
    (fun _ => bots_done (k + 1) w0 w) w1.
Proof.
  intros Hland Hlen Hk [Ha Em Et Ec Hp Hpk Hb].
  destruct (proj2 (aget_is_Some (w_enemies w0) k)) as [x Hx]; [lia|].
  destruct (Hb k x Hx) as (x1 & Hx1 & Hw). rewrite Z.ltb_irrefl in Hw.
  assert (should_render x1 = should_render x) as Er by (by destruct Hw as (? & ? & -> & _)).
  wp_step. apply (wp_load_player _ x1); [exact Hx1|]. destruct (should_render x1) eqn:Hr.
  - symmetry in Er. destruct (Hland k x Hx Er) as (pos & Hl & Hpos).
    eapply wp_mono; [apply (turn_fit playing (Enemy k) x1 pos); [exact Ha|exact Hx1| |exact Hpos]|].
    { rewrite Em. by rewrite (lands_wounded _ x). }
    intros [] w2 (x2 & [Ha2 Em2 Et2 Ec2 Hs2 Ho2 Hpk2] & Hp2 & _ & _). split; [done|congruence|congruence|congruence| |by etransitivity|].
    + destruct (Ho2 ThePlayer (w_player w1)) as (y & [= <-] & Hwy & _); [done|done|]. by eapply wounded_trans.
    + intros i y Hy. destruct (Z.eq_dec i k) as [->|Hne].
      * exists x2. split; [exact Hs2|]. destruct (Z.ltb_spec k (k + 1)); [|lia]. rewrite Hx in Hy. injection Hy as <-.
        unfold settled. rewrite Er. by rewrite Hp2.
      * destruct (Hb i y Hy) as (y1 & Hy1 & Hs). destruct (Ho2 (Enemy i) y1) as (y2 & Hy2 & _ & E); [congruence|exact Hy1|].
        exists y2. split; [exact Hy2|]. rewrite (E eq_refl). by destruct (Z.ltb_spec i k), (Z.ltb_spec i (k + 1)); try lia.
  - wp_step. split; try done. intros i y Hy. destruct (Hb i y Hy) as (y1 & Hy1 & Hs). exists y1. split; [exact Hy1|].
    destruct (Z.ltb_spec i k), (Z.ltb_spec i (k + 1)); try done; [lia|]. assert (i = k) as -> by lia.
    rewrite Hx in Hy. injection Hy as <-. unfold settled. by rewrite <- Er.
Qed.

Lemma bots_fit playing w0 w : bots_land (w_map w) (w_enemies w0) -> bots_done 0 w0 w w ->
  alen (w_enemies w0) = alen (w_enemies w) ->
  wp (bot_int_ih false playing) (fun _ => bots_done (alen (w_enemies w)) w0 w) w.
Proof.
  intros Hland Hw Hlen. unfold bot_int_ih. wp_step. wp_step. set (n := alen (w_enemies w)) in *. pose proof (alen_nonneg (w_enemies w)).
  apply (wp_for_each _ _ (fun l w1 => exists k, l = seqZ k (n - k) /\ 0 <= k <= n /\ bots_done k w0 w w1)).
  - intros i l w1 (k & El & Hk & Hd). destruct (Z.eq_dec k n) as [->|Hne]; [by rewrite Z.sub_diag in El|].
    rewrite seqZ_cons in El by lia. injection El as -> ->.
    eapply wp_mono; [by apply (bot_turn_fit playing k w0 w); [..|lia|]|]. intros [] w2 Hd2. exists (k + 1).
    split; [f_equal; lia|]. split; [lia|done].
  - intros w1 (k & El & Hk & Hd). destruct (Z.eq_dec k n) as [->|Hne]; [done|]. by rewrite seqZ_cons in El by lia.
  - exists 0. split; [f_equal; lia|]. by split; [lia|].
Qed.
End Turn.

(** ** The decisions of the bots *)
Section Decide.
Context {R : Type} `{!Rand R} {LM : Libm}.
Hypothesis rand_range : forall r, 0 <= fst (next_rand r) <= INT_MAX.
Implicit Types a : ai R.

(** A bot that turned, or changed its walk or its trigger. *)
Definition steered (x x' : player_info_t) : Prop := exists dir mov trig, x' = x <| direction := dir |>
  <| p_movm ::= (fun c => c <| movement := mov |> <| lb_held_down := trig |>) |>.
#[local] Instance steered_preorder : PreOrder steered.
Proof.
  split; [intros x; exists (direction x), (movement (p_movm x)), (lb_held_down (p_movm x)); by destruct x as [[]]|].
  intros x y z (? & ? & ? & ->) (dir & mov & trig & ->). by exists dir, mov, trig.
Qed.
Lemma steered_fit t h x x' : steered x x' ->
  (fighter_ok t h x -> fighter_ok t h x') /\ (outfit x -> outfit x') /\ p_type x' = p_type x /\ position x' = position x /\
  should_render x' = should_render x /\ health x' = health x.
Proof.
  intros (dir & mov & trig & ->). split; [by intros [[] ? ? ? ?]; split; [split|..]|]. split; [|done].
  intros []. by split.
Qed.

(** The controllers, each of a bot there is. *)
Record crew (n : Z) a : Prop := mk_crew {
  cr_table : table_ok a n;
  cr_guards : guards (alen (w_enemies (ai_world a))) a;
}.
(** Every bot is within an [int] of its destination. *)
Definition close a : Prop := forall cs c e, controllers a = Live cs -> c ∈ cs ->
  find_player (c_player c) (ai_world a) = Some e -> Enemies.near e c.

(** The same bot's controller with the same patrol. *)
Definition same_post (c c' : enemy_ctrl_t) : Prop :=
  c_player c' = c_player c /\ num_positions c' = num_positions c /\ positions c' = positions c.
Lemma next_target_post bs m t follow due ply c c' : next_target bs m t follow due ply c c' -> same_post c c'.
Proof. unfold next_target. destruct follow; [by intros ->|]. destruct due; [|by intros ->]. by intros (_ & -> & _). Qed.

Lemma handle_enemy_fit i c e a (w := ai_world a) : world_ok w -> 0 < lines (w_map w) -> 0 < columns (w_map w) ->
  c_player c = Enemy i -> find_player (c_player c) w = Some e -> ctrl_ok (pos_blocks a) c -> Enemies.near e c ->
  wp (handle_enemy c) (fun '(_, c') a' => ctrl_ok (pos_blocks a) c' /\ same_post c c' /\
    exists w' r e', a' = a <| ai_world := w' |> <| seed := r |> /\ replaced (c_player c) e' w w' /\ steered e e') a.
Proof.
  intros Hok Hl Hc Hi He Hco Hn. destruct (Z.leb_spec (health e) 0) as [Hh|Hh].
  - eapply wp_mono; [by apply (handle_dead c e)|]. intros [r c'] a' ([= -> ->] & w' & -> & Hrep).
    split; [done|]. split; [done|]. exists w', (seed a). eexists. split; [by destruct a|]. split; [exact Hrep|].
    exists (direction e), ((movement (p_movm e)) <| vx := d0 |>), false. by destruct e as [[]].
  - eapply wp_mono; [by apply (handle_alive rand_range i c e)|].
    intros [r c'] a' [_ [Hco' (w' & r' & ->) (e' & follow & arr & Hrep & [Hst _ _] & _ & _ & Hnx)]].
    split; [done|]. split; [by eapply next_target_post|]. by exists w', r', e'.
Qed.

Lemma owned_insert (cs : list enemy_ctrl_t) k c c' : cs !! k = Some c -> num_positions c' = num_positions c -> positions c' = positions c ->
  Enemies.owned (<[k := c']> cs) = Enemies.owned cs.
Proof.
  intros Hk Hn Hp. unfold Enemies.owned. revert k Hk. induction cs as [|c0 cs IH]; intros [|k] Hk; try done; cbn.
  - injection Hk as ->. by rewrite Hn, Hp.
  - destruct (if _ : bool then _ else _); [f_equal|]; by apply IH.
Qed.

(** The world after some of the decisions. *)
Record steered_world (w w' : world) : Prop := mk_steered_world {
  sw_arena : arena w';
  sw_stage : same_stage w w';
  sw_count : alen (w_enemies w') = alen (w_enemies w);
  sw_player : w_player w' = w_player w;
  sw_bots i x : aget (w_enemies w) i = Some x -> exists x', aget (w_enemies w') i = Some x' /\ steered x x';
}.
Lemma steered_world_step i e e' w w1 w2 : steered_world w w1 -> aget (w_enemies w1) i = Some e ->
  replaced (Enemy i) e' w1 w2 -> steered e e' -> steered_world w w2.
Proof.
  intros [Ha Hs Hc Hp Hb] He Hrep Hst. pose proof Hrep as [Hs2 Hq].
  destruct (steered_fit (time_counter w1) (w_anims w1) e e' Hst) as (Hf & Ho & Ht & _).
  assert (find_player (Enemy i) w1 = Some e) as He1 by exact He.
  pose proof (replaced_part _ _ _ _ _ Ha He1 Hrep (Hf (wo_fighters _ (ar_world _ Ha) _ _ He1)) (Ho (ar_outfit _ Ha _ _ He1)) Ht) as P.
  split; [apply P|by eapply same_stage_trans|rewrite <- Hc; apply P| |].
  - specialize (Hq ThePlayer). rewrite decide_False in Hq by done. injection Hq as ->. done.
  - intros j x Hx. destruct (Hb j x Hx) as (x1 & Hx1 & Hs1). specialize (Hq (Enemy j)). cbn in Hq. rewrite Hq.
    case_decide as E; [|by exists x1]. injection E as ->. rewrite He in Hx1. injection Hx1 as ->.
    exists e'. split; [done|]. by etransitivity.
Qed.

(** The table after the first [k] decisions. *)
Record decisions (n k : Z) (cs : list enemy_ctrl_t) a a1 : Prop := mk_decisions {
  de_crew : crew n a1;
  de_rest cs1 j : controllers a1 = Live cs1 -> k <= j -> aget cs1 j = aget cs j;
  de_world : steered_world (ai_world a) (ai_world a1);
}.

Lemma decision n k cs a a1 : crew n a -> close a -> 0 < lines (w_map (ai_world a)) -> 0 < columns (w_map (ai_world a)) ->
  controllers a = Live cs -> 0 <= k < n -> decisions n k cs a a1 ->
  wp (p <- gets controllers ;; cs <- defined (deref p) ;; c <- defined (aget cs k) ;;
      '(_, c) <- handle_enemy c ;;
      p <- gets controllers ;; cs <- defined (deref p) ;; cs <- defined (aset cs k c) ;;
      modify (fun a => a <| controllers := Live cs |>))
    (fun _ => decisions n (k + 1) cs a) a1.
Proof.
  intros Hcrew Hclose Hl Hc Hcs Hk [Hcr1 Hrest Hsw]. pose proof Hcr1 as [(Hn & Hpos & Hal & Htab) Hg1].
  destruct (Z.eqb_spec n 0) as [->|_]; [lia|]. destruct Htab as (cs1 & Hcs1 & Hlen & Hall & Hnd).
  destruct (proj2 (aget_is_Some cs1 k)) as [c Hck]; [lia|]. pose proof Hck as Hck0. rewrite (Hrest cs1 k Hcs1) in Hck0 by lia.
  assert (c ∈ cs1 /\ c ∈ cs) as [Hin1 Hin].
  { unfold aget in Hck, Hck0. destruct (Z.ltb_spec k 0); [lia|]. by split; eapply list_elem_of_lookup_2. }
  destruct (Hg1 cs1 c Hcs1 Hin1) as (i & Hi & Hir). pose proof (proj1 (Forall_forall _ _) Hall c Hin1) as [Hco Hblk].
  destruct (proj2 (aget_is_Some (w_enemies (ai_world a1)) i)) as [e He]; [done|]. pose proof Hsw as [Ha Hst Hct _ Hb].
  assert (Enemies.near e c) as Hnear.
  { destruct (proj2 (aget_is_Some (w_enemies (ai_world a)) i)) as [e0 He0]; [lia|].
    destruct (Hb i e0 He0) as (e1 & He1 & Hs1). rewrite He in He1. injection He1 as <-.
    destruct (steered_fit 0 [] _ _ Hs1) as (_ & _ & _ & Ep & _).
    assert (Enemies.near e0 c) as H0 by (apply (Hclose cs c e0 Hcs Hin); by rewrite Hi). unfold Enemies.near in *. by rewrite Ep. }
  do 2 wp_step. rewrite Hcs1. cbn [deref defined]. do 2 wp_step. rewrite Hck. cbn [defined]. wp_steps.
  eapply wp_mono; [apply (handle_enemy_fit i c e a1); [apply Ha|by rewrite (ss_map _ _ Hst)..|exact Hi|by rewrite Hi|done|done]|].
  intros [r c'] a2 (Hco' & (Hcp & Hcn & Hcl) & w' & sd & e' & -> & Hrep & Hs'). cbn [fst snd].
  rewrite Hi in Hrep. pose proof (steered_world_step _ _ _ _ _ _ Hsw He Hrep Hs') as Hsw'.
  wp_steps. match goal with |- context [deref (controllers ?b)] => change (controllers b) with (controllers a1) end. rewrite Hcs1. cbn [deref defined]. wp_steps.
  destruct (aset cs1 k c') as [cs2|] eqn:Es; [|by rewrite aset_Some in Es by lia]. cbn [defined]. wp_steps.
  rewrite aset_Some in Es by lia. injection Es as <-. split; [split| |exact Hsw'].
  - split; [done|]. split; [done|]. split; [done|]. destruct (Z.eqb_spec n 0); [lia|]. eexists. split; [reflexivity|].
    split; [unfold alen in *; by rewrite length_insert|]. split.
    + apply Forall_insert; [done|]. split; [done|]. unfold patrol_of. by rewrite Hcn, Hcl.
    + rewrite (owned_insert cs1 (Z.to_nat k) c c'); [exact Hnd| |exact Hcn|exact Hcl].
      unfold aget in Hck. by destruct (Z.ltb_spec k 0); [lia|].
  - intros cs2 c2 [= <-] [j Hj]%list_elem_of_lookup_1. cbn.
    rewrite (sw_count _ _ Hsw'), <- Hct. apply list_lookup_insert_Some in Hj as [(_ & <- & _)|[_ Hj]].
    + exists i. by rewrite Hcp.
    + apply (Hg1 cs1 c2 Hcs1). by eapply list_elem_of_lookup_2.
  - intros cs2 j [= <-] Hj. rewrite <- (Hrest cs1 j Hcs1) by lia. unfold aget. destruct (Z.ltb_spec j 0); [done|].
    by rewrite list_lookup_insert_ne by lia.
Qed.

Lemma handle_enemies_fit n a : arena (ai_world a) -> 0 < lines (w_map (ai_world a)) -> 0 < columns (w_map (ai_world a)) ->
  crew n a -> close a -> wp handle_enemies (fun _ a' => crew n a' /\ steered_world (ai_world a) (ai_world a')) a.
Proof.
  intros Ha Hl Hc Hcrew Hclose. pose proof Hcrew as [(Hn & Hpos & _ & Htab) _].
  assert (steered_world (ai_world a) (ai_world a)) as H0.
  { split; try done. intros i x Hx. exists x. split; [done|reflexivity]. }
  unfold handle_enemies. wp_step. wp_step. rewrite Hn. destruct (Z.eqb_spec n 0) as [->|Hnz].
  { change (seqZ 0 0) with (@nil Z). cbn [for_each]. by wp_step. }
  destruct Htab as (cs & Hcs & Hlen & _).
  apply (wp_for_each _ _ (fun l a1 => exists k, l = seqZ k (n - k) /\ 0 <= k <= n /\ decisions n k cs a a1)).
  - intros i l a1 (k & El & Hk & Hd). destruct (Z.eq_dec k n) as [->|Hne]; [by rewrite Z.sub_diag in El|].
    rewrite seqZ_cons in El by lia. injection El as -> ->.
    eapply wp_mono; [by apply (decision n k cs a); [..|lia|]|]. intros [] a2 Hd2. exists (k + 1).
    split; [f_equal; lia|]. split; [lia|done].
  - intros a1 (k & El & Hk & [Hcr _ Hsw]). by split.
  - exists 0. split; [f_equal; lia|]. split; [lia|]. split; [done| |done]. intros cs1 j E _. congruence.
Qed.
End Decide.

(** ** The tick *)
Lemma update_pickups_fit {LM : Libm} t s : store_ok s -> 0 <= t ->
  wp (update_pickups t) (fun _ s' => store_ok s' /\ remaining s s') s.
Proof.
  intros Hs Ht. pose proof Hs as [Hp Hw Hh Hst].
  eapply wp_mono; [apply update_pickups_spec; [done|done|]|].
  { intros arr i pk Ha Hi Hg. by apply (Hst arr i pk). }
  intros [] s' [->|(arr & arr' & Ha & Hr & ->)]; [by split|]. split.
  - split; [by eapply redrawn_ok|done|done|]. intros a i pk' [= <-] Hi Hg. unfold aget in Hg.
    destruct (Z.ltb_spec i 0); [done|]. destruct (Forall2_lookup_r _ _ _ _ _ Hr Hg) as (pk & Hpk & E & Han).
    destruct (Hst arr i pk Ha Hi) as [Hanim Hm]; [unfold aget; by destruct (Z.ltb_spec i 0); [lia|]|].
    split; [by apply Han|]. by rewrite E.
  - split; [done|]. split; [done|].
    intros i pk' (pk & Hpk & E & _)%(redrawn_available _ _ _ i Hr Ha). exists pk. split; [done|]. by rewrite E.
Qed.

Section Game.
Context {D : Type} `{!Device D} {S : Type} {QS : QueueStore S} {R : Type} `{!Rand R} {LM : Libm} {OU : Outside}.
Abbreviation G := (game D S R).
Implicit Types g : G.

(** A level for one player with [n] controllers is being played. *)
Record running (n : Z) g : Prop := mk_running {
  rn_state : g_state g = GAME;
  rn_arena : arena (g_world g);
  rn_lines : 0 < lines (w_map (g_world g));
  rn_columns : 0 < columns (w_map (g_world g));
  rn_crew : crew n (get_ai g);
}.

(** Whoever moves in this tick, once the bots have decided, ends at a
    position: not at NaN and not beyond an [int]. *)
Definition lands_well (m : map_t) (p : player_info_t) : bool :=
  match lands m p with Some pos => placed pos | None => false end.
Definition moves_land (w : world) : bool :=
  lands_well (w_map w) (w_player w) && forallb (fun e => negb (should_render e) || lands_well (w_map w) e) (w_enemies w).
Definition in_plane g : bool :=
  match on_ai handle_enemies g with Done (_, g1) => moves_land (g_world g1) | _ => true end.

Lemma lands_well_spec m p : lands_well m p = true -> exists pos, lands m p = Some pos /\ placed pos = true.
Proof. unfold lands_well. destruct (lands m p) as [pos|]; [|done]. by exists pos. Qed.
Lemma moves_land_bots w : moves_land w = true -> bots_land (w_map w) (w_enemies w).
Proof.
  intros [_ H]%andb_prop i x Hx Hr. rewrite forallb_forall in H. apply lands_well_spec.
  assert (x ∈ w_enemies w) as Hin%list_elem_of_In.
  { unfold aget in Hx. destruct (i <? 0); [done|]. by eapply list_elem_of_lookup_2. }
  specialize (H x Hin). by rewrite Hr in H.
Qed.

(** What a tick changed: everybody is where its move ended, and the pickups
    are those that nobody took. *)
Record ticked g g1 g' : Prop := mk_ticked {
  tk_map : w_map (g_world g') = w_map (g_world g);
  tk_time : time_counter (g_world g') = time_counter (g_world g);
  tk_count : alen (w_enemies (g_world g')) = alen (w_enemies (g_world g));
  tk_pickups : remaining (w_pickups (g_world g)) (w_pickups (g_world g'));
  tk_player : lands (w_map (g_world g)) (w_player (g_world g)) = Some (position (w_player (g_world g')));
  tk_bots i x : aget (w_enemies (g_world g1)) i = Some x ->
    exists x', aget (w_enemies (g_world g')) i = Some x' /\ settled (w_map (g_world g)) x x';
}.

Hypothesis pow_square_nonneg : forall x, nonneg (dpow x (dint 2)) = true.
Hypothesis rand_range : forall r, 0 <= fst (next_rand r) <= INT_MAX.
Hypothesis hit_is_false : junk_hit = false.

(** The world of the game replaced by one with the same number of enemies. *)
Lemma running_world n g w : running n g -> arena w -> w_map w = w_map (g_world g) ->
  alen (w_enemies w) = alen (w_enemies (g_world g)) -> running n (g <| g_world := w |>).
Proof.
  intros [Hst Ha Hl Hc [Ht Hg]] Hw Em Ec. split; [done|done|cbn; by rewrite Em..|]. split; [done|].
  intros cs c Hcs Hin. cbn. rewrite Ec. by apply (Hg cs c).
Qed.
Lemma running_ai n g a : running n g -> crew n a -> steered_world (g_world g) (ai_world a) -> running n (put_ai a g).
Proof. intros [Hst Ha Hl Hc _] Hcr [Hw [Em _ _ _] _ _ _]. split; [done|done|cbn; by rewrite Em..|]. destruct Hcr. by split. Qed.

Lemma play_tick_fit n g : running n g -> close (get_ai g) -> in_plane g = true ->
  wp play_tick (fun _ g' => running n g' /\ exists g1, on_ai handle_enemies g = Done (tt, g1) /\ ticked g g1 g') g.
Proof.
  intros Hrun Hclose Hin. pose proof Hrun as [Hst Ha Hl Hc Hcrew].
  pose proof (handle_enemies_fit rand_range n (get_ai g) Ha Hl Hc Hcrew Hclose) as Hai.
  apply (proj1 (wp_Done _ _ _)) in Hai as ([] & a1 & Eai & Hcrew1 & Hsw). change (ai_world (get_ai g)) with (g_world g) in Hsw.
  set (g1 := put_ai a1 g). assert (on_ai handle_enemies g = Done (tt, g1)) as E1 by (unfold on_ai, zoom; by rewrite Eai).
  pose proof (running_ai n g a1 Hrun Hcrew1 Hsw) as Hrun1. unfold in_plane in Hin. rewrite E1 in Hin. fold g1 in Hrun1.
  assert (g_world g1 = ai_world a1) as Ew1 by done. rewrite <- Ew1 in Hsw. pose proof Hsw as [Ha1 [Em1 _ Ep1 Et1] Ec1 Epl1 _].
  clearbody g1. unfold play_tick. wp_step. eapply wp_Done_eq; [exact E1|]. do 2 wp_step. wp_step. unfold on_world at 1.
  rewrite hit_is_false. wp_step.
  pose proof (moves_land_bots _ Hin) as Hbots. apply andb_prop in Hin as [Hpl _].
  destruct (lands_well_spec _ _ Hpl) as (pos & Hland & Hpos).
  eapply wp_mono; [apply (turn_fit pow_square_nonneg (playing g1) ThePlayer (w_player (g_world g1)) pos); [exact Ha1|reflexivity|exact Hland|exact Hpos]|].
  intros [] w2 (x2 & P2 & Hp2 & _ & _). pose proof P2 as [Ha2 Em2 Et2 Ec2 Hs2 Ho2 Hpk2].
  pose proof (running_world n g1 w2 Hrun1 Ha2 Em2 Ec2) as Hrun2. set (g2 := g1 <| g_world := w2 |>) in *.
  wp_step. unfold get_state. wp_steps. rewrite (decide_True (P := g_state g2 = GAME)) by apply Hrun2.
  unfold on_world at 1. wp_step. change (g_world g2) with w2.
  eapply wp_mono; [apply (bots_fit pow_square_nonneg (playing g1) (g_world g1) w2); [by rewrite Em2| |congruence]|].
  { split; [done..|apply wounded_refl|reflexivity|]. intros i x Hx. cbn.
    assert ((i <? 0) = false) as ->.
    { unfold aget in Hx. by destruct (i <? 0). }
    destruct (Ho2 (Enemy i) x) as (x' & Hx' & Hw & _); [done|exact Hx|]. by exists x'. }
  intros [] w3 [Ha3 Em3 Et3 Ec3 Hw3 Hpk3 Hb3]. wp_steps. unfold on_world, on_pickups. do 2 wp_step.
  eapply wp_mono; [apply update_pickups_fit; [apply Ha3|apply Ha3]|]. intros [] s4 [Hs4 Hpk4].
  split.
  - apply (running_world n g2 _); [done|by apply arena_store|done|done].
  - exists g1. split; [done|]. split; cbn; [congruence|congruence|congruence| | |].
    + rewrite <- Ep1. etransitivity; [exact Hpk2|]. by etransitivity.
    + rewrite <- Em1, <- Epl1, Hland. destruct Hw3 as (hp & ar & -> & _). cbn. injection Hs2 as ->. by rewrite Hp2.
    + intros i x Hx. destruct (Hb3 i x Hx) as (x' & Hx' & Hs). exists x'. split; [done|].
      destruct (Z.ltb_spec i (alen (w_enemies w2))) as [_|Hge].
      * by rewrite <- Em1, <- Em2.
      * apply aget_Some_range in Hx. rewrite Ec2 in Hge. lia.
Qed.

(** C2: a tick of a level for one player keeps the level in order, and runs to
    its end without undefined behaviour if the uninitialised [hit] of [fire]
    (player.c:309) happens to be false whenever it is read (the other value
    can be undefined), [pow(x, 2)] is not negative and [rand] is at most
    [INT_MAX].  If everybody who moves ends at a
    position (no NaN, nothing beyond an [int]) and every bot is within an
    [int] of its destination, then after the decisions of all controllers, the
    player's turn, the turn of every bot still shown and the pickups' next
    frame, every component's invariant holds again: fighters, guns,
    animations, pickups and their table, controllers, map.  The player and the
    bots shown are where the wall collision of their own move puts them
    whatever the others did before them, the others stayed, nobody appeared or
    disappeared, and no pickup appeared or moved. *)
Theorem play_tick_in_order n g : running n g -> close (get_ai g) -> in_plane g = true ->
  wp play_tick (fun _ g' => running n g' /\ exists g1, on_ai handle_enemies g = Done (tt, g1) /\ ticked g g1 g') g.
Proof. apply play_tick_fit. Qed.

(** Between two ticks the clock moves on and the input arrives. *)
Lemma running_clock n g : running n g -> time_counter (g_world g) + 1 < 2 ^ 62 ->
  running n (g <| g_world ::= (fun w => w <| time_counter ::= (fun t => t + 1) |>) |>).
Proof.
  intros Hrun Ht. pose proof Hrun as [_ [[Hm Ht0 Hh Hf Hp He] Hs Ho Hb] _ _ _].
  apply (running_world n g); [done| |done|done]. split; [|exact Hs|exact Ho|exact Hb].
  split; [done|cbn; lia|done| |done|done]. intros p x Hx. pose proof (Hf p x Hx) as [? ? Hg ? ?].
  split; [done|done| |done|done]. eapply Forall_impl; [exact Hg|]. intros gi [Htm ? ?]. split; [|done|done].
  eapply timely_later; [exact Htm|]. cbn. lia.
Qed.
Lemma running_input n g c : running n g -> length (nums_press (kbd_state c)) = 10%nat -> running n (set_movm c g).
Proof.
  intros Hrun Hk. pose proof Hrun as [_ Ha _ _ _]. pose proof Ha as [Hw _ Ho _].
  pose proof (wo_fighters _ Hw ThePlayer _ eq_refl) as Hf. pose proof (Ho ThePlayer _ eq_refl) as Hox.
  apply (running_world n g); [done| |done|done].
  eapply (pt_arena ThePlayer). eapply (replaced_part ThePlayer (w_player (g_world g))); [exact Ha|reflexivity| | | |].
  - split; [done|]. intros [|i]; reflexivity.
  - by destruct Hf as [[] ? ? ? ?].
  - by destruct Hox.
  - done.
Qed.
End Game.

(** *** A duel in a corridor

    The player, three guns on it and next to a pickup, fires at a bot that
    patrols. *)
#[local] Existing Instances desk_device ticking_rand desk_outside.

Definition armed_player : player_info_t :=
  duel_player <| guns := [duel_gun; duel_gun; duel_gun] |> <| inventory_size := 3 |>
    <| camera_plane := mk_vec d0 (dlit 2 3) |>.
Definition gun_bot (hp : Z) : player_info_t := (duel_bot hp) <| inventory_size := 1 |>.
Definition duel_arena : world :=
  mk_world armed_player [gun_bot 50] corridor minigun_heap small_state 20.
Definition duel_game : game desk heap Z :=
  (at_desk []) <| g_state := GAME |> <| g_world := duel_arena |>
    <| g_ai := mk_ai no_world (Live [corridor_ctrl]) 1 [Live patrol] 0 [] |>.

Lemma duel_arena_ok : arena duel_arena.
Proof.
  destruct (duel_ok 50 ltac:(lia)) as [Hm Ht Hh Hf _ _].
  pose proof (Hf ThePlayer _ eq_refl) as [Hhp Hi Hg Hx Hy]. pose proof (Hf (Enemy 0) (duel_bot 50) eq_refl) as [Hhb Hib Hgb Hxb Hyb].
  assert (gun_fit 20 minigun_heap duel_gun) as Hgun by (by apply Forall_cons in Hg as [? _]).
  assert (forall i e, aget [gun_bot 50] i = Some e -> e = gun_bot 50) as Hone.
  { intros i e He. pose proof (aget_Some_range _ _ _ He) as Hr. unfold alen in Hr. cbn in Hr. replace i with 0 in He by lia. by injection He. }
  split.
  - split; [exact Hm|exact Ht|exact Hh| |done|by intros i e ->%Hone].
    intros [|i] x Hx'; cbn in Hx'; [injection Hx' as <-|apply Hone in Hx' as ->].
    + split; [by destruct Hhp|done|by repeat constructor|done|done].
    + split; [by destruct Hhb|done|exact Hgb|done|done].
  - split; [exact small_state_ok|vm_compute; reflexivity..|]. intros arr i pk Ha Hir Hpk.
    assert (arr = match pickups small_state with Live a => a | _ => [] end) as -> by (by change (pickups small_state = Live arr) in Ha; rewrite Ha).
    assert (1 <= i < 3) as Hr by exact Hir. assert (i = 1 \/ i = 2) as [-> | ->] by lia;
      vm_compute in Hpk; injection Hpk as <-; (split; [|reflexivity]); (eexists; split; [reflexivity|]);
      apply usable_ok; reflexivity.
  - intros [|i] x Hx'; cbn in Hx'; [injection Hx' as <-|apply Hone in Hx' as ->].
    + split; [by left|reflexivity|repeat (apply Forall_cons; split; [cbn; lia|]); apply Forall_nil; exact I|reflexivity|intros _; vm_compute; discriminate].
    + split; [|reflexivity|repeat (apply Forall_cons; split; [cbn; lia|]); apply Forall_nil; exact I|reflexivity|done].
      right. split; [reflexivity|]. apply usable_views. vm_compute. reflexivity.
  - by intros i e ->%Hone.
Qed.

Lemma duel_running : running 1 duel_game.
Proof.
  split; [reflexivity|exact duel_arena_ok|reflexivity|reflexivity|]. split.
  - split; [reflexivity|]. split; [lia|]. split; [reflexivity|]. eexists. split; [reflexivity|]. split; [reflexivity|].
    split; [|apply NoDup_singleton]. constructor; [|constructor]. split; [exact corridor_ctrl_ok|]. intros _. by eexists.
  - intros cs c [= <-] Hc. apply list_elem_of_singleton in Hc as ->. exists 0. split; [reflexivity|]. split; [lia|reflexivity].
Qed.
Lemma duel_close : close (get_ai duel_game).
Proof. intros cs c e [= <-] Hc. apply list_elem_of_singleton in Hc as ->. intros _ H. exfalso. by apply H. Qed.

Lemma ticking_rand_range r : 0 <= fst (next_rand r) <= INT_MAX.
Proof. change (0 <= r mod 32768 <= INT_MAX). pose proof (Z.mod_pos_bound r 32768). unfold INT_MAX. lia. Qed.

(** The bot loses 15 points of health, the gun cools down, and the bot's next
    destination is set. *)
Lemma play_tick_in_order_witness : exists g', play_tick duel_game = Done (tt, g') /\ running 1 g' /\
  health <$> w_enemies (g_world g') = [35] /\ gi_state <$> gun_in_hand (w_player (g_world g')) = Some COOLDOWN.
Proof.
  pose proof (play_tick_in_order toy_pow_square_nonneg ticking_rand_range eq_refl 1 duel_game duel_running duel_close
    ltac:(vm_compute; reflexivity)) as H.
  apply (proj1 (wp_Done _ _ _)) in H as ([] & g' & E & Hrun & _). exists g'. split; [exact E|]. split; [exact Hrun|].
  assert (match play_tick duel_game with
    | Done (_, g) => (health <$> w_enemies (g_world g), gi_state <$> gun_in_hand (w_player (g_world g)))
    | _ => ([], None) end = ([35], Some COOLDOWN)) as H by (vm_compute; reflexivity).
  rewrite E in H. injection H as H1 H2. by split.
Defined.

(** [player_int_ih] does not look at the health: a bot shot dead takes part
    until its death animation is over, and one that lies on a medkit takes it
    and lives on. *)
Definition fallen_bot : player_info_t := (gun_bot 0) <| position := mk_vec (dlit 25 10) (dlit 15 10) |>.
Lemma dead_bot_revives :
  match player_int_ih false true (Enemy 0) (duel_arena <| w_enemies := [fallen_bot] |>) with
  | Done (_, w) => health <$> w_enemies w = [30]
  | _ => False
  end.
Proof. vm_compute. reflexivity. Qed.
