(* ===== verification/Frame.v ===== *)
(** * Frame

    A notification of the hardware while a level for one player is played:
    the devices' handlers, then, on the timer, the whole frame: the tick, the
    screen with the inventory, and the end of the round.  The invariant of
    [Tick] holds again after each of them as long as the level lasts, and it
    ends in one of the ways the code has. *)

From S2P Require Import Prelude Hardware Timer Kbc Rtc Queue Uart Doubles MapFile Utils Sprites Guns Controls.
From S2P Require Import Players Pickups Battle Network Enemies Video Render Game Level Menu Main Lifecycle Tick.

(** ** The number keys are ten *)
Lemma set_key_nums key make k k' : set_key key make k = Some k' -> length (nums_press k') = length (nums_press k).
Proof.
  unfold set_key. intros H. repeat (destruct (_ =? key) in H; [by injection H as <-|]).
  destruct (_ && _) in H; [|by injection H as <-].
  destruct (aset (nums_press k) _ make) as [nums|] eqn:E; [|done]. injection H as <-. cbn.
  apply aset_len in E. unfold alen in E. lia.
Qed.

Section Keys.
Context {D : Type} `{!Device D}.
Definition ten_keys (i : input D) : Prop := length (nums_press (kbd_state (movm i))) = 10%nat.

Lemma on_kbc_ten {A} (m : prog (kbc D) A) : respects (stays ten_keys) (Controls.on_kbc m).
Proof. apply keeps_zoom. intros t s H. exact H. Qed.
#[local] Hint Resolve on_kbc_ten : framing.
Lemma mouse_parse_keys h v settings in_game pkt c : kbd_state (mouse_parse_data h v settings in_game pkt c) = kbd_state c.
Proof. unfold mouse_parse_data, mouse_move. by repeat case_match. Qed.
Lemma handle_mouse_ten h v settings in_game : respects (stays ten_keys) (handle_mouse_evt h v settings in_game).
Proof.
  unfold handle_mouse_evt, Controls.mouse_byte. keeps_tac. apply keeps_modify. intros s H. unfold ten_keys in *. cbn.
  by rewrite mouse_parse_keys.
Qed.
Lemma handle_kbd_ten i : ten_keys i -> wlp handle_kbd_evt (fun _ => ten_keys) i.
Proof.
  intros H. unfold handle_kbd_evt. wlp_step. eapply (wlp_respects (stays ten_keys)); [apply on_kbc_ten|].
  intros [] i1 H1. apply H1 in H. clear H1. do 2 wlp_step. break_if; [|by wlp_step]. do 2 wlp_step.
  break_if; [by wlp_step|]. wlp_steps. unfold ten_keys, kbd_parse_data in *.
  destruct (last _) in *; [|done]. destruct (set_key _ _ _) as [k|] eqn:E in *; [|done].
  match goal with E : Some _ = Some ?c |- _ => injection E as <- end. cbn. by rewrite (set_key_nums _ _ _ _ E).
Qed.
Lemma handle_kbd_stays : respects (stays ten_keys) (handle_kbd_evt (D := D)).
Proof. intros i [] i' E H. exact (wlp_Done _ _ _ _ _ (handle_kbd_ten i H) E). Qed.
End Keys.

Section Frame.
Context {D : Type} `{!Device D} {S : Type} {QS : QueueStore S} {R : Type} `{!Rand R} {LM : Libm} {OU : Outside}.
Abbreviation G := (game D S R).
Implicit Types g : G.

(** A level in order, whatever the screen shows. *)
Definition sound (n : Z) g : Prop := running n (g <| g_state := GAME |>).
Lemma running_sound n g : running n g <-> g_state g = GAME /\ sound n g.
Proof.
  split; [intros [? ? ? ? ?]; by split; [|split]|]. intros [Hs [? ? ? ? ?]]. by split.
Qed.
Lemma sound_movm n g c : sound n g -> length (nums_press (kbd_state c)) = 10%nat -> sound n (set_movm c g).
Proof. exact (running_input n (g <| g_state := GAME |>) c). Qed.
Lemma sound_keys n g : sound n g -> length (nums_press (kbd_state (p_movm (w_player (g_world g))))) = 10%nat.
Proof. intros [_ Ha _ _ _]. apply (of_keys _ (ar_outfit _ Ha ThePlayer _ eq_refl)). Qed.
(** What does not touch the world nor the controllers. *)
Lemma sound_parts n g g' : g_world g' = g_world g -> g_ai g' = g_ai g -> sound n g -> sound n g'.
Proof.
  intros Ew Ea [_ Ha Hl Hc Hcr]. assert (get_ai (g' <| g_state := GAME |>) = get_ai g) as E.
  { unfold get_ai. cbn. by rewrite Ew, Ea. }
  split; [done|cbn; by rewrite Ew..|]. by rewrite E.
Qed.

(** What keeps the screen and the level. *)
Definition quiet (n : Z) g g' : Prop := g_state g' = g_state g /\ (sound n g -> sound n g').
#[local] Instance quiet_preorder n : PreOrder (quiet n).
Proof. split; [by intros g|]. intros g1 g2 g3 [E1 H1] [E2 H2]. split; [congruence|auto]. Qed.
Lemma quiet_parts n g g' : g_state g' = g_state g -> g_world g' = g_world g -> g_ai g' = g_ai g -> quiet n g g'.
Proof. split; [done|by apply sound_parts]. Qed.
Lemma quiet_running n g g' : quiet n g g' -> running n g -> running n g'.
Proof. intros [E H] [Hs Hg]%running_sound. apply running_sound. split; [congruence|auto]. Qed.

Section Keep.
Variable n : Z.

Lemma on_hw_quiet {A} (m : prog (hw D) A) : respects (quiet n) (on_hw m).
Proof. apply keeps_zoom. intros t s. by apply quiet_parts. Qed.
Lemma on_video_quiet {A} (m : prog graphics_data A) : respects (quiet n) (on_video m).
Proof. apply keeps_zoom. intros t s. by apply quiet_parts. Qed.
Lemma on_rtc_quiet {A} (m : prog (rtc D) A) : respects (quiet n) (on_rtc m).
Proof. apply keeps_zoom. intros t s. by apply quiet_parts. Qed.
Lemma on_uart_quiet {A} (m : prog (uart D S) A) : respects (quiet n) (on_uart m).
Proof.
  apply (keeps_zoom_part _ (same n_world)); [|by apply keeps_zoom]. intros t s Hw. by apply quiet_parts.
Qed.
Lemma on_input_quiet {A} (m : prog (input D) A) : respects (stays ten_keys) m -> respects (quiet n) (on_input m).
Proof.
  apply keeps_zoom_part. intros t s Ht. split; [done|]. intros Hs.
  apply sound_movm; [by refine (sound_parts n s _ _ _ Hs)|]. apply Ht. exact (sound_keys _ _ Hs).
Qed.
Lemma set_menu_quiet ms : respects (quiet n) (modify (fun g : G => g <| gun_menu_state := ms |>)).
Proof. apply keeps_modify. intros s. by apply quiet_parts. Qed.
Lemma set_state_stage st g : sound n g -> wlp (set_state st) (fun _ g' => g_state g' = st /\ sound n g') g.
Proof.
  intros Hs. unfold set_state, get_state. do 2 wlp_step. wlp_step. apply (wlp_mono _ (fun _ => sound n)).
  2: { intros [] g1 H1. by wlp_step. }
  pose proof (@on_hw_quiet Z) as Hhw. eapply (wlp_respects (quiet n)); [keeps_tac|]. intros [] g1 [_ H]. auto.
Qed.
End Keep.
#[local] Hint Resolve on_hw_quiet on_video_quiet on_rtc_quiet on_uart_quiet set_menu_quiet
  handle_mouse_ten handle_kbd_stays : framing.
#[local] Hint Extern 1 (respects _ (on_input _)) => apply on_input_quiet : framing.

(** ** The devices *)
Lemma device_events_quiet n b mask : respects (quiet n) (device_events (QS := QS) b mask : prog G unit).
Proof. unfold device_events, on_bit, mouse_event. keeps_tac. Qed.

(** ** The screen *)
Lemma draw_slot_quiet n pos x : respects (quiet n) (draw_slot pos x).
Proof. unfold draw_slot. keeps_tac. Qed.
Lemma draw_mouse_quiet n : respects (quiet n) draw_mouse.
Proof. unfold draw_mouse, player_movm. keeps_tac. Qed.
#[local] Hint Resolve draw_slot_quiet draw_mouse_quiet : framing.

(** In a level: the screen shows the game, or the player has left it by the
    button of the inventory. *)
Definition on_stage (n : Z) (st : game_state_t) g : Prop := g_state g = st /\ sound n g.
Lemma on_stage_quiet n st g g' : on_stage n st g -> quiet n g g' -> on_stage n st g'.
Proof. intros [Es H] [E Hq]. split; [congruence|auto]. Qed.
Lemma on_stage_movm n st g c : on_stage n st g -> kbd_state c = kbd_state (p_movm (w_player (g_world g))) ->
  on_stage n st (set_movm c g).
Proof. intros [Es H] Hk. split; [done|]. apply sound_movm; [done|]. rewrite Hk. exact (sound_keys _ _ H). Qed.

(** Runs a quiet call. *)
Ltac quiet_step n :=
  wlp_step; eapply (wlp_respects (quiet n)); [solve [keeps_tac]|];
  let g' := fresh "g'" in let E := fresh in let H := fresh in
  intros ? g' [E H];
  lazymatch goal with Hg : on_stage n ?st ?g |- _ =>
    apply (on_stage_quiet n st g g') in Hg; [|by split] end; clear E H; cbv zeta.

(** The player has changed the gun in hand. *)
Lemma switch_sound n i g : 0 <= i < 3 -> sound n g ->
  wlp (on_world (update_player ThePlayer (switch_gun i))) (fun _ g' => g_state g' = g_state g /\ sound n g') g.
Proof.
  intros Hi Hs. pose proof Hs as [_ Ha _ _ _]. cbn in Ha. set (x := w_player (g_world g)).
  assert (find_player ThePlayer (g_world g) = Some x) as Hx by done.
  pose proof (wo_fighters _ (ar_world _ Ha) _ _ Hx) as Hf. pose proof (ar_outfit _ Ha _ _ Hx) as Ho.
  assert (p_type x <> BOT) as Hb. { unfold x. by rewrite (wo_player _ (ar_world _ Ha)). }
  destruct (switch_gun_fit _ _ i x Hf) as (gs & E & Hgs & Hf'); [pose proof (of_guns _ Ho Hb); lia|].
  apply wlp_zoom, wp_wlp. eapply wp_update_player; [exact Hx|exact E|]. intros w Hrep.
  pose proof (replaced_part _ _ _ _ _ Ha Hx Hrep Hf' (switched_outfit _ i gs Ho Hgs) eq_refl) as [Hw Em _ Ec _ _ _].
  split; [done|]. by apply (running_world n _ w Hs).
Qed.
Definition in_stage (n : Z) g : Prop := on_stage n GAME g \/ on_stage n END_S_GAME g.
Lemma in_stage_quiet n g g' : in_stage n g -> quiet n g g' -> in_stage n g'.
Proof. intros [H|H] Hq; [left|right]; by eapply on_stage_quiet. Qed.

(** A single tap in the inventory: on the exit, or on a gun. *)
Lemma tap_stage n (leave : bool) idx g : -1 <= idx < 3 -> on_stage n GAME g ->
  wlp ((if leave then
          state <- get_state ;; set_state (if decide (state = MP_GAME) then END_M_GAME else END_S_GAME)
        else ret tt) ;;;
       if negb (idx =? -1) then on_world (update_player ThePlayer (switch_gun idx)) else ret tt)
    (fun _ => in_stage n) g.
Proof.
  intros Hi [Es Hs]. wlp_step. apply (wlp_mono _ (fun _ => in_stage n)).
  { destruct leave; [|wlp_step; by left]. unfold get_state. do 2 wlp_step. rewrite Es, decide_False by done.
    eapply wlp_mono; [by apply set_state_stage|]. intros ? g1 [? ?]. by right. }
  intros [] g1 H1. destruct (Z.eqb_spec idx (-1)) as [_|Hne]; cbn [negb]; [by wlp_step|].
  destruct H1 as [[E1 Hs1]|[E1 Hs1]];
    (eapply wlp_mono; [apply (switch_sound n); [lia|done]|]; intros [] g2 [E2 Hs2]).
  - left. split; [congruence|done].
  - right. split; [congruence|done].
Qed.

Lemma gun_under_range (frames : list (pair_t * slot)) c : -1 <= gun_under frames c < alen frames.
Proof.
  unfold gun_under. assert (forall i idx, -1 <= idx < i -> 0 <= i ->
    -1 <= (fold_left (fun '(i, idx) f => (i + 1, if mouse_on f.1 f.2 c then i else idx)) frames (i, idx)).2 < i + alen frames) as H.
  { induction frames as [|f fs IH]; intros i idx Hr Hi; [unfold alen; cbn; lia|]. cbn [fold_left].
    specialize (IH (i + 1) (if mouse_on f.1 f.2 c then i else idx)). unfold alen in *. cbn [length].
    destruct (mouse_on _ _ _); lia. }
  specialize (H 0 (-1)). lia.
Qed.

(** The mouse of the player has moved or been looked at. *)
Ltac movm_step n Hs :=
  wlp_step; wlp_step;
  lazymatch goal with |- wlp _ _ (set_movm ?c ?g) =>
    apply (fun H => on_stage_movm n GAME g c H eq_refl) in Hs; generalize dependent (set_movm c g); clear; intros ? Hs end.

Lemma display_menu_stage n g : on_stage n GAME g -> wlp display_menu (fun _ => in_stage n) g.
Proof.
  intros Hs. unfold display_menu, player_movm. do 3 quiet_step n. wlp_step.
  apply (wlp_mono _ (fun _ => on_stage n GAME)).
  { break_if; [|by wlp_step]. do 2 wlp_step. movm_step n Hs.
    eapply (wlp_respects (quiet n)); [keeps_tac|]. intros [] g1. by apply on_stage_quiet. }
  clear. intros [] g Hs. do 2 quiet_step n.
  match goal with x : slot * slot * slot |- _ => destruct x as [[m0 m1] m2] end. do 3 quiet_step n.
  do 2 wlp_step. wlp_step. apply (wlp_mono _ (fun _ => in_stage n)).
  { destruct (lb_single_tap _); [|wlp_step; by left]. movm_step n Hs. apply tap_stage; [|done].
    match goal with |- _ <= gun_under ?l ?c < _ => apply (gun_under_range l c) end. }
  intros [] g2 H2. eapply (wlp_respects (quiet n)); [keeps_tac|]. intros [] g3. by apply in_stage_quiet.
Qed.

(** The screen of the game: with the key of the inventory down the inventory
    too. *)
Lemma render_game_stage n range g : on_stage n GAME g -> wlp (render_game range) (fun _ => in_stage n) g.
Proof.
  intros Hs. unfold render_game, get_state. do 4 quiet_step n.
  match goal with x : list render_t * Z |- _ => destruct x as [renders size] end. do 6 quiet_step n. wlp_step.
  apply (wlp_mono _ (fun _ => in_stage n)).
  2: { intros [] g1 H1. eapply (wlp_respects (quiet n)); [keeps_tac|]. intros ? g2. by apply in_stage_quiet. }
  assert (forall ms g, in_stage n g -> wlp (modify (fun g => g <| gun_menu_state := ms |>)) (fun _ : unit => in_stage n) g) as Hm.
  { intros ms g1 H1. eapply (wlp_respects (quiet n)); [keeps_tac|]. intros ? g2. by apply in_stage_quiet. }
  break_if; [apply Hm; by left|]. break_if; [|wlp_step; by left]. wlp_step.
  eapply wlp_mono; [by apply display_menu_stage|]. intros [] g1. apply Hm.
Qed.
Lemma display_stage n range g : on_stage n GAME g -> wlp (display range) (fun _ => in_stage n) g.
Proof.
  intros Hs. unfold display, get_state. do 2 wlp_step. wlp_step. destruct Hs as [Es Hs]. rewrite Es.
  eapply wlp_mono; [apply (render_game_stage n); by split|]. intros [] g1 H1.
  eapply (wlp_respects (quiet n)); [keeps_tac|]. intros ? g2. by apply in_stage_quiet.
Qed.

(** What the end of the round looks at. *)
Definition scene g : Z * vector_t * map_t * rtc D * (ptr unit * ptr unit) :=
  (health (w_player (g_world g)), position (w_player (g_world g)), w_map (g_world g), g_rtc g, (map_block g, guns_block g)).
Lemma on_hw_scene {A} (m : prog (hw D) A) : keeps scene (on_hw m).
Proof. by apply keeps_zoom. Qed.
Lemma on_video_scene {A} (m : prog graphics_data A) : keeps scene (on_video m).
Proof. by apply keeps_zoom. Qed.
#[local] Hint Resolve on_hw_scene on_video_scene : framing.
Lemma switch_gun_scene i x x' : switch_gun i x = Some x' -> health x' = health x /\ position x' = position x.
Proof. unfold switch_gun, set_gun_in_hand. intros H. repeat case_match; by simplify_eq. Qed.
Lemma switch_scene i : keeps scene (on_world (update_player ThePlayer (switch_gun i))).
Proof.
  apply (keeps_zoom_part _ (same (fun w => (health (w_player w), position (w_player w), w_map w)))).
  { intros t s H. unfold same, scene in *. cbn. injection H as -> -> ->. done. }
  intros w [] w' E. apply (wlp_Done (update_player ThePlayer (switch_gun i))
    (fun _ w' => same (fun w => (health (w_player w), position (w_player w), w_map w)) w w') w tt w'); [|exact E].
  unfold update_player, load_player. wlp_steps.
  match goal with H1 : find_player _ _ = Some _, H2 : switch_gun _ _ = Some _ |- _ =>
    injection H1 as <-; apply switch_gun_scene in H2 as [Eh Ep] end.
  unfold store_player. wlp_step. unfold same. cbn. by rewrite Eh, Ep.
Qed.
Lemma set_state_scene st : keeps scene (set_state st : prog G unit).
Proof. unfold set_state, get_state. keeps_tac. Qed.
Lemma draw_slot_scene pos x : keeps scene (draw_slot pos x).
Proof. unfold draw_slot. keeps_tac. Qed.
Lemma draw_mouse_scene : keeps scene draw_mouse.
Proof. unfold draw_mouse, player_movm. keeps_tac. Qed.
#[local] Hint Resolve switch_scene set_state_scene draw_slot_scene draw_mouse_scene : framing.
Lemma display_menu_scene : keeps scene display_menu.
Proof. unfold display_menu, player_movm, get_state. keeps_tac. Qed.
#[local] Hint Resolve display_menu_scene : framing.
Lemma render_game_scene range : keeps scene (render_game range).
Proof. unfold render_game, get_state. keeps_tac. Qed.

(** ** The end of the round *)
Definition beaten g : Prop := health (w_player (g_world g)) <= 0 \/ game_timer (g_rtc g) = 0.
Definition at_exit g : Prop := exists x y, dto_int (vx (position (w_player (g_world g)))) = Some x /\
  dto_int (vy (position (w_player (g_world g)))) = Some y /\ map_at (w_map (g_world g)) y x = Some (-3).
Lemma scene_same g g' : scene g' = scene g -> (beaten g' <-> beaten g) /\ (at_exit g' <-> at_exit g) /\
  map_block g' = map_block g /\ guns_block g' = guns_block g.
Proof. intros E. unfold scene in E. injection E as Eh Ep Em Er E1 E2. unfold beaten, at_exit. by rewrite Eh, Ep, Em, Er. Qed.

(** The level has given its blocks back. *)
Definition over (st : game_state_t) g g' : Prop :=
  g_state g' = st /\ map_block g' = freed (map_block g) /\ guns_block g' = freed (guns_block g).
Lemma ended_over st g0 g g' : ended st g g' -> scene g = scene g0 -> over st g0 g'.
Proof.
  intros [E _] (_ & _ & E1 & E2)%scene_same. unfold life in E. injection E as Es _ Em Eg. split; [done|]. by rewrite Em, Eg, E1, E2.
Qed.

(** How the round goes on after the tick that ended in [g]. *)
Inductive round (n : Z) g g' : Prop :=
  | Goes_on : running n g' -> scene g' = scene g -> ~ beaten g -> ~ at_exit g -> round n g g'
  | Lost : beaten g -> over LOSE_GAME g g' -> round n g g'
  | Won : ~ beaten g -> at_exit g -> over WIN_GAME g g' -> round n g g'
  | Abandoned : over MAIN_MENU g g' -> round n g g'.

Lemma update_game_state_round n g0 g : in_stage n g -> scene g = scene g0 -> wlp update_game_state (fun _ => round n g0) g.
Proof.
  intros Hs Hsc. destruct (scene_same _ _ Hsc) as (Hb & He & _). unfold update_game_state, get_state. do 2 wlp_step.
  assert (forall st, wlp (set_state st ;;; _ <- free_level ;; init_player_ctrls) (fun _ g' => over st g0 g') g) as Hend.
  { intros st. eapply wlp_mono; [apply (end_level_life st false)|]. intros ? g1 H1. exact (ended_over st g0 g g1 H1 Hsc). }
  destruct Hs as [[Es Hs]|[Es Hs]]; rewrite Es.
  2: { eapply wlp_mono; [apply Hend|]. intros. by apply Abandoned. }
  do 2 wlp_step. do 2 wlp_step.
  assert (if (health (w_player (g_world g)) <=? 0) || (game_timer (g_rtc g) =? 0) then beaten g0 else ~ beaten g0) as Hd.
  { destruct (Z.leb_spec (health (w_player (g_world g))) 0), (Z.eqb_spec (game_timer (g_rtc g)) 0); cbn [orb];
      rewrite <- Hb; unfold beaten; lia. }
  destruct (_ || _); [eapply wlp_mono; [apply Hend|]; intros; by apply Lost|].
  do 2 wlp_step. do 2 wlp_step. do 2 wlp_step. do 2 wlp_step.
  assert (at_exit g0 <-> a1 = -3) as Hex.
  { rewrite <- He. split.
    - intros (x & y & Hx & Hy & Hm). congruence.
    - intros ->. by exists a0, a. }
  destruct (Z.eqb_spec a1 (-3)) as [E|E].
  - eapply wlp_mono; [apply Hend|]. intros. apply Won; [done|by apply Hex|done].
  - wlp_step. apply Goes_on; [by apply running_sound|done|done|by rewrite Hex].
Qed.

(** ** The frame *)

(** After the tick: the screen, then the end of the round. *)
Lemma end_of_frame n g : running n g ->
  wlp (display (dint 10) ;;; modify (fun g => g <| g_world ::= (fun w => w <| w_player ::= reset_player_mouse_movm |>) |>) ;;;
       update_game_state) (fun _ => round n g) g.
Proof.
  intros [Es Hs]%running_sound. wlp_step. apply (wlp_mono _ (fun _ g' => in_stage n g' /\ scene g' = scene g)).
  { apply wlp_and; [by apply display_stage|]. unfold display, get_state. do 2 wlp_step. wlp_step. rewrite Es.
    eapply (wlp_respects (same scene)); [apply render_game_scene|]. intros [] g1 H1.
    eapply (wlp_respects (same scene)); [keeps_tac|]. intros ? g2 H2. unfold same in *. congruence. }
  intros [] g1 [H1 E1]. do 2 wlp_step. apply update_game_state_round; [|done].
  destruct H1 as [H1|H1]; [left|right]; by apply (on_stage_movm n _ g1 ((p_movm (w_player (g_world g1))) <| mouse_desl := dint 0 |>)).
Qed.

Hypothesis pow_square_nonneg : forall x, nonneg (dpow x (dint 2)) = true.
Hypothesis rand_range : forall r, 0 <= fst (next_rand r) <= INT_MAX.
Hypothesis hit_is_false : junk_hit = false.

Lemma game_handler_frame n g : running n g -> close (get_ai g) -> in_plane g = true ->
  wlp game_handler (fun _ g' => exists g1, play_tick g = Done (tt, g1) /\ running n g1 /\ round n g1 g') g.
Proof.
  intros Hrun Hc Hp. pose proof (rn_state _ _ Hrun) as Es. unfold game_handler, get_state.
  do 2 wlp_step. rewrite Es, decide_False by done. wlp_step. wlp_step. do 2 wlp_step. rewrite Es, decide_True by done.
  pose proof (play_tick_fit pow_square_nonneg rand_range hit_is_false n g Hrun Hc Hp) as Ht.
  apply (proj1 (wp_Done _ _ _)) in Ht as ([] & g1 & Et & Hrun1 & _). wlp_step.
  unfold wlp at 1. rewrite Et. do 2 wlp_step. rewrite (rn_state _ _ Hrun1), decide_False by done. wlp_step. wlp_step.
  eapply wlp_mono; [by apply end_of_frame|]. intros [] g2 H2. by exists g1.
Qed.

Lemma timer_clock n g g' : running n g -> on_timer timer_int_handler g = Done (tt, g') ->
  time_counter (g_world g') < 2 ^ 62 -> running n g'.
Proof.
  intros Hrun [= <-] Ht. pose proof (wo_time _ (ar_world _ (rn_arena _ _ Hrun))) as Hr. cbn in Ht.
  rewrite wrap_small in Ht by lia. eapply quiet_running; [|exact (running_clock n g Hrun Ht)].
  apply quiet_parts; [done| |done]. cbn. by rewrite wrap_small by lia.
Qed.

(** The notification has the timer's bit. *)
Definition ticks (b : bits) (mask : Z) : bool :=
  match timer_bit_no b with Some t => has_bits mask (BIT t) | None => false end.
(** [g1] is the game when its handler is called. *)
Definition tick_start b mask g g1 : Prop := (device_events b mask ;;; on_timer timer_int_handler) g = Done (tt, g1).

Lemma tick_start_running n b mask g g1 : running n g -> tick_start b mask g g1 ->
  time_counter (g_world g1) < 2 ^ 62 -> running n g1.
Proof.
  intros Hrun Hst Ht. unfold tick_start, bind in Hst. destruct (device_events b mask g) as [[[] g0]| |] eqn:E; [|done..].
  exact (timer_clock n g0 g1 (quiet_running _ _ _ (device_events_quiet n b mask g tt g0 E) Hrun) Hst Ht).
Qed.

(** C3: a notification of the hardware while a level for one player is in
    order, under the conditions of C2 ([hit] of player.c:309 false, moves that
    can end, [pow], [rand]) and a clock below 2^62 at each tick.  With the
    timer's bit, when the devices' handlers return they have led to a state in
    order from which the tick runs to its end, without undefined behaviour and
    in order.  The rest is about the runs of the whole notification that
    return (an undefined access or a loop without end elsewhere is not
    excluded): without the timer's bit the level is in order afterwards,
    whatever the devices delivered; with it the rest of the frame (screen,
    inventory, mouse) decides: the player with no health or no time left has
    lost, one who has both and stands on the exit has won, one who left by the
    button of the inventory is in the main menu, each time with the level's
    blocks freed; otherwise the level is in order for the next notification,
    with the tick's health, position, map and time. *)
Theorem notification_in_order n b mask g : running n g ->
  (forall g1, tick_start b mask g g1 -> ticks b mask = true ->
     time_counter (g_world g1) < 2 ^ 62 /\ close (get_ai g1) /\ in_plane g1 = true) ->
  (forall g1, tick_start b mask g g1 -> ticks b mask = true ->
     running n g1 /\ wp play_tick (fun _ g2 => running n g2) g1) /\
  wlp (handle_message b (Interrupts mask)) (fun _ g' =>
    if ticks b mask
    then exists g1 g2, tick_start b mask g g1 /\ play_tick g1 = Done (tt, g2) /\ round n g2 g'
    else running n g') g.
Proof.
  intros Hrun Hcalm. split.
  { intros g1 Hst Hb. destruct (Hcalm g1 Hst Hb) as (Ht & Hc & Hp).
    pose proof (tick_start_running n b mask g g1 Hrun Hst Ht) as Hrun1. split; [done|].
    eapply wp_mono; [by apply (play_tick_fit pow_square_nonneg rand_range hit_is_false n g1)|]. by intros [] g2 [H _]. }
  cbn [handle_message]. wlp_step. unfold wlp at 1.
  destruct (device_events b mask g) as [[[] g1]| |] eqn:E1; [|done..].
  pose proof (quiet_running _ _ _ (device_events_quiet n b mask g tt g1 E1) Hrun) as Hrun1.
  unfold on_bit, ticks in *. wlp_step. destruct (timer_bit_no b) as [t|]; [|done]. cbn [defined]. wlp_step.
  destruct (has_bits mask (BIT t)); [|by wlp_step]. wlp_step. unfold wlp at 1.
  destruct (on_timer timer_int_handler g1) as [[[] g2]| |] eqn:E2; [|done..].
  assert (tick_start b mask g g2) as Hst. { unfold tick_start. by rewrite (bind_Done _ _ _ _ _ E1). }
  destruct (Hcalm g2 Hst eq_refl) as (Ht & Hc & Hp).
  pose proof (timer_clock n g1 g2 Hrun1 E2 Ht) as Hrun2.
  eapply wlp_mono; [by apply (game_handler_frame n g2)|]. intros [] g3 (g4 & Hpt & _ & Hr). by exists g2, g4.
Qed.
End Frame.

(** *** The corridor for a moment

    The break code of a number key arrives with the timer's interrupt, while
    the player of [Tick] fires at the bot. *)
#[local] Existing Instances desk_device ticking_rand.
#[local] Instance brick_outside : Outside := {|
  map_files _ := None; row_junk := 7; row_slack := 1; mode_info _ := mk_mode_info 4 210 32;
  old_memory n := replicate (Z.to_nat n) 0; pixels_ok _ := true;
  sprite_of sl := match sl with walls_textures _ => bricks 81 sl | _ => img sl end;
  junk_pickup := junk_slot; junk_index := 7; junk_hit := false; junk_position := vec0; stale := true; fuel := 30 |}.
Definition all_bits : bits := mk_bits (Some 0) (Some 12) (Some 1) (Some 4) (Some 8).
Definition busy_game : game desk heap Z :=
  (duel_game <| g_hw := mk_hw (mk_desk [(1, 0x82)] true) [] |>
    <| g_rtc ::= (fun r => r <| game_timer := 160 |>) |>)
    <| g_video := two_columns <| h_res := 64 |> <| vlines := Live (replicate 64 zero_line) |>
                              <| vmem := replicate 3 (replicate (64 * 128) 0) |> |>.
Lemma busy_running : running 1 busy_game.
Proof. apply (quiet_running 1 duel_game); [by apply quiet_parts|exact duel_running]. Qed.
Definition tick_begins : game desk heap Z :=
  match (device_events all_bits (BIT 0 + BIT 1) ;;; on_timer timer_int_handler) busy_game with Done (_, g) => g | _ => busy_game end.
Lemma tick_begins_close : close (get_ai tick_begins).
Proof.
  assert (controllers (get_ai tick_begins) = Live [corridor_ctrl]) as E by (vm_compute; reflexivity).
  intros cs c e. rewrite E. intros [= <-] Hc. apply list_elem_of_singleton in Hc as ->. intros _ H. exfalso. by apply H.
Qed.

Lemma tick_begins_well g1 : tick_start all_bits (BIT 0 + BIT 1) busy_game g1 -> ticks all_bits (BIT 0 + BIT 1) = true ->
  time_counter (g_world g1) < 2 ^ 62 /\ close (get_ai g1) /\ in_plane g1 = true.
Proof.
  unfold tick_start. intros Hst _. assert (g1 = tick_begins) as -> by (unfold tick_begins; by rewrite Hst). clear Hst.
  split; [vm_compute; reflexivity|]. split; [exact tick_begins_close|vm_compute; reflexivity].
Qed.

(** The tick is the one of [Tick]'s example, the screen is drawn, and the
    level goes on. *)
Lemma notification_in_order_witness : exists g', handle_message all_bits (Interrupts (BIT 0 + BIT 1)) busy_game = Done (tt, g') /\
  running 1 g' /\ health <$> w_enemies (g_world g') = [35] /\ time_counter (g_world g') = 21.
Proof.
  assert (seen (handle_message all_bits (Interrupts (BIT 0 + BIT 1))) busy_game
    (fun g => (health <$> w_enemies (g_world g), time_counter (g_world g), g_state g)) = Some ([35], 21, GAME)) as Hrun
    by (vm_compute; reflexivity).
  pose proof (notification_in_order toy_pow_square_nonneg ticking_rand_range eq_refl 1 all_bits (BIT 0 + BIT 1) busy_game
    busy_running tick_begins_well) as [_ H].
  destruct (wlp_seen _ _ _ _ _ Hrun H) as ([] & g' & E & Hsee & H2). clear Hrun H.
  injection Hsee as Eh Et Es. exists g'. split; [exact E|]. split; [|split; [exact Eh|exact Et]].
  destruct H2 as (g1 & g2 & _ & _ & [Hon _ _ _|_ [Eo _]|_ _ [Eo _]|[Eo _]]); [exact Hon|rewrite Es in Eo; discriminate..].
Defined.
