(* ===== verification/Setup.v ===== *)
(** * Setup

    Loading a level succeeds: from a program without a level, [load_level]
    builds a world in which every other component's theorems apply, and
    [free_level] leads back to a program without a level. *)

From stdpp Require Import strings.
From S2P Require Import Prelude Hardware Timer Kbc Rtc Queue Uart Doubles MapFile Utils Sprites Guns Controls.
From S2P Require Import Players Pickups Battle Network Enemies Video Render Game Level Menu Main Lifecycle Tick.

(** ** Positions *)

(** Both coordinates are well within an [int]. *)
Definition plain (v : vector_t) : bool :=
  let inside c := match dto_int c with Some i => (INT_MIN <? i) && (i <? INT_MAX) | None => false end in
  inside (vx v) && inside (vy v).

Lemma plain_cells v w h : plain v = true -> is_Some (cells_around v w h).
Proof.
  unfold plain, cells_around, neighbours. intros [Hx Hy]%andb_prop.
  destruct (dto_int (vx v)); [|done]. destruct (dto_int (vy v)); [|done]. rewrite Hx, Hy. done.
Qed.
Lemma plain_ints v : plain v = true -> is_Some (dto_int (vx v)) /\ is_Some (dto_int (vy v)).
Proof.
  unfold plain. intros [Hx Hy]%andb_prop. by destruct (dto_int (vx v)), (dto_int (vy v)).
Qed.

Lemma aget_snoc {A} (l : list A) x i y : aget (l ++ [x]) i = Some y -> aget l i = Some y \/ y = x.
Proof.
  unfold aget. destruct (i <? 0); [done|]. intros [H|[_ H]]%lookup_app_Some; [by left|right].
  apply list_lookup_singleton_Some in H. by destruct H.
Qed.

(** ** Guns *)

(** The guns as [init_guns] leaves them when the heap holds [k] arrays. *)
Definition game_guns (k : nat) : list gun_t :=
  zip_with (fun i g => g <| animations := (k + i)%nat |> <| g_num_anims := 2 |>) (seq 0 5)
    [gun1; gun2; gun3; bot_gun1; bot_gun2].

Lemma init_anims_ok idle fire first mult g n (Q : gun_t -> anim_heap -> Prop) h :
  fire_ticks (cooldown_time g) (alen fire) mult = Some n -> anim_ok (mk_anim first n 0 (alen fire) FINISHED fire) ->
  (forall h', heap_ok h -> heap_ok h' -> length h' = S (length h) ->
    Q (g <| animations := length h |> <| g_num_anims := 2 |>) h') -> heap_ok h ->
  wp (init_anims idle fire first mult g) Q h.
Proof.
  intros Hn Ha HQ Hh. unfold wp, init_anims. rewrite Hn. apply HQ; [done| |].
  - apply Forall_app. split; [done|]. constructor; [|constructor]. split; [done|]. constructor; [|by constructor].
    repeat split; cbn; done.
  - rewrite length_app. cbn. lia.
Qed.

Lemma init_guns_at h : heap_ok h ->
  wp Guns.init_guns (fun gs h' => gs = game_guns (length h) /\ length h' = (length h + 5)%nat /\ heap_ok h') h.
Proof.
  intros Hh. unfold Guns.init_guns, init_rifle_anims, init_gun_anims, init_ray_anims.
  do 5 (wp_step; eapply init_anims_ok; [vm_compute; reflexivity|repeat split; cbn; done| |eassumption]; intros ? ? ? ?).
  wp_step. split; [|split; [lia|done]]. unfold game_guns. cbn.
  repeat match goal with H : length _ = S _ |- _ => rewrite H; clear H end. by rewrite Nat.add_0_r, !Nat.add_succ_r, Nat.add_0_r.
Qed.

(** A gun nobody has used, the [i]-th of the game. *)
Record fit (k : nat) (i : nat) (gi : gun_instance_t) : Prop := mk_fit {
  ft_ok : instance_ok gi;
  ft_last : last_op_tick gi = 0;
  ft_anims : animations (gi_gun gi) = (k + i)%nat;
  ft_which : (i < 5)%nat;
  ft_curr : curr_anim gi = 0;
  ft_damage : 0 <= damage (gi_gun gi) < 256;
  ft_packets : max_packets (gi_gun gi) < 2 ^ 15;
}.
Lemma fit_gun k i gi t h : fit k i gi -> 0 <= t -> (k + 5 <= length h)%nat -> gun_fit t h gi.
Proof.
  intros [Hok Hl Ha Hi Hc Hd _] Ht Hk. split; [by split; [|lia]| |done]. split; [lia|]. rewrite Hc. lia.
Qed.

Lemma create_fit k (i : nat) ammo packets : (i < 5)%nat -> 0 <= ammo <= INT_MAX -> 0 <= packets <= INT_MAX ->
  exists gi, Guns.create_gun_instance (game_guns k) (Z.of_nat i) ammo packets = Some gi /\ fit k i gi.
Proof.
  intros Hi Ha Hp. unfold INT_MAX in *.
  assert (i = 0 \/ i = 1 \/ i = 2 \/ i = 3 \/ i = 4)%nat as Hcases by lia.
  destruct Hcases as [-> | [-> | [-> | [-> | ->]]]]; unfold Guns.create_gun_instance, get_gun, aget, game_guns; cbn;
    (eexists; split; [reflexivity|]);
    (split; cbn; [|done|lia|lia|done|lia|lia]; split; cbn;
      [split; cbn; lia|break_if; bool_lia; rewrite (wrap_small 16) by lia; lia..]).
Qed.

Definition arrays (gis : list gun_instance_t) : list nat := (fun gi => animations (gi_gun gi)) <$> gis.

Lemma same_arrays gs gs' : gi_gun <$> gs' = gi_gun <$> gs -> arrays gs' = arrays gs.
Proof. intros E. unfold arrays. by rewrite !(list_fmap_compose gi_gun animations), E. Qed.

(** A player [init_player] makes of such guns can fight. *)
Lemma init_player_fit {LM : Libm} fov type pos dir radius hp max_hp arm max_arm gis n k t h :
  Forall (fun gi => exists i, fit k i gi) gis -> 0 < n <= alen gis -> plain pos = true ->
  0 <= hp <= max_hp -> max_hp < 256 -> 0 <= arm <= max_arm -> max_arm < 256 ->
  0 <= t -> (k + 5 <= length h)%nat -> (type <> BOT -> 3 <= n) ->
  exists p d, Players.init_player fov true type pos dir radius hp max_hp arm max_arm gis n =
      Some (p, d, bool_decide (type <> PLAYER)) /\
    fighter_ok t h p /\ outfit p /\ p_type p = type /\ arrays (guns p) = arrays (take (Z.to_nat n) gis).
Proof.
  intros Hgis Hn Hpos Hhp Hmhp Harm Hmarm Ht Hk H3. unfold Players.init_player. cbn [negb].
  destruct (Z.ltb_spec (alen gis) n); [lia|].
  apply (Forall_take _ (Z.to_nat n)) in Hgis.
  destruct (take (Z.to_nat n) gis) as [|gi rest] eqn:E.
  { apply (f_equal length) in E. rewrite length_take in E. unfold alen in *. cbn in E. lia. }
  apply Forall_cons in Hgis as [[i Hgi] Hrest]. destruct (plain_ints _ Hpos) as [Hx Hy].
  assert (Forall (gun_fit t h) rest) as Hrest'.
  { eapply Forall_impl; [exact Hrest|]. intros x [j Hj]. by eapply fit_gun. }
  set (gi' := if decide (type = BOT) then _ else _).
  assert (gun_fit t h gi' /\ animations (gi_gun gi') = animations (gi_gun gi) /\
    max_packets (gi_gun gi') = max_packets (gi_gun gi)) as (Hgi' & Ha & Hm).
  { pose proof (fit_gun _ _ _ _ _ Hgi Ht Hk) as [[[[? ? ? ? ? ?] ? ?] ?] [? ?] ?]. subst gi'.
    case_decide; (split; [|done]); (split; [|done|done]); (split; [|done]); (split; cbn; [|done|done]);
      split; cbn; (done || lia). }
  assert (n = alen (gi' :: rest)) as En.
  { apply (f_equal length) in E. rewrite length_take in E. unfold alen in *. cbn in *. lia. }
  assert (Forall (fun gi => max_packets (gi_gun gi) < 2 ^ 15) (gi' :: rest)) as Hpk.
  { constructor; [rewrite Hm; apply Hgi|]. eapply Forall_impl; [exact Hrest|]. intros x [j Hj]. apply Hj. }
  case_decide as Et.
  - eexists _, _. split; [rewrite bool_decide_false by (by intros ?); reflexivity|].
    split; [|split; [|split; [done|]]].
    + split; cbn; [by split|unfold alen; cbn; lia|by constructor|done|done].
    + split; [by left|done|done|done|]. intros Hb. specialize (H3 Hb). cbn [guns set]. by rewrite <- En.
    + unfold arrays. cbn. by rewrite Ha.
  - eexists _, _. split; [rewrite bool_decide_true by done; reflexivity|].
    split; [|split; [|split; [done|]]].
    + split; cbn; [by split|unfold alen; cbn; lia|by constructor|done|done].
    + split; [apply init_player_anims_ok|done|done|done|]. intros Hb. specialize (H3 Hb). cbn [guns set init_player_anims]. by rewrite <- En.
    + unfold arrays. cbn. by rewrite Ha.
Qed.

(** ** The building site *)
Section Setup.
Context {D : Type} `{!Device D} {S : Type} {QS : QueueStore S} {R : Type} `{!Rand R} {LM : Libm} {OU : Outside}.
Abbreviation G := (game D S R).
Implicit Types g : G.

(** The player of a level, with the first three guns. *)
Record manned (k : nat) (w : world) : Prop := mk_manned {
  mn_fit : fighter_ok (time_counter w) (w_anims w) (w_player w);
  mn_outfit : outfit (w_player w);
  mn_type : p_type (w_player w) = PLAYER;
  mn_arrays : arrays (guns (w_player w)) = [k; k + 1; k + 2]%nat;
}.

(** What does not look at a changed part holds as before. *)
Ltac same_site Hs :=
  destruct Hs as [? ? ? ? ? ? ? Hplayer ? ? ? ? ? ? ? ? ?]; split; cbn; try done;
  try (intros Hb; destruct (Hplayer Hb); by split).

Section Site.
(** What the others are: bots or the player of the other machine. *)
Variable kind : player_type_t.
Hypothesis not_player : kind <> PLAYER.

(** A level under construction, whose guns' arrays start at [k] in the heap:
    whether the player is there, and how many enemies, controllers and
    pickups. *)
Record site (k : nat) (player : bool) (ne nc np : Z) g : Prop := mk_site {
  st_map : map_ok (w_map (g_world g));
  st_rows : exists rest, MapFile.close_map (w_map (g_world g)) = Done rest;
  st_time : 0 <= time_counter (g_world g) < 2 ^ 62;
  st_heap : heap_ok (w_anims (g_world g));
  st_arrays : length (w_anims (g_world g)) = (k + 5)%nat;
  st_guns : g_guns g = game_guns k;
  st_freed : Forall (fun i => (i < k)%nat) (freed_anims g);
  st_player : player = true -> manned k (g_world g);
  st_count : alen (w_enemies (g_world g)) = ne;
  st_enemies i e : aget (w_enemies (g_world g)) i = Some e ->
    fighter_ok (time_counter (g_world g)) (w_anims (g_world g)) e /\ outfit e /\ p_type e = kind;
  st_table : table_ok (g_ai g) nc;
  st_guards : guards ne (g_ai g);
  st_pickups : pickups_ok (w_pickups (g_world g));
  st_size : pickups_size (w_pickups (g_world g)) = if np =? 0 then 0 else np + 1;
  st_stock : all_pickups stocked (w_pickups (g_world g));
  st_cells : 0 < t_width (w_pickups (g_world g)) < 2 ^ 16 /\ 0 < t_height (w_pickups (g_world g)) < 2 ^ 16;
  st_ground : 0 < lines (w_map (g_world g)) /\ 0 < columns (w_map (g_world g));
}.

Lemma set_state_site st k b ne nc np g : site k b ne nc np g ->
  wp (set_state st) (fun _ => site k b ne nc np) g.
Proof.
  intros Hs. unfold set_state, get_state. wp_steps.
  case_decide; wp_steps; [|same_site Hs]. unfold on_hw. apply wp_zoom, wp_rtc_b_update. intros. wp_steps. same_site Hs.
Qed.

Lemma create_site (i : nat) ammo packets k b ne nc np g (Q : gun_instance_t -> G -> Prop) :
  site k b ne nc np g -> (i < 5)%nat -> 0 <= ammo <= INT_MAX -> 0 <= packets <= INT_MAX ->
  (forall gi, fit k i gi -> Q gi g) -> wp (create_gun_instance (Z.of_nat i) ammo packets) Q g.
Proof.
  intros Hs Hi Ha Hp HQ. unfold create_gun_instance. wp_steps. rewrite (st_guns _ _ _ _ _ _ Hs).
  destruct (create_fit k i ammo packets Hi Ha Hp) as (gi & -> & Hgi). wp_steps. by apply HQ.
Qed.

(** *** Pickups *)
Definition place (a : details * vector_t * double) : prog G Z :=
  on_world (on_pickups (add_one junk_pickup junk_index a)).
Lemma place_site a k b ne nc np g : site k b ne nc np g -> 0 <= np < 2 ^ 20 -> plain a.1.2 && modest a.1.1 = true ->
  wp (place a) (fun _ => site k b ne nc (np + 1)) g.
Proof.
  intros Hs Hnp [Ha Hm]%andb_prop. unfold place, on_world, on_pickups. do 2 apply wp_zoom.
  pose proof (st_size _ _ _ _ _ _ Hs) as Hsz. pose proof (st_pickups _ _ _ _ _ _ Hs) as Hok.
  eapply wp_mono; [eapply wp_and_wlp|].
  { apply add_one_ok; [exact Hok| |by apply plain_cells]. destruct (np =? 0); lia. }
  { apply (add_one_all _ _ stocked); [exact Hok|apply Hs|]. intros new (E & _) Hanim. split; [exact Hanim|]. by rewrite E. }
  intros r s' [(-> & Hok' & Hsz' & Ew & Eh & _) Hst]. same_site Hs.
  - rewrite Hsz', Hsz. destruct (Z.eqb_spec np 0), (Z.eqb_spec (np + 1) 0); lia.
  - by rewrite Ew, Eh.
Qed.

(** *** Players *)
Lemma alloc_site k b ne nc np g (Q : bool -> G -> Prop) : site k b ne nc np g ->
  (forall g', site k b ne nc np g' -> g_settings g' = g_settings g -> Q true g') -> wp (on_ai alloc) Q g.
Proof.
  intros Hs HQ. unfold on_ai. apply wp_zoom. unfold wp, alloc.
  pose proof (st_table _ _ _ _ _ _ Hs) as Ht. destruct Ht as (Hn & Hp & Hal & Hc).
  change (allocs (get_ai g)) with (allocs (g_ai g)). rewrite Hal. apply HQ; [|done].
  same_site Hs.
Qed.

(** The guns given to a player are of this level. *)
Definition armed (k : nat) (gis : list gun_instance_t) : Prop := Forall (fun gi => exists i, fit k i gi) gis.

Lemma player_site pos dir radius hp max_hp arm max_arm gis k b ne nc np g : site k b ne nc np g ->
  armed k gis -> arrays gis = [k; k + 1; k + 2]%nat -> plain pos = true ->
  0 <= hp <= max_hp -> max_hp < 256 -> 0 <= arm <= max_arm -> max_arm < 256 ->
  wp (init_player PLAYER pos dir radius hp max_hp arm max_arm gis 3) (fun _ => site k true ne nc np) g.
Proof.
  intros Hs Hgis Harr Hpos Hhp Hmhp Ha Hma. unfold init_player. wp_step. rewrite decide_True by done. wp_step. cbn [negb].
  wp_step. apply (alloc_site k b ne nc np); [done|]. intros g1 Hs1 _. do 2 wp_step.
  assert (alen gis = 3) as Hl.
  { apply (f_equal length) in Harr. unfold arrays in Harr. rewrite length_fmap in Harr. unfold alen. cbn in Harr. lia. }
  destruct (init_player_fit (Controls.fov (g_settings g1)) PLAYER pos dir radius hp max_hp arm max_arm gis 3 k
    (time_counter (g_world g1)) (w_anims (g_world g1))) as (p & d & E & Hp & Ho & Hty & Hg);
    [done|lia|done..|apply (st_time _ _ _ _ _ _ Hs1)|by rewrite (st_arrays _ _ _ _ _ _ Hs1)|done|].
  wp_step. rewrite E. cbn [defined]. wp_step. wp_step. rewrite decide_True by done. wp_steps.
  same_site Hs1. intros _. split; cbn; [done|done|done|].
  rewrite Hg, <- Harr, take_ge; [done|]. unfold alen in Hl. lia.
Qed.

Lemma enemy_site type pos dir radius hp max_hp arm max_arm gis n k b ne nc np g : site k b ne nc np g ->
  type = kind -> (kind <> BOT -> 3 <= n) -> armed k gis -> 0 < n <= alen gis -> plain pos = true ->
  0 <= hp <= max_hp -> max_hp < 256 -> 0 <= arm <= max_arm -> max_arm < 256 ->
  wp (init_player type pos dir radius hp max_hp arm max_arm gis n) (fun _ => site k b (ne + 1) nc np) g.
Proof.
  intros Hs -> H3 Hgis Hn Hpos Hhp Hmhp Ha Hma. unfold init_player. wp_step. rewrite decide_False by done.
  apply (alloc_site k b ne nc np); [done|]. intros g0 Hs0 _. cbn [negb].
  wp_step. apply (alloc_site k b ne nc np); [done|]. intros g1 Hs1 _. do 2 wp_step.
  destruct (init_player_fit (Controls.fov (g_settings g1)) kind pos dir radius hp max_hp arm max_arm gis n k
    (time_counter (g_world g1)) (w_anims (g_world g1))) as (p & d & E & Hp & Ho & Hty & Hg);
    [done|lia|done..|apply (st_time _ _ _ _ _ _ Hs1)|by rewrite (st_arrays _ _ _ _ _ _ Hs1)|exact H3|].
  wp_step. rewrite E. cbn [defined]. wp_step. wp_step. rewrite decide_False, bool_decide_true by done. wp_steps.
  same_site Hs1.
  - unfold alen in *. rewrite length_app. cbn. lia.
  - intros i e [He| ->]%aget_snoc; [by eauto|]. split; [done|]. by rewrite Hty.
  - intros cs c Hcs Hc. match goal with H : guards ne _ |- _ => destruct (H cs c Hcs Hc) as (i & ? & ?) end. exists i. split; [done|lia].
Qed.

(** Another player in the place of one of them. *)
Lemma replaced_site p x x' w' a' k b ne nc nc' np g : site k b ne nc np g -> table_ok a' nc' ->
  replaced p x' (g_world g) w' -> find_player p (g_world g) = Some x -> p_type x' = p_type x ->
  arrays (guns x') = arrays (guns x) ->
  (fighter_ok (time_counter (g_world g)) (w_anims (g_world g)) x -> outfit x ->
   fighter_ok (time_counter (g_world g)) (w_anims (g_world g)) x' /\ outfit x') -> guards ne a' ->
  site k b ne nc' np (g <| g_ai := a' |> <| g_world := w' |>).
Proof.
  intros [Hm Hr Ht Hh Har Hg Hf Hpl Hc He Hta Hgu Hpk Hsz Hsk Hce Hgr] Ha' Hrep Hx Hty Hgs Hok Hgu'.
  pose proof Hrep as [[Em Ea Ep Et] Hq].
  split; cbn; rewrite ?Em, ?Ea, ?Ep, ?Et; try done.
  - intros Hb. destruct (Hpl Hb) as [Hmf Hmo Hmt Hma]. specialize (Hq ThePlayer). cbn in Hq.
    case_decide as E; [|injection Hq as Eq; split; by rewrite ?Et, ?Ea, Eq].
    subst p. injection Hx as <-. injection Hq as Eq. destruct (Hok Hmf Hmo).
    split; rewrite ?Et, ?Ea, Eq; [done|done|congruence|congruence].
  - by rewrite (replaced_len _ _ _ _ _ Hrep Hx).
  - intros j e Hj. specialize (Hq (Enemy j)). cbn in Hq. rewrite Hj in Hq. case_decide as E.
    + subst p. injection Hq as ->. cbn in Hx. destruct (He _ _ Hx) as (Hf1 & Ho1 & ?). destruct (Hok Hf1 Ho1).
      split; [done|]. split; [done|congruence].
    + symmetry in Hq. by apply (He _ _ Hq).
Qed.

Lemma guard_site i random timeout fov range n pos k b ne nc np g : site k b ne nc np g ->
  0 <= i < ne -> 0 < n < 256 -> n <= alen pos -> nc < INT_MAX ->
  wp (init_enemy i random timeout fov range n pos) (fun _ => site k b ne (nc + 1) np) g.
Proof.
  intros Hs Hi Hn Hl Hnc. unfold init_enemy, on_ai. apply wp_zoom.
  eapply wp_mono; [eapply wp_and_wlp;
    [apply (start_bot_spec (mk_bot_spec i random timeout fov range n pos) (get_ai g) nc); [apply Hs|done|]|
     apply (start_bot_guards (mk_bot_spec i random timeout fov range n pos) (get_ai g) ne); [apply Hs|exact Hi]]|].
  { split; cbn; [by rewrite (st_count _ _ _ _ _ _ Hs)|lia|lia]. }
  intros _ a' [(Ht & _ & _ & _ & e & He & Hrep) Hgu]. cbn in He, Hrep.
  eapply (replaced_site (Enemy i) e); [exact Hs|exact Ht|exact Hrep|exact He|done|done| |exact Hgu].
  intros [[] ? ? ? ?] []. split; [split; [by split|done..]|by split].
Qed.


(** *** The levels *)
Lemma armed_3 k i0 i1 i2 a b c : fit k i0 a -> fit k i1 b -> fit k i2 c -> armed k [a; b; c].
Proof. intros. unfold armed. repeat constructor; eauto. Qed.
Lemma arrays_3 k a b c : fit k 0 a -> fit k 1 b -> fit k 2 c -> arrays [a; b; c] = [k; k + 1; k + 2]%nat.
Proof. intros Ha Hb Hc. unfold arrays. cbn. rewrite (ft_anims _ _ _ Ha), (ft_anims _ _ _ Hb), (ft_anims _ _ _ Hc). by rewrite Nat.add_0_r. Qed.
Create HintDb setup.
#[local] Hint Resolve armed_3 arrays_3 : setup.

(** Takes one step of a level's construction, with the lemma on it. *)
Ltac side := try first [done | lia | congruence | intros; lia | vm_compute; reflexivity | unfold alen; cbn; lia | solve [eauto with setup]].
Ltac step_site lem :=
  wp_step; eapply wp_mono; [eapply lem; [eassumption|..]; side|]; intros ? ? ?; cbn beta in *.
Ltac give_gun n :=
  wp_step; eapply (create_site n); [eassumption|lia|unfold INT_MAX; lia|unfold INT_MAX; lia|]; intros.

Lemma setup_game_1_site k g : kind = BOT -> site k false 0 0 0 g -> wp setup_game_1 (fun _ => site k true 3 2 4) g.
Proof.
  intros Hkind Hs. unfold setup_game_1, add_ammo, add_medkit, add_armor.
  step_site set_state_site. give_gun 0%nat. give_gun 1%nat. give_gun 2%nat. step_site player_site.
  step_site (place_site (AMMO 1 1, at_ 40 30, dlit 5 10)).
  step_site (place_site (MEDKIT 30, at_ 40 35, dlit 5 10)).
  step_site (place_site (ARMOR 20, at_ 40 25, dlit 5 10)).
  step_site enemy_site.
  step_site (place_site (AMMO 1 2, at_ 200 25, dlit 5 10)).
  give_gun 3%nat. step_site enemy_site. step_site enemy_site. step_site guard_site.
  eapply wp_mono; [eapply guard_site; [eassumption|..]; side|]. done.
Qed.

Lemma switch_site i k ne nc np g : site k true ne nc np g -> 0 <= i < 3 ->
  wp (on_world (update_player ThePlayer (switch_gun i))) (fun _ => site k true ne nc np) g.
Proof.
  intros Hs Hi. unfold on_world. apply wp_zoom. destruct (st_player _ _ _ _ _ _ Hs eq_refl) as [Hf Ho Ht Ha].
  destruct (switch_gun_fit _ _ i _ Hf) as (gs & E & Hgs & Hx').
  { apply (f_equal length) in Ha. unfold arrays in Ha. rewrite length_fmap in Ha. unfold alen. cbn in Ha. lia. }
  eapply wp_update_player; [reflexivity|exact E|]. intros w' Hrep.
  pose proof (replaced_site ThePlayer (w_player (g_world g)) _ w' (g_ai g) k true ne nc nc np g Hs
    (st_table _ _ _ _ _ _ Hs) Hrep eq_refl eq_refl (same_arrays _ _ Hgs)
    (fun _ _ => conj Hx' (switched_outfit _ i gs Ho Hgs)) (st_guards _ _ _ _ _ _ Hs)) as Hs'. destruct Hs'. by split.
Qed.

(** The data of a bot and of a guard are in range. *)
Definition bot_fine (b : bot_data) : bool :=
  let '(_, pos, hp, max_hp, arm, max_arm) := b in
  plain pos && (0 <=? hp) && (hp <=? max_hp) && (max_hp <? 256) && (0 <=? arm) && (arm <=? max_arm) && (max_arm <? 256).
Definition guard_fine (ne : Z) (c : guard_data) : bool :=
  let '(i, _, _, _, pos) := c in (0 <=? i) && (i <? ne) && (0 <? alen pos) && (alen pos <? 256).

Lemma init_bots_site gis k b nc np : kind = BOT -> armed k gis -> 0 < alen gis -> forall bots dir ne g,
  forallb bot_fine bots = true -> site k b ne nc np g ->
  wp (init_bots bots dir gis) (fun _ => site k b (ne + alen bots) nc np) g.
Proof.
  intros Hkind Hgis Hl bots. induction bots as [|[[[[[d pos] hp] max_hp] arm] max_arm] bots IH]; intros dir ne g Hb Hs; cbn [init_bots].
  { wp_step. by rewrite Z.add_0_r. }
  cbn [forallb] in Hb. apply andb_prop in Hb as [Hb Hbs]. unfold bot_fine in Hb.
  do 6 (apply andb_prop in Hb as [Hb ?]). bool_lia.
  wp_step. eapply wp_mono; [eapply enemy_site; [exact Hs|done|done|exact Hgis|lia|done|lia..]|].
  intros dir' g1 Hs1. cbn beta in *. eapply wp_mono; [by apply (IH _ (ne + 1))|]. intros ? g2 Hs2. cbn beta in *.
  rewrite alen_cons. by replace (ne + (alen bots + 1)) with (ne + 1 + alen bots) by lia.
Qed.

Lemma init_enemies_site l k b ne np : forall nc g, forallb (guard_fine ne) l = true -> nc + alen l < INT_MAX ->
  site k b ne nc np g -> wp (init_enemies l) (fun _ => site k b ne (nc + alen l) np) g.
Proof.
  unfold init_enemies. induction l as [|[[[[i timeout] fov] range] pos] l IH]; intros nc g Hl Hn Hs; cbn [for_each].
  { wp_step. by rewrite Z.add_0_r. }
  rewrite alen_cons in *.
  cbn [forallb] in Hl. apply andb_prop in Hl as [Hg Hl]. unfold guard_fine in Hg. repeat (apply andb_prop in Hg as [Hg ?]).
  bool_lia. pose proof (alen_nonneg l).
  wp_step. eapply wp_mono; [eapply guard_site; [exact Hs|lia|lia|lia|lia]|].
  intros ? g1 Hs1. cbn beta in *. replace (nc + (alen l + 1)) with (nc + 1 + alen l) by lia. apply IH; [done|lia|done].
Qed.

(** Any number of pickups of one kind. *)
Lemma places_site {X} (f : X -> details * vector_t * double) (body : X -> prog G unit) k b ne nc :
  (forall x, body x = (_ <- place (f x) ;; ret tt)) -> forall l np g,
  forallb (fun x => plain (f x).1.2 && modest (f x).1.1) l = true -> 0 <= np -> np + alen l < 2 ^ 20 -> site k b ne nc np g ->
  wp (for_each l body) (fun _ => site k b ne nc (np + alen l)) g.
Proof.
  intros Hbody l. induction l as [|x l IH]; intros np g Hl Hnp Hm Hs; cbn [for_each].
  { wp_step. by rewrite Z.add_0_r. }
  rewrite alen_cons in *. pose proof (alen_nonneg l). cbn [forallb] in Hl. apply andb_prop in Hl as [Hx Hl].
  wp_step. rewrite Hbody. wp_step. eapply wp_mono; [eapply place_site; [exact Hs|lia|exact Hx]|].
  intros ? g1 Hs1. cbn beta in *. wp_step. replace (np + (alen l + 1)) with (np + 1 + alen l) by lia. apply IH; [done|lia|lia|done].
Qed.

(** The pickups of a level, from their tables. *)
Ltac place_all f :=
  eapply wp_mono; [eapply (places_site f); [by intros; repeat case_match| | | |eassumption]; side|];
  intros ? ? ?; cbn beta in *.
Lemma setup_game_2_site k g : kind = BOT -> site k false 0 0 0 g -> wp setup_game_2 (fun _ => site k true 15 15 22) g.
Proof.
  intros Hkind Hs. unfold setup_game_2.
  step_site set_state_site. give_gun 0%nat. give_gun 1%nat. give_gun 2%nat. step_site player_site.
  step_site switch_site. give_gun 3%nat.
  wp_step. eapply wp_mono; [eapply init_bots_site; side|]. intros dir ? ?. cbn beta in *.
  give_gun 4%nat.
  wp_step. eapply wp_mono; [eapply init_bots_site; side|]. intros ? ? ?. cbn beta in *.
  wp_step. eapply wp_mono; [eapply init_enemies_site; [| |eassumption]; side|]. intros ? ? ?. cbn beta in *.
  wp_step. place_all (fun '((pos, k) : vector_t * Z) => (AMMO 1 k, pos, dlit 5 10)).
  wp_step. place_all (fun pos : vector_t => (MEDKIT 30, pos, dlit 5 10)).
  place_all (fun '((pos, a) : vector_t * Z) => (ARMOR a, pos, dlit 5 10)). done.
Qed.

Lemma setup_multiplayer_site n k g : kind = NETWORK_PLAYER -> site k false 0 0 0 g ->
  wp (setup_multiplayer n) (fun _ => site k true 1 0 12) g.
Proof.
  intros Hkind Hs. unfold setup_multiplayer. step_site set_state_site.
  assert (forall p1 p2 d1 d2, plain p1 = true -> plain p2 = true ->
    wp (i0 <- create_gun_instance 0 0 0 ;;
        i1 <- create_gun_instance 1 0 0 ;;
        i2 <- create_gun_instance 2 0 0 ;;
        _ <- init_player PLAYER p1 d1 (dlit 2 10) 100 100 0 100 [i0; i1; i2] 3 ;;
        _ <- init_player NETWORK_PLAYER p2 d2 (dlit 2 10) 100 100 0 100 [i0; i1; i2] 3 ;;
        for_each arena_ammo (fun '(pos, k) => _ <- add_ammo pos k 2 ;; ret tt) ;;;
        for_each arena_armors (fun pos => _ <- add_armor pos (dlit 6 10) 30 ;; ret tt) ;;;
        ret OK) (fun _ => site k true 1 0 12) s') as Harena.
  { intros p1 p2 d1 d2 H1 H2. give_gun 0%nat. give_gun 1%nat. give_gun 2%nat. step_site player_site. step_site enemy_site.
    wp_step. place_all (fun '((pos, k) : vector_t * Z) => (AMMO 2 k, pos, dlit 5 10)).
    wp_step. place_all (fun pos : vector_t => (ARMOR 30, pos, dlit 6 10)). by wp_step. }
  destruct (n =? 2); by apply Harena.
Qed.

End Site.

(** *** Loading *)

(** No level is loaded. *)
Record unloaded g : Prop := mk_unloaded {
  un_enemies : w_enemies (g_world g) = [];
  un_table : table_ok (g_ai g) 0;
  un_malloc : mallocs (w_pickups (g_world g)) = [];
  un_pickups : pickups_size (w_pickups (g_world g)) = 0;
  un_time : 0 <= time_counter (g_world g) < 2 ^ 62;
  un_heap : heap_ok (w_anims (g_world g));
  un_freed : Forall (fun i => (i < length (w_anims (g_world g)))%nat) (freed_anims g);
}.
(** The file of map [n] is complete. *)
Definition map_file (n : Z) : Prop :=
  exists ls cols toks, map_files (map_path (u16 n)) = Some (ls :: cols :: toks) /\
    1 <= ls <= 32767 /\ 1 <= cols <= 32767 /\ ls * cols <= alen toks.

Lemma load_map_site n g : unloaded g -> map_file n -> (1 <= row_slack)%nat ->
  wp (Level.load_map n) (fun err g1 => err = OK /\ unloaded g1 /\ map_ok (w_map (g_world g1)) /\
    (exists rest, MapFile.close_map (w_map (g_world g1)) = Done rest) /\
    0 < columns (w_map (g_world g1)) /\ 0 < lines (w_map (g_world g1))) g.
Proof.
  intros Hu (ls & cols & toks & Hf & Hl & Hc & Ht) Hs. unfold Level.load_map. wp_step. unfold on_world. do 2 apply wp_zoom.
  unfold get_map. rewrite (un_malloc _ Hu).
  eapply wp_mono; [by eapply (load_map_ok row_junk row_slack map_files (u16 n) ls cols toks)|].
  intros err [m ms] (-> & El & Ec & Hcells & (row & rest & Hclose) & Hms). cbn [fst snd] in *. subst ms. wp_steps. split; [done|].
  split; [by destruct Hu|]. cbn. rewrite El, Ec. split; [|split; [by eexists|lia]].
  split; [lia|]. split; [lia|]. intros y x Hy Hx. rewrite El in Hy. rewrite Ec in Hx.
  destruct (Hcells y x Hy Hx) as (t & _ & E). by rewrite E.
Qed.

(** What [setup] is given: the map, the table and the guns of the new level. *)
Lemma load_level_ground kind n mode player g (Q : Z -> G -> Prop) : unloaded g -> map_file n -> (1 <= row_slack)%nat ->
  (forall k g1, site kind k false 0 0 0 g1 ->
    wp ((if mode =? 1 then
           if n =? 1 then modify (fun g => g <| curr_lvl := 1 |>) ;;; setup_game_1
           else if n =? 2 then modify (fun g => g <| curr_lvl := 2 |>) ;;; setup_game_2
           else ret tt
         else if mode =? 2 then
           _ <- setup_multiplayer player ;;
           modify (fun g => g <| curr_lvl := -1 |>)
         else ret tt) ;;; ret OK) Q g1) ->
  wp (load_level n mode player) Q g.
Proof.
  intros Hu Hf Hs HQ. unfold load_level. wp_step. eapply wp_mono; [by apply load_map_site|].
  intros err g1 (-> & [He Ht Hm Hp Hti Hh Hfr] & Hmap & Hrows & Hc & Hl). cbn [negb Z.eqb OK]. do 2 wp_step. wp_step.
  unfold on_world, on_pickups. do 2 apply wp_zoom.
  destruct Hmap as (Hlr & Hcr & Hcells).
  eapply wp_mono; [apply init_collision_table_ok; [done|done|lia|lia]|].
  intros err s (-> & Hok & Ew & Eh & Es). cbn [negb Z.eqb OK]. unfold Level.init_guns, on_world, on_anims. wp_steps.
  eapply wp_mono; [by apply init_guns_at|]. intros gs h (-> & Hlen & Hh'). wp_steps. cbn [negb Z.eqb OK].
  eapply HQ. split; cbn; try done.
  - by rewrite He.
  - intros i e. rewrite He. unfold aget. by destruct (i <? 0).
  - intros cs c Hcs. destruct Ht as (_ & _ & _ & Hnull). cbn in Hnull. congruence.
  - intros arr i pk _ Hi. lia.
  - rewrite Ew, Eh. lia.
Qed.

(** Whom the player meets. *)
Definition others (mode : Z) : player_type_t := if mode =? 1 then BOT else NETWORK_PLAYER.
Lemma others_not_player mode : others mode <> PLAYER.
Proof. unfold others. by destruct (mode =? 1). Qed.
Definition inventory (n mode : Z) : Z * Z * Z :=
  if mode =? 1 then if n =? 1 then (3, 2, 4) else (15, 15, 22) else (1, 0, 12).

Lemma load_level_site n mode player g : unloaded g -> map_file n -> (1 <= row_slack)%nat ->
  mode = 1 /\ (n = 1 \/ n = 2) \/ mode = 2 ->
  wp (load_level n mode player) (fun err g1 => err = OK /\ exists k,
    let '(ne, nc, np) := inventory n mode in site (others mode) k true ne nc np g1) g.
Proof.
  intros Hu Hf Hs Hmode. apply (load_level_ground (others mode)); [done..|]. intros k g1 H1. wp_step.
  assert (site (others mode) k false 0 0 0 (g1 <| curr_lvl := n |>)) as H1' by (same_site H1).
  destruct Hmode as [[-> Hn]| ->]; unfold inventory; cbn [Z.eqb Pos.eqb].
  - destruct Hn as [-> | ->]; cbn [Z.eqb Pos.eqb]; do 2 wp_step.
    + eapply wp_mono; [by apply (setup_game_1_site (others 1) (others_not_player 1))|]. intros ? g2 H2. wp_step. split; [done|by exists k].
    + eapply wp_mono; [by apply (setup_game_2_site (others 1) (others_not_player 1))|]. intros ? g2 H2. wp_step. split; [done|by exists k].
  - wp_step. eapply wp_mono; [by apply (setup_multiplayer_site (others 2) (others_not_player 2))|]. intros ? g2 H2. cbn beta in H2. wp_steps. split; [done|].
    exists k. same_site H2.
Qed.

(** *** Freeing *)
Lemma free_table_ok s (Q : unit -> pickups_t -> Prop) : pickups_ok s -> 0 < t_width s -> 0 < t_height s ->
  Q tt (s <| table := [] |>) -> wp free_collision_table Q s.
Proof.
  intros [Hm Hsz Harr _ Htab] Hw Hh HQ. unfold free_collision_table. wp_steps.
  assert (t_height s <= alen (table s)) as Hrows.
  { destruct (proj2 (tb_shape _ _ _ Htab 0 (t_height s - 1))) as [l Hl']; [lia|]. unfold table_at in Hl'.
    destruct (aget (table s) (t_height s - 1)) eqn:E; [|done]. apply aget_Some_range in E. lia. }
  destruct (Z.ltb_spec (alen (table s)) (t_height s)); [lia|]. by wp_steps.
Qed.
Lemma free_pickups_ok arr s (Q : unit -> pickups_t -> Prop) : pickups s = Live arr ->
  (forall p, Q tt (s <| pickups_size := 0 |> <| pickups := p |>)) -> wp free_pickups Q s.
Proof.
  intros Hp HQ. destruct s as [ps size ? ? ? ?]. cbn in Hp. subst ps.
  unfold free_pickups, pickup_array, wp, bind, gets, defined, modify, ret. cbn. destruct (1 <? size); cbn; apply HQ.
Qed.

Lemma free_anims_unloaded j g (Q : unit -> G -> Prop) : unloaded g -> (j < length (w_anims (g_world g)))%nat ->
  j ∉ freed_anims g ->
  (forall g', unloaded g' -> w_anims (g_world g') = w_anims (g_world g) -> freed_anims g' = j :: freed_anims g -> Q tt g') ->
  wp (free_gun_anims j) Q g.
Proof.
  intros [] Hj Hn HQ. unfold free_gun_anims. wp_steps. rewrite decide_False by done. wp_steps. apply HQ; [|done..].
  split; cbn; try done. by constructor.
Qed.

(** The interrupt is switched off and its rate reset. *)
Lemma silence_rtc g : unloaded g ->
  wp (_ <- on_hw disable_pie_int ;; _ <- on_hw rtc_reset_pie ;; ret OK) (fun r g1 => r = OK /\ unloaded g1) g.
Proof.
  intros Hu. wp_step. unfold on_hw at 1. apply wp_zoom, wp_rtc_b_update. intros. wp_step. unfold on_hw. apply wp_zoom.
  unfold rtc_reset_pie. wp_step. apply wp_uninit_byte. intros v _. wp_step.
  apply wp_rtc_read_reg. intros ? e ? ?.
  destruct (e =? 0); apply wp_rtc_write_reg; intros; wp_step; (split; [done|]); by destruct Hu.
Qed.

Lemma free_level_site kind k ne nc np g : site kind k true ne nc np g -> 0 < np ->
  map_block g = Live tt -> guns_block g = Live tt -> stale = true ->
  wp free_level (fun r g1 => r = OK /\ unloaded g1) g.
Proof.
  intros Hs Hnp Hm Hg Hst. destruct (st_player _ _ _ _ _ _ _ Hs eq_refl) as [Hf _ _ Ha]. destruct (st_rows _ _ _ _ _ _ _ Hs) as [rest Hr].
  unfold free_level. do 2 wp_step. wp_step. unfold close_map. wp_steps. rewrite Hm, Hr. wp_steps.
  unfold free_players. wp_steps. change (guns_block (_ <| map_block := _ |>)) with (guns_block g). rewrite Hg.
  cbn [free_ptr defined]. wp_steps. unfold on_ai. apply wp_zoom.
  eapply wp_mono; [eapply (free_controllers_spec _ nc); exact (st_table _ _ _ _ _ _ _ Hs)|].
  intros [] a' (Ht & Ew & _). match goal with |- wp _ _ ?s => set (ga := s) end.
  assert (w_pickups (g_world ga) = w_pickups (g_world g) /\ w_anims (g_world ga) = w_anims (g_world g) /\
    time_counter (g_world ga) = time_counter (g_world g) /\ w_enemies (g_world ga) = [] /\ freed_anims ga = freed_anims g /\
    table_ok (g_ai ga) 0) as (Ep & Eh & Et & Ee & Ef & Ht') by (subst ga; cbn; by rewrite Ew).
  clearbody ga. clear Ht Ew. wp_step. unfold on_world, on_pickups. do 2 apply wp_zoom.
  pose proof (st_pickups _ _ _ _ _ _ _ Hs) as Hp. destruct (st_cells _ _ _ _ _ _ _ Hs) as [Hw Hh]. pose proof (st_size _ _ _ _ _ _ _ Hs) as Hsz.
  rewrite Ep. apply free_table_ok; [done|lia|lia|]. wp_step. do 2 apply wp_zoom.
  destruct (Z.eqb_spec np 0); [lia|]. pose proof Hp as [Hmal _ [?|(arr & Earr & _)] _ _]; [lia|].
  eapply free_pickups_ok; [exact Earr|]. intros p.
  match goal with |- wp _ _ ?s => set (g0 := s) end.
  assert (unloaded g0) as Hu0.
  { split; cbn; rewrite ?Ee, ?Et, ?Eh, ?Ef; try done; [apply Hs..|].
    eapply Forall_impl; [apply Hs|]. intros i Hi. cbn beta in *. rewrite (st_arrays _ _ _ _ _ _ _ Hs). lia. }
  assert (length (w_anims (g_world g0)) = k + 5)%nat as L0.
  { cbn. rewrite Eh. apply Hs. }
  assert (Forall (fun i => (i < k)%nat) (freed_anims g0)) as F0 by (cbn; rewrite Ef; apply Hs).
  clearbody g0.
  destruct (guns (w_player (g_world g))) as [|ga0 [|ga1 [|ga2 [|]]]]; try discriminate Ha. injection Ha as A B C.
  wp_step. change (seqZ 0 3) with [0; 1; 2]. cbn [for_each]. rewrite Hst.
  assert (forall j l, (k <= j)%nat -> Forall (fun i => i < j)%nat l -> j ∉ l) as Hfresh.
  { intros j l _ Hl Hj. pose proof (proj1 (Forall_forall _ _) Hl j Hj) as Hlt. cbn in Hlt. lia. }
  do 2 wp_step. change (aget _ 0) with (Some ga0). cbn [defined]. wp_step. rewrite A. apply free_anims_unloaded; [done|lia|by apply Hfresh|]. intros g1 H1 L1 F1.
  do 2 wp_step. change (aget _ 1) with (Some ga1). cbn [defined]. wp_step. rewrite B. apply free_anims_unloaded; [done|rewrite L1; lia|apply Hfresh; [lia|]|].
  { rewrite F1. constructor; [lia|]. eapply Forall_impl; [exact F0|]. cbn. lia. }
  intros g2 H2 L2 F2.
  do 2 wp_step. change (aget _ 2) with (Some ga2). cbn [defined]. wp_step. rewrite C. apply free_anims_unloaded; [done|rewrite L2, L1; lia|apply Hfresh; [lia|]|].
  { rewrite F2, F1. do 2 (constructor; [lia|]). eapply Forall_impl; [exact F0|]. cbn. lia. }
  intros g3 H3 _ _. wp_step. by apply silence_rtc.
Qed.

(** *** The whole cycle *)
Lemma site_world kind k ne nc np g : kind <> PLAYER -> site kind k true ne nc np g -> world_ok (g_world g).
Proof.
  intros Hk Hs. destruct (st_player _ _ _ _ _ _ _ Hs eq_refl) as [Hf _ Ht _]. split; try apply Hs; [|done|].
  - intros [|i] x Hx; cbn in Hx; [by injection Hx as <-|]. by apply (st_enemies _ _ _ _ _ _ _ Hs i).
  - intros i e He. by destruct (st_enemies _ _ _ _ _ _ _ Hs i e He) as (_ & _ & ->).
Qed.
(** A level for one player is ready to be played. *)
Lemma site_running k ne nc np g : site BOT k true ne nc np g -> g_state g = GAME -> running nc g.
Proof.
  intros Hs Hst. destruct (st_player _ _ _ _ _ _ _ Hs eq_refl) as [_ Ho _ _].
  split; [exact Hst| |apply Hs|apply Hs|].
  - split; [by apply (site_world BOT k ne nc np g)| | |].
    + split; [apply Hs|apply Hs|apply Hs|apply Hs].
    + intros [|i] x Hx; cbn in Hx; [by injection Hx as <-|]. by apply (st_enemies _ _ _ _ _ _ _ Hs i).
    + intros i e He. by destruct (st_enemies _ _ _ _ _ _ _ Hs i e He) as (_ & _ & ->).
  - split; [exact (st_table _ _ _ _ _ _ _ Hs)|]. cbn. rewrite (st_count _ _ _ _ _ _ _ Hs). exact (st_guards _ _ _ _ _ _ _ Hs).
Qed.
Lemma unloaded_fine g : unloaded g -> fine g.
Proof. intros [_ (_ & _ & Ha & _) Hm _ _ _ _]. by split. Qed.

(** C1: a level is loaded and freed again, with the counts of its inventory,
    if no allocation fails and two accesses of the code to memory it does not
    own do no harm: [load_map] stores a row pointer past its block (map.c:41;
    [1 <= row_slack]: the block has room for it) and [free_level] reads the
    freed [player.guns] (level_manager.c:431; [stale = true]: it still holds
    what it held).  Under these conditions, from a program without a level
    ([unloaded]) whose map file is complete, for level 1 or 2 for one player
    or any map for two, [load_level]
    returns [OK] with the state of the game and the level's number set and
    every invariant of the other components established (a level for one
    player can be played: [running] is what [play_tick] keeps), and [free_level]
    then returns [OK] with no level loaded, so the next one can be loaded. *)
Theorem level_cycle n mode player g : unloaded g -> map_file n -> (1 <= row_slack)%nat -> stale = true ->
  mode = 1 /\ (n = 1 \/ n = 2) \/ mode = 2 ->
  wp (load_level n mode player) (fun err g1 => err = OK /\
    life g1 = (if mode =? 1 then (GAME, n, Live tt, Live tt) else (MP_GAME, -1, Live tt, Live tt)) /\
    world_ok (g_world g1) /\ pickups_ok (w_pickups (g_world g1)) /\
    (let '(ne, nc, np) := inventory n mode in
     alen (w_enemies (g_world g1)) = ne /\ table_ok (g_ai g1) nc /\ pickups_size (w_pickups (g_world g1)) = np + 1 /\
     (mode = 1 -> running nc g1)) /\
    wp free_level (fun r g2 => r = OK /\ unloaded g2) g1) g.
Proof.
  intros Hu Hf Hs Hst Hmode.
  eapply wp_mono; [apply (wp_and_wlp _ _ _ _ (load_level_site n mode player g Hu Hf Hs Hmode)
    (load_level_life n mode player g (unloaded_fine _ Hu)))|].
  cbn beta. intros err g1 [[-> [k Hk]] (_ & Hl)]. cbn [Z.eqb OK] in Hl. destruct Hl as (Hmap & H1 & H2).
  split; [done|]. assert (life g1 = if mode =? 1 then (GAME, n, Live tt, Live tt) else (MP_GAME, -1, Live tt, Live tt)) as Hl.
  { destruct Hmode as [[-> Hn]| ->]; [by apply H1|by apply H2]. }
  destruct (inventory n mode) as [[ne nc] np] eqn:Ei.
  assert (0 < np) as Hnp.
  { unfold inventory in Ei. destruct (mode =? 1); [destruct (n =? 1)|]; injection Ei as <- <- <-; lia. }
  split; [done|]. split; [eapply (site_world (others mode)); [apply others_not_player|exact Hk]|]. split; [apply Hk|]. split.
  - split; [apply Hk|]. split; [apply Hk|]. split; [rewrite (st_size _ _ _ _ _ _ _ Hk); by destruct (Z.eqb_spec np 0); [lia|]|].
    intros ->. eapply site_running; [exact Hk|]. unfold life in Hl. cbn in Hl. congruence.
  - eapply free_level_site; [exact Hk|done|done| |done]. unfold life in Hl. destruct (mode =? 1); congruence.
Qed.
End Setup.

(** ** A witness: the first level, from power-on *)
#[local] Existing Instances desk_device ticking_rand desk_outside.

Lemma at_desk_unloaded keys : unloaded (at_desk keys).
Proof. split; cbn; try done. by constructor. Qed.
Lemma map001_complete : map_file 1.
Proof.
  exists 11, 22, (drop 2 map001). split; [vm_compute; reflexivity|]. split; [lia|]. split; [lia|].
  apply Z.leb_le. vm_compute. reflexivity.
Qed.

Lemma level_cycle_witness : unloaded (at_desk []) /\ map_file 1 /\
  wp (load_level 1 1 1) (fun err g1 => err = OK /\ life g1 = (GAME, 1, Live tt, Live tt) /\
    alen (w_enemies (g_world g1)) = 3 /\ running 2 g1 /\
    wp free_level (fun r g2 => r = OK /\ unloaded g2) g1) (at_desk []).
Proof.
  split; [apply at_desk_unloaded|]. split; [apply map001_complete|].
  eapply wp_mono; [apply (level_cycle 1 1 1 (at_desk [])); [apply at_desk_unloaded|apply map001_complete|apply le_n|reflexivity|]|].
  - left. by split; [|left].
  - intros err g1 (He & Hl & _ & _ & (Hn & _ & _ & Hrun) & Hfree). specialize (Hrun eq_refl). by split_and!.
Defined.

(** Ten ticks of the first level as it was loaded, nobody touching the
    controls: the wandering bot has left its place. *)
Fixpoint play_ticks (n : nat) (g : game desk heap Z) : option (game desk heap Z) :=
  match n with
  | O => Some g
  | Datatypes.S n =>
      if in_plane g then
        match play_tick g with
        | Done (_, g) => play_ticks n (g <| g_world ::= (fun w => w <| time_counter ::= (fun t => t + 1) |>) |>)
        | _ => None
        end
      else None
  end.
Lemma first_ticks :
  match load_level 1 1 1 (at_desk []) with
  | Done (_, g) => match play_ticks 10 g with
      | Some g' => existsb (fun es => negb (deq (vx (position es.1)) (vx (position es.2))))
          (zip (w_enemies (g_world g)) (w_enemies (g_world g'))) = true
      | None => False
      end
  | _ => False
  end.
Proof. vm_compute. reflexivity. Qed.
