(* ===== verification/Labs.v ===== *)
(** * Labs

    What the exercise programs share: [src/lab2], [src/lab3], [src/lab4],
    [src/labrtc] and [src/labuart] each wait for messages in a loop around
    [driver_receive], and differ in what they do when it fails. *)

From S2P Require Import Prelude.

(** [a + b] on [int]s, undefined when it overflows. *)
Definition add_int32 (a b : Z) : option Z :=
  if (INT_MIN <=? a + b) && (a + b <=? INT_MAX) then Some (a + b) else None.

(** What [driver_receive] brings: an error, with the notification that [msg]
    and [ipc_status] look like then, if any; a message that is no
    notification or not from the hardware; or the interrupts. *)
Inductive arrival : Type := NotReceived (r : Z) (held : option Z) | Unrelated | Interrupts (mask : Z).
(** What [is_ipc_notify] and the [switch] see. *)
Definition notified (m : arrival) : option Z :=
  match m with NotReceived _ held => held | Unrelated => None | Interrupts mask => Some mask end.

(** How the loop ends: the function returns, the loop is left, or it waits. *)
Inductive loop_end : Type := Returned (r : Z) | Left | Waiting.
(** What the loop does when [driver_receive] fails: it says so and goes on to
    look at the message, it [break]s, or it returns the error. *)
Inductive on_failure : Type := Carries_on | Breaks | Returns.

Section Loop.
Context {S X : Type} (failure : on_failure) (cond : X -> prog S bool) (body : Z -> X -> prog S X).

(** The loop [while(cond) { driver_receive(...); ... }] on the messages that
    arrive, with the locals [X]. *)
Fixpoint receive_loop (x : X) (msgs : list arrival) : prog S loop_end :=
  go <- cond x ;;
  if negb go then ret Left else
  match msgs with
  | [] => ret Waiting
  | m :: msgs =>
      let go_on := match notified m with
        | Some mask => x <- body mask x ;; receive_loop x msgs
        | None => receive_loop x msgs
        end in
      match m, failure with
      | NotReceived r _, Returns => ret (Returned r)
      | NotReceived _ _, Breaks => ret Left
      | _, _ => go_on
      end
  end.

(** The rule: [I] holds whenever the loop is about to look at its condition,
    with the messages that are still to come. *)
Lemma wp_receive_loop (I : X -> list arrival -> S -> Prop) (Q : loop_end -> S -> Prop) x msgs s :
  (forall x msgs s, I x msgs s -> wp (cond x) (fun go s =>
     if negb go then Q Left s else
     match msgs with
     | [] => Q Waiting s
     | m :: msgs =>
         let next := match notified m with
           | Some mask => wp (body mask x) (fun x => I x msgs) s
           | None => I x msgs s
           end in
         match m, failure with
         | NotReceived r _, Returns => Q (Returned r) s
         | NotReceived _ _, Breaks => Q Left s
         | _, _ => next
         end
     end) s) ->
  I x msgs s -> wp (receive_loop x msgs) Q s.
Proof.
  intros H. revert x s. induction msgs as [|m msgs IH]; intros x s Hi; cbn [receive_loop]; wp_step;
    (eapply wp_mono; [exact (H _ _ _ Hi)|]); intros [|] s1 H1; cbn [negb] in *; try by wp_step.
  destruct m as [r [mask|]| |mask], failure; cbn [notified] in *; try (by wp_step);
    try (by apply IH); wp_step; (eapply wp_mono; [exact H1|]); intros x2 s2; apply IH.
Qed.
End Loop.
