(* ===== verification/Lab2.v ===== *)
(** * Lab2

    The second exercise, a program of its own: its driver of the timer,
    [src/lab2/timer.c], and its tests, [src/lab2/lab2.c].  What a test prints
    through the course's library is the list [shown]. *)

From S2P Require Import Prelude Hardware Timer Labs.

(** [enum timer_init] of the library. *)
Definition INVAL_val : Z := 0.
Definition LSB_only : Z := 1.
Definition MSB_only : Z := 2.
Definition MSB_after_LSB : Z := 3.
Definition PROGGRAMED_MODE (n : Z) : Z := Z.shiftr (Z.land n MODE_BITS) 1.

(** [timer_print_config] and [timer_print_elapsed_time]. *)
Inductive output : Type :=
| Config (timer : Z) (field : timer_status_field) (value : timer_status_field_val)
| Elapsed.

(** ** The statics of [timer.c] *)
Record lab2 (D : Type) : Type := mk_lab2 {
  l2_hw : hw D;
  subscribe_result : Z;
  timeCounter : Z;
  shown : list output;
}.
Arguments mk_lab2 {D}.
Arguments l2_hw {D}.
Arguments subscribe_result {D}.
Arguments timeCounter {D}.
Arguments shown {D}.
#[global] Instance eta_lab2 {D} : Eta (lab2 D) := fun s =>
  mk_lab2 (l2_hw s) (subscribe_result s) (timeCounter s) (shown s).

Section Lab2.
Context {D : Type} `{!Device D}.
Abbreviation L := (lab2 D).

Definition l2_on_hw {A} (m : prog (hw D) A) : prog L A := zoom l2_hw (fun h s => s <| l2_hw := h |>) m.
Definition show (o : output) : prog L unit := modify (fun s => s <| shown ::= (fun l => l ++ [o]) |>).

(** ** The driver *)

(** [timer_get_conf(timer, &st)]: the error code and what [*st] holds. *)
Definition timer_get_conf (timer st : Z) : prog (hw D) (Z * Z) :=
  if (timer <? 0) || (2 <? timer) then ret (1, st) else
  let timerAddress := TIMER_ADDR_SEL timer in
  let controlWord := u8 (Z.lor (Z.lor TIMER_RB_CMD (TIMER_RB_SEL timer)) TIMER_RB_COUNT_) in
  err <- sys_outb TIMER_CTRL controlWord ;;
  if negb (err =? OK) then ret (1, st) else
  '(err, st) <- util_sys_inb timerAddress st ;;
  if negb (err =? OK) then ret (1, st) else ret (OK, st).

Definition timer_set_frequency (timer freq : Z) : prog (hw D) Z :=
  if (timer <? 0) || (2 <? timer) then ret 1 else
  if freq <? 19 then ret 1 else
  status_byte <- uninit_byte ;;
  let port := TIMER_ADDR_SEL timer in
  let init_value := u16 (TIMER_FREQ / freq) in
  let lsb_init_value := util_get_LSB init_value in
  let msb_init_value := util_get_MSB init_value in
  '(_, status_byte) <- timer_get_conf timer status_byte ;;
  let status_byte := Z.land status_byte STATUS_CONFIG in
  let control_word := u8 (Z.lor (Z.lor status_byte TIMER_LSB_MSB) (TIMER_CMD_SEL timer)) in
  err <- sys_outb TIMER_CTRL control_word ;;
  if negb (err =? OK) then ret EINVAL else
  err <- sys_outb port lsb_init_value ;;
  if negb (err =? OK) then ret EINVAL else
  err <- sys_outb port msb_init_value ;;
  if negb (err =? OK) then ret EINVAL else ret OK.

(** The value [timer_display_conf] prints. *)
Definition display_value (st : Z) (field : timer_status_field) : timer_status_field_val :=
  match field with
  | tsf_all => val_byte st
  | tsf_initial =>
      val_in_mode
        (if Z.land st TIMER_LSB =? TIMER_LSB then LSB_only
         else if Z.land st TIMER_MSB =? TIMER_MSB then MSB_only
         else if Z.land st (Z.lor TIMER_LSB TIMER_MSB) =? Z.lor TIMER_LSB TIMER_MSB then MSB_after_LSB
         else INVAL_val)
  | tsf_mode => val_count_mode (PROGGRAMED_MODE st)
  | tsf_base => val_bcd (Z.land st BCD_BIT =? BCD_BIT)
  end.
Definition timer_display_conf (timer st : Z) (field : timer_status_field) : prog L Z :=
  if (timer <? 0) || (2 <? timer) then ret 1 else
  show (Config timer field (display_value st field)) ;;;
  ret OK.

(** [timer_subscribe_int(&bit_no)]: the result; [*bit_no] is only read. *)
Definition timer_subscribe_int (bit_no : Z) : prog L Z :=
  modify (fun s => s <| subscribe_result := bit_no |>) ;;;
  '(err, hook) <- l2_on_hw (sys_irqsetpolicy TIMER0_IRQ IRQ_REENABLE bit_no) ;;
  modify (fun s => s <| subscribe_result := hook |>) ;;;
  ret err.
Definition timer_unsubscribe_int : prog L Z :=
  hook <- gets subscribe_result ;; l2_on_hw (sys_irqrmpolicy hook).
Definition timer_int_handler : prog L unit :=
  t <- gets timeCounter ;;
  t <- defined (add_int32 t 1) ;;
  modify (fun s => s <| timeCounter := t |>).

(** ** The tests *)
Definition timer_test_read_config (timer : Z) (field : timer_status_field) : prog L Z :=
  '(err, statusByte) <- l2_on_hw (timer_get_conf timer 0) ;;
  if negb (err =? 0) then ret 1 else
  _ <- timer_display_conf timer statusByte field ;;
  ret 0.

Definition timer_test_time_base (timer freq : Z) : prog (hw D) Z := timer_set_frequency timer freq.

(** The interrupts of one message. *)
Definition timer_notification (irq_set mask : Z) (x : unit) : prog L unit :=
  if has_bits mask irq_set then
    timer_int_handler ;;;
    t <- gets timeCounter ;;
    if Z.rem t 60 =? 0 then show Elapsed else ret tt
  else ret tt.

(** [timer_test_int(time)]; [None]: still waiting. *)
Definition timer_test_int (time : Z) (msgs : list arrival) : prog L (option Z) :=
  let bit_no := 0 in
  let irq_set := BIT bit_no in
  err <- timer_subscribe_int bit_no ;;
  if negb (err =? OK) then ret (Some err) else
  e <- receive_loop Carries_on (fun _ => t <- gets timeCounter ;; ret (t <? time * 60)) (timer_notification irq_set) tt msgs ;;
  match e with
  | Waiting => ret None
  | _ => _ <- timer_unsubscribe_int ;; ret (Some OK)
  end.
End Lab2.

(** ** What is printed of the configuration

    The project's driver hands the same field to the library, with the access
    mode taken from its two bits. *)
#[global] Instance status_field_eq_dec : EqDecision timer_status_field.
Proof. solve_decision. Defined.

Lemma display_access_mode st : 0 <= st < 256 ->
  display_value st tsf_initial =
  if Z.land st TIMER_LSB_MSB =? TIMER_LSB_MSB then val_in_mode LSB_only else Timer.timer_display_conf st tsf_initial.
Proof.
  set (mode := if Z.land st TIMER_LSB =? TIMER_LSB then LSB_only else if Z.land st TIMER_MSB =? TIMER_MSB then MSB_only
    else if Z.land st TIMER_LSB_MSB =? TIMER_LSB_MSB then MSB_after_LSB else INVAL_val).
  intros Hst. assert ((mode =? if Z.land st TIMER_LSB_MSB =? TIMER_LSB_MSB then LSB_only
    else Z.shiftr (Z.land st TIMER_LSB_MSB) TIMER_INIT_BIT) = true) as E%Z.eqb_eq.
  { subst mode. revert st Hst. apply forall_byte. by vm_compute. }
  change (display_value st tsf_initial) with (val_in_mode mode). rewrite E. by destruct (Z.land st TIMER_LSB_MSB =? TIMER_LSB_MSB).
Qed.
Lemma display_others st field : 0 <= st < 256 -> field <> tsf_initial ->
  display_value st field = Timer.timer_display_conf st field.
Proof.
  intros Hst Hf. destruct field; [reflexivity|done|reflexivity|]. cbn. f_equal. apply eqb_prop. revert st Hst.
  apply (forall_byte (fun st => eqb (Z.land st BCD_BIT =? BCD_BIT) (has_bits st BCD_BIT))). by vm_compute.
Qed.

Section Lab2Proofs.
Context {D : Type} `{!Device D}.
Abbreviation L := (lab2 D).
Implicit Types s : L.

(** What [timer_test_read_config] prints.  It returns an error and prints
    nothing when the read-back command or the read fails; otherwise it
    prints the field of the status byte that the device returned, decoded as
    the project's driver decodes it, with one exception: a counter programmed
    for both bytes, low then high, is reported as low byte only, so
    [MSB_after_LSB] is never printed. *)
Lemma read_config_prints timer field s : 0 <= timer <= 2 ->
  wp (timer_test_read_config timer field) (fun r s' =>
    r = 1 /\ shown s' = shown s \/
    r = 0 /\ exists st v, trace (l2_hw s') = trace (l2_hw s) ++
        [Out TIMER_CTRL (224 + 2 ^ (timer + 1)) 0; In (TIMER_0 + timer) 0 v] /\ st = u8 v /\
      shown s' = shown s ++ [Config timer field
        (if bool_decide (field = tsf_initial) && (Z.land st TIMER_LSB_MSB =? TIMER_LSB_MSB)
         then val_in_mode LSB_only else Timer.timer_display_conf st field)]) s.
Proof.
  intros Ht. unfold timer_test_read_config, l2_on_hw, timer_get_conf. wp_step. wp_step.
  destruct (Z.ltb_spec timer 0), (Z.ltb_spec 2 timer); try lia; cbn [orb]. cbv zeta.
  replace (u8 _) with (224 + 2 ^ (timer + 1)) by (assert (timer = 0 \/ timer = 1 \/ timer = 2) as [-> | [-> | ->]] by lia; done).
  repeat hw_step; try (by left).
  cbn [negb Z.eqb OK]. unfold timer_display_conf. destruct (Z.ltb_spec timer 0), (Z.ltb_spec 2 timer); try lia; cbn [orb].
  unfold show. wp_steps. right. split; [done|]. exists (u8 v), v. cbn. rewrite <- app_assoc. split; [done|]. split; [done|].
  do 3 f_equal. destruct (decide (field = tsf_initial)) as [->|Hf].
  - cbn [andb]. by apply display_access_mode.
  - rewrite bool_decide_false by done. by apply display_others.
Qed.

(** ** The timer interrupt test *)

(** The messages with an interrupt of the timer, stale ones after a failed
    receive included. *)
Definition timer_ticks (msgs : list arrival) : Z :=
  alen (filter (fun m => has_bits (default 0 (notified m)) (BIT 0)) msgs).

(** Every sixtieth tick from [t] to [t'] is shown. *)
Definition sixties (t t' : Z) : list output := replicate (Z.to_nat (t' / 60 - t / 60)) Elapsed.
Lemma sixties_snoc t t' : 0 <= t <= t' ->
  sixties t (t' + 1) = sixties t t' ++ if Z.rem (t' + 1) 60 =? 0 then [Elapsed] else [].
Proof.
  intros Ht. unfold sixties. rewrite Z.rem_mod_nonneg by lia. pose proof (Z.div_le_mono t t' 60).
  destruct (Z.eqb_spec ((t' + 1) mod 60) 0) as [E|E].
  - rewrite <- replicate_S_end. f_equal. assert ((t' + 1) / 60 = t' / 60 + 1) as ->; [|lia].
    pose proof (Z.div_mod (t' + 1) 60). pose proof (Z.div_mod t' 60). pose proof (Z.mod_pos_bound t' 60). lia.
  - rewrite app_nil_r. do 2 f_equal. assert ((t' + 1) / 60 = t' / 60) as ->; [|lia].
    pose proof (Z.div_mod (t' + 1) 60). pose proof (Z.div_mod t' 60). pose proof (Z.mod_pos_bound t' 60).
    pose proof (Z.mod_pos_bound (t' + 1) 60). lia.
Qed.

Lemma ticks_cons m msgs : timer_ticks (m :: msgs) = (if has_bits (default 0 (notified m)) (BIT 0) then 1 else 0) + timer_ticks msgs.
Proof.
  unfold timer_ticks, alen. rewrite filter_cons. case_decide as E.
  - rewrite Is_true_true in E. rewrite E. cbn [length]. lia.
  - destruct (has_bits _ _) eqn:E2; [|lia]. by destruct E.
Qed.

(** The loop, when [n] more interrupts are to come. *)
Definition counting (time n : Z) s0 (msgs : list arrival) s : Prop :=
  0 <= timeCounter s <= 60 * time /\ shown s = shown s0 ++ sixties 0 (timeCounter s) /\
  Z.min (timeCounter s + timer_ticks msgs) (60 * time) = Z.min n (60 * time).
Lemma notification_counts time n s0 m mask msgs s : notified m = Some mask -> 0 <= time < 256 ->
  counting time n s0 (m :: msgs) s -> timeCounter s < 60 * time ->
  wp (timer_notification (BIT 0) mask tt) (fun _ => counting time n s0 msgs) s.
Proof.
  intros Hm Htime (Ht & Hs & Hn) Hlt. rewrite ticks_cons, Hm in Hn. change (default 0 (Some mask)) with mask in Hn. unfold timer_notification.
  destruct (has_bits mask (BIT 0)); [|wp_step; split; [done|split; [done|lia]]].
  unfold timer_int_handler. wp_steps. unfold add_int32.
  destruct (Z.leb_spec INT_MIN (timeCounter s + 1)), (Z.leb_spec (timeCounter s + 1) INT_MAX); unfold INT_MIN, INT_MAX in *; try lia.
  cbn [andb defined]. wp_steps. cbn [timeCounter set set_with]. pose proof (sixties_snoc 0 (timeCounter s) ltac:(lia)) as E.
  destruct (Z.rem _ 60 =? 0); unfold show; wp_steps; (split; [cbn; lia|]; split; [|cbn; lia]);
    cbn; rewrite E, Hs, ?app_nil_r, ?app_assoc; done.
Qed.

(** C40: [timer_test_int(time)] after the start of the program.  When the
    subscription fails its error is returned and nothing is shown.
    Otherwise, whatever the messages and failures of [driver_receive], the
    loop counts the interrupts of the timer up to [60 * time] and not one
    more, and shows the elapsed time once for each sixty of them; it returns
    exactly if [60 * time] interrupts came, having unsubscribed, and then it
    has shown [time] seconds; before that it waits. *)
Theorem timer_session time msgs s : 0 <= time < 256 -> timeCounter s = 0 ->
  wp (timer_test_int time msgs) (fun r s' =>
    (exists err, r = Some err /\ err <> OK /\ shown s' = shown s /\ timeCounter s' = 0) \/
    (timeCounter s' = Z.min (timer_ticks msgs) (60 * time) /\
     shown s' = shown s ++ replicate (Z.to_nat (timeCounter s' / 60)) Elapsed /\
     if timer_ticks msgs <? 60 * time then r = None
     else r = Some OK /\ exists t hook err, trace (l2_hw s') = t ++ [IrqRmPolicy hook err])) s.
Proof.
  intros Htime H0. unfold timer_test_int, timer_subscribe_int, l2_on_hw. do 3 wp_step. wp_step. wp_step.
  apply wp_sys_irqsetpolicy. intros err hook d. wp_steps. cbn beta iota. destruct (Z.eqb_spec err OK) as [->|He]; cbn [negb].
  2: { wp_step. left. by exists err. }
  wp_step. apply (wp_receive_loop _ _ _ (fun _ msgs' s' => counting time (timer_ticks msgs) s msgs' s')).
  - intros [] msgs' s1 Hc. wp_steps. pose proof Hc as (Ht & Hs & Hn).
    destruct (Z.ltb_spec (timeCounter s1) (time * 60)) as [Hlt|Hge]; cbn [negb].
    + destruct msgs' as [|m msgs'].
      { wp_step. right. assert (timer_ticks [] = 0) as E0 by reflexivity. rewrite E0 in Hn. split; [lia|]. split; [by rewrite Hs; unfold sixties; rewrite Z.sub_0_r|].
        destruct (Z.ltb_spec (timer_ticks msgs) (60 * time)); [done|lia]. }
      assert (match notified m with
        | Some mask => wp (timer_notification (BIT 0) mask tt) (fun _ s' => counting time (timer_ticks msgs) s msgs' s') s1
        | None => counting time (timer_ticks msgs) s msgs' s1 end) as H; [|by destruct m].
      destruct (notified m) as [mask|] eqn:Hm; [apply (notification_counts _ _ _ m); (done || lia)|].
      rewrite ticks_cons, Hm in Hn. assert (has_bits (default 0 (@None Z)) (BIT 0) = false) as E0 by reflexivity. rewrite E0 in Hn. split; [done|]. split; [done|lia].
    + unfold timer_unsubscribe_int, l2_on_hw. repeat wp_step. apply wp_sys_irqrmpolicy. intros err2 d2. wp_steps. right.
      pose proof (Nat2Z.is_nonneg (length (filter (fun m => has_bits (default 0 (notified m)) (BIT 0)) msgs'))).
      unfold timer_ticks, alen in *. cbn. split; [lia|]. split; [by rewrite Hs; unfold sixties; rewrite Z.sub_0_r|].
      destruct (Z.ltb_spec (Z.of_nat (length (filter (fun m => has_bits (default 0 (notified m)) (BIT 0)) msgs))) (60 * time)); [lia|].
      split; [done|]. by eexists _, _, _.
  - split; [cbn; lia|]. cbn. rewrite H0. split; [|lia]. by rewrite app_nil_r.
Qed.
End Lab2Proofs.

(** A device that answers every call, and sixty-one ticks among other things. *)
Definition minute : list arrival := NotReceived 1 (Some 1) :: Unrelated :: replicate 60 (Interrupts (BIT 0 + BIT 3)).
Definition lab2_start (rs : list (Z * Z)) : lab2 script := mk_lab2 (scripted rs) 0 0 [].
Lemma timer_session_witness :
  wp (timer_test_int 1 minute) (fun r s' => r = Some OK /\ shown s' = [Elapsed]) (lab2_start []).
Proof.
  pose proof (timer_session 1 minute (lab2_start []) ltac:(lia) eq_refl) as H.
  apply (proj1 (wp_Done _ _ _)) in H as (r & s' & E & H). apply (proj2 (wp_Done _ _ _)). exists r, s'. split; [exact E|].
  destruct H as [(err & -> & He & _)|(Ht & Hs & Hr)].
  - exfalso. vm_compute in E. by injection E as <- _.
  - change (timer_ticks minute <? 60 * 1) with false in Hr. destruct Hr as [-> _]. split; [reflexivity|]. rewrite Hs, Ht. reflexivity.
Defined.
(** Counter 0 with both bytes, mode 3: the library is handed low byte only. *)
Lemma read_config_prints_at :
  wp (timer_test_read_config 0 tsf_initial) (fun r s' => shown s' = [Config 0 tsf_initial (val_in_mode LSB_only)])
    (lab2_start [(0, 0x36)]).
Proof.
  pose proof (read_config_prints 0 tsf_initial (lab2_start [(0, 0x36)]) ltac:(lia)) as H.
  apply (proj1 (wp_Done _ _ _)) in H as (r & s' & E & H). apply (proj2 (wp_Done _ _ _)). exists r, s'. split; [exact E|].
  destruct H as [[-> _]|(-> & st & v & Ht & -> & Hs)].
  - exfalso. vm_compute in E. discriminate.
  - rewrite Hs. assert (v = 0x36) as ->; [|reflexivity]. vm_compute in E. injection E as <-. vm_compute in Ht. by injection Ht as <-.
Defined.
