(* ===== verification/Lab3.v ===== *)
(** * Lab3

    The third exercise, a program of its own: its driver of the keyboard,
    [src/lab3/keyboard.c] (with the reads counted in [src/lab3/utils.c]), and
    its tests, [src/lab3/lab3.c].  What a test prints through the course's
    library is the list [printed]. *)

From S2P Require Import Prelude Hardware Timer Kbc Controls Labs.

(** ** Constants of [i8042.h] *)
Definition KBC_IRQ : Z := 1.
Definition KBC_TEMPHOOKID : Z := 0x1f.
Definition KBC_STAT_REG : Z := 0x64.
Definition WAIT_KBC : Z := 20000.
Definition KBC_READ_CMD : Z := 0x20.
Definition KBC_ESC_CODE : Z := 0x81.
Definition KBC_CMDB_INT : Z := BIT 0.
Definition STATUS_ERR : Z := 100.
Definition KBC_TRIES_TIMEOUT : Z := 101.

(** [kbd_print_scancode] and [kbd_print_no_sysinb]. *)
Inductive output : Type := Scancode (make : bool) (bytes : list Z) | SysInb (cnt : Z).

(** ** The statics of [keyboard.c], [timer.c] and [lab3.c] *)
Record lab3 (D : Type) : Type := mk_lab3 {
  l3_hw : hw D;
  kb_subscribe_result : ptr Z;
  lastKeyCode : Z;
  sys_IN_CALLS : Z;
  timer_subscription : Z;
  timeCounter : Z;
  printed : list output;
  l3_mallocs : list bool;
}.
Arguments mk_lab3 {D}.
Arguments l3_hw {D}.
Arguments kb_subscribe_result {D}.
Arguments lastKeyCode {D}.
Arguments sys_IN_CALLS {D}.
Arguments timer_subscription {D}.
Arguments timeCounter {D}.
Arguments printed {D}.
Arguments l3_mallocs {D}.
#[global] Instance eta_lab3 {D} : Eta (lab3 D) := fun s =>
  mk_lab3 (l3_hw s) (kb_subscribe_result s) (lastKeyCode s) (sys_IN_CALLS s) (timer_subscription s) (timeCounter s)
    (printed s) (l3_mallocs s).

Section Lab3.
Context {D : Type} `{!Device D}.
Abbreviation L := (lab3 D).

Definition l3_on_hw {A} (m : prog (hw D) A) : prog L A := zoom l3_hw (fun h s => s <| l3_hw := h |>) m.
Definition print (o : output) : prog L unit := modify (fun s => s <| printed ::= (fun l => l ++ [o]) |>).
(** [malloc], and a write through what it returns. *)
Definition malloc_used : prog L unit := fun s =>
  match l3_mallocs s with
  | false :: _ => Undef
  | _ => Done (tt, s <| l3_mallocs ::= tail |>)
  end.

(** [util_sys_inb], compiled with [LAB3]. *)
Definition util_sys_inb (port value : Z) : prog L (Z * Z) :=
  modify (fun s => s <| sys_IN_CALLS ::= (fun n => u32 (n + 1)) |>) ;;;
  l3_on_hw (Hardware.util_sys_inb port value).

(** ** The driver *)
Definition kbc_subscribe_int (bit_no : Z) : prog L Z :=
  malloc_used ;;;
  modify (fun s => s <| kb_subscribe_result := Live bit_no |>) ;;;
  '(err, hook) <- l3_on_hw (sys_irqsetpolicy KBC_IRQ (Z.lor IRQ_REENABLE IRQ_EXCLUSIVE) bit_no) ;;
  modify (fun s => s <| kb_subscribe_result := Live hook |>) ;;;
  ret err.
Definition kbc_unsubscribe_int : prog L Z :=
  p <- gets kb_subscribe_result ;;
  hook <- defined (deref p) ;;
  err <- l3_on_hw (sys_irqrmpolicy hook) ;;
  if negb (err =? OK) then ret err else
  modify (fun s => s <| kb_subscribe_result := Null |>) ;;;
  ret OK.

(** [check_kbc_status(mask, &checkBuffer)]: the result and what
    [*checkBuffer] holds afterwards. *)
Definition check_kbc_status (mask : Z) (checkBuffer : bool) : prog L (Z * bool) :=
  '(err, sb) <- util_sys_inb KBC_STAT_REG 0 ;;
  if negb (err =? 0) then ret (err, checkBuffer) else
  ret (if Z.land sb mask =? OK then OK else STATUS_ERR,
       if checkBuffer then has_bits sb KBC_OUT_BUFFER_FULL else false).

(** An automatic [bool] before its first assignment.  Its address is passed to
    [check_kbc_status], which reads it: an indeterminate value, which on this
    machine is the byte the stack holds, taken as true when it is not 0. *)
Definition uninit_bool : prog (hw D) bool := b <- uninit_byte ;; ret (negb (b =? 0)).

Definition kbc_ih : prog L unit :=
  let mask := Z.lor (Z.lor KBC_PARITY_ERR KBC_TIMEOUT_ERR) KBC_AUX in
  checkOutBuff <- l3_on_hw uninit_bool ;;
  '(val, checkOutBuff) <- check_kbc_status mask checkOutBuff ;;
  if (checkOutBuff : bool) then
    keycode <- l3_on_hw uninit_byte ;;
    '(err, keycode) <- util_sys_inb KBC_OUT_BUF keycode ;;
    if (err =? OK) && (val =? OK) then modify (fun s => s <| lastKeyCode := keycode |>) else ret tt
  else ret tt.

(** [keyboard_disable_int(&result)]: the error code and [*result]. *)
Definition keyboard_disable_int (result : Z) : prog L (Z * Z) :=
  p <- gets kb_subscribe_result ;;
  match p with
  | Null =>
      '(err, result) <- l3_on_hw (sys_irqsetpolicy KBC_IRQ IRQ_EXCLUSIVE KBC_TEMPHOOKID) ;;
      if negb (err =? OK) then ret (err, result) else
      err <- l3_on_hw (sys_irqdisable result) ;; ret (err, result)
  | _ => hook <- defined (deref p) ;; err <- l3_on_hw (sys_irqdisable hook) ;; ret (err, result)
  end.
(** [keyboard_enable_int(&result)] *)
Definition keyboard_enable_int (result : Z) : prog L Z :=
  p <- gets kb_subscribe_result ;;
  match p with
  | Null =>
      err <- l3_on_hw (sys_irqenable result) ;;
      if negb (err =? OK) then ret err else l3_on_hw (sys_irqrmpolicy result)
  | _ => hook <- defined (deref p) ;; l3_on_hw (sys_irqenable hook)
  end.

Definition issue_kbc_command (command : Z) : prog L Z :=
  retry KBC_MAX_TRIES
    ('(st, _) <- check_kbc_status KBC_IN_BUFFER_FULL false ;;
     if st =? OK then err <- l3_on_hw (sys_outb KBC_IN_BUF command) ;; ret (Some err)
     else l3_on_hw (delay WAIT_KBC) ;;; ret None) KBC_TRIES_TIMEOUT.
(** [read_kbc_return(&value)]: the result and [*value]. *)
Definition read_kbc_return (value : Z) : prog L (Z * Z) :=
  retry KBC_MAX_TRIES
    ('(st, output_buf) <- check_kbc_status (Z.lor KBC_PARITY_ERR KBC_TIMEOUT_ERR) true ;;
     if (st =? OK) && output_buf then r <- util_sys_inb KBC_OUT_BUF value ;; ret (Some r)
     else l3_on_hw (delay WAIT_KBC) ;;; ret None) (KBC_TRIES_TIMEOUT, value).
Definition write_kbc_command_byte (command_byte : Z) : prog L Z :=
  err <- issue_kbc_command KBC_WRITE_CMD ;;
  if negb (err =? OK) then ret err else l3_on_hw (sys_outb KBC_OUT_BUF command_byte).
Definition read_kbc_command_byte (command_byte : Z) : prog L (Z * Z) :=
  '(_, sub_result) <- keyboard_disable_int 0 ;;
  err <- issue_kbc_command KBC_READ_CMD ;;
  if negb (err =? OK) then ret (err, command_byte) else
  _ <- keyboard_enable_int sub_result ;;
  read_kbc_return command_byte.

(** *** The timer of [timer.c] *)

(** [timer_subscribe_int(&bit_no)]: the result and [*bit_no]. *)
Definition timer_subscribe_int : prog L (Z * Z) :=
  modify (fun s => s <| timer_subscription := TIMER0_IRQ |>) ;;;
  '(err, hook) <- l3_on_hw (sys_irqsetpolicy TIMER0_IRQ IRQ_REENABLE TIMER0_IRQ) ;;
  modify (fun s => s <| timer_subscription := hook |>) ;;;
  ret (err, TIMER0_IRQ).
Definition timer_unsubscribe_int : prog L Z :=
  hook <- gets timer_subscription ;; l3_on_hw (sys_irqrmpolicy hook).
Definition timer_int_handler : prog L unit :=
  t <- gets timeCounter ;;
  t <- defined (add_int32 t 1) ;;
  modify (fun s => s <| timeCounter := t |>).

(** ** The tests *)

(** The byte read last, after [lastDoubleByte]; the bytes of the code are an
    array of the stack, or ([alloc]) of the heap. *)
Definition print_code (alloc : prog L unit) (lastDoubleByte : bool) : prog L bool :=
  code <- gets lastKeyCode ;;
  if code =? KBC_DOUBLE_BYTE then ret true else
  let make := negb (has_bits code KBC_BREAK_CODE) in
  alloc ;;;
  print (Scancode make (if lastDoubleByte then [KBC_DOUBLE_BYTE; code] else [code])) ;;;
  ret false.

Definition scan_interrupt (irq_set mask : Z) (lastDoubleByte : bool) : prog L bool :=
  if has_bits mask irq_set then kbc_ih ;;; print_code (ret tt) lastDoubleByte else ret lastDoubleByte.
Definition no_escape (lastDoubleByte : bool) : prog L bool :=
  code <- gets lastKeyCode ;; ret (negb (code =? KBC_ESC_CODE)).

(** [kbd_test_scan()]; [None]: still waiting. *)
Definition kbd_test_scan (msgs : list arrival) : prog L (option Z) :=
  modify (fun s => s <| sys_IN_CALLS := 0 |>) ;;;
  let bit_no := KBC_IRQ in
  let irq_set := u8 (BIT bit_no) in
  err <- kbc_subscribe_int bit_no ;;
  if negb (err =? OK) then ret (Some err) else
  e <- receive_loop Carries_on no_escape (scan_interrupt irq_set) false msgs ;;
  match e with
  | Waiting => ret None
  | _ =>
      _ <- kbc_unsubscribe_int ;;
      n <- gets sys_IN_CALLS ;;
      print (SysInb n) ;;;
      ret (Some OK)
  end.

(** [kbd_test_poll()]; [fuel] bounds the rounds. *)
Definition poll_round (lastDoubleByte : bool) : prog L (bool + unit) :=
  go <- no_escape lastDoubleByte ;;
  if negb go then ret (inr tt) else
  '(err, output_buf) <- check_kbc_status KBC_AUX true ;;
  lastDoubleByte <- (if (err =? OK) && output_buf then kbc_ih ;;; print_code malloc_used lastDoubleByte
                     else ret lastDoubleByte) ;;
  l3_on_hw (delay WAIT_KBC) ;;;
  ret (inl lastDoubleByte).
Definition kbd_test_poll (fuel : nat) : prog L Z :=
  modify (fun s => s <| sys_IN_CALLS := 0 |>) ;;;
  iterate fuel poll_round false ;;;
  '(err, command_byte) <- read_kbc_command_byte 0 ;;
  if negb (err =? OK) then ret err else
  let command_byte := Z.lor command_byte KBC_CMDB_INT in
  n <- gets sys_IN_CALLS ;;
  print (SysInb n) ;;;
  write_kbc_command_byte command_byte.

(** [kbd_test_timed_scan(n)] *)
Definition timed_interrupt (irq_set_kbd irq_set_timer mask : Z) (lastDoubleByte : bool) : prog L bool :=
  lastDoubleByte <- (if has_bits mask irq_set_kbd then
      modify (fun s => s <| timeCounter := 0 |>) ;;;
      kbc_ih ;;;
      print_code (ret tt) lastDoubleByte
    else ret lastDoubleByte) ;;
  (if has_bits mask irq_set_timer then timer_int_handler else ret tt) ;;;
  ret lastDoubleByte.
Definition kbd_test_timed_scan (n : Z) (msgs : list arrival) : prog L (option Z) :=
  '(_, bit_no_t) <- timer_subscribe_int ;;
  _ <- kbc_subscribe_int KBC_IRQ ;;
  let irq_set_timer := BIT bit_no_t in
  let irq_set_kbd := BIT KBC_IRQ in
  e <- receive_loop Carries_on
         (fun x => go <- no_escape x ;; t <- gets timeCounter ;; ret (go && (t <? n * 60)))
         (timed_interrupt irq_set_kbd irq_set_timer) false msgs ;;
  match e with
  | Waiting => ret None
  | _ => _ <- timer_unsubscribe_int ;; _ <- kbc_unsubscribe_int ;; ret (Some OK)
  end.
End Lab3.

(** ** The codes of a keyboard

    One byte, or two when the first is the prefix. *)
Definition is_code (c : list Z) : bool :=
  match c with
  | [b] => (0 <=? b) && (b <? 256) && negb (b =? KBC_DOUBLE_BYTE)
  | [p; b] => (p =? KBC_DOUBLE_BYTE) && (0 <=? b) && (b <? 256) && negb (b =? KBC_DOUBLE_BYTE)
  | _ => false
  end.
Definition ends_esc (c : list Z) : bool := bool_decide (last c = Some KBC_ESC_CODE).
(** The codes up to the first that ends the test. *)
Fixpoint until_esc (cs : list (list Z)) : list (list Z) :=
  match cs with
  | [] => []
  | c :: cs => c :: if ends_esc c then [] else until_esc cs
  end.
(** A code as it should be printed: a make code has bit 7 of its last byte clear. *)
Definition shown_code (c : list Z) : output := Scancode (negb (has_bits (default 0 (last c)) (BIT 7))) c.

Section Session.
Context {D : Type} `{!Device D}.
Abbreviation L := (lab3 D).
Implicit Types s : L.

(** What the stack holds where [checkOutBuff] is. *)
Variable junk : Z.
Hypothesis Hstack : forall d : D, u8 (dev_garbage d) = junk.

(** At every interrupt the controller has the next byte of [bs]. *)
Fixpoint types (bs : list Z) (d : D) : Prop :=
  match bs with
  | [] => True
  | b :: bs => exists st d1 d2,
      dev_inb KBC_STAT_REG d = ((0, st), d1) /\
      Z.land (u8 st) (Z.lor (Z.lor KBC_PARITY_ERR KBC_TIMEOUT_ERR) KBC_AUX) = 0 /\
      has_bits (u8 st) KBC_OUT_BUFFER_FULL = true /\ dev_inb KBC_OUT_BUF d1 = ((0, b), d2) /\ types bs d2
  end.

(** If the stack holds a zero, the handler never reads the byte. *)
Definition unread s s' : Prop := lastKeyCode s' = lastKeyCode s /\ printed s' = printed s.
Lemma scan_ih_unread s : junk = 0 -> wp kbc_ih (fun _ s' => unread s s') s.
Proof.
  intros Hg. unfold kbc_ih. wp_step. unfold l3_on_hw at 1, uninit_bool. wp_steps. unfold uninit_byte at 1. wp_steps. cbn.
  rewrite Hstack, Hg. cbn [negb Z.eqb]. unfold check_kbc_status, util_sys_inb, l3_on_hw, Hardware.util_sys_inb. wp_steps.
  apply wp_sys_inb. intros err v d. destruct (negb (err =? 0)); wp_steps; [|cbn [negb Z.eqb]; wp_steps]; by split.
Qed.
(** Every interrupt looks at the old code again, and prints it if it is 0. *)
Lemma unread_interrupt p s : junk = 0 ->
  wp (scan_interrupt (u8 (BIT KBC_IRQ)) (BIT 1) p) (fun p' s' => lastKeyCode s' = lastKeyCode s /\
    (lastKeyCode s = 0 -> p = false -> p' = false /\ printed s' = printed s ++ [Scancode true [0]])) s.
Proof.
  intros Hg. unfold scan_interrupt. change (has_bits (BIT 1) (u8 (BIT KBC_IRQ))) with true. cbn beta iota. wp_step.
  eapply wp_mono; [by apply scan_ih_unread|]. intros [] s1 [Hc Hp]. unfold print_code. wp_steps. rewrite Hc.
  destruct (Z.eqb_spec (lastKeyCode s) KBC_DOUBLE_BYTE) as [E|E].
  - wp_steps. split; [done|]. intros E0. by rewrite E0 in E.
  - unfold print. wp_steps. split; [done|]. intros E0 ->. cbn. by rewrite E0, Hp.
Qed.
Lemma unread_session n s : junk = 0 -> lastKeyCode s <> KBC_ESC_CODE ->
  wp (receive_loop Carries_on no_escape (scan_interrupt (u8 (BIT KBC_IRQ))) false (replicate n (Interrupts (BIT 1))))
    (fun e s' => e = Waiting /\ (lastKeyCode s = 0 -> printed s' = printed s ++ replicate n (Scancode true [0]))) s.
Proof.
  intros Hg Hesc. apply (wp_receive_loop _ _ _ (fun p msgs s' => exists k, msgs = replicate k (Interrupts (BIT 1)) /\
    lastKeyCode s' = lastKeyCode s /\ (lastKeyCode s = 0 -> p = false /\
      printed s' ++ replicate k (Scancode true [0]) = printed s ++ replicate n (Scancode true [0])))).
  - intros p msgs s1 (k & -> & Hc & Hp). unfold no_escape. wp_steps. rewrite Hc.
    destruct (Z.eqb_spec (lastKeyCode s) KBC_ESC_CODE); [done|]. cbn [negb]. destruct k as [|k]; cbn [replicate].
    + split; [done|]. intros E0. destruct (Hp E0) as [_ H]. by rewrite app_nil_r in H.
    + cbn [notified]. eapply wp_mono; [by apply unread_interrupt|]. intros p' s2 [Hc2 Hp2]. exists k. split; [done|].
      split; [congruence|]. intros E0. destruct (Hp E0) as [-> H]. destruct Hp2 as [-> H2]; [congruence|done|].
      split; [done|]. rewrite H2, <- app_assoc. exact H.
  - exists n. done.
Qed.

Hypothesis Hset : junk <> 0.
Lemma kbc_ih_byte b bs s (Q : unit -> L -> Prop) : types (b :: bs) (dev (l3_hw s)) -> 0 <= b < 256 ->
  (forall h, types bs (dev h) ->
     Q tt (s <| l3_hw := h |> <| sys_IN_CALLS := u32 (sys_IN_CALLS s + 2) |> <| lastKeyCode := b |>)) ->
  wp kbc_ih Q s.
Proof.
  intros (st & d1 & d2 & E1 & Hst & Hfull & E2 & Hs) Hb HQ. unfold kbc_ih. wp_step.
  unfold l3_on_hw at 1, uninit_bool. wp_steps. unfold uninit_byte at 1. wp_steps. cbn.
  rewrite Hstack. destruct (Z.eqb_spec junk 0); [done|]. cbn [negb].
  unfold check_kbc_status, util_sys_inb, l3_on_hw, Hardware.util_sys_inb. wp_steps.
  unfold wp at 1, sys_inb at 1. cbn. rewrite E1. cbn [negb Z.eqb].
  wp_steps. cbn [negb Z.eqb]. rewrite Hst, Hfull. wp_steps. unfold uninit_byte. wp_steps.
  unfold wp at 1, sys_inb at 1. cbn. rewrite E2. cbn [negb Z.eqb]. wp_steps. cbn. rewrite (wrap_small 8) by lia. wp_steps.
  assert (u32 (u32 (sys_IN_CALLS s + 1) + 1) = u32 (sys_IN_CALLS s + 2)) as E.
  { unfold wrap. rewrite Zplus_mod_idemp_l. f_equal. lia. }
  specialize (HQ (mk_hw d2 ((trace (l3_hw s) ++ [In KBC_STAT_REG 0 st]) ++ [In KBC_OUT_BUF 0 b])) Hs). rewrite <- E in HQ. exact HQ.
Qed.

(** Between two interrupts of the test that began with [n0] reads and the
    output [out0]: [p] is [lastDoubleByte], [cs] the codes still to come, the
    first without its prefix if [p]. *)
Definition rest (p : bool) (cs : list (list Z)) : list Z := (if p then drop 1 else id) (concat cs).
Record typing (all : list (list Z)) (out0 : list output) (p : bool) (cs : list (list Z)) s : Prop := mk_typing {
  ty_codes : Forall is_code cs;
  ty_prefix : p = true -> exists b cs', cs = [KBC_DOUBLE_BYTE; b] :: cs';
  ty_types : types (rest p cs) (dev (l3_hw s));
  ty_last : lastKeyCode s <> KBC_ESC_CODE;
  ty_count : sys_IN_CALLS s + 2 * alen (concat (until_esc cs)) = 2 * alen (concat (until_esc all)) + if p then 2 else 0;
  ty_printed : printed s ++ (shown_code <$> until_esc cs) = out0 ++ (shown_code <$> until_esc all);
  ty_ends : existsb ends_esc cs = existsb ends_esc all;
}.
(** The test has read the code of escape. *)
Record typed (all : list (list Z)) (out0 : list output) s : Prop := mk_typed {
  td_last : lastKeyCode s = KBC_ESC_CODE;
  td_count : sys_IN_CALLS s = 2 * alen (concat (until_esc all));
  td_printed : printed s = out0 ++ (shown_code <$> until_esc all);
  td_ends : existsb ends_esc all = true;
}.

(** The code [c], that ends with [b], is complete. *)
Lemma code_complete all out0 c b cs s h : last c = Some b -> 2 * alen (concat (until_esc all)) < 2 ^ 32 ->
  Forall is_code cs -> types (concat cs) (dev h) -> 0 <= sys_IN_CALLS s ->
  sys_IN_CALLS s + 2 + 2 * alen (concat (if ends_esc c then [] else until_esc cs)) = 2 * alen (concat (until_esc all)) ->
  printed s ++ (shown_code <$> until_esc (c :: cs)) = out0 ++ (shown_code <$> until_esc all) ->
  existsb ends_esc (c :: cs) = existsb ends_esc all ->
  let s' := s <| l3_hw := h |> <| sys_IN_CALLS := u32 (sys_IN_CALLS s + 2) |> <| lastKeyCode := b |>
              <| printed ::= (fun l => l ++ [shown_code c]) |> in
  typing all out0 false cs s' \/ typed all out0 s'.
Proof.
  intros Hb Hmax Hcs Hh H0 Hn Hp He s'. cbn [until_esc existsb] in *.
  assert (0 <= alen (concat (if ends_esc c then [] else until_esc cs))) by apply alen_nonneg.
  assert (u32 (sys_IN_CALLS s + 2) = sys_IN_CALLS s + 2) as Ew by (apply wrap_small; lia).
  unfold ends_esc in *. rewrite Hb in *. case_bool_decide as Eb.
  - injection Eb as ->. right. cbn in Hn, Hp, He. split; cbn.
    + done.
    + rewrite Ew. change (alen []) with 0 in Hn. lia.
    + exact Hp.
    + done.
  - left. cbn in Hn, Hp, He. split; cbn.
    + done.
    + done.
    + done.
    + intros ->. by apply Eb.
    + rewrite Ew. lia.
    + rewrite <- app_assoc. exact Hp.
    + done.
Qed.

(** One interrupt. *)
Definition ongoing all out0 (p : bool) (msgs : list arrival) s : Prop :=
  typed all out0 s \/ exists cs, typing all out0 p cs s /\ msgs = replicate (length (rest p cs)) (Interrupts (BIT 1)) /\ 0 <= sys_IN_CALLS s.

Lemma interrupt_types all out0 p cs b bs s : typing all out0 p cs s -> 2 * alen (concat (until_esc all)) < 2 ^ 32 ->
  0 <= sys_IN_CALLS s -> rest p cs = b :: bs ->
  wp (scan_interrupt (u8 (BIT KBC_IRQ)) (BIT 1) p) (fun p' => ongoing all out0 p' (replicate (length bs) (Interrupts (BIT 1)))) s.
Proof.
  intros [Hcs Hp Hty Hlast Hn Hpr He] Hmax H0 Hr. rewrite Hr in Hty. unfold scan_interrupt.
  change (has_bits (BIT 1) (u8 (BIT KBC_IRQ))) with true. cbn beta iota. wp_step.
  destruct p.
  - destruct (Hp eq_refl) as (b0 & cs' & ->). cbn in Hr. injection Hr as -> <-. apply Forall_cons in Hcs as [Hc Hcs].
    cbn in Hc. apply Is_true_true in Hc. bool_lia.
    eapply kbc_ih_byte; [exact Hty|lia|]. intros h Hh. unfold print_code. wp_steps. cbn [lastKeyCode set set_with].
    destruct (Z.eqb_spec b KBC_DOUBLE_BYTE); [done|]. unfold print. wp_steps.
    assert (ongoing all out0 false (replicate (length (concat cs')) (Interrupts (BIT 1))) (s <| l3_hw := h |>
      <| sys_IN_CALLS := u32 (sys_IN_CALLS s + 2) |> <| lastKeyCode := b |> <| printed ::= (fun l => l ++ [shown_code [KBC_DOUBLE_BYTE; b]]) |>)) as Hgo; [|exact Hgo].
    destruct (code_complete all out0 [KBC_DOUBLE_BYTE; b] b cs' s h eq_refl Hmax Hcs Hh H0) as [Hon|Hon]; [|exact Hpr|exact He|right|by left].
    + cbn [until_esc concat app] in Hn. rewrite !alen_cons in Hn. lia.
    + exists cs'. split; [exact Hon|]. split; [done|]. cbn. apply (wrap_range 32). lia.
  - destruct cs as [|c cs']; [done|]. apply Forall_cons in Hcs as [Hc Hcs]. destruct c as [|c0 [|c1 [|]]]; try done.
    + cbn in Hr. injection Hr as -> <-. cbn in Hc. apply Is_true_true in Hc. bool_lia.
      eapply kbc_ih_byte; [exact Hty|lia|]. intros h Hh. unfold print_code. wp_steps. cbn [lastKeyCode set set_with].
      destruct (Z.eqb_spec b KBC_DOUBLE_BYTE); [done|]. unfold print. wp_steps.
      assert (ongoing all out0 false (replicate (length (concat cs')) (Interrupts (BIT 1))) (s <| l3_hw := h |>
        <| sys_IN_CALLS := u32 (sys_IN_CALLS s + 2) |> <| lastKeyCode := b |> <| printed ::= (fun l => l ++ [shown_code [b]]) |>)) as Hgo; [|exact Hgo].
      destruct (code_complete all out0 [b] b cs' s h eq_refl Hmax Hcs Hh H0) as [Hon|Hon]; [|exact Hpr|exact He|right|by left].
      * cbn [until_esc concat app] in Hn. rewrite !alen_cons in Hn. lia.
      * exists cs'. split; [exact Hon|]. split; [done|]. cbn. apply (wrap_range 32). lia.
    + pose proof Hc as Hc1. cbn in Hr. injection Hr as -> <-. cbn in Hc1. apply Is_true_true in Hc1. bool_lia. subst.
      eapply kbc_ih_byte; [exact Hty|unfold KBC_DOUBLE_BYTE; lia|]. intros h Hh. unfold print_code. wp_steps. cbn [lastKeyCode set set_with].
      rewrite Z.eqb_refl. wp_steps. right. exists ([KBC_DOUBLE_BYTE; c1] :: cs').
      assert (u32 (sys_IN_CALLS s + 2) = sys_IN_CALLS s + 2) as Ew.
      { apply wrap_small. cbn [until_esc concat app] in Hn. rewrite !alen_cons in Hn.
        pose proof (alen_nonneg (concat (if ends_esc [KBC_DOUBLE_BYTE; c1] then [] else until_esc cs'))). lia. }
      split; [|split; [done|cbn; rewrite Ew; lia]]. split; cbn -[until_esc existsb fmap concat]; try done.
      * by constructor.
      * intros _. by eexists _, _.
      * rewrite Ew. lia.
Qed.

Lemma until_esc_all cs : existsb ends_esc cs = false -> until_esc cs = cs.
Proof.
  induction cs as [|c cs IH]; [done|]. cbn. intros [Hc H]%orb_false_iff. by rewrite Hc, IH.
Qed.
Lemma until_esc_fewer cs : alen (concat (until_esc cs)) <= alen (concat cs).
Proof.
  induction cs as [|c cs IH]; [done|]. cbn [until_esc concat]. unfold alen in *. rewrite !length_app.
  destruct (ends_esc c); cbn; lia.
Qed.
Lemma typing_over all out0 p cs s : typing all out0 p cs s -> rest p cs = [] -> p = false /\ cs = [].
Proof.
  intros [Hcs Hp _ _ _ _ _] Hr. destruct p.
  - destruct (Hp eq_refl) as (b & cs' & ->). done.
  - split; [done|]. destruct cs as [|c cs]; [done|]. apply Forall_cons in Hcs as [Hc _]. by destruct c as [|b [|]].
Qed.

(** The keyboard is subscribed. *)
Lemma kbc_subscribed s hook d1 (Q : Z -> L -> Prop) : head (l3_mallocs s) <> Some false ->
  dev_irqsetpolicy KBC_IRQ (Z.lor IRQ_REENABLE IRQ_EXCLUSIVE) KBC_IRQ (dev (l3_hw s)) = ((0, hook), d1) ->
  (forall t, Q OK (s <| l3_mallocs ::= tail |> <| l3_hw := mk_hw d1 t |> <| kb_subscribe_result := Live hook |>)) ->
  wp (kbc_subscribe_int KBC_IRQ) Q s.
Proof.
  intros Hm Hirq HQ. unfold kbc_subscribe_int. wp_step.
  assert (malloc_used s = Done (tt, s <| l3_mallocs ::= tail |>)) as E.
  { unfold malloc_used. destruct (l3_mallocs s) as [|[] ms]; done. }
  eapply wp_Done_eq; [exact E|]. wp_steps. unfold l3_on_hw. wp_steps. unfold wp at 1, sys_irqsetpolicy. cbn.
  rewrite Hirq. cbn. apply HQ.
Qed.
Lemma kbc_unsubscribed s hook (Q : Z -> L -> Prop) : kb_subscribe_result s = Live hook ->
  (forall r h p, Q r (s <| l3_hw := h |> <| kb_subscribe_result := p |>)) -> wp kbc_unsubscribe_int Q s.
Proof.
  intros E HQ. unfold kbc_unsubscribe_int. do 2 wp_step. rewrite E. cbn [deref defined]. do 3 wp_step. unfold l3_on_hw. wp_step.
  apply wp_sys_irqrmpolicy. intros err d. destruct (negb (err =? OK)); wp_steps; [|apply HQ].
  assert (s <| l3_hw := mk_hw d (trace (l3_hw s) ++ [IrqRmPolicy hook err]) |> =
    s <| l3_hw := mk_hw d (trace (l3_hw s) ++ [IrqRmPolicy hook err]) |> <| kb_subscribe_result := kb_subscribe_result s |>) as -> by (by destruct s).
  apply HQ.
Qed.

Lemma on_hw_subscription {A} (m : prog (hw D) A) : keeps kb_subscribe_result (l3_on_hw m).
Proof. by apply keeps_zoom. Qed.
#[local] Hint Resolve on_hw_subscription : framing.
Lemma scan_subscription irq mask p : keeps kb_subscribe_result (scan_interrupt irq mask p).
Proof. unfold scan_interrupt, kbc_ih, print_code, print, check_kbc_status, util_sys_inb. keeps_tac. Qed.

End Session.

(** C37: [kbd_test_scan], when [malloc] succeeds and the subscription of the
    interrupt too and the last code was not that of escape, on a controller
    that has one byte of the codes [codes] at every interrupt (codes of one
    byte and codes of two with the prefix, mixed), for each value [junk] of
    the byte of the stack behind the uninitialised [checkOutBuff]
    (keyboard.c:48), the same at every interrupt.  If it is not 0 (the [bool]
    reads as true), the test prints each code once, in order, with its bytes
    together and as a make code exactly if bit 7 of its last byte is clear, up
    to and with the first code that ends in the break code of escape; then it
    prints that it has read two ports per byte, and returns; without that code
    it waits.  If it is 0, no code is read: the test never ends, and, started
    with the last code 0, prints that code at every interrupt. *)
Theorem scan_session {D} `{!Device D} junk codes (s : lab3 D) hook d1 :
  (forall d : D, u8 (dev_garbage d) = junk) ->
  Forall is_code codes -> 2 * alen (concat codes) < 2 ^ 32 ->
  lastKeyCode s <> KBC_ESC_CODE -> head (l3_mallocs s) <> Some false ->
  dev_irqsetpolicy KBC_IRQ (Z.lor IRQ_REENABLE IRQ_EXCLUSIVE) KBC_IRQ (dev (l3_hw s)) = ((0, hook), d1) ->
  types (concat codes) d1 ->
  wp (kbd_test_scan (replicate (length (concat codes)) (Interrupts (BIT 1)))) (fun r s' =>
    if junk =? 0 then
      r = None /\ (lastKeyCode s = 0 -> printed s' = printed s ++ replicate (length (concat codes)) (Scancode true [0]))
    else if existsb ends_esc codes
    then r = Some OK /\ printed s' = printed s ++ (shown_code <$> until_esc codes) ++ [SysInb (2 * alen (concat (until_esc codes)))]
    else r = None /\ printed s' = printed s ++ (shown_code <$> codes)) s.
Proof.
  intros Hstack Hcs Hmax Hlast Hm Hirq Hty. pose proof (until_esc_fewer codes) as Hfew.
  unfold kbd_test_scan. wp_step. wp_step. cbv zeta. wp_step. eapply kbc_subscribed; [exact Hm|exact Hirq|]. intros t.
  cbn [negb Z.eqb OK]. wp_step.
  set (s0 := s <| sys_IN_CALLS := 0 |> <| l3_mallocs ::= tail |> <| l3_hw := mk_hw d1 t |> <| kb_subscribe_result := Live hook |>).
  destruct (Z.eqb_spec junk 0) as [Ej|Ej].
  { eapply wp_mono; [by apply (unread_session junk Hstack (length (concat codes)) s0 Ej)|]. intros e s1 [-> H]. wp_step. split; [done|]. exact H. }
  apply (wp_receive_loop _ _ _ (fun p msgs s' => ongoing codes (printed s) p msgs s' /\ kb_subscribe_result s' = Live hook)).
  2: { split; [|done]. right. exists codes. split; [|done]. split; [done..| |done|done]. cbn. lia. }
  intros p msgs s1 [Hon Hsub]. unfold no_escape. wp_steps.
  destruct (Z.eqb_spec (lastKeyCode s1) KBC_ESC_CODE) as [E|E]; cbn [negb].
  - destruct Hon as [[_ Hn Hp He]|(cs & Hty1 & _)]; [|by destruct Hty1]. rewrite He. wp_step.
    eapply kbc_unsubscribed; [exact Hsub|]. intros r h q. unfold print. wp_steps. split; [done|].
    cbn. by rewrite Hn, Hp, app_assoc.
  - destruct Hon as [[? _ _ _]|(cs & Hty1 & -> & H0)]; [done|]. destruct (rest p cs) as [|b bs] eqn:Hr; cbn [length replicate].
    + wp_step. destruct (typing_over _ _ _ _ _ Hty1 Hr) as [-> ->]. destruct Hty1 as [_ _ _ _ _ Hp He]. cbn in He.
      rewrite <- He. split; [done|]. cbn in Hp. rewrite app_nil_r in Hp. rewrite Hp. by rewrite until_esc_all.
    + cbn [notified]. eapply wp_mono; [apply (wp_respects _ _ _ _ (interrupt_types junk Hstack Ej codes (printed s) p cs b bs s1 Hty1 ltac:(lia) H0 Hr) (scan_subscription _ _ _))|].
      intros p' s2 [H2 E2]. split; [done|]. unfold same in E2. congruence.
Qed.

(** The keys: left arrow down and up, then escape down and up. *)
Definition typed_keys : list (list Z) := [[0xE0; 0x4B]; [0xE0; 0xCB]; [0x01]; [0x81]].
Definition keyboard_of (bs : list Z) : script := mk_script (bs ≫= fun b => [(0, 0x1D); (0, b)]) [].
Lemma keyboard_types bs : Forall (fun b => 0 <= b < 256) bs -> types bs (keyboard_of bs).
Proof.
  induction bs as [|b bs IH]; intros Hb; [done|]. apply Forall_cons in Hb as [Hb Hbs].
  eexists 0x1D, _, (keyboard_of bs). split; [reflexivity|]. split; [done|]. split; [done|]. split; [reflexivity|]. by apply IH.
Qed.
Definition lab3_start : lab3 script := mk_lab3 (mk_hw (keyboard_of (concat typed_keys)) []) Null 0 0 0 0 [] [].
Lemma scan_session_witness :
  wp (kbd_test_scan (replicate 6 (Interrupts (BIT 1)))) (fun r s' => r = Some OK /\
    printed s' = [Scancode true [0xE0; 0x4B]; Scancode false [0xE0; 0xCB]; Scancode true [0x01]; Scancode false [0x81]; SysInb 12])
    lab3_start.
Proof.
  eapply wp_mono; [apply (scan_session 165 typed_keys lab3_start KBC_IRQ (keyboard_of (concat typed_keys)))|].
  - reflexivity.
  - repeat constructor.
  - reflexivity.
  - discriminate.
  - discriminate.
  - reflexivity.
  - apply keyboard_types. repeat constructor; vm_compute; discriminate.
  - intros r s H. exact H.
Defined.
