(* ===== verification/Gesture.v ===== *)
(** * Gesture

    The mouse gesture of the fourth exercise, [src/lab4/mouse_state.c]: hold
    the left button and draw a line up and to the right, release, hold the
    right button where the line ended and draw a line down and to the right,
    release.  The code keeps sums and a counter; the grammar of the gesture
    ([gesture]) is over the whole history.  The recogniser is shown to refine
    an abstract one whose state is the list of movements since the last
    reset, which is shown sound and complete for the grammar. *)

From S2P Require Import Prelude Doubles Kbc Labs.

(** ** The state machine of [mouse_state.c] *)
Inductive states : Type := INITIAL | DRAW_LEFT | LEFT_DONE | VERTEX | DRAW_RIGHT | RIGHT_DONE | EXIT.
Inductive event_t : Type := RIGHT_DOWN | RIGHT_UP | LEFT_DOWN | LEFT_UP | TOL_FAIL | LINE_C | CONTINUE_DRAW.
#[global] Instance states_eq_dec : EqDecision states.
Proof. solve_decision. Defined.
#[global] Instance event_eq_dec : EqDecision event_t.
Proof. solve_decision. Defined.

Record data : Type := mk_data {
  x_desl : Z;
  y_desl : Z;
  x_tol_sum : Z;
  y_tol_sum : Z;
  lb : bool;
  rb : bool;
}.
#[global] Instance eta_data : Eta data := fun d =>
  mk_data (x_desl d) (y_desl d) (x_tol_sum d) (y_tol_sum d) (lb d) (rb d).

Record deslocation : Type := mk_deslocation { dl_x_desl : Z; dl_y_desl : Z }.

(** The statics of the file. *)
Record mouse_state : Type := mk_mouse_state {
  currData : data;
  currState : states;
  line_start_packet : deslocation;
  packet_count : Z;
}.
#[global] Instance eta_mouse_state : Eta mouse_state := fun s =>
  mk_mouse_state (currData s) (currState s) (line_start_packet s) (packet_count s).

Definition PACKET_SLOPE_COUNT : Z := 20.

(** The statics at the start of the program. *)
Definition zero_mouse_state : mouse_state :=
  mk_mouse_state (mk_data 0 0 0 0 false false) INITIAL (mk_deslocation 0 0) 0.

Definition init_data : prog mouse_state unit :=
  modify (fun s => s <| currData := mk_data 0 0 0 0 false false |>).

Definition reset_data : prog mouse_state unit :=
  modify (fun s => s <| currData ::= (fun d => mk_data 0 0 0 0 (lb d) (rb d)) |>
                     <| line_start_packet := mk_deslocation 0 0 |>
                     <| packet_count := 0 |>).

(** [(double) line_start_packet.y_desl / line_start_packet.x_desl] *)
Definition slope (l : deslocation) : double := ddiv (dint (dl_y_desl l)) (dint (dl_x_desl l)).

(** The movement of a packet, added to both displacements. *)
Definition displace (pkt : packet) : prog mouse_state unit :=
  d <- gets currData ;;
  x <- defined (add_int32 (x_desl d) (pkt_delta_x pkt)) ;;
  y <- defined (add_int32 (y_desl d) (pkt_delta_y pkt)) ;;
  l <- gets line_start_packet ;;
  lx <- defined (add_int32 (dl_x_desl l) (pkt_delta_x pkt)) ;;
  ly <- defined (add_int32 (dl_y_desl l) (pkt_delta_y pkt)) ;;
  modify (fun s => s <| currData ::= (fun d => d <| x_desl := x |> <| y_desl := y |>) |>
                     <| line_start_packet := mk_deslocation lx ly |>).

(** [currData.x_tol_sum += x; currData.y_tol_sum += y] on [uint32_t]s, and
    the comparison with the tolerance. *)
Definition add_tol (x y tol : Z) : prog mouse_state bool :=
  modify (fun s => s <| currData ::= (fun d => d <| x_tol_sum ::= (fun t => u32 (t + u32 x)) |>
                                                <| y_tol_sum ::= (fun t => u32 (t + u32 y)) |>) |>) ;;;
  d <- gets currData ;;
  ret ((tol <? x_tol_sum d) || (tol <? y_tol_sum d)).

(** The case of a line in [packet_to_event]: [x], [y] are what counts against
    the tolerance, [flat] rejects a slope after twenty packets. *)
Definition line_packet (x y tol : Z) (flat : double -> bool) : prog mouse_state bool :=
  modify (fun s => s <| packet_count ::= (fun n => u32 (n + 1)) |>) ;;;
  out <- add_tol x y tol ;;
  if (out : bool) then ret true else
  n <- gets packet_count ;;
  if n =? PACKET_SLOPE_COUNT then
    l <- gets line_start_packet ;;
    if flat (slope l) then ret true else
    modify (fun s => s <| packet_count := 0 |> <| line_start_packet := mk_deslocation 0 0 |>) ;;;
    ret false
  else ret false.

Definition left_flat (m : double) : bool := dle m (dint 1).
Definition right_flat (m : double) : bool := dge m (dint (-1)).

Definition packet_to_event (pkt : packet) (tol x_len : Z) : prog mouse_state event_t :=
  d <- gets currData ;;
  if pkt_lb pkt && negb (lb d) then
    modify (fun s => s <| currData ::= (fun d => d <| lb := true |>) |>) ;;; ret LEFT_DOWN
  else if negb (pkt_lb pkt) && lb d then
    modify (fun s => s <| currData ::= (fun d => d <| lb := false |>) |>) ;;; ret LEFT_UP
  else if pkt_rb pkt && negb (rb d) then
    modify (fun s => s <| currData ::= (fun d => d <| rb := true |>) |>) ;;; ret RIGHT_DOWN
  else if negb (pkt_rb pkt) && rb d then
    modify (fun s => s <| currData ::= (fun d => d <| rb := false |>) |>) ;;; ret RIGHT_UP
  else
    displace pkt ;;;
    st <- gets currState ;;
    let dx := pkt_delta_x pkt in
    let dy := pkt_delta_y pkt in
    failed <- (match st with
      | LEFT_DONE | DRAW_LEFT =>
          line_packet (if dx <? 0 then - dx else 0) (if dy <? 0 then - dy else 0) tol left_flat
      | RIGHT_DONE | DRAW_RIGHT =>
          line_packet (if dx <? 0 then - dx else 0) (if 0 <? dy then dy else 0) tol right_flat
      | VERTEX => add_tol (if 0 <? dx then dx else - dx) (if 0 <? dy then dy else - dy) tol
      | INITIAL | EXIT => ret false
      end) ;;
    if (failed : bool) then ret TOL_FAIL else
    d <- gets currData ;;
    ret (if x_len <=? x_desl d then LINE_C else CONTINUE_DRAW).

(** [currState = st; reset_data()] *)
Definition enter (st : states) : prog mouse_state unit :=
  modify (fun s => s <| currState := st |>) ;;; reset_data.

(** A line is complete: the packets since the last check must be steep. *)
Definition line_complete (steep : double -> bool) (st : states) : prog mouse_state unit :=
  n <- gets packet_count ;;
  l <- gets line_start_packet ;;
  (if (n =? 0) || steep (slope l) then modify (fun s => s <| currState := st |>) else ret tt) ;;;
  reset_data.

Definition left_steep (m : double) : bool := dgt m (dint 1).
Definition right_steep (m : double) : bool := dlt m (dint (-1)).

(** The switch of [handle_mouse_event] over the state. *)
Definition handle_event (event : event_t) : prog mouse_state unit :=
  st <- gets currState ;;
  match st with
  | INITIAL => if decide (event = LEFT_DOWN) then enter DRAW_LEFT else ret tt
  | DRAW_LEFT =>
      match event with
      | LEFT_UP => enter INITIAL
      | TOL_FAIL => reset_data
      | LINE_C => line_complete left_steep LEFT_DONE
      | _ => ret tt
      end
  | LEFT_DONE =>
      match event with
      | LEFT_UP => enter VERTEX
      | TOL_FAIL => enter DRAW_LEFT
      | RIGHT_DOWN => enter INITIAL
      | _ => ret tt
      end
  | VERTEX =>
      modify (fun s => s <| packet_count := 0 |>) ;;;
      match event with
      | RIGHT_DOWN => enter DRAW_RIGHT
      | LEFT_DOWN => enter DRAW_LEFT
      | TOL_FAIL => enter INITIAL
      | _ => ret tt
      end
  | DRAW_RIGHT =>
      match event with
      | RIGHT_UP => enter INITIAL
      | TOL_FAIL => enter INITIAL
      | LINE_C => line_complete right_steep RIGHT_DONE
      | _ => ret tt
      end
  | RIGHT_DONE =>
      match event with
      | RIGHT_UP => enter EXIT
      | TOL_FAIL => enter INITIAL
      | LEFT_DOWN => enter INITIAL
      | _ => ret tt
      end
  | EXIT => ret tt
  end.

Definition handle_mouse_event (pkt : packet) (tol x_len : Z) : prog mouse_state states :=
  event <- packet_to_event pkt tol x_len ;;
  handle_event event ;;;
  gets currState.

(** The packets of a gesture, as [mouse_test_gesture] hands them over. *)
Fixpoint handle_packets (tol x_len : Z) (pkts : list packet) : prog mouse_state unit :=
  match pkts with
  | [] => ret tt
  | pkt :: pkts =>
      st <- handle_mouse_event pkt tol x_len ;;
      if decide (st = EXIT) then ret tt else handle_packets tol x_len pkts
  end.

(** ** What the packets say *)
Inductive button : Type := LB | RB.
#[global] Instance button_eq_dec : EqDecision button.
Proof. solve_decision. Defined.
Definition other (b : button) : button := match b with LB => RB | RB => LB end.

(** A displacement [(dx, dy)]. *)
Abbreviation move := (Z * Z)%type (only parsing).
Inductive token : Type := Press (b : button) | Release (b : button) | Move (m : move).
#[global] Instance token_eq_dec : EqDecision token.
Proof. solve_decision. Defined.

(** Of a packet that changes a button the movement is dropped; the left button
    goes first. *)
Definition token_of (l r : bool) (pkt : packet) : token :=
  if pkt_lb pkt && negb l then Press LB
  else if negb (pkt_lb pkt) && l then Release LB
  else if pkt_rb pkt && negb r then Press RB
  else if negb (pkt_rb pkt) && r then Release RB
  else Move (pkt_delta_x pkt, pkt_delta_y pkt).
Definition held_after (b : button) (held : bool) (t : token) : bool :=
  match t with
  | Press b' => if decide (b' = b) then true else held
  | Release b' => if decide (b' = b) then false else held
  | Move _ => held
  end.
Fixpoint tokens (l r : bool) (pkts : list packet) : list token :=
  match pkts with
  | [] => []
  | pkt :: pkts =>
      let t := token_of l r pkt in t :: tokens (held_after LB l t) (held_after RB r t) pkts
  end.
Definition moves (ts : list token) : list move := omap (fun t => match t with Move m => Some m | _ => None end) ts.

(** ** The grammar of the gesture *)
Section Grammar.
Variables (tol x_len : Z).

Definition total (f : move -> Z) (ms : list move) : Z := foldr (fun m a => f m + a) 0 ms.
Definition heading (ms : list move) : deslocation := mk_deslocation (total fst ms) (total snd ms).

(** What counts against the tolerance on the line of a button: to the left, and
    against the line's vertical direction. *)
Definition off_x (m : move) : Z := Z.max 0 (- m.1).
Definition off_y (b : button) (m : move) : Z := match b with LB => Z.max 0 (- m.2) | RB => Z.max 0 m.2 end.
Definition flat (b : button) (ms : list move) : bool :=
  (match b with LB => left_flat | RB => right_flat end) (slope (heading ms)).
Definition steep (b : button) (ms : list move) : bool :=
  (match b with LB => left_steep | RB => right_steep end) (slope (heading ms)).

(** The movements after the last complete group of twenty. *)
Definition trailing (ms : list move) : list move := drop (20 * (length ms / 20)) ms.
Definition group (i : nat) (ms : list move) : list move := take 20 (drop (20 * i) ms).

(** Within the tolerance, and no group of twenty is flat. *)
Record steady (b : button) (ms : list move) : Prop := mk_steady {
  sd_x : total off_x ms <= tol;
  sd_y : total (off_y b) ms <= tol;
  sd_groups i : (20 * S i <= length ms)%nat -> flat b (group i ms) = false;
}.
(** A line: steady, long enough at its end and not before, and steep where
    it ends. *)
Record line (b : button) (ms : list move) : Prop := mk_line {
  ln_some : ms <> [];
  ln_steady : steady b ms;
  ln_long : x_len <= total fst ms;
  ln_first n : (0 < n < length ms)%nat -> total fst (take n ms) < x_len;
  ln_end : trailing ms = [] \/ steep b (trailing ms) = true;
}.
(** Close to the corner. *)
Record corner (ms : list move) : Prop := mk_corner {
  co_x : total (fun m => Z.abs m.1) ms <= tol;
  co_y : total (fun m => Z.abs m.2) ms <= tol;
}.

(** Languages over tokens. *)
Definition language : Type := list token -> Prop.
Definition any : language := fun _ => True.
Definition one (t : token) : language := fun l => l = [t].
Definition cat (P Q : language) : language := fun l => exists l1 l2, l = l1 ++ l2 /\ P l1 /\ Q l2.
Infix "⋅" := cat (at level 40, left associativity).
(** No token of [ts], and the movements satisfy [P]. *)
Definition only (ts : list token) (P : list move -> Prop) : language := fun l =>
  Forall (fun t => t ∉ ts) l /\ P (moves l).

(** The part of the gesture with [b] held: false starts, the line, and what may
    follow it. *)
Definition false_starts (b : button) : language := only [Release b] (fun _ => True).
Definition held (b : button) : language :=
  false_starts b ⋅ only [Release b] (line b) ⋅ only [Release b; Press (other b)] (steady b).

Definition gesture : language :=
  any ⋅ one (Press LB) ⋅ held LB ⋅ one (Release LB) ⋅ only [Press LB; Press RB] corner ⋅
  one (Press RB) ⋅ held RB ⋅ one (Release RB).

(** ** An abstract recogniser

    Its state is where in the gesture it is, with the movements since the last
    reset. *)
Inductive phase : Type :=
| Idle
| Drawing (b : button) (ms : list move)
| Drawn (b : button) (ms : list move)
| Corner (ms : list move)
| Finished.
#[global] Instance phase_eq_dec : EqDecision phase.
Proof. solve_decision. Defined.

(** After the movements [ms], of which the last is new. *)
Definition fails (b : button) (ms : list move) : bool :=
  (tol <? total off_x ms) || (tol <? total (off_y b) ms) ||
  (bool_decide (length ms `mod` 20 = 0)%nat && flat b (drop (length ms - 20) ms)).
Definition ends_steep (b : button) (ms : list move) : bool :=
  match trailing ms with [] => true | ms => steep b ms end.
Definition restart (b : button) : phase := match b with LB => Drawing LB [] | RB => Idle end.

Definition track (p : phase) (t : token) : phase :=
  match p, t with
  | Idle, Press LB => Drawing LB []
  | Idle, _ => Idle
  | Drawing b ms, Release b' => if decide (b' = b) then Idle else p
  | Drawing b ms, Press _ => p
  | Drawing b ms, Move m =>
      let ms := ms ++ [m] in
      if fails b ms then restart b
      else if x_len <=? total fst ms then (if ends_steep b ms then Drawn b [] else Drawing b [])
      else Drawing b ms
  | Drawn b ms, Release b' =>
      if decide (b' = b) then match b with LB => Corner [] | RB => Finished end else p
  | Drawn b ms, Press b' => if decide (b' = other b) then Idle else p
  | Drawn b ms, Move m => let ms := ms ++ [m] in if fails b ms then restart b else Drawn b ms
  | Corner ms, Press b => Drawing b []
  | Corner ms, Release _ => p
  | Corner ms, Move m =>
      let ms := ms ++ [m] in
      if (tol <? total (fun m => Z.abs m.1) ms) || (tol <? total (fun m => Z.abs m.2) ms) then Idle else Corner ms
  | Finished, _ => Finished
  end.
End Grammar.

(** ** Sums and groups *)
Lemma total_app f ms ms' : total f (ms ++ ms') = total f ms + total f ms'.
Proof. induction ms as [|m ms IH]; [done|]. cbn [app total foldr] in *. unfold total in *. lia. Qed.
Lemma total_snoc f ms m : total f (ms ++ [m]) = total f ms + f m.
Proof. rewrite total_app. cbn. lia. Qed.
Lemma total_mono f g ms : (forall m, f m <= g m) -> total f ms <= total g ms.
Proof. intros H. induction ms as [|m ms IH]; [done|]. cbn. specialize (H m). unfold total in *. lia. Qed.
Lemma total_nonneg f ms : (forall m, 0 <= f m) -> 0 <= total f ms.
Proof. intros H. induction ms as [|m ms IH]; [done|]. cbn. specialize (H m). unfold total in *. lia. Qed.
Lemma heading_snoc ms m : heading (ms ++ [m]) = mk_deslocation (total fst ms + m.1) (total snd ms + m.2).
Proof. unfold heading. by rewrite !total_snoc. Qed.
Lemma off_x_nonneg m : 0 <= off_x m.
Proof. unfold off_x. lia. Qed.
Lemma off_y_nonneg b m : 0 <= off_y b m.
Proof. destruct b; cbn; lia. Qed.
Create HintDb gesture.
#[export] Hint Resolve off_x_nonneg off_y_nonneg total_nonneg : gesture.

Lemma div20_S n : (S n / 20 = if decide (S n mod 20 = 0) then S (n / 20) else n / 20)%nat.
Proof.
  pose proof (Nat.div_mod_eq n 20). pose proof (Nat.div_mod_eq (S n) 20).
  pose proof (Nat.mod_upper_bound n 20). pose proof (Nat.mod_upper_bound (S n) 20). case_decide; lia.
Qed.
Lemma length_trailing ms : length (trailing ms) = (length ms mod 20)%nat.
Proof. unfold trailing. rewrite length_drop. pose proof (Nat.div_mod_eq (length ms) 20). lia. Qed.
Lemma trailing_snoc ms m :
  trailing (ms ++ [m]) = if decide (length (ms ++ [m]) mod 20 = 0)%nat then [] else trailing ms ++ [m].
Proof.
  unfold trailing. rewrite !length_app. cbn [length]. rewrite Nat.add_1_r, div20_S.
  pose proof (Nat.div_mod_eq (length ms) 20). pose proof (Nat.div_mod_eq (S (length ms)) 20) as E.
  rewrite div20_S in E. revert E. case_decide as H0; intros E; (rewrite H0 in E || clear H0).
  - apply drop_ge. rewrite length_app. cbn [length]. lia.
  - rewrite drop_app_le; [done|]. lia.
Qed.
Lemma last_group ms m : (length (ms ++ [m]) mod 20 = 0)%nat ->
  drop (length (ms ++ [m]) - 20) (ms ++ [m]) = trailing ms ++ [m].
Proof.
  unfold trailing. rewrite !length_app. cbn [length]. rewrite Nat.add_1_r. intros H0.
  pose proof (Nat.div_mod_eq (length ms) 20). pose proof (Nat.div_mod_eq (S (length ms)) 20) as E.
  rewrite div20_S, H0 in E. rewrite decide_True in E by done. rewrite drop_app_le by lia. f_equal. f_equal. lia.
Qed.
Lemma group_full (ms : list move) (m : move) :
  (length (ms ++ [m]) mod 20 = 0)%nat <-> (length ms mod 20 = 19)%nat.
Proof.
  rewrite length_app. cbn [length]. rewrite Nat.add_1_r.
  pose proof (Nat.div_mod_eq (length ms) 20). pose proof (Nat.div_mod_eq (S (length ms)) 20).
  pose proof (Nat.mod_upper_bound (length ms) 20). pose proof (Nat.mod_upper_bound (S (length ms)) 20). lia.
Qed.
Lemma count_snoc (ms : list move) (m : move) : Z.of_nat (length (ms ++ [m]) mod 20) =
  if decide (length (ms ++ [m]) mod 20 = 0)%nat then 0 else Z.of_nat (length ms mod 20) + 1.
Proof.
  rewrite length_app. cbn [length]. rewrite Nat.add_1_r.
  pose proof (Nat.div_mod_eq (length ms) 20). pose proof (Nat.div_mod_eq (S (length ms)) 20) as E.
  rewrite div20_S in E. revert E. case_decide as H0; intros E; (rewrite H0 in E || clear H0); lia.
Qed.

#[local] Arguments total : simpl never.
#[local] Arguments trailing : simpl never.
#[local] Arguments Nat.modulo : simpl never.

(** ** The code refines the abstract recogniser *)
Section Refinement.
Variables (tol x_len : Z).
Hypothesis Htol : 0 <= tol < 256.

(** The counters of the code are sums over the movements since the last reset. *)
Record counts (b : button) (ms : list move) (s : mouse_state) : Prop := mk_counts {
  ct_x : x_desl (currData s) = total fst ms;
  ct_tol_x : x_tol_sum (currData s) = total off_x ms;
  ct_tol_y : y_tol_sum (currData s) = total (off_y b) ms;
  ct_count : packet_count s = Z.of_nat (length ms mod 20);
  ct_line : line_start_packet s = heading (trailing ms);
  ct_slack : total off_x ms <= tol /\ total (off_y b) ms <= tol;
}.
Definition draw_state (b : button) : states := match b with LB => DRAW_LEFT | RB => DRAW_RIGHT end.
Definition done_state (b : button) : states := match b with LB => LEFT_DONE | RB => RIGHT_DONE end.
Definition phase_state (p : phase) : states :=
  match p with
  | Idle => INITIAL
  | Drawing b _ => draw_state b
  | Drawn b _ => done_state b
  | Corner _ => VERTEX
  | Finished => EXIT
  end.
Definition in_phase (p : phase) (s : mouse_state) : Prop :=
  currState s = phase_state p /\
  match p with
  | Drawing b ms | Drawn b ms => counts b ms s
  | Corner ms => packet_count s = 0 /\
      x_tol_sum (currData s) = total (fun m => Z.abs m.1) ms /\
      y_tol_sum (currData s) = total (fun m => Z.abs m.2) ms /\ corner tol ms
  | Idle | Finished => True
  end.
(** After [n] packets every displacement is at most [256 n]. *)
Record near (n : Z) (s : mouse_state) : Prop := mk_near {
  nr_x : Z.abs (x_desl (currData s)) <= 256 * n;
  nr_y : Z.abs (y_desl (currData s)) <= 256 * n;
  nr_lx : Z.abs (dl_x_desl (line_start_packet s)) <= 256 * n;
  nr_ly : Z.abs (dl_y_desl (line_start_packet s)) <= 256 * n;
}.
Record tracks (l r : bool) (p : phase) (n : Z) (s : mouse_state) : Prop := mk_tracks {
  tr_lb : lb (currData s) = l;
  tr_rb : rb (currData s) = r;
  tr_near : near n s;
  tr_phase : in_phase p s;
}.

(** A packet as [parse_packet] makes it. *)
Definition small (m : move) : Prop := Z.abs m.1 <= 256 /\ Z.abs m.2 <= 256.

Lemma reset_near n s : 0 <= n -> near n s -> wp reset_data (fun _ s' =>
  currState s' = currState s /\ lb (currData s') = lb (currData s) /\ rb (currData s') = rb (currData s) /\
  (forall b, counts b [] s') /\ (x_tol_sum (currData s') = 0 /\ y_tol_sum (currData s') = 0 /\ packet_count s' = 0) /\
  near n s') s.
Proof.
  intros Hn Hs. unfold reset_data. wp_steps. split; [done|]. split; [done|]. split; [done|]. split; [by split; try done; cbn; unfold total; cbn; lia|].
  split; [done|]. split; cbn; lia.
Qed.

(** A phase that has just been entered. *)
Definition fresh (p : phase) : bool :=
  match p with Drawing _ (_ :: _) | Drawn _ (_ :: _) | Corner (_ :: _) => false | _ => true end.
Lemma reset_tracks p l r n s : 0 <= n -> near n s -> lb (currData s) = l -> rb (currData s) = r ->
  currState s = phase_state p -> fresh p = true -> wp reset_data (fun _ => tracks l r p n) s.
Proof.
  intros Hn Hs Hl Hr Hp Hf. eapply wp_mono; [by apply (reset_near n)|].
  intros [] s' (Es & El & Er & Hc & (Hx & Hy & H0) & Hs'). split; [congruence|congruence|done|]. split; [congruence|].
  destruct p as [|b [|]|b [|]|[|]|]; try discriminate Hf; try done.
  repeat (split; [done|]). by split; cbn; unfold total; cbn; lia.
Qed.
Lemma enter_tracks st p l r n s : 0 <= n -> near n s -> lb (currData s) = l -> rb (currData s) = r ->
  st = phase_state p -> fresh p = true -> wp (enter st) (fun _ => tracks l r p n) s.
Proof. intros Hn [] Hl Hr -> Hf. unfold enter. wp_steps. by apply reset_tracks. Qed.

Lemma add_int32_Some a b : INT_MIN <= a + b <= INT_MAX -> add_int32 a b = Some (a + b).
Proof.
  intros H. unfold add_int32. destruct (Z.leb_spec INT_MIN (a + b)); [|lia]. destruct (Z.leb_spec (a + b) INT_MAX); [done|lia].
Qed.

(** The state after the movement of a packet. *)
Definition displaced (m : move) (s : mouse_state) : mouse_state :=
  s <| currData ::= (fun d => d <| x_desl := x_desl d + m.1 |> <| y_desl := y_desl d + m.2 |>) |>
    <| line_start_packet ::= (fun l => mk_deslocation (dl_x_desl l + m.1) (dl_y_desl l + m.2)) |>.
Lemma displaced_near n m s : small m -> near n s -> near (n + 1) (displaced m s).
Proof. intros [Hx Hy] []. split; cbn; lia. Qed.
Lemma displace_spec pkt n s (Q : unit -> mouse_state -> Prop) :
  small (pkt_delta_x pkt, pkt_delta_y pkt) -> near n s -> 256 * (n + 1) <= INT_MAX ->
  Q tt (displaced (pkt_delta_x pkt, pkt_delta_y pkt) s) -> wp (displace pkt) Q s.
Proof.
  intros [Hx Hy] [] Hn HQ. cbn in Hx, Hy. unfold displace, INT_MAX in *.
  wp_steps. rewrite add_int32_Some by (unfold INT_MIN, INT_MAX; lia). cbn [defined].
  wp_steps. rewrite add_int32_Some by (unfold INT_MIN, INT_MAX; lia). cbn [defined].
  wp_steps. rewrite add_int32_Some by (unfold INT_MIN, INT_MAX; lia). cbn [defined].
  wp_steps. rewrite add_int32_Some by (unfold INT_MIN, INT_MAX; lia). cbn [defined].
  wp_steps. exact HQ.
Qed.

Lemma add_tol_spec x y X Y s (Q : bool -> mouse_state -> Prop) : 0 <= x <= 256 -> 0 <= y <= 256 ->
  x_tol_sum (currData s) = X -> y_tol_sum (currData s) = Y -> 0 <= X <= tol -> 0 <= Y <= tol ->
  Q ((tol <? X + x) || (tol <? Y + y)) (s <| currData ::= (fun d => d <| x_tol_sum := X + x |> <| y_tol_sum := Y + y |>) |>) ->
  wp (add_tol x y tol) Q s.
Proof.
  intros Hx Hy <- <- HX HY HQ. unfold add_tol. rewrite (wrap_small 32 x), (wrap_small 32 y) by lia. wp_steps.
  destruct s as [[X0 Y0 X Y ? ?] ? ? ?]. cbn [x_tol_sum y_tol_sum currData] in *.
  unfold set, set_with in *. cbn beta iota delta [x_tol_sum y_tol_sum currData] in *.
  rewrite (wrap_small 32 (X + x)), (wrap_small 32 (Y + y)) by lia. exact HQ.
Qed.

Definition flat_of (b : button) : double -> bool := match b with LB => left_flat | RB => right_flat end.
Lemma line_packet_spec b ms m n s : small m -> 0 <= n -> counts b ms s -> near n s ->
  wp (line_packet (off_x m) (off_y b m) tol (flat_of b)) (fun failed s' => failed = fails tol b (ms ++ [m]) /\
    (failed = false -> counts b (ms ++ [m]) s') /\ near (n + 1) s' /\ currState s' = currState s /\
    lb (currData s') = lb (currData s) /\ rb (currData s') = rb (currData s)) (displaced m s).
Proof.
  intros Hm Hn [Cx Ctx Cty Cn Cl [Sx Sy]] Hs. pose proof (displaced_near n m s Hm Hs) as Hs'.
  assert (0 <= off_x m <= 256 /\ 0 <= off_y b m <= 256) as [Ox Oy].
  { destruct Hm. unfold off_x. destruct b; cbn; lia. }
  pose proof (total_nonneg off_x ms off_x_nonneg). pose proof (total_nonneg (off_y b) ms (off_y_nonneg b)).
  pose proof (Nat.mod_upper_bound (length ms) 20).
  unfold line_packet. wp_steps. apply (add_tol_spec _ _ (total off_x ms) (total (off_y b) ms)); [done..|lia|lia|].
  unfold fails. rewrite !total_snoc. set (out := (tol <? _) || (tol <? _)). destruct out eqn:Eout; cbn [orb].
  { wp_step. repeat (split; [done|]). split; [by destruct Hs'; split|done]. }
  assert (total off_x ms + off_x m <= tol /\ total (off_y b) ms + off_y b m <= tol) as [Sx' Sy'] by (subst out; bool_lia).
  pose proof (count_snoc ms m) as Hcount. pose proof (trailing_snoc ms m) as Htr.
  assert (line_start_packet (displaced m s) = heading (trailing ms ++ [m])) as Hl.
  { rewrite heading_snoc. cbn. by rewrite Cl. }
  wp_steps. cbn. rewrite Cn, (wrap_small 32) by lia. unfold PACKET_SLOPE_COUNT.
  pose proof (group_full ms m) as Hfull. revert Hcount Htr. case_decide as E0; intros Hcount Htr.
  - rewrite bool_decide_true, (last_group ms m E0) by done. destruct (Z.eqb_spec (Z.of_nat (length ms mod 20) + 1) 20); [|lia].
    wp_steps. match goal with |- context [slope ?l] => replace l with (heading (trailing ms ++ [m])) by (symmetry; exact Hl) end.
    change (flat_of b (slope (heading ?l))) with (flat b l). cbn [andb].
    destruct (flat b (trailing ms ++ [m])); wp_steps; (split; [done|]); (split; [|split; [|done]]).
    + done.
    + by destruct Hs'; split.
    + intros _. split; cbn; rewrite ?total_snoc, ?Htr, ?Hcount; try done; by rewrite ?Cx.
    + destruct Hs'. split; cbn in *; lia.
  - rewrite bool_decide_false by done. destruct (Z.eqb_spec (Z.of_nat (length ms mod 20) + 1) 20); [lia|].
    wp_steps. split; [done|]. split; [|split; [|done]].
    + intros _. split; cbn; rewrite ?total_snoc, ?Htr; try done; [by rewrite Cx|by rewrite Cn, wrap_small by lia].
    + by destruct Hs'; split.
Qed.

(** *** A change of a button *)
Definition edge_event (t : token) : option event_t :=
  match t with
  | Press LB => Some LEFT_DOWN
  | Release LB => Some LEFT_UP
  | Press RB => Some RIGHT_DOWN
  | Release RB => Some RIGHT_UP
  | Move _ => None
  end.
Lemma in_phase_buttons p s s' : currState s' = currState s -> packet_count s' = packet_count s ->
  line_start_packet s' = line_start_packet s -> x_desl (currData s') = x_desl (currData s) ->
  x_tol_sum (currData s') = x_tol_sum (currData s) -> y_tol_sum (currData s') = y_tol_sum (currData s) ->
  in_phase p s -> in_phase p s'.
Proof.
  intros E1 E2 E3 E4 E5 E6 [Ep Hc]. split; [congruence|].
  destruct p as [|b ms|b ms|ms|]; try done.
  1-2: destruct Hc; split; congruence.
  by rewrite E2, E5, E6.
Qed.
Lemma packet_edge pkt e l r p n s : tracks l r p n s -> edge_event (token_of l r pkt) = Some e ->
  wp (packet_to_event pkt tol x_len) (fun e' s' => e' = e /\
    tracks (held_after LB l (token_of l r pkt)) (held_after RB r (token_of l r pkt)) p n s') s.
Proof.
  intros [<- <- [] Hp] He. unfold packet_to_event, token_of in *. wp_steps.
  destruct (pkt_lb pkt), (lb (currData s)) eqn:El; cbn [andb negb] in *;
    try (destruct (pkt_rb pkt), (rb (currData s)) eqn:Er; cbn [andb negb] in *; [discriminate He| | |discriminate He]);
    injection He as <-; wp_steps; (split; [done|]); (split; [done|done|done|]);
    by eapply in_phase_buttons; [..|exact Hp].
Qed.

Lemma handle_edge t e l r p n s : 0 <= n -> tracks l r p n s -> edge_event t = Some e ->
  wp (handle_event e) (fun _ => tracks l r (track tol x_len p t) n) s.
Proof.
  intros Hn [Hl Hr Hs [Ep Hc]] He. unfold handle_event. wp_steps. rewrite Ep.
  destruct t as [[]|[]|]; try discriminate He; injection He as <-; destruct p as [|[] ms|[] ms|ms|]; cbn;
    wp_steps; try (by apply enter_tracks); try (by split); destruct Hs.
  1-2: by apply enter_tracks.
  all: destruct Hc as (_ & Hcx & Hcy & Hcc); split; [done|done|by split|by repeat (split; [done|])].
Qed.

(** *** A movement *)
Definition pkt_move (pkt : packet) : move := (pkt_delta_x pkt, pkt_delta_y pkt).
(** The event of a movement with the displacements [x] since the last reset. *)
Definition move_event (failed : bool) (x : Z) : event_t :=
  if failed then TOL_FAIL else if x_len <=? x then LINE_C else CONTINUE_DRAW.
(** What a packet leaves alone. *)
Record kept (n : Z) (s s' : mouse_state) : Prop := mk_kept {
  kp_near : near (n + 1) s';
  kp_state : currState s' = currState s;
  kp_lb : lb (currData s') = lb (currData s);
  kp_rb : rb (currData s') = rb (currData s);
}.

(** A packet that changes no button displaces. *)
Lemma packet_displaces pkt n s (Q : event_t -> mouse_state -> Prop) :
  token_of (lb (currData s)) (rb (currData s)) pkt = Move (pkt_move pkt) -> small (pkt_move pkt) -> near n s ->
  256 * (n + 1) <= INT_MAX ->
  wp (failed <- (match currState s with
      | LEFT_DONE | DRAW_LEFT => line_packet (off_x (pkt_move pkt)) (off_y LB (pkt_move pkt)) tol left_flat
      | RIGHT_DONE | DRAW_RIGHT => line_packet (off_x (pkt_move pkt)) (off_y RB (pkt_move pkt)) tol right_flat
      | VERTEX => add_tol (Z.abs (pkt_delta_x pkt)) (Z.abs (pkt_delta_y pkt)) tol
      | INITIAL | EXIT => ret false
      end) ;;
      if (failed : bool) then ret TOL_FAIL else
      d <- gets currData ;;
      ret (if x_len <=? x_desl d then LINE_C else CONTINUE_DRAW)) Q (displaced (pkt_move pkt) s) ->
  wp (packet_to_event pkt tol x_len) Q s.
Proof.
  intros Ht Hm Hs Hn HQ. unfold packet_to_event. wp_steps. unfold token_of in Ht.
  destruct (pkt_lb pkt && negb (lb (currData s))); [discriminate Ht|].
  destruct (negb (pkt_lb pkt) && lb (currData s)); [discriminate Ht|].
  destruct (pkt_rb pkt && negb (rb (currData s))); [discriminate Ht|].
  destruct (negb (pkt_rb pkt) && rb (currData s)); [discriminate Ht|]. wp_steps. eapply (displace_spec pkt n); [done..|]. wp_steps.
  assert (forall z, (if z <? 0 then - z else 0) = Z.max 0 (- z)) as E1 by (intros z; destruct (Z.ltb_spec z 0); lia).
  assert (forall z, (if 0 <? z then z else 0) = Z.max 0 z) as E2 by (intros z; destruct (Z.ltb_spec 0 z); lia).
  assert (forall z, (if 0 <? z then z else - z) = Z.abs z) as E3 by (intros z; destruct (Z.ltb_spec 0 z); lia).
  cbn beta zeta. rewrite !E1, E2, !E3. apply wp_bind in HQ. exact HQ.
Qed.

(** On a line. *)
Lemma packet_line pkt b ms n s : token_of (lb (currData s)) (rb (currData s)) pkt = Move (pkt_move pkt) ->
  small (pkt_move pkt) -> 0 <= n -> 256 * (n + 1) <= INT_MAX -> near n s -> counts b ms s ->
  currState s = draw_state b \/ currState s = done_state b ->
  wp (packet_to_event pkt tol x_len) (fun e s' =>
    e = move_event (fails tol b (ms ++ [pkt_move pkt])) (total fst (ms ++ [pkt_move pkt])) /\
    (fails tol b (ms ++ [pkt_move pkt]) = false -> counts b (ms ++ [pkt_move pkt]) s') /\ kept n s s') s.
Proof.
  intros Ht Hm Hn Hmax Hs Hc Hb. apply (packet_displaces pkt n); [done..|].
  assert (wp (failed <- line_packet (off_x (pkt_move pkt)) (off_y b (pkt_move pkt)) tol (flat_of b) ;;
      if (failed : bool) then ret TOL_FAIL else
      d <- gets currData ;;
      ret (if x_len <=? x_desl d then LINE_C else CONTINUE_DRAW)) (fun e s' =>
    e = move_event (fails tol b (ms ++ [pkt_move pkt])) (total fst (ms ++ [pkt_move pkt])) /\
    (fails tol b (ms ++ [pkt_move pkt]) = false -> counts b (ms ++ [pkt_move pkt]) s') /\ kept n s s')
    (displaced (pkt_move pkt) s)) as H.
  { wp_step. eapply wp_mono; [by apply line_packet_spec|]. intros failed s' (-> & Hc' & Hs' & E1 & E2 & E3).
    unfold move_event. destruct (fails _ _ _).
    - wp_step. split; [done|]. split; [done|]. by split.
    - wp_steps. rewrite (ct_x _ _ _ (Hc' eq_refl)). split; [done|]. split; [done|]. by split. }
  by destruct b, Hb as [-> | ->].
Qed.

(** Near the corner. *)
Lemma packet_corner pkt ms n s : token_of (lb (currData s)) (rb (currData s)) pkt = Move (pkt_move pkt) ->
  small (pkt_move pkt) -> 256 * (n + 1) <= INT_MAX -> near n s -> in_phase (Corner ms) s ->
  wp (packet_to_event pkt tol x_len) (fun e s' => kept n s s' /\
    let ms := ms ++ [pkt_move pkt] in
    if (tol <? total (fun m => Z.abs m.1) ms) || (tol <? total (fun m => Z.abs m.2) ms) then e = TOL_FAIL
    else e <> TOL_FAIL /\ e <> LEFT_DOWN /\ e <> RIGHT_DOWN /\
      x_tol_sum (currData s') = total (fun m => Z.abs m.1) ms /\ y_tol_sum (currData s') = total (fun m => Z.abs m.2) ms) s.
Proof.
  intros Ht Hm Hmax Hs (Ep & H0 & Ex & Ey & [Cx Cy]). apply (packet_displaces pkt n); [done..|]. rewrite Ep. cbn [phase_state].
  pose proof (displaced_near n _ s Hm Hs) as Hs'. destruct Hm as [Hx Hy].
  pose proof (total_nonneg (fun m => Z.abs m.1) ms ltac:(intros; lia)).
  pose proof (total_nonneg (fun m => Z.abs m.2) ms ltac:(intros; lia)).
  wp_step. apply (add_tol_spec _ _ (total (fun m => Z.abs m.1) ms) (total (fun m => Z.abs m.2) ms)); [cbn in *; lia..|done|done|lia|lia|].
  cbv zeta. rewrite !total_snoc. cbn [fst snd pkt_move]. destruct (_ || _); wp_steps.
  - split; [|done]. split; try done. by destruct Hs'; split.
  - split; [|by repeat split; break_if]. split; try done. by destruct Hs'; split.
Qed.

Lemma kept_tracks p l r n s s' : lb (currData s) = l -> rb (currData s) = r -> kept n s s' -> in_phase p s' -> tracks l r p (n + 1) s'.
Proof. intros <- <- []. by split. Qed.
Lemma tracks_later l r p n s : tracks l r p n s -> tracks l r p (n + 1) s.
Proof. intros [? ? [] ?]. split; [done..| |done]. split; lia. Qed.

(** The event of a movement on a line being drawn. *)
Lemma handle_drawing b failed ms l r n s s' : 0 <= n -> kept n s s' -> currState s = draw_state b ->
  lb (currData s) = l -> rb (currData s) = r -> (failed = false -> counts b ms s') ->
  wp (handle_event (move_event failed (total fst ms))) (fun _ => tracks l r
    (if failed then restart b else
     if x_len <=? total fst ms then (if ends_steep b ms then Drawn b [] else Drawing b []) else Drawing b ms) (n + 1)) s'.
Proof.
  intros Hn [Hs' Es' El Er] Es Hl Hr Hc. unfold handle_event. wp_steps. rewrite Es', Es.
  assert (forall p, phase_state p = draw_state b -> fresh p = true -> wp reset_data (fun _ => tracks l r p (n + 1)) s') as Hreset.
  { intros p Hp Hf. apply reset_tracks; [lia|done|congruence..|done]. }
  destruct failed; cbn [move_event].
  { destruct b; cbn [draw_state move_event]; [by apply Hreset|]. apply enter_tracks; [lia|done|congruence..|done|done]. }
  specialize (Hc eq_refl). unfold move_event. destruct (x_len <=? total fst ms).
  - assert (wp (line_complete (match b with LB => left_steep | RB => right_steep end) (done_state b)) (fun _ =>
      tracks l r (if ends_steep b ms then Drawn b [] else Drawing b []) (n + 1)) s') as H; [|by destruct b].
    destruct Hc as [_ _ _ Hn0 Hl0 _]. pose proof (length_trailing ms) as Hlen.
    unfold line_complete. wp_steps. rewrite Hn0, Hl0. unfold ends_steep. rewrite <- Hlen.
    destruct (trailing ms) as [|m0 ms0] eqn:Etr; cbn [length Z.of_nat Z.eqb orb].
    + wp_steps. apply reset_tracks; [lia|by destruct Hs'; split|cbn; congruence..|done|done].
    + change ((match b with LB => left_steep | RB => right_steep end) (slope (heading ?x))) with (steep b x).
      destruct (steep b _); wp_steps; apply reset_tracks; try done; try lia; try (cbn; congruence); by destruct Hs'; split.
  - destruct b; cbn; wp_step; (split; [congruence|congruence|done|]); (split; [by rewrite Es', Es|done]).
Qed.

(** The event of a movement after the line. *)
Lemma handle_drawn b failed ms l r n s s' : 0 <= n -> kept n s s' -> currState s = done_state b ->
  lb (currData s) = l -> rb (currData s) = r -> (failed = false -> counts b ms s') ->
  wp (handle_event (move_event failed (total fst ms))) (fun _ => tracks l r
    (if failed then restart b else Drawn b ms) (n + 1)) s'.
Proof.
  intros Hn [Hs' Es' El Er] Es Hl Hr Hc. unfold handle_event. wp_steps. rewrite Es', Es. unfold move_event.
  destruct failed.
  - destruct b; cbn; apply enter_tracks; try done; try lia; congruence.
  - assert (tracks l r (Drawn b ms) (n + 1) s') as H.
    { split; [congruence|congruence|done|]. split; [by rewrite Es', Es|by apply Hc]. }
    destruct b, (x_len <=? _); cbn; by wp_step.
Qed.

Lemma handle_event_idle e st s (Q : unit -> mouse_state -> Prop) :
  currState s = st -> st = EXIT \/ st = INITIAL /\ e <> LEFT_DOWN -> Q tt s -> wp (handle_event e) Q s.
Proof.
  intros Es Hst HQ. unfold handle_event. wp_step. wp_step. rewrite Es. destruct Hst as [-> |[-> He]]; [by wp_step|].
  rewrite decide_False by done. by wp_step.
Qed.
Lemma packet_idle pkt n s : token_of (lb (currData s)) (rb (currData s)) pkt = Move (pkt_move pkt) ->
  small (pkt_move pkt) -> 256 * (n + 1) <= INT_MAX -> near n s -> currState s = INITIAL \/ currState s = EXIT ->
  wp (packet_to_event pkt tol x_len) (fun e s' => kept n s s' /\ e <> LEFT_DOWN) s.
Proof.
  intros Ht Hm Hmax Hs Hst. apply (packet_displaces pkt n); [done..|].
  pose proof (displaced_near n _ s Hm Hs) as Hs'. destruct Hst as [-> | ->]; wp_steps; (split; [by split|by break_if]).
Qed.

Lemma token_of_move l r pkt : edge_event (token_of l r pkt) = None -> token_of l r pkt = Move (pkt_move pkt).
Proof. unfold token_of. by repeat (break_if; [done|]). Qed.

(** One packet, as the abstract recogniser takes it. *)
Lemma handle_packet_tracks pkt l r p n s : tracks l r p n s -> small (pkt_move pkt) -> 0 <= n ->
  256 * (n + 1) <= INT_MAX ->
  let t := token_of l r pkt in
  wp (handle_mouse_event pkt tol x_len) (fun st s' => st = phase_state (track tol x_len p t) /\
    tracks (held_after LB l t) (held_after RB r t) (track tol x_len p t) (n + 1) s') s.
Proof.
  intros Htr Hm Hn Hmax t. unfold handle_mouse_event. wp_step.
  assert (forall l' r' p' e s', wp (handle_event e) (fun _ => tracks l' r' p' (n + 1)) s' ->
    wp (handle_event e ;;; gets currState) (fun st s2 => st = phase_state p' /\ tracks l' r' p' (n + 1) s2) s') as Hend.
  { intros l' r' p' e s' H. wp_step. eapply wp_mono; [exact H|]. intros ? s2 H2. wp_step. split; [by apply H2|done]. }
  destruct (edge_event t) as [e|] eqn:Ee.
  { eapply wp_mono; [by eapply packet_edge|]. intros e' s' [-> Hs']. apply Hend. fold t in Hs'.
    eapply wp_mono; [by eapply (handle_edge t)|]. intros [] s2. apply tracks_later. }
  pose proof (token_of_move _ _ _ Ee) as Et. unfold t. rewrite Et. cbn [held_after]. destruct Htr as [Hl Hr Hs Hp].
  rewrite <- Hl, <- Hr in Et. pose proof Hp as [Ep Hc]. destruct p as [|b ms|b ms|ms|].
  - eapply wp_mono; [apply (packet_idle pkt n); [done..|by left]|]. intros e s' [Hk He]. apply Hend.
    eapply handle_event_idle; [by rewrite (kp_state _ _ _ Hk)|by right|]. eapply kept_tracks; [done..|].
    split; [by rewrite (kp_state _ _ _ Hk)|done].
  - eapply wp_mono; [apply (packet_line pkt b ms n); try done; by left|]. intros e s' (-> & Hc' & Hk). apply Hend.
    by eapply handle_drawing.
  - eapply wp_mono; [apply (packet_line pkt b ms n); try done; by right|]. intros e s' (-> & Hc' & Hk). apply Hend.
    by eapply handle_drawn.
  - eapply wp_mono; [by apply (packet_corner pkt ms n)|]. cbv zeta. intros e s' [Hk He]. apply Hend.
    destruct Hk as [Hs' Es' El Er]. unfold handle_event. cbn [track].
    wp_steps. rewrite Es', Ep. cbn [phase_state].
    assert (near (n + 1) (s' <| packet_count := 0 |>)) as Hs2 by (destruct Hs'; by split).
    destruct (_ || _) eqn:Eo.
    + subst e. wp_steps. apply enter_tracks; try done; [lia|cbn; congruence..].
    + destruct He as (H1 & H2 & H3 & Hx & Hy). wp_steps. destruct e; try done; wp_step;
        (split; [cbn; congruence|cbn; congruence|done|]; split; [cbn; by rewrite Es'|]; bool_lia;
         do 3 (split; [done|]); by split).
  - eapply wp_mono; [apply (packet_idle pkt n); [done..|by right]|]. intros e s' [Hk He]. apply Hend.
    eapply handle_event_idle; [by rewrite (kp_state _ _ _ Hk)|by left|]. eapply kept_tracks; [done..|].
    split; [by rewrite (kp_state _ _ _ Hk)|done].
Qed.

Lemma track_done ts : foldl (track tol x_len) Finished ts = Finished.
Proof. by induction ts as [|t ts IH]. Qed.
Lemma handle_packets_tracks pkts : forall l r p n s, tracks l r p n s -> Forall (fun pkt => small (pkt_move pkt)) pkts ->
  0 <= n -> 256 * (n + alen pkts) <= INT_MAX ->
  wp (handle_packets tol x_len pkts)
    (fun _ s' => currState s' = phase_state (foldl (track tol x_len) p (tokens l r pkts))) s.
Proof.
  induction pkts as [|pkt pkts IH]; intros l r p n s Hs Hp Hn Hmax; cbn [handle_packets tokens foldl].
  { wp_step. apply Hs. }
  apply Forall_cons in Hp as [Hp Hps]. rewrite alen_cons in Hmax. pose proof (alen_nonneg pkts).
  wp_step. eapply wp_mono; [apply (handle_packet_tracks pkt l r p n); [done..|lia]|].
  intros st s' [-> Hs']. case_decide as E.
  - wp_step. rewrite (proj1 (tr_phase _ _ _ _ _ Hs')), E.
    destruct (track _ _ p _) as [|[]|[]| |]; try discriminate E. by rewrite track_done.
  - eapply (IH _ _ _ (n + 1)); [exact Hs'|done|lia|lia].
Qed.
End Refinement.

(** ** The abstract recogniser and the grammar *)
Section Language.
Variables (tol x_len : Z).
Infix "⋅" := cat (at level 40, left associativity).

Lemma cat_snoc (P Q Q' : language) l t : (P ⋅ Q) l -> (forall l2, Q l2 -> Q' (l2 ++ [t])) -> (P ⋅ Q') (l ++ [t]).
Proof. intros (l1 & l2 & -> & H1 & H2) H. exists l1, (l2 ++ [t]). rewrite app_assoc. by split; [|split; [|apply H]]. Qed.
Lemma cat_one (P : language) l t : P l -> (P ⋅ one t) (l ++ [t]).
Proof. intros H. by exists l, [t]. Qed.
Lemma cat_nil (P Q : language) l : P l -> Q [] -> (P ⋅ Q) l.
Proof. intros HP HQ. exists l, []. by rewrite app_nil_r. Qed.
Lemma cat_mono (P P' Q Q' : language) l : (P ⋅ Q) l -> (forall l1, P l1 -> P' l1) -> (forall l2, Q l2 -> Q' l2) -> (P' ⋅ Q') l.
Proof. intros (l1 & l2 & -> & H1 & H2) HP HQ. exists l1, l2. auto. Qed.

Lemma moves_snoc l t : moves (l ++ [t]) = moves l ++ match t with Move m => [m] | _ => [] end.
Proof. unfold moves. rewrite omap_app. by destruct t. Qed.
Lemma only_snoc ts (P Q : list move -> Prop) t l : only ts P l -> t ∉ ts ->
  (forall ms, P ms -> Q (ms ++ match t with Move m => [m] | _ => [] end)) -> only ts Q (l ++ [t]).
Proof.
  intros [Hl HP] Ht H. split; [|rewrite moves_snoc; by apply H]. apply Forall_app. split; [done|by constructor].
Qed.
(** Whatever does not release the button may be a false start. *)
Lemma absorb (A : language) ts P b l : (A ⋅ only ts P) l -> Release b ∈ ts -> (forall l1, A l1 -> false_starts b l1) ->
  false_starts b l.
Proof.
  intros (l1 & l2 & -> & H1 & [H2 _]) Hb HA. split; [|done]. apply Forall_app. split; [by apply HA|].
  eapply Forall_impl; [exact H2|]. intros t Ht Hin. apply list_elem_of_singleton in Hin as ->. by apply Ht.
Qed.
Lemma false_starts_snoc b l t : false_starts b l -> t <> Release b -> false_starts b (l ++ [t]).
Proof. intros Hl Ht. eapply only_snoc; [exact Hl|by intros ?%list_elem_of_singleton|done]. Qed.

(** *** Lines, one movement at a time *)
Lemma group_snoc i ms m : (20 * S i <= length ms)%nat -> group i (ms ++ [m]) = group i ms.
Proof. intros H. unfold group. rewrite drop_app_le by lia. rewrite take_app_le; [done|]. rewrite length_drop. lia. Qed.
Lemma group_last ms m : (length (ms ++ [m]) mod 20 = 0)%nat ->
  forall i, (20 * S i = length (ms ++ [m]))%nat -> group i (ms ++ [m]) = drop (length (ms ++ [m]) - 20) (ms ++ [m]).
Proof.
  intros H i Hi. unfold group. replace (length (ms ++ [m]) - 20)%nat with (20 * i)%nat by lia. apply take_ge.
  rewrite length_drop. lia.
Qed.
Lemma steady_snoc b ms m : steady tol b (ms ++ [m]) <-> steady tol b ms /\ fails tol b (ms ++ [m]) = false.
Proof.
  pose proof (off_x_nonneg m). pose proof (off_y_nonneg b m). split.
  - intros [Hx Hy Hg]. pose proof Hx as Hx'. pose proof Hy as Hy'. rewrite total_snoc in Hx', Hy'. split.
    + split; [lia|lia|]. intros i Hi. rewrite <- (group_snoc i ms m) by done. apply Hg. rewrite length_app. lia.
    + unfold fails. destruct (Z.ltb_spec tol (total off_x (ms ++ [m]))); [lia|].
      destruct (Z.ltb_spec tol (total (off_y b) (ms ++ [m]))); [lia|]. cbn [orb]. case_bool_decide as E; [|done]. cbn [andb].
      assert (exists i, 20 * S i = length (ms ++ [m]))%nat as [i Hi].
      { pose proof (Nat.div_mod_eq (length (ms ++ [m])) 20). exists (length (ms ++ [m]) / 20 - 1)%nat.
        rewrite length_app in *. cbn [length] in *. lia. }
      rewrite <- (group_last ms m E i Hi). apply Hg. lia.
  - intros [[Hx Hy Hg] Hf]. unfold fails in Hf. apply orb_false_iff in Hf as [Hf Hl]. bool_lia. split; [lia|lia|].
    intros i Hi. destruct (decide (20 * S i <= length ms)%nat); [rewrite group_snoc by done; by apply Hg|].
    rewrite length_app in Hi. cbn [length] in Hi. assert (20 * S i = length (ms ++ [m]))%nat as Hi' by (rewrite length_app; cbn [length]; lia).
    assert (length (ms ++ [m]) mod 20 = 0)%nat as E by (rewrite <- Hi', Nat.mul_comm; apply Nat.Div0.mod_mul).
    rewrite (group_last ms m E i Hi'). by rewrite bool_decide_true in Hl.
Qed.
Lemma ends_steep_true b ms : ends_steep b ms = true <-> trailing ms = [] \/ steep b (trailing ms) = true.
Proof.
  unfold ends_steep. destruct (trailing ms); split; intros H; [by left|done|by right|]. by destruct H.
Qed.

(** A line that is not long enough yet. *)
Record drawing (b : button) (ms : list move) : Prop := mk_drawing {
  dr_steady : steady tol b ms;
  dr_short n : (0 < n <= length ms)%nat -> total fst (take n ms) < x_len;
}.
Lemma drawing_snoc b ms m : drawing b ms -> fails tol b (ms ++ [m]) = false ->
  steady tol b (ms ++ [m]) /\ forall n, (0 < n < length (ms ++ [m]))%nat -> total fst (take n (ms ++ [m])) < x_len.
Proof.
  intros [Hs Hd] Hf. split; [by apply steady_snoc|]. intros n Hn. rewrite length_app in Hn. cbn [length] in Hn.
  rewrite take_app_le by lia. apply Hd. lia.
Qed.
Lemma drawing_nil b : 0 <= tol -> drawing b [].
Proof. intros H. split; [split; [done|done|cbn; lia]|cbn; lia]. Qed.

(** *** Sound: what has been read *)
Definition lead (b : button) : language :=
  match b with
  | LB => any
  | RB => any ⋅ one (Press LB) ⋅ held tol x_len LB ⋅ one (Release LB) ⋅ only [Press LB; Press RB] (corner tol)
  end.
Definition shape (p : phase) : language :=
  match p with
  | Idle => any
  | Drawing b ms => lead b ⋅ one (Press b) ⋅ (false_starts b ⋅ only [Release b] (fun ms' => ms' = ms /\ drawing b ms))
  | Drawn b ms => lead b ⋅ one (Press b) ⋅ (false_starts b ⋅ only [Release b] (line tol x_len b) ⋅
      only [Release b; Press (other b)] (fun ms' => ms' = ms /\ steady tol b ms))
  | Corner ms => any ⋅ one (Press LB) ⋅ held tol x_len LB ⋅ one (Release LB) ⋅
      only [Press LB; Press RB] (fun ms' => ms' = ms /\ corner tol ms)
  | Finished => fun l => exists l1 l2, l = l1 ++ l2 /\ gesture tol x_len l1
  end.
Hypothesis Htol : 0 <= tol.

Lemma only_nil ts (P : list move -> Prop) : P [] -> only ts P [].
Proof. by split. Qed.
Lemma shape_open b l : lead b l -> shape (Drawing b []) (l ++ [Press b]).
Proof.
  intros Hl. apply cat_nil; [by apply cat_one|]. apply cat_nil; [by apply only_nil|].
  apply only_nil. split; [done|by apply drawing_nil].
Qed.
(** The line is given up for a new one. *)
Lemma shape_again (Q : language) b l t : (lead b ⋅ one (Press b) ⋅ Q) l -> t <> Release b ->
  (forall l2, Q l2 -> false_starts b l2) -> shape (Drawing b []) (l ++ [t]).
Proof.
  intros H Ht HQ. cbn. eapply cat_snoc; [exact H|]. intros l2 H2. apply cat_nil; [by apply false_starts_snoc; [apply HQ|]|].
  apply only_nil. split; [done|by apply drawing_nil].
Qed.
Lemma shape_restart (Q : language) b l t : (lead b ⋅ one (Press b) ⋅ Q) l -> t <> Release b ->
  (forall l2, Q l2 -> false_starts b l2) -> shape (restart b) (l ++ [t]).
Proof. destruct b; [by apply shape_again|done]. Qed.
Lemma drawing_false_starts b P l : (false_starts b ⋅ only [Release b] P) l -> false_starts b l.
Proof. intros H. eapply absorb; [exact H|by left|done]. Qed.
Lemma drawn_false_starts b P P' l : (false_starts b ⋅ only [Release b] P ⋅ only [Release b; Press (other b)] P') l -> false_starts b l.
Proof. intros H. eapply absorb; [exact H|by left|apply drawing_false_starts]. Qed.

Lemma shape_drawing b ms t l : shape (Drawing b ms) l -> shape (track tol x_len (Drawing b ms) t) (l ++ [t]).
Proof.
  intros H. destruct t as [b'|b'|m]; cbn [track].
  - cbn. eapply cat_snoc; [exact H|]. intros l2 H2. eapply cat_snoc; [exact H2|]. intros l3 H3.
    eapply only_snoc; [exact H3|by intros ?%list_elem_of_singleton|]. intros ms' [-> ?]. by rewrite app_nil_r.
  - case_decide as E; [done|]. cbn. eapply cat_snoc; [exact H|]. intros l2 H2. eapply cat_snoc; [exact H2|]. intros l3 H3.
    eapply only_snoc; [exact H3|intros Hin%list_elem_of_singleton; congruence|]. intros ms' [-> ?]. by rewrite app_nil_r.
  - destruct (fails tol b (ms ++ [m])) eqn:Ef; [eapply shape_restart; [exact H|done|apply drawing_false_starts]|].
    assert (Move m ∉ [Release b]) as Hm by (by intros ?%list_elem_of_singleton).
    destruct (Z.leb_spec x_len (total fst (ms ++ [m]))) as [Hlen|Hlen].
    + destruct (ends_steep b (ms ++ [m])) eqn:Ee; [|eapply shape_again; [exact H|done|apply drawing_false_starts]].
      cbn. eapply cat_snoc; [exact H|]. intros l2 H2. apply cat_nil.
      * eapply cat_snoc; [exact H2|]. intros l3 H3. eapply only_snoc; [exact H3|done|]. intros ms' [-> Hd].
        destruct (drawing_snoc b ms m Hd Ef). apply ends_steep_true in Ee. split; try done. by destruct ms.
      * apply only_nil. split; [done|]. by apply drawing_nil.
    + cbn. eapply cat_snoc; [exact H|]. intros l2 H2. eapply cat_snoc; [exact H2|]. intros l3 H3.
      eapply only_snoc; [exact H3|done|]. intros ms' [-> Hd]. split; [done|]. destruct (drawing_snoc b ms m Hd Ef) as [Hs Hn].
      split; [done|]. intros n Hn'. destruct (decide (n = length (ms ++ [m]))) as [->|]; [by rewrite firstn_all|]. apply Hn. lia.
Qed.
Lemma shape_drawn b ms t l : shape (Drawn b ms) l -> shape (track tol x_len (Drawn b ms) t) (l ++ [t]).
Proof.
  intros H.
  assert (forall ms', t ∉ [Release b; Press (other b)] -> ms' = ms ++ match t with Move m => [m] | _ => [] end -> (steady tol b ms -> steady tol b ms') ->
    shape (Drawn b ms') (l ++ [t])) as Hstay.
  { intros ms' Ht -> Hs. cbn. eapply cat_snoc; [exact H|]. intros l2 H2. eapply cat_snoc; [exact H2|]. intros l3 H3.
    eapply only_snoc; [exact H3|done|]. intros ms1 [-> Hs1]. split; [done|by apply Hs]. }
  destruct t as [b'|b'|m]; cbn [track].
  - case_decide as E; [done|]. apply Hstay; [|by rewrite app_nil_r|done].
    intros Hin. apply elem_of_cons in Hin as [?|Hin]; [done|]. apply list_elem_of_singleton in Hin. congruence.
  - case_decide as E.
    + subst b'. assert ((lead b ⋅ one (Press b) ⋅ held tol x_len b ⋅ one (Release b)) (l ++ [Release b])) as Hh.
      { apply cat_one. eapply cat_mono; [exact H|done|]. intros l2 H2. eapply cat_mono; [exact H2|done|].
        intros l3 [H3 [Hm Hs]]. split; [done|by rewrite Hm]. }
      destruct b; [|exists (l ++ [Release RB]), []; by rewrite app_nil_r].
      cbn. apply cat_nil; [exact Hh|]. apply only_nil. split; [done|]. by split.
    + apply Hstay; [|by rewrite app_nil_r|done].
      intros Hin. apply elem_of_cons in Hin as [?|Hin]; [congruence|]. by apply list_elem_of_singleton in Hin.
  - destruct (fails tol b (ms ++ [m])) eqn:Ef; [eapply shape_restart; [exact H|done|apply drawn_false_starts]|].
    apply Hstay; [|done|by intros; apply steady_snoc].
    intros Hin. apply elem_of_cons in Hin as [?|Hin]; [done|]. by apply list_elem_of_singleton in Hin.
Qed.
Lemma corner_snoc ms m : (tol <? total (fun m => Z.abs m.1) (ms ++ [m])) || (tol <? total (fun m => Z.abs m.2) (ms ++ [m])) = false <->
  corner tol (ms ++ [m]).
Proof. split; [intros H; bool_lia; split; lia|]. intros [? ?]. apply orb_false_iff. split; apply Z.ltb_ge; lia. Qed.
Lemma shape_corner ms t l : shape (Corner ms) l -> shape (track tol x_len (Corner ms) t) (l ++ [t]).
Proof.
  intros H. destruct t as [[]|b|m]; cbn [track].
  - by apply shape_open.
  - apply shape_open. cbn. eapply cat_mono; [exact H|done|]. intros l2 [H2 [<- Hc]]. by split.
  - cbn. eapply cat_snoc; [exact H|]. intros l2 H2. eapply only_snoc; [exact H2| |intros ms' [-> Hc]; by rewrite app_nil_r].
    intros Hin. apply elem_of_cons in Hin as [?|Hin]; [done|]. by apply list_elem_of_singleton in Hin.
  - destruct (_ || _) eqn:E; [done|]. cbn. eapply cat_snoc; [exact H|]. intros l2 H2.
    eapply only_snoc; [exact H2| |intros ms' [-> Hc]; split; [done|by apply corner_snoc]].
    intros Hin. apply elem_of_cons in Hin as [?|Hin]; [done|]. by apply list_elem_of_singleton in Hin.
Qed.
Lemma shape_track p t l : shape p l -> shape (track tol x_len p t) (l ++ [t]).
Proof.
  intros H. destruct p as [|b ms|b ms|ms|].
  - destruct t as [[]| |]; try done. by apply shape_open.
  - by apply shape_drawing.
  - by apply shape_drawn.
  - by apply shape_corner.
  - destruct H as (l1 & l2 & -> & H). exists l1, (l2 ++ [t]). by rewrite app_assoc.
Qed.
Lemma track_sound ts : shape (foldl (track tol x_len) Idle ts) ts.
Proof.
  induction ts as [|t ts IH] using rev_ind; [done|]. rewrite foldl_app. by apply shape_track.
Qed.

(** *** Complete: what is accepted *)
Lemma steady_prefix b l1 l2 : steady tol b (l1 ++ l2) -> steady tol b l1.
Proof.
  induction l2 as [|m l2 IH] using rev_ind; [by rewrite app_nil_r|]. rewrite app_assoc. intros [H _]%steady_snoc. by apply IH.
Qed.
Lemma draw_moves b ms : forall ms0, ms <> [] -> line tol x_len b (ms0 ++ ms) ->
  foldl (track tol x_len) (Drawing b ms0) (Move <$> ms) = Drawn b [].
Proof.
  induction ms as [|m ms IH]; intros ms0 Hne Hl; [done|]. cbn [fmap list_fmap foldl track].
  assert (steady tol b (ms0 ++ [m])) as Hs.
  { apply (steady_prefix _ _ ms). rewrite <- app_assoc. apply Hl. }
  rewrite (proj2 (proj1 (steady_snoc _ _ _) Hs)). destruct ms as [|m' ms].
  - destruct Hl as [_ _ Hlong _ Hend]. destruct (Z.leb_spec x_len (total fst (ms0 ++ [m]))); [|lia].
    by rewrite (proj2 (ends_steep_true _ _) Hend).
  - pose proof (ln_first _ _ _ _ Hl (S (length ms0))) as Hf.
    replace (take (S (length ms0)) (ms0 ++ m :: m' :: ms)) with (ms0 ++ [m]) in Hf.
    2: { rewrite take_app_ge by lia. by replace (S (length ms0) - length ms0)%nat with 1%nat by lia. }
    rewrite length_app in Hf. cbn [length] in Hf. destruct (Z.leb_spec x_len (total fst (ms0 ++ [m]))); [lia|].
    apply IH; [done|]. by rewrite <- app_assoc.
Qed.
Lemma drawn_moves b ms : forall ms0, steady tol b (ms0 ++ ms) ->
  foldl (track tol x_len) (Drawn b ms0) (Move <$> ms) = Drawn b (ms0 ++ ms).
Proof.
  induction ms as [|m ms IH]; intros ms0 Hs; [by rewrite app_nil_r|]. cbn [fmap list_fmap foldl track].
  replace (ms0 ++ m :: ms) with ((ms0 ++ [m]) ++ ms) in * by by rewrite <- app_assoc.
  rewrite (proj2 (proj1 (steady_snoc _ _ _) (steady_prefix _ _ _ Hs))). by apply IH.
Qed.
Lemma corner_moves ms : forall ms0, corner tol (ms0 ++ ms) ->
  foldl (track tol x_len) (Corner ms0) (Move <$> ms) = Corner (ms0 ++ ms).
Proof.
  induction ms as [|m ms IH]; intros ms0 Hc; [by rewrite app_nil_r|]. cbn [fmap list_fmap foldl track].
  replace (ms0 ++ m :: ms) with ((ms0 ++ [m]) ++ ms) in * by by rewrite <- app_assoc.
  rewrite (proj2 (corner_snoc _ _)); [by apply IH|]. destruct Hc as [Hx Hy]. rewrite !total_app in Hx, Hy.
  pose proof (total_nonneg (fun m => Z.abs m.1) ms ltac:(intros; lia)).
  pose proof (total_nonneg (fun m => Z.abs m.2) ms ltac:(intros; lia)). rewrite <- total_app in Hx, Hy. split; lia.
Qed.

(** A gesture without false starts, other buttons or pauses. *)
Record clean (ms1 ms2 ms3 ms4 ms5 : list move) : Prop := mk_clean {
  cl_up : line tol x_len LB ms1;
  cl_after_up : steady tol LB ms2;
  cl_corner : corner tol ms3;
  cl_down : line tol x_len RB ms4;
  cl_after_down : steady tol RB ms5;
}.
Definition drawn_as (ms1 ms2 ms3 ms4 ms5 : list move) : list token :=
  [Press LB] ++ (Move <$> ms1) ++ (Move <$> ms2) ++ [Release LB] ++ (Move <$> ms3) ++
  [Press RB] ++ (Move <$> ms4) ++ (Move <$> ms5) ++ [Release RB].
Lemma track_complete ms1 ms2 ms3 ms4 ms5 : clean ms1 ms2 ms3 ms4 ms5 ->
  foldl (track tol x_len) Idle (drawn_as ms1 ms2 ms3 ms4 ms5) = Finished.
Proof.
  intros [H1 H2 H3 H4 H5]. unfold drawn_as. rewrite !foldl_app. cbn [foldl track].
  rewrite (draw_moves LB ms1 []) by (apply H1 || done). rewrite (drawn_moves LB ms2 []) by done.
  cbn [app foldl track]. rewrite decide_True by done. rewrite (corner_moves ms3 []) by done. cbn [app foldl track]. rewrite (draw_moves RB ms4 []) by (apply H4 || done).
  rewrite (drawn_moves RB ms5 []) by done. cbn [app foldl track]. by rewrite decide_True.
Qed.
End Language.

(** ** The gesture is recognised *)

(** C6: the gesture of the fourth exercise is recognised: on the packets of a
    mouse, as many as no displacement can overflow with, the state machine of
    [mouse_state.c] is in the state of an abstract recogniser over the
    movements since its last reset; it reaches [EXIT] only if the packets begin
    with a gesture (left button, a steady line up that is long enough, steady
    until the release, a corner within the tolerance, the same on the right
    button downwards, release), and it does reach [EXIT] on every gesture drawn
    without false starts while the machine is idle. *)
Theorem gesture_recognised tol x_len pkts : 0 <= tol < 256 -> Forall (fun pkt => small (pkt_move pkt)) pkts ->
  256 * alen pkts <= INT_MAX ->
  wp (init_data ;;; handle_packets tol x_len pkts) (fun _ s =>
    let ts := tokens false false pkts in
    currState s = phase_state (foldl (track tol x_len) Idle ts) /\
    (currState s = EXIT -> exists ts1 ts2, ts = ts1 ++ ts2 /\ gesture tol x_len ts1) /\
    (forall pre ms1 ms2 ms3 ms4 ms5 rest, ts = pre ++ drawn_as ms1 ms2 ms3 ms4 ms5 ++ rest ->
       foldl (track tol x_len) Idle pre = Idle -> clean tol x_len ms1 ms2 ms3 ms4 ms5 -> currState s = EXIT))
    zero_mouse_state.
Proof.
  intros Htol Hp Hmax. wp_step. unfold init_data. wp_step.
  eapply wp_mono; [apply (handle_packets_tracks tol x_len Htol pkts false false Idle 0)|].
  - by split; [..|split; cbn; lia|split].
  - done.
  - done.
  - lia.
  - intros [] s E. cbv zeta. rewrite E. split; [done|]. split.
    + pose proof (track_sound tol x_len (proj1 Htol) (tokens false false pkts)) as Hs. intros Hexit.
      destruct (foldl _ _ _) as [|[]|[]| |]; try discriminate Hexit. exact Hs.
    + intros pre ms1 ms2 ms3 ms4 ms5 rest -> Hpre Hc. rewrite !foldl_app, Hpre.
      rewrite (track_complete tol x_len ms1 ms2 ms3 ms4 ms5 Hc). by rewrite track_done.
Qed.

(** Up to the right with the left button, down to the right with the right one. *)
Definition drawn_gesture : list packet :=
  [parse_packet 9 0 0] ++ replicate 21 (parse_packet 9 3 5) ++ [parse_packet 8 0 0; parse_packet 8 1 1; parse_packet 10 0 0] ++
  replicate 20 (parse_packet 42 3 251) ++ [parse_packet 8 0 0].
Lemma gesture_recognised_witness :
  wp (init_data ;;; handle_packets 10 60 drawn_gesture) (fun _ s => currState s = EXIT) zero_mouse_state.
Proof.
  eapply wp_mono; [apply (gesture_recognised 10 60 drawn_gesture)|].
  - lia.
  - repeat constructor; vm_compute; discriminate.
  - vm_compute. discriminate.
  - intros [] s [-> _]. vm_compute. reflexivity.
Defined.
