(* ===== verification/Lab4.v ===== *)
(** * Lab4

    The fourth exercise, a program of its own: its driver of the keyboard
    controller, [src/lab4/kbc.c], and its tests of the mouse,
    [src/lab4/lab4.c], around the gesture of [Gesture].  What a test prints of
    a packet is the list [printed]. *)

From S2P Require Import Prelude Hardware Kbc Controls Labs Gesture.

(** ** Constants of [i8042.h] *)
Definition KBC_STAT_REG : Z := 0x64.
Definition WAIT_KBC : Z := 20000.
Definition KBC_READ_CMD : Z := 0x20.
Definition KBC_TRIES_TIMEOUT : Z := 101.
Definition REQUEST_DATA : Z := 0xEB.

(** ** The statics of [kbc.c], [timer.c] and [mouse_state.c] *)
Record lab4 (D : Type) : Type := mk_lab4 {
  l4_hw : hw D;
  kb_subscription : ptr Z;
  mouse_subscription : ptr Z;
  validByte : bool;
  lastByte : Z;
  timer_subscription : Z;
  timeCounter : Z;
  l4_gesture : mouse_state;
  printed : list packet;
  l4_mallocs : list bool;
}.
Arguments mk_lab4 {D}.
Arguments l4_hw {D}.
Arguments kb_subscription {D}.
Arguments mouse_subscription {D}.
Arguments validByte {D}.
Arguments lastByte {D}.
Arguments timer_subscription {D}.
Arguments timeCounter {D}.
Arguments l4_gesture {D}.
Arguments printed {D}.
Arguments l4_mallocs {D}.
#[global] Instance eta_lab4 {D} : Eta (lab4 D) := fun s =>
  mk_lab4 (l4_hw s) (kb_subscription s) (mouse_subscription s) (validByte s) (lastByte s)
    (timer_subscription s) (timeCounter s) (l4_gesture s) (printed s) (l4_mallocs s).

Section Lab4.
Context {D : Type} `{!Device D}.
Abbreviation L := (lab4 D).

Definition l4_on_hw {A} (m : prog (hw D) A) : prog L A := zoom l4_hw (fun h s => s <| l4_hw := h |>) m.
Definition l4_on_gesture {A} (m : prog mouse_state A) : prog L A :=
  zoom l4_gesture (fun g s => s <| l4_gesture := g |>) m.

(** An [int] on the heap: [malloc], then the value. *)
Definition new_int (v : Z) : prog L (ptr Z) := fun s =>
  match l4_mallocs s with
  | false :: _ => Undef
  | _ => Done (Live v, s <| l4_mallocs ::= tail |>)
  end.

(** *** Subscriptions *)

(** [*hook_id = KB_HOOK_ID; ...]: the error code and [*hook_id]. *)
Definition kb_subscribe_int : prog L (Z * Z) :=
  let hook_id := KB_HOOK_ID in
  p <- new_int hook_id ;;
  modify (fun s => s <| kb_subscription := p |>) ;;;
  '(err, hook) <- l4_on_hw (sys_irqsetpolicy KB_IRQ (Z.lor IRQ_REENABLE IRQ_EXCLUSIVE) hook_id) ;;
  modify (fun s => s <| kb_subscription := Live hook |>) ;;;
  ret (err, hook_id).
Definition mouse_subscribe_int : prog L (Z * Z) :=
  let hook_id := MOUSE_HOOK_ID in
  p <- new_int hook_id ;;
  modify (fun s => s <| mouse_subscription := p |>) ;;;
  '(err, hook) <- l4_on_hw (sys_irqsetpolicy MOUSE_IRQ (Z.lor IRQ_REENABLE IRQ_EXCLUSIVE) hook_id) ;;
  modify (fun s => s <| mouse_subscription := Live hook |>) ;;;
  ret (err, hook_id).
Definition kb_unsubscribe_int : prog L Z :=
  p <- gets kb_subscription ;;
  hook <- defined (deref p) ;;
  err <- l4_on_hw (sys_irqrmpolicy hook) ;;
  modify (fun s => s <| kb_subscription := Null |>) ;;;
  ret err.
Definition mouse_unsubscribe_int : prog L Z :=
  p <- gets mouse_subscription ;;
  hook <- defined (deref p) ;;
  err <- l4_on_hw (sys_irqrmpolicy hook) ;;
  modify (fun s => s <| mouse_subscription := Null |>) ;;;
  ret err.

(** [if(p != NULL) err = call(p);] *)
Definition if_subscribed (p : ptr Z) (call : Z -> prog (hw D) Z) (err : Z) : prog L Z :=
  match p with
  | Null => ret err
  | _ => hook <- defined (deref p) ;; l4_on_hw (call hook)
  end.
Definition kbc_disable_int : prog L Z :=
  mouse <- gets mouse_subscription ;;
  err <- if_subscribed mouse sys_irqdisable OK ;;
  kb <- gets kb_subscription ;;
  if_subscribed kb sys_irqdisable err.
Definition kbc_enable_int : prog L Z :=
  mouse <- gets mouse_subscription ;;
  err <- if_subscribed mouse sys_irqenable OK ;;
  kb <- gets kb_subscription ;;
  if_subscribed kb sys_irqenable err.

(** *** The status and the handlers *)

(** [check_kbc_status(mask, &checkBuffer)]: the result and what
    [*checkBuffer] holds afterwards. *)
Definition check_kbc_status (mask : Z) (checkBuffer : bool) : prog L (Z * bool) :=
  '(err, sb) <- l4_on_hw (util_sys_inb KBC_STAT_REG 0) ;;
  if negb (err =? 0) then ret (err, checkBuffer) else
  ret (Z.land sb mask, if checkBuffer then has_bits sb KBC_OUT_BUFFER_FULL else false).

(** An automatic [bool] before its first assignment.  Its address is passed to
    [check_kbc_status], which reads it: an indeterminate value, which on this
    machine is the byte the stack holds, taken as true when it is not 0. *)
Definition uninit_bool : prog (hw D) bool := b <- uninit_byte ;; ret (negb (b =? 0)).

Definition kbc_ih : prog L unit :=
  let mask := Z.lor KBC_PARITY_ERR KBC_TIMEOUT_ERR in
  modify (fun s => s <| lastByte := 0 |> <| validByte := false |>) ;;;
  checkOutBuff <- l4_on_hw uninit_bool ;;
  '(val, checkOutBuff) <- check_kbc_status mask checkOutBuff ;;
  if (checkOutBuff : bool) then
    byte <- l4_on_hw uninit_byte ;;
    '(err, byte) <- l4_on_hw (util_sys_inb KBC_OUT_BUF byte) ;;
    if (err =? OK) && (val =? OK)
    then modify (fun s => s <| lastByte := byte |> <| validByte := true |>) else ret tt
  else ret tt.
Definition mouse_poll_handler : prog L unit :=
  let mask := Z.lor (Z.lor KBC_PARITY_ERR KBC_TIMEOUT_ERR) KBC_AUX in
  modify (fun s => s <| lastByte := 0 |> <| validByte := false |>) ;;;
  checkOutBuff <- l4_on_hw uninit_bool ;;
  '(val, checkOutBuff) <- check_kbc_status mask checkOutBuff ;;
  if (checkOutBuff : bool) then
    byte <- l4_on_hw uninit_byte ;;
    '(err, byte) <- l4_on_hw (util_sys_inb KBC_OUT_BUF byte) ;;
    if (err =? OK) && (val =? KBC_AUX)
    then modify (fun s => s <| lastByte := byte |> <| validByte := true |>) else ret tt
  else ret tt.
Definition mouse_ih : prog L unit := kbc_ih.

(** *** Commands *)

(** The loop that waits for room in the input buffer before a write. *)
Definition write_when_ready (port byte otherwise : Z) : prog L Z :=
  retry KBC_MAX_TRIES
    ('(st, _) <- check_kbc_status KBC_IN_BUFFER_FULL false ;;
     if st =? OK then err <- l4_on_hw (sys_outb port byte) ;; ret (Some err)
     else l4_on_hw (delay WAIT_KBC) ;;; ret None) otherwise.
Definition issue_kbc_command (command : Z) : prog L Z := write_when_ready KBC_IN_BUF command KBC_TRIES_TIMEOUT.

(** [read_kbc_return(&value)]: the result and [*value]. *)
Definition read_kbc_return (value : Z) : prog L (Z * Z) :=
  rerr <- kbc_disable_int ;;
  if negb (rerr =? OK) then ret (rerr, value) else
  value <- retry KBC_MAX_TRIES
    (l4_on_hw (delay WAIT_KBC) ;;;
     '(st, output_buf) <- check_kbc_status (Z.lor KBC_PARITY_ERR KBC_TIMEOUT_ERR) true ;;
     if (st =? OK) && output_buf then
       '(_, value) <- l4_on_hw (util_sys_inb KBC_OUT_BUF value) ;; ret (Some value)
     else ret None) value ;;
  err <- kbc_enable_int ;;
  ret (err, value).

Definition write_kbc_command_byte (command_byte : Z) : prog L Z :=
  err <- issue_kbc_command KBC_WRITE_CMD ;;
  if negb (err =? OK) then ret err else write_when_ready KBC_OUT_BUF command_byte KBC_TIMEOUT_ERR.
Definition reset_cmd_byte : prog L Z :=
  normal_status <- l4_on_hw minix_get_dflt_kbc_cmd_byte ;; write_kbc_command_byte normal_status.
Definition read_kbc_command_byte (command_byte : Z) : prog L (Z * Z) :=
  err <- issue_kbc_command KBC_READ_CMD ;;
  if negb (err =? OK) then ret (err, command_byte) else read_kbc_return command_byte.
Definition write_mouse_command_byte (cmd : Z) : prog L Z :=
  err <- issue_kbc_command MOUSE_WRITE_CMD ;;
  if negb (err =? OK) then ret err else write_when_ready KBC_OUT_BUF cmd KBC_TIMEOUT_ERR.

(** The loop that [ms_toggle_data_rep] and [ms_cmd_arg] share: how it ends. *)
Inductive command_end : Type := Acknowledged | Refused (err : Z) | TriedEnough.
Definition command_round (cmd : Z) (s : nat * Z) : prog L ((nat * Z) + command_end) :=
  let '(tries, cmd_response) := s in
  match tries with
  | O => ret (inr TriedEnough)
  | Datatypes.S tries =>
      err <- write_mouse_command_byte cmd ;;
      if negb (err =? OK) then ret (inr (Refused err)) else
      '(err, cmd_response) <- read_kbc_return cmd_response ;;
      if negb (err =? OK) then ret (inr (Refused err)) else
      if cmd_response =? ACK then ret (inr Acknowledged) else
      l4_on_hw (delay WAIT_KBC) ;;;
      ret (inl (tries, cmd_response))
  end.
Definition command_loop (cmd : Z) : prog L command_end :=
  cmd_response <- l4_on_hw uninit_byte ;;
  iterate (Datatypes.S KBC_MAX_TRIES) (command_round cmd) (KBC_MAX_TRIES, cmd_response).

Definition ms_toggle_data_rep (cmd : Z) : prog L Z :=
  r <- command_loop cmd ;;
  ret (match r with Acknowledged => OK | Refused err => err | TriedEnough => KBC_TRIES_TIMEOUT end).
Definition request_data_packet : prog L Z := ms_toggle_data_rep REQUEST_DATA.
Definition ms_enable_data_rep : prog L Z := ms_toggle_data_rep ENABLE_DATA_REPORT.
Definition ms_disable_data_rep : prog L Z := ms_toggle_data_rep DISABLE_DATA_REPORT.

Definition ms_cmd_arg (cmd : Z) : prog L Z :=
  err <- ms_disable_data_rep ;;
  if negb (err =? OK) then ret err else
  r <- command_loop cmd ;;
  match r with
  | Acknowledged => ms_enable_data_rep
  | Refused err => ret err
  | TriedEnough =>
      err <- ms_enable_data_rep ;;
      if negb (err =? OK) then ret err else ret KBC_TRIES_TIMEOUT
  end.
Definition enable_stream_mode : prog L Z := ms_cmd_arg SET_STREAM_MODE.
Definition enable_remote_mode : prog L Z := ms_cmd_arg SET_REMOTE_MODE.
Definition ms_set_default : prog L Z := ms_cmd_arg SET_DEFAULTS.

(** The loop of [ms_cmd_with_args]. *)
Fixpoint send_args (args : list Z) (ret_val : Z) : prog L unit :=
  match args with
  | [] => ret tt
  | a :: args =>
      _ <- write_mouse_command_byte a ;;
      '(_, ret_val) <- read_kbc_return ret_val ;;
      send_args args ret_val
  end.
Definition ms_cmd_with_args (cmd : Z) (args : list Z) : prog L Z :=
  _ <- write_mouse_command_byte cmd ;;
  ret_val <- l4_on_hw uninit_byte ;;
  '(_, ret_val) <- read_kbc_return ret_val ;;
  send_args args ret_val ;;;
  ret OK.

(** [ms_cmd_return(cmd, return_val, size)] on the [size] bytes [vals] of
    [return_val]: the result and what they hold. *)
Fixpoint read_returns (vals : list Z) : prog L (Z * list Z) :=
  match vals with
  | [] => ret (OK, [])
  | v :: vals =>
      '(err, v) <- read_kbc_return v ;;
      if negb (err =? OK) then ret (2, v :: vals) else
      '(err, vals) <- read_returns vals ;; ret (err, v :: vals)
  end.
Definition ms_cmd_return (cmd : Z) (vals : list Z) : prog L (Z * list Z) :=
  err <- write_mouse_command_byte cmd ;;
  if negb (err =? OK) then ret (err, vals) else
  st <- l4_on_hw uninit_byte ;;
  '(_, st) <- read_kbc_return st ;;
  if negb (st =? ACK) then ret (1, vals) else read_returns vals.

(** *** The timer of [timer.c] *)
Definition timer_subscribe_int : prog L (Z * Z) :=
  '(err, hook) <- l4_on_hw (sys_irqsetpolicy 0 IRQ_REENABLE 0) ;;
  modify (fun s => s <| timer_subscription := hook |>) ;;;
  ret (err, 0).
Definition timer_int_handler : prog L unit :=
  t <- gets timeCounter ;;
  t <- defined (add_int32 t 1) ;;
  modify (fun s => s <| timeCounter := t |>).

(** *** Packets out of bytes *)
Definition mouse_print_packet (pkt : packet) : prog L unit := modify (fun s => s <| printed ::= (fun l => l ++ [pkt]) |>).

(** The locals [counter] and [packet_storage] of a test. *)
Record assembly : Type := mk_assembly { counter : Z; packet_storage : list Z }.
Definition new_assembly : prog L assembly := b <- l4_on_hw uninit_byte ;; ret (mk_assembly 0 [b; b; b]).

(** The interrupt of the mouse: the locals, and whether the byte was dropped with
    a [break] out of the [switch], stored, or completed a packet. *)
Inductive byte_end : Type := Dropped | Stored | Complete (pkt : packet).
Definition mouse_interrupt (a : assembly) : prog L (assembly * byte_end) :=
  mouse_ih ;;;
  valid <- gets validByte ;;
  if negb valid then ret (mk_assembly 0 (packet_storage a), Dropped) else
  byte <- gets lastByte ;;
  if (counter a =? 0) && negb (has_bits byte MOUSE_FIRST_BIT) then ret (a, Dropped) else
  st <- defined (aset (packet_storage a) (counter a) byte) ;;
  let a := mk_assembly (u8 (counter a + 1)) st in
  if counter a =? 3 then
    match st with
    | [b0; b1; b2] =>
        mouse_print_packet (parse_packet b0 b1 b2) ;;;
        ret (mk_assembly 0 st, Complete (parse_packet b0 b1 b2))
    | _ => undef
    end
  else ret (a, Stored).

(** What surrounds the loops: the subscription of the mouse and its modes, and
    the way back. [None]: still waiting. *)
Definition with_mouse (subscribed : prog L (Z + Z)) (loop : Z -> Z -> prog L loop_end) : prog L (option Z) :=
  '(err, bit_no) <- mouse_subscribe_int ;;
  if negb (err =? OK) then ret (Some err) else
  other <- subscribed ;;
  match other with
  | inl err => ret (Some err)
  | inr timer_irq =>
      err <- ms_enable_data_rep ;;
      if negb (err =? 0) then ret (Some err) else
      err <- enable_stream_mode ;;
      if negb (err =? 0) then ret (Some err) else
      e <- loop (BIT bit_no) timer_irq ;;
      match e with
      | Waiting => ret None
      | Returned r => ret (Some r)
      | Left =>
          err <- mouse_unsubscribe_int ;;
          if negb (err =? 0) then ret (Some err) else
          err <- ms_disable_data_rep ;;
          if negb (err =? 0) then ret (Some err) else ret (Some OK)
      end
  end.

(** [mouse_test_packet(cnt)]; the locals are [cur_cnt] and the bytes. *)
Definition mouse_test_packet (cnt : Z) (msgs : list arrival) : prog L (option Z) :=
  a <- new_assembly ;;
  with_mouse (ret (inr 0)) (fun irq_set _ =>
    receive_loop Returns (fun x : Z * assembly => ret (x.1 <? cnt))
      (fun mask '((cur_cnt, a) : Z * assembly) =>
         if has_bits mask irq_set then
           '(a, pkt) <- mouse_interrupt a ;;
           ret (match pkt with Complete _ => u32 (cur_cnt + 1) | _ => cur_cnt end, a)
         else ret (cur_cnt, a)) (0, a) msgs).

(** [mouse_test_async(idle_time)] *)
Definition mouse_test_async (idle_time : Z) (msgs : list arrival) : prog L (option Z) :=
  a <- new_assembly ;;
  with_mouse
    ('(err, bit_no) <- timer_subscribe_int ;;
     if negb (err =? OK) then ret (inl err) else ret (inr (BIT bit_no)))
    (fun mouse_irq timer_irq =>
       receive_loop Returns (fun _ : assembly => t <- gets timeCounter ;; ret (t <? idle_time * 60))
         (fun mask a =>
            '(a, dropped) <- (if has_bits mask mouse_irq then
                '(a, pkt) <- mouse_interrupt a ;;
                match pkt with
                | Dropped => ret (a, true)
                | Stored => ret (a, false)
                | Complete _ => modify (fun s => s <| timeCounter := 0 |>) ;;; ret (a, false)
                end
              else ret (a, false)) ;;
            (if (dropped : bool) then ret tt else if has_bits mask timer_irq then timer_int_handler else ret tt) ;;;
            ret a) a msgs).

(** [mouse_test_gesture(xlen, tolerance)]; the locals are [result] and the
    bytes. *)
Definition gesture_interrupt (xlen tolerance irq_set mask : Z) (x : states * assembly) : prog L (states * assembly) :=
  let '(result, a) := x in
  if has_bits mask irq_set then
    '(a, pkt) <- mouse_interrupt a ;;
    match pkt with
    | Complete pkt => result <- l4_on_gesture (handle_mouse_event pkt tolerance xlen) ;; ret (result, a)
    | _ => ret (result, a)
    end
  else ret (result, a).
Definition gesture_loop (xlen tolerance irq_set : Z) : states * assembly -> list arrival -> prog L loop_end :=
  receive_loop Returns (fun x : states * assembly => ret (negb (bool_decide (x.1 = EXIT)))) (gesture_interrupt xlen tolerance irq_set).
Definition mouse_test_gesture (xlen tolerance : Z) (msgs : list arrival) : prog L (option Z) :=
  a <- new_assembly ;;
  with_mouse (ret (inr 0)) (fun irq_set _ =>
    l4_on_gesture init_data ;;;
    gesture_loop xlen tolerance irq_set (INITIAL, a) msgs).

(** [mouse_test_remote(period, cnt)]: the mouse is polled, [fuel] bounds the
    rounds of each of its two loops. *)
Definition remote_byte (x : Z * list Z) : prog L ((Z * list Z) + unit) :=
  let '(iter, st) := x in
  if 3 <=? iter then ret (inr tt) else
  mouse_poll_handler ;;;
  valid <- gets validByte ;;
  if negb valid then ret (inl (iter, st)) else
  byte <- gets lastByte ;;
  if (iter =? 0) && negb (has_bits byte MOUSE_FIRST_BIT) then ret (inl (iter, st)) else
  st <- defined (aset st iter byte) ;;
  (if iter =? 2 then
     match st with [b0; b1; b2] => mouse_print_packet (parse_packet b0 b1 b2) | _ => undef end
   else ret tt) ;;;
  l4_on_hw (delay WAIT_KBC) ;;;
  ret (inl (iter + 1, st)).
Definition remote_packet (fuel : nat) (period cnt numPackets : Z) : prog L (Z + unit) :=
  if cnt <=? numPackets then ret (inr tt) else
  r <- request_data_packet ;;
  if negb (r =? OK) then ret (inl numPackets) else
  b <- l4_on_hw uninit_byte ;;
  iterate fuel remote_byte (0, [b; b; b]) ;;;
  l4_on_hw (delay (period * 1000)) ;;;
  ret (inl (u8 (numPackets + 1))).
Definition mouse_test_remote (fuel : nat) (period cnt : Z) : prog L Z :=
  iterate fuel (remote_packet fuel period cnt) 0 ;;;
  err <- ms_disable_data_rep ;;
  if negb (err =? OK) then ret err else
  err <- enable_stream_mode ;;
  if negb (err =? OK) then ret err else
  err <- ms_set_default ;;
  if negb (err =? OK) then ret err else reset_cmd_byte.
End Lab4.

(** ** A command that is never answered *)
Section Silence.
Context {D : Type} `{!Device D}.
Abbreviation L := (lab4 D).
Implicit Types s : L.

(** A controller that accepts every byte and never has one; [g] is what the
    stack holds. *)
Record silent (I : D -> Prop) (g : Z) : Prop := mk_silent {
  si_status d : I d -> exists v d', dev_inb KBC_STAT_REG d = ((0, v), d') /\ I d' /\
    Z.land (u8 v) KBC_IN_BUFFER_FULL = 0 /\ has_bits (u8 v) KBC_OUT_BUFFER_FULL = false;
  si_write port v d : I d -> exists d', dev_outb port v d = (0, d') /\ I d';
  si_wait us d : I d -> I (dev_wait us d);
  si_enable hook d : I d -> exists d', dev_irqenable hook d = (0, d') /\ I d';
  si_disable hook d : I d -> exists d', dev_irqdisable hook d = (0, d') /\ I d';
  si_garbage d : I d -> u8 (dev_garbage d) = g;
}.
Variables (I : D -> Prop) (g : Z).
Hypothesis Hsi : silent I g.
Definition quiet s : Prop := I (dev (l4_hw s)) /\ kb_subscription s <> Freed /\ mouse_subscription s <> Freed.

Lemma check_quiet mask b s (Q : Z * bool -> L -> Prop) : quiet s ->
  (forall v s', quiet s' -> Z.land v KBC_IN_BUFFER_FULL = 0 -> Q (Z.land v mask, false) s') -> wp (check_kbc_status mask b) Q s.
Proof.
  intros [Hd Hs] HQ. unfold check_kbc_status. wp_step. unfold l4_on_hw. apply wp_zoom. unfold util_sys_inb. wp_step.
  destruct (si_status _ _ Hsi _ Hd) as (v & d' & E & Hd' & Hin & Hout).
  unfold wp at 1, sys_inb. rewrite E. cbn [negb Z.eqb]. wp_steps. cbn [negb Z.eqb]. wp_step.
  replace (if b then has_bits (u8 v) KBC_OUT_BUFFER_FULL else false) with false by by destruct b.
  by apply HQ.
Qed.
Lemma ready_quiet port byte otherwise s (Q : Z -> L -> Prop) : quiet s ->
  (forall s', quiet s' -> Q 0 s') -> wp (write_when_ready port byte otherwise) Q s.
Proof.
  intros Hs HQ. unfold write_when_ready, KBC_MAX_TRIES. cbn [retry]. do 2 wp_step. apply check_quiet; [done|].
  intros v s' Hs' Hv. cbn beta iota. rewrite Hv. cbn [Z.eqb OK]. wp_step. unfold l4_on_hw. apply wp_zoom.
  destruct Hs' as [Hd Hr]. destruct (si_write _ _ Hsi port byte _ Hd) as (d' & E & Hd').
  unfold wp, sys_outb. rewrite E. cbn. by apply HQ.
Qed.
(** The lines of the two subscriptions are switched. *)
Lemma switch_quiet (call : Z -> prog (hw D) Z) p s (Q : Z -> L -> Prop) :
  (forall hook h, I (dev h) -> wp (call hook) (fun r h' => r = 0 /\ I (dev h')) h) ->
  quiet s -> p <> Freed -> (forall s', quiet s' -> Q OK s') -> wp (if_subscribed p call OK) Q s.
Proof.
  intros Hc [Hd Hr] Hp HQ. destruct p as [|hook|]; [| |done]; cbn [if_subscribed deref defined]; wp_step; [by apply HQ|]. wp_step.
  unfold l4_on_hw. apply wp_zoom. eapply wp_mono; [by apply Hc|]. intros r h' [-> Hd']. by apply HQ.
Qed.
Lemma disable_silent hook (h : hw D) : I (dev h) -> wp (sys_irqdisable hook) (fun r h' => r = 0 /\ I (dev h')) h.
Proof. intros Hd. destruct (si_disable _ _ Hsi hook _ Hd) as (d' & E & Hd'). unfold wp, sys_irqdisable. by rewrite E. Qed.
Lemma enable_silent hook (h : hw D) : I (dev h) -> wp (sys_irqenable hook) (fun r h' => r = 0 /\ I (dev h')) h.
Proof. intros Hd. destruct (si_enable _ _ Hsi hook _ Hd) as (d' & E & Hd'). unfold wp, sys_irqenable. by rewrite E. Qed.
Lemma lines_quiet call m s (Q : Z -> L -> Prop) :
  (call, m) = (sys_irqdisable, kbc_disable_int) \/ (call, m) = (sys_irqenable, kbc_enable_int) ->
  quiet s -> (forall s', quiet s' -> Q OK s') -> wp m Q s.
Proof.
  intros Hm Hs HQ.
  assert (forall hook h, I (dev h) -> wp (call hook) (fun r h' => r = 0 /\ I (dev h')) h) as Hc
    by (destruct Hm as [[= -> ->]|[= -> ->]]; [apply disable_silent|apply enable_silent]).
  assert (m = (mouse <- gets mouse_subscription ;; err <- if_subscribed mouse call OK ;;
    kb <- gets kb_subscription ;; if_subscribed kb call err)) as -> by (by destruct Hm as [[= -> ->]|[= -> ->]]).
  do 2 wp_step. wp_step. eapply switch_quiet; [done|done|apply Hs|]. intros s1 Hs1. do 2 wp_step.
  eapply switch_quiet; [done|done|apply Hs1|done].
Qed.
Lemma delay_quiet us s (Q : unit -> L -> Prop) : quiet s -> (forall s', quiet s' -> Q tt s') -> wp (l4_on_hw (delay us)) Q s.
Proof. intros [Hd Hr] HQ. unfold l4_on_hw. apply wp_zoom. unfold wp, delay. apply HQ. split; [by apply (si_wait _ _ Hsi)|done]. Qed.

Lemma read_quiet value s (Q : Z * Z -> L -> Prop) : quiet s ->
  (forall s', quiet s' -> Q (OK, value) s') -> wp (read_kbc_return value) Q s.
Proof.
  intros Hs HQ. unfold read_kbc_return. wp_step. eapply lines_quiet; [by left|done|]. intros s1 Hs1. cbn [negb Z.eqb OK].
  wp_step. apply (wp_retry _ _ _ (fun _ => quiet)); [| |done].
  - intros _ s2 Hs2. wp_step. apply delay_quiet; [done|]. intros s3 Hs3. wp_step. apply check_quiet; [done|].
    intros v s4 Hs4 _. cbn beta iota. rewrite andb_false_r. by wp_step.
  - intros s2 Hs2. wp_step. eapply lines_quiet; [by right|done|]. intros s3 Hs3. wp_step. by apply HQ.
Qed.
Lemma write_quiet cmd s (Q : Z -> L -> Prop) : quiet s -> (forall s', quiet s' -> Q 0 s') -> wp (write_mouse_command_byte cmd) Q s.
Proof.
  intros Hs HQ. unfold write_mouse_command_byte, issue_kbc_command. wp_step. apply ready_quiet; [done|]. intros s1 Hs1.
  cbn [negb Z.eqb OK]. by apply ready_quiet.
Qed.

(** The driver of the fourth exercise does not notice that the mouse never
    answers: when the controller accepts every byte and never has one to
    read, [read_kbc_return] still returns [OK] and leaves the response
    unassigned, so a command succeeds exactly when the stack happens to hold
    the acknowledgement, and times out after five rounds otherwise. *)
Lemma unanswered_command cmd s : quiet s ->
  wp (ms_toggle_data_rep cmd) (fun r s' => quiet s' /\ r = if g =? ACK then OK else KBC_TRIES_TIMEOUT) s.
Proof.
  intros Hs. unfold ms_toggle_data_rep. wp_step. unfold command_loop. wp_step.
  assert (forall (Q : Z -> L -> Prop), (Q g s) -> wp (l4_on_hw uninit_byte) Q s) as Hg.
  { intros Q HQ. unfold l4_on_hw. apply wp_zoom. unfold uninit_byte. wp_step. rewrite (si_garbage _ _ Hsi _ (proj1 Hs)).
    by destruct s. }
  apply Hg. apply (wp_iterate _ (fun x s' => quiet s' /\ x.2 = g /\ (x.1 = KBC_MAX_TRIES \/ g <> ACK)) (fun x _ => x.1)).
  - intros [tries resp] s1 (Hs1 & E & Ht). cbn in E. subst resp. cbn [command_round]. destruct tries as [|tries].
    + wp_steps. split; [done|]. destruct Ht as [?|Ht]; [done|]. by destruct (Z.eqb_spec g ACK).
    + wp_step. apply write_quiet; [done|]. intros s2 Hs2. cbn [negb Z.eqb OK]. wp_step. apply read_quiet; [done|].
      intros s3 Hs3. cbn [negb Z.eqb OK]. destruct (Z.eqb_spec g ACK) as [E|E]; [by wp_steps|].
      wp_step. apply delay_quiet; [done|]. intros s4 Hs4. wp_step. cbn. split; [|lia]. split; [done|]. split; [done|by right].
  - split; [done|]. split; [done|by left].
  - cbn. lia.
Qed.
End Silence.

(** ** A session with the mouse *)
Section Session.
Context {D : Type} `{!Device D}.
Abbreviation L := (lab4 D).
Implicit Types s : L.
(** What the stack holds where [checkOutBuff] is. *)
Variable junk : Z.
Hypothesis Hstack : forall d : D, u8 (dev_garbage d) = junk.

(** At every interrupt the mouse has the next byte of [bs]. *)
Fixpoint sends (bs : list Z) (d : D) : Prop :=
  match bs with
  | [] => True
  | b :: bs => 0 <= b < 256 /\ exists st d1 d2,
      dev_inb KBC_STAT_REG d = ((0, st), d1) /\ Z.land (u8 st) (Z.lor KBC_PARITY_ERR KBC_TIMEOUT_ERR) = 0 /\
      has_bits (u8 st) KBC_OUT_BUFFER_FULL = true /\ dev_inb KBC_OUT_BUF d1 = ((0, b), d2) /\ sends bs d2
  end.

(** If the stack holds a zero, the handler never reads the byte. *)
Definition status_reads (t : list io) : Prop := Forall (fun e => exists err v, e = In KBC_STAT_REG err v) t.
Lemma gesture_ih_unread s (Q : unit -> L -> Prop) : junk = 0 ->
  (forall h t, trace h = trace (l4_hw s) ++ t -> status_reads t ->
     Q tt (s <| l4_hw := h |> <| lastByte := 0 |> <| validByte := false |>)) -> wp kbc_ih Q s.
Proof.
  intros Hg HQ. unfold kbc_ih. wp_steps. unfold l4_on_hw at 1, uninit_bool. wp_steps. unfold uninit_byte at 1. wp_steps. cbn.
  rewrite Hstack, Hg. cbn [negb Z.eqb]. unfold check_kbc_status, l4_on_hw, util_sys_inb. wp_steps. apply wp_sys_inb. intros err v d.
  assert (status_reads [In KBC_STAT_REG err v]) as Ht by (constructor; [by eexists _, _|constructor]).
  destruct (negb (err =? 0)); wp_steps; [|cbn [negb Z.eqb]; wp_steps]; by eapply (HQ (mk_hw d _) _ eq_refl Ht).
Qed.
Lemma unread_loop xlen tolerance irq n : junk = 0 -> has_bits (BIT 12) irq = true ->
  forall r a s, r <> EXIT ->
  wp (gesture_loop xlen tolerance irq (r, a) (replicate n (Interrupts (BIT 12))))
    (fun e s' => e = Waiting /\ exists t, trace (l4_hw s') = trace (l4_hw s) ++ t /\ status_reads t) s.
Proof.
  intros Hg Hirq. induction n as [|n IH]; intros r a s Hr; unfold gesture_loop; cbn [replicate receive_loop notified];
    do 2 wp_step; cbn [fst]; rewrite bool_decide_false by done; cbn [negb].
  { wp_step. split; [done|]. exists []. rewrite app_nil_r. split; [done|constructor]. }
  wp_step. unfold gesture_interrupt at 1. rewrite Hirq. wp_step. unfold mouse_interrupt, mouse_ih. wp_step.
  apply gesture_ih_unread; [done|]. intros h t Ht Hst. wp_steps. cbn [negb validByte set set_with]. wp_steps.
  eapply wp_mono; [by apply IH|]. intros e s' [-> (t' & Ht' & Hst')]. split; [done|]. exists (t ++ t').
  rewrite Ht', app_assoc. cbn. rewrite Ht. split; [done|]. by apply Forall_app.
Qed.

Hypothesis Hset : junk <> 0.
Lemma mouse_ih_byte b bs s (Q : unit -> L -> Prop) : sends (b :: bs) (dev (l4_hw s)) ->
  (forall h, sends bs (dev h) -> Q tt (s <| l4_hw := h |> <| lastByte := b |> <| validByte := true |>)) -> wp mouse_ih Q s.
Proof.
  intros (Hb & st & d1 & d2 & E1 & Hst & Hfull & E2 & Hs) HQ. unfold mouse_ih, kbc_ih. wp_steps.
  unfold l4_on_hw at 1, uninit_bool. wp_steps. unfold uninit_byte at 1. wp_steps. cbn.
  rewrite Hstack. destruct (Z.eqb_spec junk 0); [done|]. cbn [negb].
  unfold check_kbc_status, l4_on_hw, util_sys_inb. wp_steps. unfold wp at 1, sys_inb at 1. cbn. rewrite E1. cbn [negb Z.eqb].
  wp_steps. cbn [negb Z.eqb]. rewrite Hst, Hfull. wp_steps. unfold uninit_byte. wp_steps.
  unfold wp at 1, sys_inb at 1. cbn. rewrite E2. cbn [negb Z.eqb]. wp_steps. cbn. rewrite (wrap_small 8) by lia. wp_steps. by apply HQ.
Qed.

(** A byte is dropped, stored, or completes a packet. *)
Lemma interrupt_byte b bs a s (Q : assembly * byte_end -> L -> Prop) : sends (b :: bs) (dev (l4_hw s)) ->
  (forall h, let s := s <| l4_hw := h |> <| lastByte := b |> <| validByte := true |> in
   sends bs (dev h) ->
   if (counter a =? 0) && negb (has_bits b MOUSE_FIRST_BIT) then Q (a, Dropped) s
   else wp (st <- defined (aset (packet_storage a) (counter a) b) ;;
      let a := mk_assembly (u8 (counter a + 1)) st in
      if counter a =? 3 then
        match st with
        | [b0; b1; b2] =>
            mouse_print_packet (parse_packet b0 b1 b2) ;;;
            ret (mk_assembly 0 st, Complete (parse_packet b0 b1 b2))
        | _ => undef
        end
      else ret (a, Stored)) Q s) ->
  wp (mouse_interrupt a) Q s.
Proof.
  intros Hs HQ. unfold mouse_interrupt. wp_step. eapply mouse_ih_byte; [exact Hs|]. intros h Hh. wp_steps.
  cbn [negb validByte set set_with].
  do 2 wp_step. cbn [lastByte set set_with]. specialize (HQ h Hh). cbv zeta in HQ.
  destruct ((counter a =? 0) && _); [by wp_step|exact HQ].
Qed.

(** One interrupt of the loop. *)
Section Loop.
Variables (irq xlen tolerance : Z) (msgs : list arrival) (r : states).
Hypotheses (Hirq : has_bits (BIT 12) irq = true) (Hr : r <> EXIT).
Abbreviation loop := (gesture_loop xlen tolerance irq).

Lemma loop_interrupt a s (Q : loop_end -> L -> Prop) :
  wp (mouse_interrupt a) (fun x => wp (match x with
      | (a, Complete pkt) => result <- l4_on_gesture (handle_mouse_event pkt tolerance xlen) ;; ret (result, a)
      | (a, _) => ret (r, a)
      end) (fun x => wp (loop x msgs) Q)) s ->
  wp (loop (r, a) (Interrupts (BIT 12) :: msgs)) Q s.
Proof.
  intros H. unfold gesture_loop. cbn [receive_loop notified]. unfold gesture_interrupt at 1. do 2 wp_step. cbn [fst].
  rewrite bool_decide_false, Hirq by done. cbn [negb]. do 2 wp_step. exact H.
Qed.
Lemma loop_drop b bs a s (Q : loop_end -> L -> Prop) : sends (b :: bs) (dev (l4_hw s)) ->
  counter a = 0 -> has_bits b MOUSE_FIRST_BIT = false ->
  (forall s', sends bs (dev (l4_hw s')) -> l4_gesture s' = l4_gesture s -> wp (loop (r, a) msgs) Q s') ->
  wp (loop (r, a) (Interrupts (BIT 12) :: msgs)) Q s.
Proof.
  intros Hs H0 Hb HQ. apply loop_interrupt. eapply interrupt_byte; [exact Hs|]. cbv zeta. intros h Hh.
  rewrite H0, Hb. cbn. wp_step. by apply HQ.
Qed.
Lemma loop_store b bs c st s (Q : loop_end -> L -> Prop) : sends (b :: bs) (dev (l4_hw s)) ->
  c = 0 /\ has_bits b MOUSE_FIRST_BIT = true \/ c = 1 -> length st = 3%nat ->
  (forall s', sends bs (dev (l4_hw s')) -> l4_gesture s' = l4_gesture s ->
     wp (loop (r, mk_assembly (c + 1) (<[Z.to_nat c := b]> st)) msgs) Q s') ->
  wp (loop (r, mk_assembly c st) (Interrupts (BIT 12) :: msgs)) Q s.
Proof.
  intros Hs Hc Hlen HQ. apply loop_interrupt. eapply interrupt_byte; [exact Hs|]. cbv zeta. intros h Hh. cbn [counter packet_storage].
  replace ((c =? 0) && negb (has_bits b MOUSE_FIRST_BIT)) with false by (by destruct Hc as [[-> ->] | ->]).
  rewrite aset_Some by (unfold alen; lia). cbn [defined]. wp_steps. rewrite (wrap_small 8) by lia.
  destruct (Z.eqb_spec (c + 1) 3); [lia|]. wp_steps. by apply HQ.
Qed.
Lemma loop_packet b0 b1 b2 x bs s (Q : loop_end -> L -> Prop) : sends (b2 :: bs) (dev (l4_hw s)) ->
  wp (handle_mouse_event (parse_packet b0 b1 b2) tolerance xlen) (fun r' g' =>
    forall s', sends bs (dev (l4_hw s')) -> l4_gesture s' = g' ->
      wp (loop (r', mk_assembly 0 [b0; b1; b2]) msgs) Q s') (l4_gesture s) ->
  wp (loop (r, mk_assembly 2 [b0; b1; x]) (Interrupts (BIT 12) :: msgs)) Q s.
Proof.
  intros Hs HQ. apply loop_interrupt. eapply interrupt_byte; [exact Hs|]. cbv zeta. intros h Hh. cbn [counter packet_storage Z.eqb andb].
  rewrite aset_Some by (unfold alen; cbn; lia). cbn [defined].
  change (<[Z.to_nat 2:=b2]> [b0; b1; x]) with [b0; b1; b2]. change (u8 (2 + 1) =? 3) with true. unfold mouse_print_packet.
  do 5 wp_step. unfold l4_on_gesture. wp_steps. eapply wp_mono; [exact HQ|].
  intros r' g' HQ'. wp_steps. by apply HQ'.
Qed.
End Loop.

Lemma packets_small bs : Forall (fun b => 0 <= b < 256) bs -> Forall (fun pkt => small (pkt_move pkt)) (packets bs).
Proof.
  induction bs as [bs IH] using (well_founded_induction (well_founded_ltof _ (@length Z))). intros Hb.
  destruct bs as [|b0 bs]; [done|]. cbn [packets]. apply Forall_cons in Hb as [Hb0 Hb].
  destruct (has_bits b0 MOUSE_FIRST_BIT); [|apply IH; [unfold ltof; cbn; lia|done]].
  destruct bs as [|b1 [|b2 bs]]; [done..|]. apply Forall_cons in Hb as [Hb1 Hb]. apply Forall_cons in Hb as [Hb2 Hb].
  constructor; [|apply IH; [unfold ltof; cbn; lia|done]].
  destruct (parse_packet_delta b0 b1 b2) as (_ & _ & Hx & Hy); [done..|]. split; cbn [pkt_move fst snd]; lia.
Qed.
Lemma packets_fewer bs : alen (packets bs) <= alen bs.
Proof.
  induction bs as [bs IH] using (well_founded_induction (well_founded_ltof _ (@length Z))).
  destruct bs as [|b0 bs]; [done|]. cbn [packets]. rewrite alen_cons.
  destruct (has_bits b0 MOUSE_FIRST_BIT); [|specialize (IH bs ltac:(unfold ltof; cbn; lia)); lia].
  destruct bs as [|b1 [|b2 bs]]; [unfold alen; cbn; lia..|]. rewrite !alen_cons. specialize (IH bs ltac:(unfold ltof; cbn; lia)). lia.
Qed.
Lemma handle_returns pkt tolerance xlen g (Q : states -> mouse_state -> Prop) :
  wp (handle_mouse_event pkt tolerance xlen) Q g ->
  wp (handle_mouse_event pkt tolerance xlen) (fun r g' => r = currState g' /\ Q r g') g.
Proof.
  intros H. unfold handle_mouse_event in *. apply wp_bind in H. wp_step. eapply wp_mono; [exact H|]. intros e g1 H1.
  apply wp_bind in H1. wp_step. eapply wp_mono; [exact H1|]. intros u g2 H2. by wp_step.
Qed.

(** The loop hands the packets of the bytes to the state machine, and ends with
    it. *)
Lemma gesture_loop_packets irq xlen tolerance (P : mouse_state -> Prop) : has_bits (BIT 12) irq = true ->
  forall bs r a s, sends bs (dev (l4_hw s)) -> counter a = 0 -> length (packet_storage a) = 3%nat -> r <> EXIT ->
  currState (l4_gesture s) <> EXIT ->
  wp (handle_packets tolerance xlen (packets bs)) (fun _ => P) (l4_gesture s) ->
  wp (gesture_loop xlen tolerance irq (r, a) (replicate (length bs) (Interrupts (BIT 12))))
    (fun e s' => P (l4_gesture s') /\
       e = if decide (currState (l4_gesture s') = EXIT) then Left else Waiting) s.
Proof.
  intros Hirq bs. induction bs as [bs IH] using (well_founded_induction (well_founded_ltof _ (@length Z))).
  intros r [c st] s Hs H0 Hlen Hr Hst HP. cbn [counter packet_storage] in *. subst c.
  assert (forall a s', l4_gesture s' = l4_gesture s -> packets bs = [] -> wp (gesture_loop xlen tolerance irq (r, a) [])
    (fun e s' => P (l4_gesture s') /\ e = if decide (currState (l4_gesture s') = EXIT) then Left else Waiting) s') as Hwait.
  { intros a s' Es Ep. rewrite Ep in HP. cbn in HP. unfold gesture_loop. cbn [receive_loop notified]. wp_steps. cbn [fst].
    rewrite bool_decide_false by done. cbn [negb]. wp_step. rewrite Es. by rewrite decide_False. }
  destruct bs as [|b0 bs]; [by apply Hwait|]. cbn [packets] in *. cbn [length replicate].
  destruct (has_bits b0 MOUSE_FIRST_BIT) eqn:Hb.
  2: { eapply loop_drop; [done..|]. intros s' Hs' Es. apply IH; [unfold ltof; cbn; lia|done..| |]; by rewrite Es. }
  eapply loop_store; [done|done|exact Hs|by left|done|]. intros s1 Hs1 E1. cbn [Z.add Z.to_nat].
  destruct bs as [|b1 bs]; [by apply Hwait|]. cbn [length replicate].
  eapply loop_store; [done|done|exact Hs1|by right|by rewrite length_insert|]. intros s2 Hs2 E2. rewrite E1 in E2.
  destruct bs as [|b2 bs]; [by apply Hwait|]. cbn [length replicate].
  destruct st as [|x [|y [|z [|]]]]; try discriminate Hlen. cbn.
  eapply loop_packet; [done|done|exact Hs2|]. rewrite E2. cbn [handle_packets] in HP. apply wp_bind in HP.
  eapply wp_mono; [apply (handle_returns _ _ _ _ _ HP)|]. intros r' g' [Er HP'] s3 Hs3 E3.
  destruct (decide (r' = EXIT)) as [E|E].
  - unfold gesture_loop. destruct (length bs); cbn [replicate receive_loop]; wp_steps; cbn [fst];
      rewrite bool_decide_true by done; cbn [negb]; wp_step; rewrite E3, <- Er, decide_True by done; done.
  - apply IH; [unfold ltof; cbn; lia|done..|by rewrite E3, <- Er|by rewrite E3].
Qed.

Lemma sends_bytes bs : forall d, sends bs d -> Forall (fun b => 0 <= b < 256) bs.
Proof.
  induction bs as [|b bs IH]; intros d; [done|]. intros (Hb & _ & _ & d2 & _ & _ & _ & _ & Hs). constructor; [done|by eapply IH].
Qed.
End Session.

(** C36: the session of [mouse_test_gesture] with a mouse whose controller has
    the next of the bytes [bs] at every interrupt, for each value [g] of the
    byte of the stack behind the uninitialised [checkOutBuff] (kbc.c:91), the
    same at every interrupt.  If it is not 0 (the [bool] reads as true), then,
    whatever the bytes, the loop takes them apart into packets (resynchronising
    on the first byte of a packet), and it is left exactly if the recogniser of
    gestures finishes on these packets; otherwise it waits for the next
    interrupt.  If it is 0, no byte is ever read from the controller and the
    loop waits for ever.  (The gesture starts from rest, the tolerance is
    below 256, and there are fewer than 2^23 bytes.) *)
Theorem gesture_session {D} `{!Device D} g xlen tolerance a bs (s : lab4 D) :
  (forall d : D, u8 (dev_garbage d) = g) -> sends bs (dev (l4_hw s)) -> l4_gesture s = zero_mouse_state ->
  counter a = 0 -> length (packet_storage a) = 3%nat -> 0 <= tolerance < 256 -> 256 * alen bs <= INT_MAX ->
  wp (l4_on_gesture init_data ;;;
      gesture_loop xlen tolerance (BIT 12) (INITIAL, a) (replicate (length bs) (Interrupts (BIT 12))))
    (fun e s' =>
       if g =? 0 then e = Waiting /\ exists t, trace (l4_hw s') = trace (l4_hw s) ++ t /\ status_reads t
       else e = if decide (foldl (track tolerance xlen) Idle (tokens false false (packets bs)) = Finished)
                then Left else Waiting) s.
Proof.
  intros Hstack Hs Hg H0 Hlen Htol Hmax. wp_step. unfold l4_on_gesture at 1, init_data. wp_steps.
  destruct (Z.eqb_spec g 0) as [E|E].
  { eapply wp_mono; [by apply (unread_loop g)|]. intros e s' H. exact H. }
  set (p := foldl _ _ _).
  eapply wp_mono; [apply (gesture_loop_packets g Hstack E (BIT 12) xlen tolerance (fun g => currState g = phase_state p) eq_refl bs)|].
  - exact Hs.
  - done.
  - done.
  - done.
  - cbn. by rewrite Hg.
  - pose proof (sends_bytes _ _ Hs) as Hb. pose proof (packets_fewer bs). cbn. rewrite Hg.
    apply (handle_packets_tracks tolerance xlen Htol (packets bs) false false Idle 0); [|by apply packets_small|done|lia].
    by split; [..|split; cbn; lia|split].
  - intros e s' [-> ->]. cbn. destruct p as [|[]|[]| |]; cbn; repeat case_decide; done.
Qed.

(** A machine that never has a byte, with an acknowledgement on the stack. *)
#[local] Instance mute_device (g : Z) : Device unit := {|
  dev_inb _ _ := ((0, 0), tt);
  dev_outb _ _ _ := (0, tt);
  dev_wait _ _ := tt;
  dev_irqsetpolicy _ _ hook _ := ((0, hook), tt);
  dev_irqrmpolicy _ _ := (0, tt);
  dev_irqenable _ _ := (0, tt);
  dev_irqdisable _ _ := (0, tt);
  dev_dflt_kbc_cmd_byte _ := 71;
  dev_garbage _ := g;
|}.
Definition mute_lab4 : lab4 unit :=
  mk_lab4 (mk_hw tt []) Null (Live 12) false 0 0 0 zero_mouse_state [] [].
Lemma unanswered_command_at :
  wp (ms_toggle_data_rep (Device0 := mute_device 0xFA) ENABLE_DATA_REPORT) (fun r _ => r = OK) mute_lab4 /\
  wp (ms_toggle_data_rep (Device0 := mute_device 0) ENABLE_DATA_REPORT) (fun r _ => r = KBC_TRIES_TIMEOUT) mute_lab4.
Proof.
  assert (forall g, 0 <= g < 256 -> silent (Device0 := mute_device g) (fun _ => True) g) as Hs.
  { intros g Hg. split; try (by intros; eexists; split).
    - intros d _. exists 0, tt. by repeat split.
    - intros d _. by apply wrap_small. }
  split.
  - eapply wp_mono; [apply (unanswered_command (Device0 := mute_device 0xFA) (fun _ => True) 0xFA (Hs 0xFA ltac:(lia)) ENABLE_DATA_REPORT mute_lab4)|].
    + by split.
    + intros r s [_ ->]. reflexivity.
  - eapply wp_mono; [apply (unanswered_command (Device0 := mute_device 0) (fun _ => True) 0 (Hs 0 ltac:(lia)) ENABLE_DATA_REPORT mute_lab4)|].
    + by split.
    + intros r s [_ ->]. reflexivity.
Defined.

(** The bytes of a mouse behind a controller that announces each of them. *)
Definition announced (bs : list Z) : script := mk_script (bs ≫= fun b => [(0, 0x21); (0, b)]) [].
Lemma announced_sends bs : Forall (fun b => 0 <= b < 256) bs -> sends bs (announced bs).
Proof.
  induction bs as [|b bs IH]; intros Hb; [done|]. apply Forall_cons in Hb as [Hb Hbs]. split; [done|].
  eexists 0x21, _, (announced bs). split; [reflexivity|]. split; [done|]. split; [done|]. split; [reflexivity|]. by apply IH.
Qed.
(** A byte out of place, then the gesture of [drawn_gesture]. *)
Definition session_bytes : list Z := 3 :: (drawn_gesture ≫= pkt_bytes).
Definition session_start : lab4 script :=
  mk_lab4 (mk_hw (announced session_bytes) []) Null (Live 12) false 0 0 0 zero_mouse_state [] [].
Lemma gesture_session_witness :
  wp (l4_on_gesture init_data ;;;
      gesture_loop 60 10 (BIT 12) (INITIAL, mk_assembly 0 [7; 7; 7]) (replicate (length session_bytes) (Interrupts (BIT 12))))
    (fun e _ => e = Left) session_start.
Proof.
  eapply wp_mono; [apply (gesture_session 165 60 10 (mk_assembly 0 [7; 7; 7]) session_bytes session_start)|].
  - reflexivity.
  - apply announced_sends. repeat constructor; vm_compute; discriminate.
  - reflexivity.
  - reflexivity.
  - reflexivity.
  - lia.
  - vm_compute. discriminate.
  - intros e s ->. vm_compute. reflexivity.
Defined.
