(* ===== verification/LabUart.v ===== *)
(** * LabUart

    The serial port exercise, a program of its own: [src/labuart/uart.c] and
    [queue.c], the first version of the protocol, [networking.c], and the
    three tests of [lab5.c].  Registers, subscription, polled transmission
    and the statics of the driver are those of [Uart]; this file has what
    differs. *)

From S2P Require Import Prelude Hardware Timer Queue Uart Labs.

(** ** Data of [networking.h] *)
Inductive network_state_t : Type := WAITING | LINKED | CONNECTED | DISCONNECTED | CLEANUP.
#[global] Instance network_state_eq_dec : EqDecision network_state_t.
Proof. solve_decision. Defined.

Record network_packet_t : Type := mk_network_packet {
  mouse_byte : Z; mouse_msb : Z; health : Z;
  w_down : bool; a_down : bool; s_down : bool; d_down : bool;
  ctrl_down : bool; shift_down : bool; shoot_down : bool;
  gun_down : Z;
}.
#[global] Instance eta_packet : Eta network_packet_t := fun p =>
  mk_network_packet (mouse_byte p) (mouse_msb p) (health p) (w_down p) (a_down p) (s_down p) (d_down p)
    (ctrl_down p) (shift_down p) (shoot_down p) (gun_down p).

Definition UART_JOIN_REQUEST : Z := 74.
Definition UART_SYNC_PASSWORD : list Z := [83; 84; 65; 82; 84; 0].
Definition UART_SYNC_RESPONSE : list Z := [66; 69; 71; 73; 78; 0].
Definition UART_PASSWORD_SIZE : Z := 5.
Definition UART_ACK : Z := 79.
Definition UART_GET_RESPONSE : Z := 80.
Definition UART_SYNC_TRIES : Z := 60.
Definition RECEIVE_ERRS : Z := Z.lor (Z.lor OVERRUN_ERR PARITY_ERR) FRAMING_ERR.
Definition ENABLE_RECEIVE : Z := BIT 0.
Definition ENABLE_TRANSMIT : Z := BIT 1.
Definition ENABLE_LINE_STATUS : Z := BIT 2.
Definition BITS_PER_CHAR (n : Z) : Z := n - 5.
Definition ODD_PARITY : Z := BIT 3.
Definition BAUD_115200 : Z := 1.
Definition UART_MAX_TRIES : nat := 15.

(** *** Packets: other positions than the project's *)
Definition DATA_SHOOTDOWN : Z := BIT 0.
Definition DATA_CTRLDOWN : Z := BIT 1.
Definition DATA_SHIFTDOWN : Z := BIT 2.
Definition DATA_DDOWN : Z := BIT 3.
Definition DATA_SDOWN : Z := BIT 4.
Definition DATA_ADOWN : Z := BIT 5.
Definition DATA_WDOWN : Z := BIT 6.
Definition DATA_MOUSE_MSB : Z := BIT 7.
Definition DATA_GUN_BITS : Z := Z.lor (Z.lor (BIT 0) (BIT 1)) (BIT 2).
Definition DATA_CONFIRM_PACKET : Z := Z.lor (Z.lor (BIT 7) (BIT 5)) (BIT 3).

Definition flag (b : bool) (m : Z) : Z := if b then m else 0.
(** [data[0..2]]; the shift of [DATA_GUN_DOWN(n)] is undefined for [n = 0]
    and beyond the width of an [int]. *)
Definition encode_data (pkt : network_packet_t) : option (list Z) :=
  let data0 := foldl (fun acc m => u8 (Z.lor acc m)) 0
    [flag (shoot_down pkt) DATA_SHOOTDOWN; flag (ctrl_down pkt) DATA_CTRLDOWN;
     flag (shift_down pkt) DATA_SHIFTDOWN; flag (d_down pkt) DATA_DDOWN;
     flag (s_down pkt) DATA_SDOWN; flag (a_down pkt) DATA_ADOWN; flag (w_down pkt) DATA_WDOWN;
     flag (negb (mouse_msb pkt =? 0)) DATA_MOUSE_MSB] in
  if (1 <=? gun_down pkt) && (gun_down pkt <=? 31)
  then Some [data0; mouse_byte pkt; u8 (Z.lor DATA_CONFIRM_PACKET (BIT (gun_down pkt - 1)))] else None.
Definition decode_data (data : list Z) : option network_packet_t :=
  match data with
  | [data0; data1; data2] =>
      let g := Z.land data2 DATA_GUN_BITS in
      Some (mk_network_packet data1 (b2z (Z.land data0 DATA_MOUSE_MSB =? DATA_MOUSE_MSB)) 0
              (has_bits data0 DATA_WDOWN) (has_bits data0 DATA_ADOWN) (has_bits data0 DATA_SDOWN)
              (has_bits data0 DATA_DDOWN) (has_bits data0 DATA_CTRLDOWN)
              (has_bits data0 DATA_SHIFTDOWN) (has_bits data0 DATA_SHOOTDOWN)
              (if has_bits g (BIT 0) then 1 else if has_bits g (BIT 1) then 2
               else if has_bits g (BIT 2) then 3 else 0))
  | _ => None
  end.

(** ** The driver *)
Section Driver.
Context {D : Type} `{!Device D} {S : Type} {QS : QueueStore S}.

(** [queue_push] of [queue.c] stores a [uint8_t]. *)
Definition queue_push (q : loc) (byte : Z) : prog S unit := q_push q (u8 byte).

Definition uart_send_byte (byte : Z) : prog (hw D) Z :=
  status <- uninit_byte ;; uart_send_tries UART_MAX_TRIES status byte.

(** The code and what [*byte] holds; an error of the FIFO is not looked for. *)
Definition uart_receive_byte (byte : Z) : prog (hw D) (Z * Z) :=
  retry UART_MAX_TRIES (receive_try RECEIVE_ERRS byte) (1, byte).

Definition uart_push_transmit (byte : Z) : prog (uart D S) unit := with_fifo out_fifo (fun q => queue_push q byte).

(** [if(transmitter_empty()) uart_send_byte(c); else uart_push_transmit(c);] *)
Definition transmit (byte : Z) : prog (uart D S) unit :=
  empty <- transmitter_empty ;;
  if (empty : bool) then (_ <- ua_on_hw (uart_send_byte byte) ;; ret tt) else uart_push_transmit byte.

(** The loop [while((err = uart_receive_byte(&byte)) != 1)] of [uart_ih], from
    and to the value of [byte]. *)
Definition receive_all (fuel : nat) (byte : Z) : prog (uart D S) Z :=
  iterate fuel (fun byte =>
    '(err, byte) <- ua_on_hw (uart_receive_byte byte) ;;
    if err =? 1 then ret (inr byte) else
    ((if err =? OK then with_fifo in_fifo (fun q => queue_push q byte) else ret tt) ;;;
     ret (inl byte))) byte.

(** The end of [uart_ih]: when [byte] says so, the front of the queue leaves
    it, whether it could be sent or not. *)
Definition transmit_next (byte : Z) : prog (uart D S) unit :=
  if has_bits byte IIR_TRNSMT_EMPTY then
    empty <- with_fifo out_fifo q_empty ;;
    if (empty : bool) then modify (fun u => u <| can_send := true |>) else
    front <- with_fifo out_fifo q_front ;;
    _ <- ua_on_hw (uart_send_byte (u8 front)) ;;
    with_fifo out_fifo q_pop
  else ret tt.
(** The variable [byte] holds the interrupt's identification first and the
    received bytes then. *)
Definition uart_ih (fuel : nat) : prog (uart D S) unit :=
  byte <- ua_on_hw uninit_byte ;;
  '(err, byte) <- ua_on_hw (uart_get_int_id byte) ;;
  if negb (err =? OK) then ret tt else
  (byte <- (if has_bits byte IIR_RECV_DATA_AVAIL then receive_all fuel byte else ret byte) ;;
   transmit_next byte).

(** It only asks whether the queue is empty. *)
Definition empty_transmit_queue : prog (uart D S) unit := _ <- with_fifo out_fifo q_empty ;; ret tt.
End Driver.

(** ** The protocol: the statics of [networking.c] and [timer.c]

    [lu_timer] is the hook of the timer, [lu_time] is [timeCounter]; what the
    tests print of bytes and packets is [lu_printed]. *)
Inductive line : Type := Sent (i : Z) | Read (byte : Z) | Packet (pkt : network_packet_t).
Record labuart (D S : Type) : Type := mk_labuart {
  lu_uart : uart D S;
  lu_idx : Z;
  lu_state : network_state_t;
  lu_tries : Z;
  lu_timer : Z;
  lu_time : Z;
  lu_printed : list line;
}.
Arguments mk_labuart {D S}.
Arguments lu_uart {D S}.
Arguments lu_idx {D S}.
Arguments lu_state {D S}.
Arguments lu_tries {D S}.
Arguments lu_timer {D S}.
Arguments lu_time {D S}.
Arguments lu_printed {D S}.
#[global] Instance eta_labuart {D S} : Eta (labuart D S) := fun s =>
  mk_labuart (lu_uart s) (lu_idx s) (lu_state s) (lu_tries s) (lu_timer s) (lu_time s) (lu_printed s).

Section Protocol.
Context {D : Type} `{!Device D} {S : Type} {QS : QueueStore S}.
Abbreviation L := (labuart D S).

Definition on_uart {A} (m : prog (uart D S) A) : prog L A := zoom lu_uart (fun u s => s <| lu_uart := u |>) m.
Definition on_hw {A} (m : prog (hw D) A) : prog L A := on_uart (ua_on_hw m).

Definition get_network_state : prog L network_state_t := gets lu_state.
Definition send_join_request : prog L unit := on_uart (transmit UART_JOIN_REQUEST).
(** [idx++], and the [idx] after it. *)
Definition next_idx : prog L Z :=
  modify (fun s => s <| lu_idx ::= (fun i => u8 (i + 1)) |>) ;;; gets lu_idx.

Definition uart_sync_link : prog L bool :=
  front <- on_uart uart_recv_front ;;
  match front with
  | None => ret false
  | Some byte =>
      idx <- gets lu_idx ;;
      if byte =? UART_ACK then
        if idx =? UART_PASSWORD_SIZE then
          modify (fun s => s <| lu_state := LINKED |> <| lu_idx := 0 |>) ;;;
          on_uart (transmit UART_GET_RESPONSE) ;;;
          ret true
        else
          (c <- defined (aget UART_SYNC_PASSWORD idx) ;;
           on_uart (transmit c) ;;;
           _ <- next_idx ;;
           ret true)
      else if byte =? UART_JOIN_REQUEST then
        on_uart empty_transmit_queue ;;;
        on_uart (transmit UART_ACK) ;;;
        modify (fun s => s <| lu_idx := 0 |>) ;;;
        ret true
      else
        (c <- defined (aget UART_SYNC_PASSWORD idx) ;;
         if byte =? c then
           on_uart (transmit UART_ACK) ;;;
           idx <- next_idx ;;
           (if idx =? UART_PASSWORD_SIZE then modify (fun s => s <| lu_state := LINKED |> <| lu_idx := 0 |>) else ret tt) ;;;
           ret true
         else ret true)
  end.

Definition uart_sync_connect : prog L bool :=
  front <- on_uart uart_recv_front ;;
  match front with
  | None => ret false
  | Some byte =>
      idx <- gets lu_idx ;;
      if byte =? UART_ACK then
        if idx =? UART_PASSWORD_SIZE then modify (fun s => s <| lu_state := CONNECTED |>) ;;; ret true
        else
          (c <- defined (aget UART_SYNC_RESPONSE idx) ;;
           on_uart (transmit c) ;;;
           _ <- next_idx ;;
           ret true)
      else if byte =? UART_GET_RESPONSE then
        on_uart empty_transmit_queue ;;;
        c <- defined (aget UART_SYNC_RESPONSE 0) ;;
        on_uart (transmit c) ;;;
        modify (fun s => s <| lu_idx := 1 |>) ;;;
        ret true
      else
        (c <- defined (aget UART_SYNC_RESPONSE idx) ;;
         if byte =? c then
           on_uart (transmit UART_ACK) ;;;
           idx <- next_idx ;;
           (if idx =? UART_PASSWORD_SIZE then modify (fun s => s <| lu_state := CONNECTED |>) else ret tt) ;;;
           ret true
         else ret true)
  end.

Definition reset_sync : prog L unit := modify (fun s => s <| lu_state := CLEANUP |> <| lu_idx := 0 |>).

(** The two loops of a round of the cleanup; [byte] is threaded through. *)
Definition drain (fuel : nat) (byte : Z) : prog L (bool * Z) :=
  '(clean, byte) <- iterate fuel (fun '(clean, byte) =>
    front <- on_uart uart_recv_front ;;
    match front with None => ret (inr (clean, byte)) | Some byte => ret (inl (false, byte)) end) (true, byte) ;;
  iterate fuel (fun '(clean, byte) =>
    '(err, byte) <- on_hw (uart_receive_byte byte) ;;
    if err =? 1 then ret (inr (clean, byte)) else ret (inl (false, byte))) (clean, byte).
Definition cleanup (fuel : nat) (byte : Z) : prog L unit :=
  iterate fuel (fun byte =>
    tries <- gets lu_tries ;;
    if tries <? Z.of_nat UART_MAX_TRIES then
      '(clean, byte) <- drain fuel byte ;;
      modify (fun s => s <| lu_tries := if (clean : bool) then u8 (tries + 1) else 0 |>) ;;;
      ret (inl byte)
    else ret (inr tt)) byte.

(** [if(!sync()) tries++; else tries = 0; if(tries > UART_SYNC_TRIES) ...] *)
Definition count_tries (progress : bool) : prog L unit :=
  modify (fun s => s <| lu_tries ::= (fun t => if progress then 0 else u8 (t + 1)) |>) ;;;
  tries <- gets lu_tries ;;
  if UART_SYNC_TRIES <? tries then reset_sync ;;; modify (fun s => s <| lu_tries := 0 |>) else ret tt.

Definition uart_sync (fuel : nat) : prog L unit :=
  byte <- on_hw uninit_byte ;;
  state <- gets lu_state ;;
  (if decide (state = CLEANUP) then
     cleanup fuel byte ;;;
     modify (fun s => s <| lu_state := WAITING |>) ;;;
     send_join_request ;;;
     modify (fun s => s <| lu_tries := 0 |>)
   else ret tt) ;;;
  state <- gets lu_state ;;
  (if decide (state = WAITING) then progress <- uart_sync_link ;; count_tries progress else ret tt) ;;;
  state <- gets lu_state ;;
  if decide (state = LINKED) then progress <- uart_sync_connect ;; count_tries progress else ret tt.

(** ** The tests of [lab5.c] *)
Definition timer_subscribe_int : prog L (Z * Z) :=
  '(err, hook) <- on_hw (sys_irqsetpolicy TIMER0_IRQ IRQ_REENABLE TIMER0_IRQ) ;;
  modify (fun s => s <| lu_timer := hook |>) ;;;
  ret (err, TIMER0_IRQ).
Definition timer_unsubscribe_int : prog L Z := hook <- gets lu_timer ;; on_hw (sys_irqrmpolicy hook).
Definition timer_int_handler : prog L unit :=
  t <- gets lu_time ;;
  t <- defined (add_int32 t 1) ;;
  modify (fun s => s <| lu_time := t |>).
Definition print_line (l : line) : prog L unit := modify (fun s => s <| lu_printed ::= (fun ls => ls ++ [l]) |>).

(** The part the three tests share, from the subscriptions to the end: [init]
    is what [video_test_init] does after them, [body] and [X] are the loop's. *)
Definition with_port {X} (init : prog L unit) (cond : X -> prog L bool) (on_timer : X -> prog L X) (fuel : nat) (x : X)
    (msgs : list arrival) : prog L (option Z) :=
  '(err, bit_no) <- timer_subscribe_int ;;
  let timer_irq := BIT bit_no in
  if negb (err =? OK) then ret (Some err) else
  '(err, bit_no) <- on_uart uart_subscribe_int ;;
  if negb (err =? OK) then ret (Some err) else
  let uart_irq := BIT bit_no in
  init ;;;
  e <- receive_loop Returns cond (fun mask x =>
    x <- (if has_bits mask timer_irq then timer_int_handler ;;; on_timer x else ret x) ;;
    (if has_bits mask uart_irq then on_uart (uart_ih fuel) else ret tt) ;;;
    ret x) x msgs ;;
  match e with
  | Waiting => ret None
  | Returned r => ret (Some r)
  | Left =>
      _ <- on_hw (uart_set_interrupt_reg 0) ;;
      err <- on_uart uart_unsubscribe_int ;;
      if negb (err =? OK) then ret (Some err) else (r <- timer_unsubscribe_int ;; ret (Some r))
  end.
Definition before (seconds : Z) {X} (_ : X) : prog L bool := t <- gets lu_time ;; ret (t <? seconds * 60).

Definition init_line : prog L unit :=
  _ <- on_hw (uart_set_line_ctrl (Z.lor (BITS_PER_CHAR 8) ODD_PARITY)) ;;
  _ <- on_hw (uart_set_baud_rate BAUD_115200) ;;
  _ <- on_uart init_uart_queues ;;
  ret tt.

(** [video_test_init]: the sender. *)
Definition video_test_init (fuel : nat) (msgs : list arrival) : prog L (option Z) :=
  init_line ;;;
  with_port
    (_ <- on_hw uart_init_fifo ;;
     _ <- on_hw (uart_set_interrupt_reg (Z.lor ENABLE_TRANSMIT ENABLE_LINE_STATUS)) ;; ret tt)
    (before 5)
    (fun i =>
       print_line (Sent i) ;;;
       on_uart (transmit i) ;;;
       on_uart (uart_push_transmit i) ;;;
       on_uart (uart_push_transmit i) ;;;
       ret (u8 (i + 1))) fuel 0 msgs.

(** [while(uart_recv_front(&byte))] *)
Definition print_received (fuel : nat) : prog L unit :=
  iterate fuel (fun _ =>
    front <- on_uart uart_recv_front ;;
    match front with None => ret (inr tt) | Some byte => print_line (Read byte) ;;; ret (inl tt) end) tt.

(** [video_test_controller]: the receiver. *)
Definition video_test_controller (fuel : nat) (msgs : list arrival) : prog L (option Z) :=
  let pkt := mk_network_packet 0x23 1 0 false true false false true false true 2 in
  print_line (Packet pkt) ;;;
  data <- defined (encode_data pkt) ;;
  pkt <- defined (decode_data data) ;;
  print_line (Packet pkt) ;;;
  ctrl <- on_hw uninit_byte ;;
  init_line ;;;
  _ <- on_hw uart_init_fifo ;;
  '(_, ctrl) <- on_hw (uart_get_int_id ctrl) ;;
  (if has_bits ctrl IIR_RECV_DATA_AVAIL then on_uart (uart_ih fuel) else ret tt) ;;;
  err <- on_hw (uart_set_interrupt_reg (Z.lor ENABLE_LINE_STATUS ENABLE_RECEIVE)) ;;
  if negb (err =? OK) then ret (Some err) else
  with_port (ret tt) (before 10) (fun x : unit => print_received fuel) fuel tt msgs.

(** [video_test_xpm]: the handshake; the local is [game_state]. *)
Definition video_test_xpm (fuel : nat) (msgs : list arrival) : prog L (option Z) :=
  ctrl <- on_hw uninit_byte ;;
  init_line ;;;
  _ <- on_hw uart_init_fifo ;;
  _ <- on_hw (uart_get_int_id ctrl) ;;
  err <- on_hw (uart_set_interrupt_reg (Z.lor (Z.lor ENABLE_LINE_STATUS ENABLE_RECEIVE) ENABLE_TRANSMIT)) ;;
  if negb (err =? OK) then ret (Some err) else
  with_port (ret tt) (fun game_state => ret (game_state =? 0))
    (fun game_state =>
       if game_state =? 0 then
         uart_sync fuel ;;;
         state <- get_network_state ;;
         if decide (state = CONNECTED) then modify (fun s => s <| lu_time := 0 |>) ;;; ret 1 else ret game_state
       else ret game_state) fuel 0 msgs.
End Protocol.

(** A packet survives the wire, its health apart, which is not sent. *)
Lemma decode_encode pkt : mouse_msb pkt = 0 \/ mouse_msb pkt = 1 -> 1 <= gun_down pkt <= 3 ->
  exists data, encode_data pkt = Some data /\ decode_data data = Some (pkt <| health := 0 |>).
Proof.
  destruct pkt as [mb msb h w a sd d c sh st g]. cbn. intros Hm Hg.
  assert (g = 1 \/ g = 2 \/ g = 3) as Hg' by lia.
  destruct Hm as [-> | ->], Hg' as [-> | [-> | ->]]; eexists; (split; [reflexivity|]);
    destruct w, a, sd, d, c, sh, st; reflexivity.
Qed.

(** ** The interrupt handler

    What one interrupt amounts to, from the trace: [byte] when it is looked at
    for the second time, [None] when the identification could not be read. *)
Definition second_look (t : list io) : option Z :=
  match t with
  | In _ err v :: _ =>
      if err =? 0 then Some (if has_bits (u8 v) IIR_RECV_DATA_AVAIL then default (u8 v) (last (received t)) else u8 v)
      else None
  | _ => None
  end.
Definition transmits (t : list io) : bool :=
  match second_look t with Some byte => has_bits byte IIR_TRNSMT_EMPTY | None => false end.

Section Interrupt.
Context {D : Type} `{!Device D, !FiniteTraffic D} {S : Type} {QS : QueueStore S} {QL : QueueLaws S}.
Implicit Types u : uart D S.

Lemma receive_errs_line st : has_bits st RECEIVE_ERRS = true -> has_bits st LINE_ERRS = true.
Proof.
  unfold has_bits, LINE_ERRS. fold RECEIVE_ERRS. rewrite !negb_true_iff, !Z.eqb_neq, Z.land_lor_distr_r, Z.lor_eq_0_iff.
  intros H [H' _]. done.
Qed.

Lemma default_last_app (d : Z) (l k : list Z) : default (default d (last l)) (last k) = default d (last (l ++ k)).
Proof. rewrite last_app. by destruct (last k). Qed.

Lemma u8_byte b : 0 <= b < 256 -> u8 b = b.
Proof. intros. by apply (wrap_small 8). Qed.

(** Bytes were received, the last one is in [b]. *)
Definition drained byte u lin lout b u' : Prop :=
  exists t news,
    trace (ua_hw u') = trace (ua_hw u) ++ t /\ b = default byte (last (received t)) /\
    fifos u' (lin ++ news) lout /\ can_send u' = can_send u /\ sent t = [] /\
    sublist news (received t) /\ (error_free t = true -> news = received t).

(** The receiving loop empties the receiver into the queue, and leaves the
    last byte it read in [byte]. *)
Lemma receive_all_spec fuel byte u lin lout :
  0 <= byte < 256 -> fifos u lin lout -> (pending u < fuel)%nat ->
  wp (receive_all fuel byte) (drained byte u lin lout) u.
Proof.
  intros Hb Hf Hfuel. unfold receive_all.
  apply (wp_iterate _ (fun b u' => 0 <= b < 256 /\ (pending u' <= pending u)%nat /\ drained byte u lin lout b u')
    (fun _ u' => pending u')).
  - intros b u1 (Hb1 & Hp & t1 & n1 & Ht1 & Hb' & Hf1 & Hc1 & Hs1 & Hr1 & He1).
    unfold ua_on_hw. wp_steps. eapply wp_mono; [apply receive_byte_post; [apply receive_errs_line|done]|].
    intros [err b'] h (t & Ht & Hs & Htr & Hb2 & Hl & Hcase). cbn [fst snd] in *.
    assert (fifos (u1 <| ua_hw := h |>) (lin ++ n1) lout) as Hf2 by apply Hf1.
    assert (b' = default byte (last (received (t1 ++ t)))) as Hl' by (rewrite received_app, <- default_last_app, <- Hb'; done).
    assert (trace h = trace (ua_hw u) ++ (t1 ++ t)) as Ht' by (by rewrite Ht, Ht1, app_assoc).
    assert (sent (t1 ++ t) = []) as Hs' by (by rewrite sent_app, Hs1, Hs).
    destruct Hcase as [(-> & Hr)|[(-> & Hr & Hlt)|(-> & He & Hr & Hlt)]]; cbn beta iota delta [Z.eqb Pos.eqb OK].
    + wp_step. exists (t1 ++ t), n1. split_and!; [done..| |].
      * rewrite received_app, Hr, app_nil_r. done.
      * rewrite error_free_app, received_app, Hr, app_nil_r. intros [E _]%andb_prop. by apply He1.
    + wp_steps. eapply wp_in_updates; [apply push_updates|exact Hf2|]. intros s Hf3. wp_step.
      rewrite (u8_byte b'), i16_byte, <- app_assoc in Hf3 by done. unfold pending in *. cbn in *.
      split; [|lia]. split; [done|]. split; [lia|]. exists (t1 ++ t), (n1 ++ [b']). split_and!; [done..| |].
      * rewrite received_app, Hr. by apply sublist_app.
      * rewrite error_free_app, received_app, Hr. intros [E _]%andb_prop. by rewrite He1.
    + wp_steps. unfold pending in *. cbn in *. split; [|lia]. split; [done|]. split; [lia|].
      exists (t1 ++ t), n1. split_and!; [done..| |].
      * rewrite received_app. by apply sublist_inserts_r.
      * rewrite error_free_app, He, andb_false_r. done.
  - split; [done|]. split; [done|]. exists [], []. rewrite !app_nil_r. done.
  - done.
Qed.

Lemma transmit_next_spec byte u lin lout :
  fifos u lin lout ->
  wp (transmit_next byte) (fun _ u' => exists t, trace (ua_hw u') = trace (ua_hw u) ++ t /\
    received t = [] /\ fifos u' lin (if has_bits byte IIR_TRNSMT_EMPTY then tail lout else lout) /\
    (sent t = [] \/ has_bits byte IIR_TRNSMT_EMPTY = true /\ sent t = map u8 (firstn 1 lout)) /\
    can_send u' = can_send u || (has_bits byte IIR_TRNSMT_EMPTY && bool_decide (lout = []))) u.
Proof.
  intros Hf. unfold transmit_next. destruct (has_bits byte IIR_TRNSMT_EMPTY).
  2: { wp_step. exists []. rewrite app_nil_r, orb_false_r. split_and!; auto. }
  wp_step. eapply wp_out_observes; [apply empty_observes|done|]. destruct lout as [|x lout]; cbn.
  - wp_step. exists []. rewrite app_nil_r, orb_true_r. split_and!; auto.
  - wp_step. eapply wp_out_observes; [apply front_observes|done|]. cbn. unfold ua_on_hw. wp_steps.
    eapply wp_mono; [apply uart_send_tries_wire|]. intros err h (t & Ht & Hs & Hr).
    eapply wp_out_updates; [apply pop_updates|exact Hf|]. intros s Hf'.
    exists t. rewrite orb_false_r. split_and!; [done..| |done]. rewrite Hs. destruct (err =? OK); auto.
Qed.

(** C39: on a port with finite traffic ([FiniteTraffic], see C7), which the
    fuel exceeds, over queues that keep their promises: one interrupt empties the receiver into the receive queue, in order
    (an erroneous byte is left out), and then sends the front of the transmit
    queue or raises the flag that says it is empty, if the last byte received
    has the bit that announces an empty transmitter: the variable that held
    the cause of the interrupt holds the received bytes then.  Only an
    interrupt without received bytes is judged by its cause.  The front of
    the queue leaves it even if it could not be sent. *)
Theorem interrupt_by_last_byte fuel u lin lout :
  fifos u lin lout -> (traffic (dev (ua_hw u)) < fuel)%nat ->
  wp (uart_ih fuel) (fun _ u' => exists t news,
    trace (ua_hw u') = trace (ua_hw u) ++ t /\
    fifos u' (lin ++ news) (if transmits t then tail lout else lout) /\
    sublist news (received t) /\ (error_free t = true -> news = received t) /\
    (sent t = [] \/ transmits t = true /\ sent t = map u8 (firstn 1 lout)) /\
    can_send u' = can_send u || (transmits t && bool_decide (lout = []))) u.
Proof.
  intros Hf Hfuel. unfold uart_ih, ua_on_hw. wp_steps. apply wp_uninit_byte. intros g _.
  wp_steps. cbn [ua_hw]. rewrite set_hw_id. unfold uart_get_int_id. apply wp_util_sys_inb_dev. intros err v d E.
  pose proof (traffic_inb_eq _ _ _ _ E) as Htr. set (u1 := u <| ua_hw := _ |>).
  assert (fifos u1 lin lout) as Hf1 by done.
  destruct (Z.eqb_spec err 0) as [->|He]; cbn -[u1].
  2: { wp_step. assert ((err =? 0) = false) as He' by lia.
       exists [In IIR_PORT err v], []. unfold transmits, second_look. cbn -[u1]. rewrite He', app_nil_r, orb_false_r.
       split_and!; auto. }
  set (b := u8 v). assert (0 <= b < 256) as Hb by (apply (wrap_range 8); lia).
  assert (wp (if has_bits b IIR_RECV_DATA_AVAIL then receive_all fuel b else ret b)
    (fun b' u' => exists t news, trace (ua_hw u') = trace (ua_hw u) ++ In IIR_PORT 0 v :: t /\
       Some b' = second_look (In IIR_PORT 0 v :: t) /\ fifos u' (lin ++ news) lout /\ can_send u' = can_send u /\
       sent t = [] /\ sublist news (received t) /\ (error_free (In IIR_PORT 0 v :: t) = true -> news = received t)) u1) as Hrecv.
  { unfold second_look. cbn -[u1 received]. fold b. destruct (has_bits b IIR_RECV_DATA_AVAIL).
    - eapply wp_mono; [apply (receive_all_spec fuel b u1 lin lout); [done|done|unfold pending; cbn; lia]|].
      intros b' u2 (t & news & Ht & -> & Hf2 & Hc & Hs & Hn & He). exists t, news. rewrite Ht. cbn. rewrite <- app_assoc.
      split_and!; auto.
    - wp_step. exists [], []. rewrite app_nil_r. split_and!; auto. }
  wp_step. eapply wp_mono; [exact Hrecv|].
  intros b' u2 (t & news & Ht & Hl & Hf2 & Hc & Hs & Hn & Hfree).
  eapply wp_mono; [by apply (transmit_next_spec b' u2 (lin ++ news) lout)|].
  intros _ u3 (t2 & Ht2 & Hr2 & Hf3 & Hs2 & Hc3). exists ((In IIR_PORT 0 v :: t) ++ t2), news.
  assert (transmits ((In IIR_PORT 0 v :: t) ++ t2) = has_bits b' IIR_TRNSMT_EMPTY) as ->.
  { unfold transmits, second_look. cbn -[received]. unfold second_look in Hl. cbn -[received] in Hl.
    injection Hl as ->. change (received (In IIR_PORT 0 v :: t ++ t2)) with (received (t ++ t2)).
    change (received (In IIR_PORT 0 v :: t)) with (received t). by rewrite received_app, Hr2, app_nil_r. }
  rewrite Ht2, Ht, received_app, sent_app, error_free_app, Hr2, app_nil_r, Hc3, Hc.
  change (sent (In IIR_PORT 0 v :: t)) with (sent t). change (received (In IIR_PORT 0 v :: t)) with (received t). rewrite Hs.
  split_and!; [by rewrite <- app_assoc|done|done| |done|done].
  intros [E1 _]%andb_prop. by apply Hfree.
Qed.
End Interrupt.

(** The driver with a byte to send, on a port [d]. *)
Definition uart_waiting {D} `{!Device D} (d : D) : uart D heap :=
  match uart_push_transmit 7 (uart_on d) with Done (_, u) => u | _ => uart_on d end.
Lemma uart_waiting_fifos {D} `{!Device D} (d : D) :
  fifos (uart_waiting d) [] [7] /\ dev (ua_hw (uart_waiting d)) = d /\ trace (ua_hw (uart_waiting d)) = [].
Proof.
  destruct (uart_on_fifos d) as (Hf & Hd & Ht & _).
  assert (wp (uart_push_transmit 7) (fun _ u => fifos u [] [7] /\ ua_hw u = ua_hw (uart_on d)) (uart_on d)) as H.
  { unfold uart_push_transmit. eapply wp_out_updates; [apply push_updates|exact Hf|]. by intros s Hs. }
  apply (proj1 (wp_Done _ _ _)) in H as ([] & u & E & Hu & Hh). unfold uart_waiting. rewrite E, Hh. done.
Qed.

(** The interrupt announces received bytes only.  The byte that came, 'O',
    has the bit that means an empty transmitter: the queued byte goes out. *)
Definition one_ack : port16550 := mk_port [(UART_ACK, 0)] [] false false.
Lemma interrupt_by_last_byte_witness :
  fifos (uart_waiting one_ack) [] [7] /\
  wp (uart_ih 20) (fun _ u' => fifos u' [UART_ACK] [] /\ sent (trace (ua_hw u')) = [7]) (uart_waiting one_ack).
Proof.
  destruct (uart_waiting_fifos one_ack) as (Hf & Hd & Ht). split; [exact Hf|].
  pose proof (interrupt_by_last_byte 20 (uart_waiting one_ack) [] [7] Hf ltac:(rewrite Hd; vm_compute; lia)) as H.
  apply (proj1 (wp_Done _ _ _)) in H as ([] & u' & E & t & news & Htr & Hf' & _ & Hn & _).
  apply (proj2 (wp_Done _ _ _)). exists tt, u'. split; [exact E|].
  vm_compute in E. injection E as <-. rewrite Ht in Htr. vm_compute in Htr. subst t.
  rewrite Hn in Hf' by reflexivity. split; [exact Hf'|reflexivity].
Defined.
