(* ===== verification/LabRtc.v ===== *)
(** * LabRtc

    The exercise on the real-time clock, a program of its own:
    [src/labrtc/rtc_controller.c] and its tests, [test6.c].  The registers and
    the interrupt switches are those of the project's driver, [Rtc]; the
    statics, the date and the interrupt handler differ. *)

From S2P Require Import Prelude Hardware Rtc Labs.

(** What is printed. *)
Inductive output : Type := Alarm | Period | Date (config : Z) (d : date).

(** ** The statics of [rtc_controller.c] *)
Record labrtc (D : Type) : Type := mk_labrtc {
  lr_hw : hw D;
  lr_config_a : Z;
  lr_config_b : Z;
  lr_subscribe : Z;
  alarm_wait : bool;
  lr_printed : list output;
}.
Arguments mk_labrtc {D}.
Arguments lr_hw {D}.
Arguments lr_config_a {D}.
Arguments lr_config_b {D}.
Arguments lr_subscribe {D}.
Arguments alarm_wait {D}.
Arguments lr_printed {D}.
#[global] Instance eta_labrtc {D} : Eta (labrtc D) := fun s =>
  mk_labrtc (lr_hw s) (lr_config_a s) (lr_config_b s) (lr_subscribe s) (alarm_wait s) (lr_printed s).

Section LabRtc.
Context {D : Type} `{!Device D}.
Abbreviation L := (labrtc D).

Definition lr_on_hw {A} (m : prog (hw D) A) : prog L A := zoom lr_hw (fun h s => s <| lr_hw := h |>) m.
Definition print (o : output) : prog L unit := modify (fun s => s <| lr_printed ::= (fun l => l ++ [o]) |>).

(** A field that cannot be read is whatever its variable held. *)
Definition read_field (reg : Z) : prog (hw D) Z :=
  byte <- uninit_byte ;; '(_, byte) <- rtc_read_reg reg byte ;; ret byte.
Definition rtc_test_date : prog L Z :=
  '(_, config) <- lr_on_hw (rtc_read_reg RTC_REGISTER_A 0) ;;
  if has_bits config RTC_UIP then ret 1 else
  sec <- lr_on_hw (read_field RTC_SECONDS) ;;
  min <- lr_on_hw (read_field RTC_MINUTES) ;;
  hour <- lr_on_hw (read_field RTC_HOURS) ;;
  day <- lr_on_hw (read_field RTC_MONTH_DAY) ;;
  month <- lr_on_hw (read_field RTC_MONTH) ;;
  year <- lr_on_hw (read_field RTC_YEAR) ;;
  print (Date config (mk_date (bcd_to_decimal year) (bcd_to_decimal month) (bcd_to_decimal day)
                        (bcd_to_decimal hour) (bcd_to_decimal min) (bcd_to_decimal sec))) ;;;
  ret OK.

Definition rtc_subscribe_int : prog L (Z * Z) :=
  let bit_no := RTC_IRQ in
  '(err, hook) <- lr_on_hw (sys_irqsetpolicy RTC_IRQ (Z.lor IRQ_REENABLE IRQ_EXCLUSIVE) bit_no) ;;
  modify (fun s => s <| lr_subscribe := hook |>) ;;;
  ret (err, bit_no).
Definition rtc_unsubscribe_int : prog L Z := hook <- gets lr_subscribe ;; lr_on_hw (sys_irqrmpolicy hook).

Definition init_rtc_vars : prog L Z :=
  a <- gets lr_config_a ;;
  '(_, a) <- lr_on_hw (rtc_read_reg RTC_REGISTER_A a) ;;
  modify (fun s => s <| lr_config_a := a |>) ;;;
  b <- gets lr_config_b ;;
  '(err, b) <- lr_on_hw (rtc_read_reg RTC_REGISTER_B b) ;;
  modify (fun s => s <| lr_config_b := b |>) ;;;
  ret err.
Definition reset_rtc : prog L Z :=
  a <- gets lr_config_a ;;
  _ <- lr_on_hw (rtc_write_reg RTC_REGISTER_A a) ;;
  b <- gets lr_config_b ;;
  lr_on_hw (rtc_write_reg RTC_REGISTER_B b).

Definition rtc_ih : prog L unit :=
  cause <- lr_on_hw uninit_byte ;;
  '(err, cause) <- lr_on_hw (rtc_int_cause cause) ;;
  if negb (err =? OK) then ret tt else
  (if has_bits cause RTC_AF then print Alarm ;;; modify (fun s => s <| alarm_wait := false |>) else ret tt) ;;;
  (if has_bits cause RTC_PF then print Period else ret tt) ;;;
  (if has_bits cause RTC_UF then _ <- rtc_test_date ;; ret tt else ret tt).

(** ** The test of [test6.c]

    The local is [sum], the number of interrupts. *)
Definition rtc_interrupt (rtc_irq_set mask sum : Z) : prog L Z :=
  if has_bits mask rtc_irq_set then
    rtc_ih ;;;
    sum <- defined (add_int32 sum 1) ;;
    (if sum =? 10 then _ <- lr_on_hw disable_uie_int ;; ret tt else ret tt) ;;;
    ret sum
  else ret sum.
(** The end of [rtc_test_int]. *)
Definition leave : prog L (option Z) :=
  err <- rtc_unsubscribe_int ;;
  if negb (err =? OK) then ret (Some err) else (_ <- reset_rtc ;; ret (Some OK)).
Definition rtc_test_int (msgs : list arrival) : prog L (option Z) :=
  rtc_ih ;;;
  _ <- init_rtc_vars ;;
  _ <- lr_on_hw enable_uie_int ;;
  _ <- lr_on_hw enable_aie_int ;;
  _ <- lr_on_hw (rtc_set_alarm 0 RTC_DONT_CARE RTC_DONT_CARE) ;;
  '(err, rtc_bit_no) <- rtc_subscribe_int ;;
  if negb (err =? OK) then ret (Some err) else
  let rtc_irq_set := BIT rtc_bit_no in
  e <- receive_loop Breaks (fun _ => gets alarm_wait) (rtc_interrupt rtc_irq_set) 0 msgs ;;
  match e with
  | Waiting => ret None
  | _ => leave
  end.

(** The two tests of [lab5.c]. *)
Definition video_test_init : prog L Z := _ <- rtc_test_date ;; ret 1.
Definition video_test_controller (msgs : list arrival) : prog L (option Z) :=
  r <- rtc_test_int msgs ;; ret (match r with None => None | Some _ => Some 1 end).
End LabRtc.

(** ** What a trace announces

    The causes of interrupt that [rtc_int_cause] read, that is the values
    read after register C was selected without an error; [c]: it is selected
    at first. *)
Fixpoint selected (c : bool) (t : list io) : bool :=
  match t with
  | [] => c
  | Out p v e :: t => selected (if p =? RTC_ADDR_REG then (v =? RTC_REGISTER_C) && (e =? 0) else c) t
  | _ :: t => selected c t
  end.
Fixpoint causes (c : bool) (t : list io) : list Z :=
  match t with
  | [] => []
  | Out p v e :: t => causes (if p =? RTC_ADDR_REG then (v =? RTC_REGISTER_C) && (e =? 0) else c) t
  | In p err v :: t => (if c && (p =? RTC_DATA_REG) && (err =? 0) then [u8 v] else []) ++ causes c t
  | _ :: t => causes c t
  end.
Definition alarmed (c : bool) (t : list io) : bool := existsb (fun v => has_bits v RTC_AF) (causes c t).

Lemma causes_app c t u : causes c (t ++ u) = causes c t ++ causes (selected c t) u.
Proof. revert c. induction t as [|[] t IH]; intros c; cbn; rewrite ?IH, ?app_assoc; done. Qed.
Lemma alarmed_app c t u : alarmed c (t ++ u) = alarmed c t || alarmed (selected c t) u.
Proof. unfold alarmed. by rewrite causes_app, existsb_app. Qed.

Section Runs.
Context {D : Type} `{!Device D}.
Abbreviation L := (labrtc D).
Implicit Types (s : L) (h : hw D).

(** The clock was used, and announced nothing. *)
Definition unannounced h h' : Prop := exists t, trace h' = trace h ++ t /\ forall c, causes c t = [].
(** A part of the test: the saved registers are kept, and the wait is over
    exactly when an alarm was announced. *)
Record part s s' (t : list io) : Prop := {
  part_trace : trace (lr_hw s') = trace (lr_hw s) ++ t;
  part_a : lr_config_a s' = lr_config_a s;
  part_b : lr_config_b s' = lr_config_b s;
  part_wait c : alarm_wait s' = alarm_wait s && negb (alarmed c t);
}.

Lemma stage_refl s : part s s [].
Proof. split; [by rewrite app_nil_r|done..|]. intros c. by rewrite andb_true_r. Qed.
Lemma stage_trans s1 s2 s3 t u : part s1 s2 t -> part s2 s3 u -> part s1 s3 (t ++ u).
Proof.
  intros [T1 A1 B1 W1] [T2 A2 B2 W2]. split; [by rewrite T2, T1, app_assoc|congruence..|].
  intros c. by rewrite (W2 (selected c t)), (W1 c), alarmed_app, negb_orb, andb_assoc.
Qed.
Lemma unannounced_trans h1 h2 h3 : unannounced h1 h2 -> unannounced h2 h3 -> unannounced h1 h3.
Proof.
  intros (t & T1 & C1) (u & T2 & C2). exists (t ++ u). rewrite T2, T1, app_assoc. split; [done|].
  intros c. by rewrite causes_app, C1, C2.
Qed.

Lemma on_hw_part {A} (m : prog (hw D) A) s (Q : A -> L -> Prop) :
  wp m (fun _ h => unannounced (lr_hw s) h) (lr_hw s) ->
  (forall a s' t, part s s' t -> Q a s') -> wp (lr_on_hw m) Q s.
Proof.
  intros Hm HQ. unfold lr_on_hw. wp_step. eapply wp_mono; [exact Hm|]. intros a h (t & Ht & Hc). apply (HQ _ _ t).
  split; [done..|]. intros c. unfold alarmed. rewrite Hc. cbn. by rewrite andb_true_r.
Qed.

Lemma read_reg_quiet reg byte h : reg <> RTC_REGISTER_C -> wp (rtc_read_reg reg byte) (fun _ => unannounced h) h.
Proof.
  intros Hr. apply wp_rtc_read_reg. intros. eexists. split; [reflexivity|]. intros c. cbn. by rewrite (proj2 (Z.eqb_neq _ _) Hr).
Qed.
Lemma write_reg_quiet reg byte h : reg <> RTC_REGISTER_C -> wp (rtc_write_reg reg byte) (fun _ => unannounced h) h.
Proof.
  intros Hr. apply wp_rtc_write_reg. intros. eexists. split; [reflexivity|]. intros c. cbn. done.
Qed.
Lemma read_field_quiet reg h : reg <> RTC_REGISTER_C -> wp (read_field reg) (fun _ => unannounced h) h.
Proof.
  intros Hr. unfold read_field. wp_step. apply wp_uninit_byte. intros g _. wp_step.
  eapply wp_mono; [by apply read_reg_quiet|]. intros [e b] h' H. by wp_step.
Qed.
Lemma b_update_quiet f h : wp (rtc_b_update f) (fun _ => unannounced h) h.
Proof.
  unfold rtc_b_update. wp_step. apply wp_uninit_byte. intros g _. wp_step.
  eapply wp_mono; [by apply read_reg_quiet|]. intros [e b] h' H.
  eapply wp_mono; [by apply write_reg_quiet|]. intros r h2 H2. by eapply unannounced_trans.
Qed.
Lemma set_alarm_quiet sec min hour h : wp (rtc_set_alarm sec min hour) (fun _ => unannounced h) h.
Proof.
  unfold rtc_set_alarm. cbv zeta. wp_step. eapply wp_mono; [by apply write_reg_quiet|]. intros ? h1 H1.
  wp_step. eapply wp_mono; [by apply write_reg_quiet|]. intros ? h2 H2.
  eapply wp_mono; [by apply write_reg_quiet|]. intros ? h3 H3.
  exact (unannounced_trans _ _ _ (unannounced_trans _ _ _ H1 H2) H3).
Qed.

Lemma field_part {B} reg (k : Z -> prog L B) s (Q : B -> L -> Prop) : reg <> RTC_REGISTER_C ->
  (forall v s' t, part s s' t -> wp (k v) Q s') -> wp (v <- lr_on_hw (read_field reg) ;; k v) Q s.
Proof. intros Hr H. wp_step. eapply on_hw_part; [by apply read_field_quiet|]. exact H. Qed.

Lemma print_part o s : part s (s <| lr_printed ::= (fun l => l ++ [o]) |>) [].
Proof. split; cbn; [by rewrite app_nil_r|done..|]. intros c. by rewrite andb_true_r. Qed.

Lemma test_date_part s : wp rtc_test_date (fun _ s' => exists t, part s s' t) s.
Proof.
  unfold rtc_test_date. wp_step. eapply on_hw_part; [by apply read_reg_quiet|]. intros [e config] s1 t1 P1.
  destruct (has_bits config RTC_UIP); [wp_step; by exists t1|].
  do 6 (eapply field_part; [done|]; intros ? ? ? ?). unfold print. wp_steps.
  eexists. repeat (eapply stage_trans; [eassumption|]). apply print_part.
Qed.

Lemma wp_rtc_int_cause cause h (Q : Z * Z -> hw D -> Prop) :
  (forall err v t d, (forall c, causes c t = if err =? OK then [v] else []) -> Q (err, v) (mk_hw d (trace h ++ t))) ->
  wp (rtc_int_cause cause) Q h.
Proof.
  intros H. unfold rtc_int_cause. wp_step. apply wp_sys_outb. intros e d.
  destruct (Z.eqb_spec e OK) as [->|He]; cbn [negb].
  - apply wp_util_sys_inb.
    + intros err v d2 He. cbn [trace]. rewrite <- app_assoc. apply H. intros c. cbn. by rewrite (proj2 (Z.eqb_neq _ _) He).
    + intros v d2 _. cbn [trace]. rewrite <- app_assoc. by apply H.
  - wp_step. apply H. intros c. cbn. by rewrite (proj2 (Z.eqb_neq _ _) He).
Qed.

(** One run of the handler ends the wait exactly if it saw an alarm. *)
Lemma rtc_ih_part s : wp rtc_ih (fun _ s' => exists t, part s s' t) s.
Proof.
  unfold rtc_ih, lr_on_hw. wp_step. wp_step. apply wp_uninit_byte. intros g _. wp_step. wp_step.
  apply wp_rtc_int_cause. intros err v t d Hc. cbn [lr_hw].
  set (s1 := (s <| lr_hw := lr_hw s |>) <| lr_hw := _ |>).
  destruct (Z.eqb_spec err OK) as [->|He]; cbn [negb].
  2: { wp_step. exists t. split; [done..|]. intros c. unfold alarmed. rewrite Hc. cbn. by rewrite andb_true_r. }
  assert (wp (if has_bits v RTC_AF then print Alarm ;;; modify (fun s => s <| alarm_wait := false |>) else ret tt)
    (fun _ s2 => part s s2 t) s1) as Halarm.
  { unfold print. destruct (has_bits v RTC_AF) eqn:E; wp_steps; (split; [done..|]); intros c; unfold alarmed; rewrite Hc; cbn;
      rewrite E; cbn; by rewrite ?andb_false_r, ?andb_true_r. }
  wp_step. eapply wp_mono; [exact Halarm|]. intros ? s2 P2.
  assert (wp (if has_bits v RTC_PF then print Period else ret tt) (fun _ s3 => part s s3 t) s2) as Hperiod.
  { unfold print. destruct (has_bits v RTC_PF); wp_steps; [|done]. rewrite <- (app_nil_r t). by eapply stage_trans, print_part. }
  wp_step. eapply wp_mono; [exact Hperiod|]. intros ? s3 P3.
  destruct (has_bits v RTC_UF); [|wp_step; by exists t]. wp_step. eapply wp_mono; [apply test_date_part|].
  intros r s4 [u P4]. wp_step. exists (t ++ u). exact (stage_trans _ _ _ _ _ P3 P4).
Qed.

(** [init_rtc_vars] saves what it reads of the registers A and B. *)
Definition saved (before ea va : Z) : Z := if ea =? 0 then u8 va else before.
Definition saving (e1 ea va e2 eb vb : Z) : list io :=
  [Out RTC_ADDR_REG RTC_REGISTER_A e1; In RTC_DATA_REG ea va; Out RTC_ADDR_REG RTC_REGISTER_B e2; In RTC_DATA_REG eb vb].
Lemma init_rtc_vars_saves s (Q : Z -> L -> Prop) :
  (forall r s' e1 ea va e2 eb vb, trace (lr_hw s') = trace (lr_hw s) ++ saving e1 ea va e2 eb vb ->
     lr_config_a s' = saved (lr_config_a s) ea va -> lr_config_b s' = saved (lr_config_b s) eb vb ->
     alarm_wait s' = alarm_wait s -> Q r s') ->
  wp init_rtc_vars Q s.
Proof.
  intros H. unfold init_rtc_vars, lr_on_hw. wp_steps. apply wp_rtc_read_reg. intros e1 ea va d1.
  replace (if ea =? 0 then _ else _) with (if ea =? 0 then 0 else 1, saved (lr_config_a s) ea va)
    by (unfold saved; by destruct (ea =? 0)).
  wp_steps. apply wp_rtc_read_reg. intros e2 eb vb d2. cbn [lr_config_b set].
  replace (if eb =? 0 then _ else _) with (if eb =? 0 then 0 else 1, saved (lr_config_b s) eb vb)
    by (unfold saved; by destruct (eb =? 0)).
  wp_steps. eapply (H _ _ e1 ea va e2 eb vb); cbn; [by rewrite <- app_assoc|done..].
Qed.

Lemma subscribe_part s (Q : Z * Z -> L -> Prop) :
  (forall err s' t, part s s' t -> Q (err, RTC_IRQ) s') -> wp rtc_subscribe_int Q s.
Proof.
  intros H. unfold rtc_subscribe_int, lr_on_hw. cbv zeta. wp_steps. apply wp_sys_irqsetpolicy. intros err hook d. wp_steps.
  eapply H. split; [reflexivity|done..|]. intros c. by rewrite andb_true_r.
Qed.
Lemma unsubscribe_part s (Q : Z -> L -> Prop) :
  (forall err s' t, part s s' t -> Q err s') -> wp rtc_unsubscribe_int Q s.
Proof.
  intros H. unfold rtc_unsubscribe_int, lr_on_hw. wp_steps. apply wp_sys_irqrmpolicy. intros err d. eapply H.
  split; [reflexivity|done..|]. intros c. by rewrite andb_true_r.
Qed.

(** ** The loop *)
Definition failed (m : arrival) : bool := match m with NotReceived _ _ => true | _ => false end.

Lemma interrupt_part irq mask sum s : sum < INT_MAX -> 0 <= sum ->
  wp (rtc_interrupt irq mask sum) (fun sum' s' => 0 <= sum' <= sum + 1 /\ exists t, part s s' t) s.
Proof.
  intros Hs H0. unfold rtc_interrupt. destruct (has_bits mask irq).
  2: { wp_step. split; [lia|]. exists []. apply stage_refl. }
  wp_step. eapply wp_mono; [apply rtc_ih_part|]. intros _ s1 [t P]. wp_step.
  assert (add_int32 sum 1 = Some (sum + 1)) as E.
  { unfold add_int32, INT_MIN in *. by replace ((_ <=? _) && _) with true by lia. }
  rewrite E. cbn. wp_step. wp_step.
  assert (wp (if sum + 1 =? 10 then _ <- lr_on_hw disable_uie_int ;; ret tt else ret tt)
    (fun _ s2 => exists t, part s s2 t) s1) as Hoff.
  { destruct (sum + 1 =? 10); [|wp_step; by exists t]. wp_step. eapply on_hw_part; [apply b_update_quiet|].
    intros r s2 u P2. wp_step. exists (t ++ u). by eapply stage_trans. }
  eapply wp_mono; [exact Hoff|]. intros ? s2 P2. wp_step. split; [lia|done].
Qed.

Lemma waiting_loop irq msgs s : alen msgs <= INT_MAX ->
  wp (receive_loop Breaks (fun _ => gets alarm_wait) (rtc_interrupt irq) 0 msgs) (fun e s' =>
    exists t, part s s' t /\
    match e with
    | Waiting => alarm_wait s' = true /\ existsb failed msgs = false
    | _ => alarm_wait s' = false \/ existsb failed msgs = true
    end) s.
Proof.
  intros Hl. apply (wp_receive_loop _ _ _ (fun sum ms s' => 0 <= sum /\ sum + alen ms <= INT_MAX /\
    existsb failed msgs = existsb failed ms /\ exists t, part s s' t)).
  2: { split_and!; [done..|]. exists []. apply stage_refl. }
  intros sum ms s1 (H0 & Hs & Hf & t & P). wp_step. destruct (alarm_wait s1) eqn:E; cbn [negb].
  2: { exists t. split; [done|]. by left. }
  destruct ms as [|m ms]; cbn [existsb] in Hf.
  { exists t. done. }
  unfold alen in *. cbn [length] in Hs. rewrite Nat2Z.inj_succ in Hs.
  assert (forall mask, failed m = false -> wp (rtc_interrupt irq mask sum) (fun sum' s' => 0 <= sum' /\
    sum' + Z.of_nat (length ms) <= INT_MAX /\ existsb failed msgs = existsb failed ms /\ exists t, part s s' t) s1) as Hint.
  { intros mask Em. eapply wp_mono; [apply interrupt_part; lia|]. intros sum' s2 [Hsum [u P2]].
    rewrite Em in Hf. split_and!; [lia|lia|done|]. exists (t ++ u). by eapply stage_trans. }
  destruct m as [r held| |mask]; cbn [notified failed orb] in *.
  - exists t. split; [done|]. by right.
  - split_and!; [lia|lia|done|by exists t].
  - by apply Hint.
Qed.

(** The run up to some point after the registers [a] and [b] were saved. *)
Record session s s' (a b : Z) (run : list io) : Prop := {
  session_trace : trace (lr_hw s') = trace (lr_hw s) ++ run;
  session_a : lr_config_a s' = a;
  session_b : lr_config_b s' = b;
  session_wait : alarm_wait s' = alarm_wait s && negb (alarmed false run);
}.
Lemma session_saved s s1 s2 t0 e1 ea va e2 eb vb : part s s1 t0 ->
  trace (lr_hw s2) = trace (lr_hw s1) ++ saving e1 ea va e2 eb vb ->
  lr_config_a s2 = saved (lr_config_a s1) ea va -> lr_config_b s2 = saved (lr_config_b s1) eb vb ->
  alarm_wait s2 = alarm_wait s1 ->
  session s s2 (saved (lr_config_a s) ea va) (saved (lr_config_b s) eb vb) (t0 ++ saving e1 ea va e2 eb vb).
Proof.
  intros [T1 A1 B1 W1] T2 A2 B2 W2. split; [by rewrite T2, T1, app_assoc|congruence..|].
  rewrite alarmed_app, negb_orb, andb_assoc, <- W1, W2. unfold alarmed. cbn. by rewrite andb_true_r.
Qed.
Lemma session_part s s1 s2 a b run t : session s s1 a b run -> part s1 s2 t -> session s s2 a b (run ++ t).
Proof.
  intros [T1 A1 B1 W1] [T2 A2 B2 W2]. split; [by rewrite T2, T1, app_assoc|congruence..|].
  by rewrite (W2 (selected false run)), W1, alarmed_app, negb_orb, andb_assoc.
Qed.

(** The end of the test. *)
Definition restoring (a b e3 e4 e5 e6 : Z) : list io :=
  [Out RTC_ADDR_REG RTC_REGISTER_A e3; Out RTC_DATA_REG a e4;
   Out RTC_ADDR_REG RTC_REGISTER_B e5; Out RTC_DATA_REG b e6].
Lemma reset_rtc_restores s (Q : Z -> L -> Prop) :
  (forall r s' e3 e4 e5 e6, trace (lr_hw s') = trace (lr_hw s) ++
     restoring (lr_config_a s) (lr_config_b s) e3 e4 e5 e6 -> Q r s') -> wp reset_rtc Q s.
Proof.
  intros H. unfold reset_rtc, lr_on_hw. wp_steps. apply wp_rtc_write_reg. intros e3 e4 d1. wp_steps.
  apply wp_rtc_write_reg. intros e5 e6 d2. eapply (H _ _ e3 e4 e5 e6). cbn. by rewrite <- app_assoc.
Qed.
Lemma leave_session s s1 a b run (fail : bool) : session s s1 a b run -> alarm_wait s1 = false \/ fail = true ->
  wp leave (fun r s' => exists t, match r with
    | None => False
    | Some err =>
        err <> OK /\ trace (lr_hw s') = trace (lr_hw s) ++ run ++ t \/
        err = OK /\ negb (alarm_wait s) || alarmed false (run ++ t) || fail = true /\
        exists e3 e4 e5 e6, trace (lr_hw s') = trace (lr_hw s) ++ (run ++ t) ++ restoring a b e3 e4 e5 e6
    end) s1.
Proof.
  intros Hs Hover. unfold leave. wp_step. apply unsubscribe_part. intros err s2 t P.
  pose proof (session_part _ _ _ _ _ _ _ Hs P) as [T A B W].
  destruct (Z.eqb_spec err OK) as [->|He]; cbn [negb].
  2: { wp_step. exists t. by left. }
  wp_step. apply reset_rtc_restores. intros r s' e3 e4 e5 e6 E. wp_step. exists t. right. split; [done|]. split.
  - destruct P as [_ _ _ W2]. rewrite (W2 false) in W. destruct Hover as [Ho | ->]; [|apply orb_true_r].
    rewrite Ho in W. by destruct (alarm_wait s), (alarmed false (run ++ t)).
  - exists e3, e4, e5, e6. by rewrite E, A, B, T, <- app_assoc.
Qed.

(** C38: what a run of the clock's test does to the clock.  Registers A and B
    are saved before the interrupts are enabled, and when the test returns OK
    its last four accesses restore them to the values read (a register that
    could not be read gets what its static held before).  It returns OK only
    if the wait was over: an alarm was announced in register C, before or
    after the alarm was set, a message could not be received, or the flag was
    still clear from an earlier run, as nothing sets it again.  It waits
    exactly as long as none of this has happened.  Any other result means
    that a (un)subscription failed, and then nothing is restored. *)
Theorem clock_session msgs s : alen msgs <= INT_MAX ->
  wp (rtc_test_int msgs) (fun r s' => exists t0 e1 ea va e2 eb vb t,
    let a := saved (lr_config_a s) ea va in
    let b := saved (lr_config_b s) eb vb in
    let run := (t0 ++ saving e1 ea va e2 eb vb) ++ t in
    let over := negb (alarm_wait s) || alarmed false run || existsb failed msgs in
    match r with
    | None => over = false /\ trace (lr_hw s') = trace (lr_hw s) ++ run
    | Some err =>
        err <> OK /\ trace (lr_hw s') = trace (lr_hw s) ++ run \/
        err = OK /\ over = true /\ exists e3 e4 e5 e6, trace (lr_hw s') = trace (lr_hw s) ++ run ++
          restoring a b e3 e4 e5 e6
    end) s.
Proof.
  intros Hl. unfold rtc_test_int. wp_step. eapply wp_mono; [apply rtc_ih_part|]. intros _ s1 [t0 P1].
  wp_step. apply init_rtc_vars_saves. intros r s2 e1 ea va e2 eb vb Ht2 Ha2 Hb2 Hw2.
  pose proof (session_saved _ _ _ _ _ _ _ _ _ _ P1 Ht2 Ha2 Hb2 Hw2) as S2.
  wp_step. eapply on_hw_part; [apply b_update_quiet|]. intros _ s3 t3 P3.
  wp_step. eapply on_hw_part; [apply b_update_quiet|]. intros _ s4 t4 P4.
  wp_step. eapply on_hw_part; [apply set_alarm_quiet|]. intros _ s5 t5 P5.
  wp_step. apply subscribe_part. intros err s6 t6 P6.
  pose proof (stage_trans _ _ _ _ _ P3 (stage_trans _ _ _ _ _ P4 (stage_trans _ _ _ _ _ P5 P6))) as P.
  destruct (Z.eqb_spec err OK) as [->|He]; cbn [negb].
  2: { wp_step. exists t0, e1, ea, va, e2, eb, vb, (t3 ++ t4 ++ t5 ++ t6). left. split; [done|].
       by apply (session_part _ _ _ _ _ _ _ S2 P). }
  wp_step. eapply wp_mono; [by apply waiting_loop|]. intros e s7 [t7 [P7 Hover]].
  pose proof (session_part _ _ _ _ _ _ _ S2 (stage_trans _ _ _ _ _ P P7)) as S7.
  destruct e.
  3: { wp_step. eexists t0, e1, ea, va, e2, eb, vb, _. destruct S7 as [T _ _ W], Hover as [Ho ->]. split; [|exact T].
       rewrite Ho in W. by destruct (alarm_wait s), (alarmed _ _). }
  1,2: eapply wp_mono; [by eapply leave_session|]; intros o s' [t Ho];
    exists t0, e1, ea, va, e2, eb, vb, (((t3 ++ t4 ++ t5 ++ t6) ++ t7) ++ t);
    rewrite (app_assoc (t0 ++ _) _ t); destruct o; [exact Ho|done].
Qed.
End Runs.

(** A clock whose registers A and B hold 0x26 and 2.  The first interrupt
    announces an update that is still in progress, the second the alarm. *)
Definition lab_clock : script := mk_script
  [(0, 0); (0, 0x26); (0, 2); (0, 2); (0, 0x12); (0, 0x10); (0, 0x90); (0, 0x20)] [].
Definition labrtc_start : labrtc script := mk_labrtc (mk_hw lab_clock []) 0 0 0 true [].
Lemma clock_session_witness :
  alen (replicate 3 (Interrupts (BIT RTC_IRQ))) <= INT_MAX /\
  wp (rtc_test_int (replicate 3 (Interrupts (BIT RTC_IRQ)))) (fun r s' => r = Some OK /\ exists run e3 e4 e5 e6,
    alarmed false run = true /\ trace (lr_hw s') = run ++ restoring 0x26 2 e3 e4 e5 e6) labrtc_start.
Proof.
  assert (alen (replicate 3 (Interrupts (BIT RTC_IRQ))) <= INT_MAX) as Hl by (vm_compute; discriminate).
  split; [exact Hl|].
  pose proof (clock_session (replicate 3 (Interrupts (BIT RTC_IRQ))) labrtc_start Hl) as H.
  apply (proj1 (wp_Done _ _ _)) in H as (r & s' & E & H). apply (proj2 (wp_Done _ _ _)). exists r, s'. split; [exact E|].
  vm_compute in E. injection E as <- <-. split; [reflexivity|].
  destruct H as (t0 & e1 & ea & va & e2 & eb & vb & t & [[H _]|(_ & Hover & e3 & e4 & e5 & e6 & Ht)]); [by destruct H|].
  cbn [alarm_wait labrtc_start negb orb] in Hover. rewrite orb_false_r in Hover.
  eexists _, e3, e4, e5, e6. split; [exact Hover|]. cbn [trace lr_hw labrtc_start app] in Ht.
  pose proof Ht as Ht'. match type of Ht with ?l = _ => change l with (take (length l - 4) l ++ drop (length l - 4) l) in Ht end.
  rewrite Ht'. f_equal. apply app_inj_2 in Ht as [_ Hr]; [|reflexivity]. rewrite <- Hr at 1. cbn in Hr.
  by injection Hr as -> -> -> -> -> ->.
Defined.
